(** * A shallow embedding of markdown.cpp (Markdown subset translator)

    The translator is a three pass pipeline: [split_lines] cuts the input
    buffer into line tokens and collects reference definitions,
    [parse_block] brackets blocks with start/end markers, and [print_block]
    writes the result, running [parse_inline] / [print_inline] on every run
    of INLINE tokens.

    Modelling conventions.
    - A [std::wstring] is a list of code points ([Z]).
    - A [std::wstring::const_iterator] is a string together with an index;
      reading outside the string yields 0.
    - A [std::deque<token_type>] is a list, a deque iterator an index into
      it; [push_back] appends at the right.
    - A [std::wostream] is the list of code points written so far.
    - [for] loops that advance by one step up to a bound are structural
      recursions on the distance to the bound.  Every other loop and every
      recursion of the source consumes fuel and returns [None] when the
      fuel runs out; nothing is assumed about termination. *)

From Stdlib Require Import ZArith List Bool Lia Ascii String.
Import ListNotations.
Open Scope Z_scope.

Set Implicit Arguments.

(** ** Characters and strings *)

Definition wchar := Z.
Definition wstring := list wchar.

Definition ch (a : ascii) : wchar := Z.of_N (N_of_ascii a).
Arguments ch a%_char.

Fixpoint L (s : string) : wstring :=
  match s with
  | EmptyString => []
  | String a r => ch a :: L r
  end.
Arguments L s%_string.

Definition NL : wchar := 10.
Definition TAB : wchar := 9.
Definition DQUOTE : wchar := 34.
Definition SQUOTE : wchar := 39.

Definition wfind (c : wchar) (s : wstring) : bool := existsb (Z.eqb c) s.

Definition ismdescapable (c : wchar) : bool := wfind c (L "\`*_{}[]()<>#+-.!").

Definition ismdwhite (c : wchar) : bool :=
  (NL =? c) || (TAB =? c) || (ch " " =? c).

Definition ismdspace (c : wchar) : bool := (TAB =? c) || (ch " " =? c).

Definition ismdgraph (c : wchar) : bool := (ch " " <? c) && negb (127 =? c).

Definition ismdprint (c : wchar) : bool :=
  (TAB =? c) || ((ch " " <=? c) && negb (127 =? c)).

Definition ismdany (c : wchar) : bool :=
  (NL =? c) || (TAB =? c) || ((ch " " <=? c) && negb (127 =? c)).

Definition ismddigit (c : wchar) : bool := (ch "0" <=? c) && (c <=? ch "9").

Definition ismdxdigit (c : wchar) : bool :=
  ((ch "A" <=? c) && (c <=? ch "F")) || ((ch "a" <=? c) && (c <=? ch "f"))
  || ismddigit c.

Definition ismdalnum (c : wchar) : bool :=
  ((ch "A" <=? c) && (c <=? ch "Z")) || ((ch "a" <=? c) && (c <=? ch "z"))
  || ismddigit c.

Definition ishtname (c : wchar) : bool :=
  ismdalnum c || (ch "-" =? c) || (ch "_" =? c) || (ch ":" =? c).

Definition ishtattr (c : wchar) : bool :=
  (ch " " <? c) && negb (ch "<" =? c) && negb (ch ">" =? c)
  && negb (DQUOTE =? c) && negb (SQUOTE =? c) && negb (ch "`" =? c).

(** ** Iterators *)

Record char_iterator := Iter { str : wstring; idx : Z }.

Definition at_index (s : wstring) (i : Z) : wchar :=
  if i <? 0 then 0 else nth (Z.to_nat i) s 0.

Definition deref (p : char_iterator) : wchar := at_index (str p) (idx p).

Definition iadd (p : char_iterator) (n : Z) : char_iterator :=
  Iter (str p) (idx p + n).

Definition ilt (p q : char_iterator) : bool := idx p <? idx q.
Definition ile (p q : char_iterator) : bool := idx p <=? idx q.
Definition ieq (p q : char_iterator) : bool := idx p =? idx q.
Definition idiff (p q : char_iterator) : Z := idx p - idx q.

Declare Scope iter_scope.
Delimit Scope iter_scope with iter.
Infix "+!" := iadd (at level 50, left associativity).
Infix "<!" := ilt (at level 70).
Infix "<=!" := ile (at level 70).
Infix "==!" := ieq (at level 70).
Infix "-!" := idiff (at level 50, left associativity).

Definition cbegin_of (s : wstring) : char_iterator := Iter s 0.
Definition cend_of (s : wstring) : char_iterator := Iter s (Z.of_nat (List.length s)).

(** [p[k]] *)
Definition peek (p : char_iterator) (k : Z) : wchar := deref (p +! k).

(** The characters of the half open range [[b, e)]. *)
Definition slice (b e : char_iterator) : wstring :=
  firstn (Z.to_nat (idx e - idx b)) (skipn (Z.to_nat (idx b)) (str b)).

(** Number of loop steps left before [p] reaches [eos]. *)
Definition dist (p eos : char_iterator) : nat := Z.to_nat (idx eos - idx p).

(** ** Scanners *)

(** scan /$c{n1,n2}/ from pos to eos.  [k] is the distance from [p] to
    [eos], so [k = 0] is the test [p < eos] failing. *)
Fixpoint scan_of_loop (k : nat) (predicate : wchar -> bool)
    (pos p : char_iterator) (i n1 n2 : Z) : char_iterator :=
  if (n2 <? 0) || (i <? n2) then
    match k with
    | S k' =>
        if predicate (deref p)
        then scan_of_loop k' predicate pos (p +! 1) (i + 1) n1 n2
        else if i <? n1 then pos else p
    | O => if i <? n1 then pos else p
    end
  else p.

Definition scan_of_pred (pos eos : char_iterator) (n1 n2 : Z)
    (predicate : wchar -> bool) : char_iterator :=
  scan_of_loop (dist pos eos) predicate pos pos 0 n1 n2.

Definition scan_of (pos eos : char_iterator) (n1 n2 : Z) (c : wchar)
    : char_iterator :=
  scan_of_pred pos eos n1 n2 (Z.eqb c).

(** reverse scan *)
Fixpoint rscan_of_loop (k : nat) (predicate : wchar -> bool)
    (p : char_iterator) : char_iterator :=
  match k with
  | S k' =>
      if predicate (peek p (-1))
      then rscan_of_loop k' predicate (p +! (-1))
      else p
  | O => p
  end.

Definition rscan_of_pred (bos pos : char_iterator)
    (predicate : wchar -> bool) : char_iterator :=
  rscan_of_loop (dist bos pos) predicate pos.

Definition rscan_of (bos pos : char_iterator) (c : wchar) : char_iterator :=
  rscan_of_pred bos pos (Z.eqb c).

(** [std::find (first, last, v)] *)
Fixpoint find_loop (k : nat) (predicate : wchar -> bool) (p : char_iterator)
    : char_iterator :=
  match k with
  | S k' => if predicate (deref p) then p else find_loop k' predicate (p +! 1)
  | O => p
  end.

Definition std_find (first last : char_iterator) (v : wchar) : char_iterator :=
  find_loop (dist first last) (Z.eqb v) first.

(** [std::find_first_of (first, last, set)] *)
Definition std_find_first_of (first last : char_iterator) (cs : wstring)
    : char_iterator :=
  find_loop (dist first last) (fun c => wfind c cs) first.

(** Does [pat] occur at [p], wholly before [last]? *)
Fixpoint match_at (pat : wstring) (p last : char_iterator) : bool :=
  match pat with
  | [] => true
  | c :: pat' => (p <! last) && (deref p =? c) && match_at pat' (p +! 1) last
  end.

(** [std::search (first, last, pat)]: first occurrence, or [last]. *)
Fixpoint search_loop (k : nat) (pat : wstring) (p last : char_iterator)
    : char_iterator :=
  if match_at pat p last then p
  else match k with
       | S k' => search_loop k' pat (p +! 1) last
       | O => last
       end.

Definition std_search (first last : char_iterator) (pat : wstring)
    : char_iterator :=
  search_loop (dist first last) pat first last.

(** Fuel and failure. *)
Notation "x <- e ;; k" :=
  (match e with Some x => k | None => None end)
  (at level 61, e at next level, right associativity).
Notation "' p <- e ;; k" :=
  (match e with Some p => k | None => None end)
  (at level 61, p pattern, e at next level, right associativity).

(** scan quoted string "abc", or [abc], or (abc). may be nested and escaped *)
Fixpoint scan_quoted (fuel : nat) (pos eos : char_iterator)
    (lquote rquote escape : wchar) (predicate : wchar -> bool)
    : option char_iterator :=
  match fuel with
  | O => None
  | S fuel' =>
      if negb ((pos <! eos) && (lquote =? deref pos)) then Some pos
      else scan_quoted_while fuel' pos eos lquote rquote escape predicate
             (pos +! 1) 1
  end
with scan_quoted_while (fuel : nat) (pos eos : char_iterator)
    (lquote rquote escape : wchar) (predicate : wchar -> bool)
    (p : char_iterator) (level : Z) : option char_iterator :=
  match fuel with
  | O => None
  | S fuel' =>
      if level >? 0 then
        if negb ((p <! eos) && predicate (deref p)) then Some pos
        else if (escape =? deref p) && (p +! 1 <! eos)
                && ((escape =? peek p 1) || (rquote =? peek p 1)
                    || (lquote =? peek p 1))
        then scan_quoted_while fuel' pos eos lquote rquote escape predicate
               (p +! 1 +! 1) level
        else if (lquote =? ch "(") && (ch "<" =? deref p)
        then q <- scan_quoted fuel' p eos (ch "<") (ch ">") escape predicate ;;
             scan_quoted_while fuel' pos eos lquote rquote escape predicate
               (q +! (-1) +! 1) level
        else if rquote =? deref p
        then scan_quoted_while fuel' pos eos lquote rquote escape predicate
               (p +! 1) (level - 1)
        else if lquote =? deref p
        then scan_quoted_while fuel' pos eos lquote rquote escape predicate
               (p +! 1) (level + 1)
        else scan_quoted_while fuel' pos eos lquote rquote escape predicate
               (p +! 1) level
      else Some p
  end.

(** decode reference style link id *)
Fixpoint decode_linkid_loop (k : nat) (s eos : char_iterator) (id : wstring)
    : wstring :=
  match k with
  | O => id
  | S k' =>
      if negb (s <! eos) then id
      else if (ch "A" <=? deref s) && (deref s <=? ch "Z")
      then decode_linkid_loop k' (s +! 1) eos
             (id ++ [deref s + (ch "a" - ch "A")])
      else if (ch "\" =? deref s) && (s +! 1 <! eos)
              && ismdescapable (peek s 1)
      then decode_linkid_loop k' (s +! 1 +! 1) eos (id ++ [peek s 1])
      else if ismdwhite (deref s)
      then let s' := scan_of_pred s eos 0 (-1) ismdwhite in
           decode_linkid_loop k' (s' +! (-1) +! 1) eos (id ++ [ch " "])
      else decode_linkid_loop k' (s +! 1) eos (id ++ [deref s])
  end.

Definition decode_linkid (s eos : char_iterator) : wstring :=
  decode_linkid_loop (dist s eos) s eos [].

(** unescape backslash *)
Fixpoint unescape_backslash_loop (k : nat) (s eos : char_iterator)
    (acc : wstring) : wstring :=
  match k with
  | O => acc
  | S k' =>
      if negb (s <! eos) then acc
      else if (ch "\" =? deref s) && (s +! 1 <! eos)
              && ismdescapable (peek s 1)
      then unescape_backslash_loop k' (s +! 1 +! 1) eos (acc ++ [peek s 1])
      else unescape_backslash_loop k' (s +! 1) eos (acc ++ [deref s])
  end.

Definition unescape_backslash (s eos : char_iterator) : wstring :=
  unescape_backslash_loop (dist s eos) s eos [].

(** ** Tokens *)

(** token kinds, in the order of the source's enum *)
Inductive kind_type :=
  | BLANK | LINE | HTML | CODE | TEXT | INLINE | LINKID | URI
  (* inline HTML markup *)
  | SABEGIN | TITLE | SAEND
  | IMGBEGIN | ALT | IMGEND
  | BREAK | SCODE | ECODE | EA
  | SEM | EEM | SSTRONG | ESTRONG
  (* block HTML markup *)
  | HRULE
  | SPRE | EPRE
  | SHEADING1 | EHEADING1
  | SHEADING2 | EHEADING2
  | SHEADING3 | EHEADING3
  | SHEADING4 | EHEADING4
  | SHEADING5 | EHEADING5
  | SHEADING6 | EHEADING6
  | SBLOCKQUOTE | EBLOCKQUOTE
  | SULIST | EULIST
  | SOLIST | EOLIST
  | SLITEM | ELITEM
  | SPARAGRAPH | EPARAGRAPH.

(** the integer value of an enumerator *)
Definition kind_code (k : kind_type) : Z :=
  match k with
  | BLANK => 0 | LINE => 1 | HTML => 2 | CODE => 3 | TEXT => 4 | INLINE => 5
  | LINKID => 6 | URI => 7
  | SABEGIN => 8 | TITLE => 9 | SAEND => 10
  | IMGBEGIN => 11 | ALT => 12 | IMGEND => 13
  | BREAK => 14 | SCODE => 15 | ECODE => 16 | EA => 17
  | SEM => 18 | EEM => 19 | SSTRONG => 20 | ESTRONG => 21
  | HRULE => 22
  | SPRE => 23 | EPRE => 24
  | SHEADING1 => 25 | EHEADING1 => 26
  | SHEADING2 => 27 | EHEADING2 => 28
  | SHEADING3 => 29 | EHEADING3 => 30
  | SHEADING4 => 31 | EHEADING4 => 32
  | SHEADING5 => 33 | EHEADING5 => 34
  | SHEADING6 => 35 | EHEADING6 => 36
  | SBLOCKQUOTE => 37 | EBLOCKQUOTE => 38
  | SULIST => 39 | EULIST => 40
  | SOLIST => 41 | EOLIST => 42
  | SLITEM => 43 | ELITEM => 44
  | SPARAGRAPH => 45 | EPARAGRAPH => 46
  end.

Definition kind_eqb (a b : kind_type) : bool := kind_code a =? kind_code b.
Definition kind_leb (a b : kind_type) : bool := kind_code a <=? kind_code b.

Definition kindname (k : kind_type) : wstring :=
  match k with
  | BLANK => L "BLANK"
  | LINE => L "LINE"
  | HTML => L "HTML"
  | CODE => L "CODE"
  | TEXT => L "TEXT"
  | INLINE => L "INLINE"
  | LINKID => L "LINKID"
  | URI => L "URI"
  | SABEGIN => L "<a href=" ++ [DQUOTE]
  | TITLE => [DQUOTE] ++ L " title=" ++ [DQUOTE]
  | SAEND => [DQUOTE] ++ L ">"
  | IMGBEGIN => L "<img src=" ++ [DQUOTE]
  | ALT => [DQUOTE] ++ L " alt=" ++ [DQUOTE]
  | IMGEND => [DQUOTE] ++ L " />"
  | BREAK => L "<br />" ++ [NL]
  | SCODE => L "<code>"
  | ECODE => L "</code>"
  | EA => L "</a>"
  | SEM => L "<em>"
  | EEM => L "</em>"
  | SSTRONG => L "<strong>"
  | ESTRONG => L "</strong>"
  | HRULE => L "<hr />" ++ [NL]
  | SPRE => L "<pre><code>"
  | EPRE => L "</code></pre>" ++ [NL]
  | SHEADING1 => L "<h1>" | EHEADING1 => L "</h1>" ++ [NL]
  | SHEADING2 => L "<h2>" | EHEADING2 => L "</h2>" ++ [NL]
  | SHEADING3 => L "<h3>" | EHEADING3 => L "</h3>" ++ [NL]
  | SHEADING4 => L "<h4>" | EHEADING4 => L "</h4>" ++ [NL]
  | SHEADING5 => L "<h5>" | EHEADING5 => L "</h5>" ++ [NL]
  | SHEADING6 => L "<h6>" | EHEADING6 => L "</h6>" ++ [NL]
  | SBLOCKQUOTE => L "<blockquote>" ++ [NL]
  | EBLOCKQUOTE => L "</blockquote>" ++ [NL]
  | SULIST => L "<ul>" ++ [NL] | EULIST => L "</ul>" ++ [NL]
  | SOLIST => L "<ol>" ++ [NL] | EOLIST => L "</ol>" ++ [NL]
  | SLITEM => L "<li>" | ELITEM => L "</li>" ++ [NL]
  | SPARAGRAPH => L "<p>" | EPARAGRAPH => L "</p>" ++ [NL]
  end.

Record token_type := Token {
  kind : kind_type;
  cbegin : char_iterator;
  cend : char_iterator
}.

Record reflink_type := Reflink {
  id : wstring;
  uri : wstring;
  title : wstring
}.

Record nest_type := Nest {
  pos : nat;
  n : Z
}.

Definition tokens := list token_type.

Definition push_back {A : Type} (q : list A) (x : A) : list A := q ++ [x].

(** [std::map<std::wstring, reflink_type>]: an association list with one
    binding per key; [dict[k] = v] replaces the binding of [k]. *)
Definition refdict_type := list (wstring * reflink_type).

Fixpoint wstring_eqb (a b : wstring) : bool :=
  match a, b with
  | [], [] => true
  | x :: a', y :: b' => (x =? y) && wstring_eqb a' b'
  | _, _ => false
  end.

Fixpoint dict_find (dict : refdict_type) (key : wstring) : option reflink_type :=
  match dict with
  | [] => None
  | (k, v) :: rest => if wstring_eqb k key then Some v else dict_find rest key
  end.

Fixpoint dict_assign (dict : refdict_type) (key : wstring) (v : reflink_type)
    : refdict_type :=
  match dict with
  | [] => [(key, v)]
  | (k, v') :: rest =>
      if wstring_eqb k key then (k, v) :: rest
      else (k, v') :: dict_assign rest key v
  end.

(** ** parse_block - BLOCK parser *)

(** four columns tab *)
Definition scan_tab (pos eos : char_iterator) : char_iterator :=
  let p1 := scan_of pos eos 0 3 (ch " ") in
  let p2 := scan_of p1 eos 1 1 (ch " ") in
  let p3 := scan_of p1 eos 1 1 TAB in
  if p2 -! pos =? 4 then p2 else if p1 <! p3 then p3 else pos.

(** not tab *)
Definition scan_tab_not (pos eos : char_iterator) : char_iterator :=
  scan_of pos eos 0 3 (ch " ").

Fixpoint scan_hrule_loop (k : nat) (dash : wchar) (p1 : char_iterator) (n : Z)
    : char_iterator * Z :=
  match k with
  | S k' =>
      if ismdspace (deref p1) || (dash =? deref p1)
      then scan_hrule_loop k' dash (p1 +! 1)
             (if dash =? deref p1 then n + 1 else n)
      else (p1, n)
  | O => (p1, n)
  end.

Definition scan_hrule (pos eos : char_iterator) : char_iterator :=
  let p1 := scan_tab_not pos eos in
  if negb ((p1 <! eos)
           && ((ch "*" =? deref p1) || (ch "_" =? deref p1)
               || (ch "-" =? deref p1)))
  then pos
  else
    let dash := deref p1 in
    let '(p1, n) := scan_hrule_loop (dist p1 eos) dash p1 0 in
    if (n <? 3) || negb ((eos <=! p1) || (NL =? deref p1)) then pos else p1.

Definition scan_listmark (pos eos : char_iterator) : char_iterator :=
  let p1 := scan_tab_not pos eos in
  if eos <=! p1 then pos
  else if (ch "*" =? deref p1) || (ch "+" =? deref p1) || (ch "-" =? deref p1)
  then
    let p2 := p1 +! 1 in
    let p3 := scan_of_pred p2 eos 1 1 ismdspace in
    if p2 <! p3 then p2 else pos
  else if ismddigit (deref p1) then
    let p2 := scan_of_pred p1 eos 1 (-1) ismddigit in
    let p3 := scan_of p2 eos 1 1 (ch ".") in
    let p4 := scan_of_pred p3 eos 1 1 ismdspace in
    if (p2 <! p3) && (p3 <! p4) then p3 else pos
  else pos.

Definition line_iterator := Z.

Definition dol_of (input : tokens) : line_iterator :=
  Z.of_nat (List.length input).

Section BlockParser.

(** What a read through a deque iterator equal to [end ()] yields.  The
    source performs such reads when it closes a block at the end of the
    input; the value is left unspecified here. *)
Variable past_end : token_type.

Definition tok (input : tokens) (i : line_iterator) : token_type :=
  if i <? 0 then past_end else nth (Z.to_nat i) input past_end.

(** [for (; line1 != dol && K == line1->kind; ++line1)] *)
Fixpoint skip_kind (k : nat) (K : kind_type) (input : tokens)
    (line1 : line_iterator) : line_iterator :=
  match k with
  | S k' =>
      if kind_eqb K (kind (tok input line1))
      then skip_kind k' K input (line1 + 1)
      else line1
  | O => line1
  end.

Definition parse_blank (input : tokens) (dot dol : line_iterator)
    : line_iterator :=
  skip_kind (Z.to_nat (dol - dot)) BLANK input dot.

Definition parse_hrule (input : tokens) (dot dol : line_iterator)
    (output : tokens) : line_iterator * tokens :=
  let t := tok input dot in
  let p1 := scan_hrule (cbegin t) (cend t) in
  if p1 ==! cbegin t then (dot, output)
  else (dot + 1, push_back output (Token HRULE (cbegin t) (cend t))).

Definition parse_seheading (input : tokens) (dot dol : line_iterator)
    (output : tokens) : line_iterator * tokens :=
  let line2 := dot + 1 in
  if line2 =? dol then (dot, output) else
  let t := tok input dot in
  let t2 := tok input line2 in
  let p1 := scan_tab_not (cbegin t) (cend t) in
  if negb ((p1 <! cend t) && ismdgraph (deref p1)) then (dot, output) else
  let p2 := scan_tab_not (cbegin t2) (cend t2) in
  if negb ((p2 <! cend t2) && ((ch "=" =? deref p2) || (ch "-" =? deref p2)))
  then (dot, output) else
  let dash := deref p2 in
  let p3 := scan_of p2 (cend t2) 0 (-1) dash in
  let p4 := scan_of_pred p3 (cend t2) 0 (-1) ismdspace in
  if negb ((cend t2 <=! p4) || (NL =? deref p4)) then (dot, output) else
  let stag := if ch "=" =? dash then SHEADING1 else SHEADING2 in
  let etag := if ch "=" =? dash then EHEADING1 else EHEADING2 in
  let output := push_back output (Token stag p1 p1) in
  let output := push_back output (Token INLINE p1 (cend t)) in
  let output := push_back output (Token etag (cend t) (cend t)) in
  (line2 + 1, output).

Definition stag (n : Z) : kind_type :=
  match n with
  | 1 => SHEADING1 | 2 => SHEADING2 | 3 => SHEADING3
  | 4 => SHEADING4 | 5 => SHEADING5 | _ => SHEADING6
  end.

Definition etag (n : Z) : kind_type :=
  match n with
  | 1 => EHEADING1 | 2 => EHEADING2 | 3 => EHEADING3
  | 4 => EHEADING4 | 5 => EHEADING5 | _ => EHEADING6
  end.

Definition parse_atxheading (input : tokens) (dot dol : line_iterator)
    (output : tokens) : line_iterator * tokens :=
  let t := tok input dot in
  let p1 := scan_tab_not (cbegin t) (cend t) in
  let p2 := scan_of p1 (cend t) 1 (-1) (ch "#") in
  if p2 ==! p1 then (dot, output) else
  let n := if p2 -! p1 >? 6 then 6 else p2 -! p1 in
  let p3 := scan_of_pred p2 (cend t) 0 (-1) ismdspace in
  let p4 := cend t in
  let p4 := rscan_of_pred p3 p4 ismdwhite in
  let p4 := rscan_of p3 p4 (ch "#") in
  let p4 := rscan_of_pred p3 p4 ismdspace in
  if p3 ==! p4 then (dot, output) else
  let output := push_back output (Token (stag n) p3 p3) in
  let output := push_back output (Token INLINE p3 p4) in
  let output := push_back output (Token (etag n) p4 p4) in
  (dot + 1, output).

Fixpoint parse_listitem_loop (k : nat) (input : tokens)
    (line1 : line_iterator) (output : tokens) : line_iterator * tokens :=
  match k with
  | S k' =>
      let t1 := tok input line1 in
      if kind_eqb LINE (kind t1) then
        let p2 := scan_listmark (cbegin t1) (cend t1) in
        if negb (p2 ==! cbegin t1) then (line1, output)
        else parse_listitem_loop k' input (line1 + 1)
               (push_back output (Token INLINE (cbegin t1) (cend t1)))
      else (line1, output)
  | O => (line1, output)
  end.

Definition parse_listitem (input : tokens) (dot dol : line_iterator)
    (output : tokens) : line_iterator * tokens :=
  let t := tok input dot in
  let p1 := scan_tab_not (cbegin t) (cend t) in
  if negb ((p1 <! cend t) && ismdgraph (deref p1)) then (dot, output) else
  let output := push_back output (Token INLINE p1 (cend t)) in
  let line1 := dot + 1 in
  parse_listitem_loop (Z.to_nat (dol - line1)) input line1 output.

Fixpoint parse_paragraph_loop (k : nat) (input : tokens)
    (line1 : line_iterator) (output : tokens) : line_iterator * tokens :=
  match k with
  | S k' =>
      let t1 := tok input line1 in
      if kind_eqb LINE (kind t1)
      then parse_paragraph_loop k' input (line1 + 1)
             (push_back output (Token INLINE (cbegin t1) (cend t1)))
      else (line1, output)
  | O => (line1, output)
  end.

Definition parse_paragraph (input : tokens) (dot dol : line_iterator)
    (output : tokens) : line_iterator * tokens :=
  let t := tok input dot in
  let p1 := scan_tab_not (cbegin t) (cend t) in
  if negb ((p1 <! cend t) && ismdgraph (deref p1)) then (dot, output) else
  let output := push_back output (Token SPARAGRAPH p1 p1) in
  let output := push_back output (Token INLINE p1 (cend t)) in
  let line1 := dot + 1 in
  let '(line1, output) :=
    parse_paragraph_loop (Z.to_nat (dol - line1)) input line1 output in
  let e := tok input line1 in
  (line1, push_back output (Token EPARAGRAPH (cbegin e) (cbegin e))).

Definition parse_tabcode_line (input : tokens) (dot dol : line_iterator)
    (output : tokens) : line_iterator * tokens :=
  let t := tok input dot in
  let p := scan_tab (cbegin t) (cend t) in
  if p ==! cbegin t then (dot, output)
  else (dot + 1, push_back output (Token CODE p (cend t))).

(** [for (line1 = dot; line1 != line2; ++line1) push (f *line1)] *)
Fixpoint copy_lines (k : nat) (f : token_type -> token_type) (input : tokens)
    (line1 : line_iterator) (output : tokens) : tokens :=
  match k with
  | S k' =>
      copy_lines k' f input (line1 + 1) (push_back output (f (tok input line1)))
  | O => output
  end.

Definition parse_tabcode_blank (input : tokens) (dot dol : line_iterator)
    (output : tokens) : line_iterator * tokens :=
  let line2 := parse_blank input dot dol in
  let t2 := tok input line2 in
  if negb (negb (line2 =? dol) && kind_eqb LINE (kind t2)) then (dot, output)
  else
    let p2 := scan_tab (cbegin t2) (cend t2) in
    if p2 ==! cbegin t2 then (dot, output)
    else (line2,
          copy_lines (Z.to_nat (line2 - dot))
            (fun t => Token CODE (cbegin t) (cend t)) input dot output).

Fixpoint parse_tabcode_while (fuel : nat) (input : tokens)
    (line1 dol : line_iterator) (output : tokens)
    : option (line_iterator * tokens) :=
  match fuel with
  | O => None
  | S fuel' =>
      if negb (line1 =? dol) then
        let t1 := tok input line1 in
        let '(line2, output) :=
          if kind_eqb LINE (kind t1)
          then parse_tabcode_line input line1 dol output
          else if kind_eqb BLANK (kind t1)
          then parse_tabcode_blank input line1 dol output
          else (line1, output) in
        if line2 =? line1 then Some (line1, output)
        else parse_tabcode_while fuel' input line2 dol output
      else Some (line1, output)
  end.

Definition parse_tabcode (fuel : nat) (input : tokens)
    (dot dol : line_iterator) (output : tokens)
    : option (line_iterator * tokens) :=
  let t := tok input dot in
  let p1 := scan_tab (cbegin t) (cend t) in
  if p1 ==! cbegin t then Some (dot, output) else
  let output := push_back output (Token SPRE p1 p1) in
  let output := push_back output (Token CODE p1 (cend t)) in
  '(line1, output) <- parse_tabcode_while fuel input (dot + 1) dol output ;;
  let e := tok input line1 in
  Some (line1, push_back output (Token EPRE (cend e) (cend e))).

Definition parse_blockquote_line (input : tokens) (dot dol : line_iterator)
    (block : tokens) (lazyline : bool) : line_iterator * tokens * bool :=
  let t := tok input dot in
  let p1 := scan_tab_not (cbegin t) (cend t) in
  let p2 := scan_of p1 (cend t) 0 1 (ch ">") in
  let p3 := scan_of p2 (cend t) 0 1 (ch " ") in
  let p4 := scan_of_pred p3 (cend t) 0 (-1) ismdspace in
  let block :=
    if (cend t <=! p4) || (NL =? deref p4)
    then push_back block (Token BLANK p4 (cend t))
    else
      let block :=
        if lazyline && negb (p1 ==! p2)
        then push_back block (Token BLANK p3 p3)
        else block in
      push_back block (Token LINE p3 (cend t)) in
  (dot + 1, block, p1 ==! p2).

Definition parse_blockquote_blank (input : tokens) (dot dol : line_iterator)
    (block : tokens) (lazyline : bool) : line_iterator * tokens * bool :=
  let line2 := parse_blank input dot dol in
  let t2 := tok input line2 in
  if negb (negb (line2 =? dol) && kind_eqb LINE (kind t2))
  then (dot, block, lazyline)
  else
    let p1 := scan_tab_not (cbegin t2) (cend t2) in
    let p2 := scan_of p1 (cend t2) 1 1 (ch ">") in
    if p1 ==! p2 then (dot, block, lazyline)
    else (line2,
          copy_lines (Z.to_nat (line2 - dot)) (fun t => t) input dot block,
          false).

Fixpoint parse_blockquote_while (fuel : nat) (input : tokens)
    (line1 dol : line_iterator) (block : tokens) (lazyline : bool)
    : option (line_iterator * tokens) :=
  match fuel with
  | O => None
  | S fuel' =>
      if negb (line1 =? dol) then
        let t1 := tok input line1 in
        let '(line2, block, lazyline) :=
          if kind_eqb LINE (kind t1)
          then parse_blockquote_line input line1 dol block lazyline
          else if kind_eqb BLANK (kind t1)
          then parse_blockquote_blank input line1 dol block lazyline
          else (line1, block, lazyline) in
        if line2 =? line1 then Some (line1, block)
        else parse_blockquote_while fuel' input line2 dol block lazyline
      else Some (line1, block)
  end.

(** [parse_block] is passed in: it is the recursive call of the block
    parser on the collected block. *)
Definition parse_blockquote
    (parse_block : tokens -> tokens -> option tokens) (fuel : nat)
    (input : tokens) (dot dol : line_iterator) (output : tokens)
    : option (line_iterator * tokens) :=
  let t := tok input dot in
  let p1 := scan_tab_not (cbegin t) (cend t) in
  let p2 := scan_of p1 (cend t) 1 1 (ch ">") in
  if p1 ==! p2 then Some (dot, output) else
  let block := push_back [] (Token SBLOCKQUOTE p2 p2) in
  '(line1, block) <- parse_blockquote_while fuel input dot dol block false ;;
  let e := tok input line1 in
  let block := push_back block (Token EBLOCKQUOTE (cend e) (cend e)) in
  output <- parse_block block output ;;
  Some (line1, output).

Definition parse_list_line (input : tokens) (dot dol : line_iterator)
    (block : tokens) (indicator : wchar) : line_iterator * tokens :=
  let t := tok input dot in
  let p1 := scan_listmark (cbegin t) (cend t) in
  if p1 ==! cbegin t then
    let p2 := scan_tab (cbegin t) (cend t) in
    (dot + 1, push_back block (Token LINE p2 (cend t)))
  else
    let p2 := scan_of_pred p1 (cend t) 1 (-1) ismdspace in
    let block := push_back block (Token ELITEM p2 p2) in
    let block := push_back block (Token SLITEM p2 p2) in
    (dot + 1, push_back block (Token LINE p2 (cend t))).

Definition parse_list_blank (input : tokens) (dot dol : line_iterator)
    (block : tokens) (indicator : wchar) : line_iterator * tokens :=
  let line2 := parse_blank input dot dol in
  let t2 := tok input line2 in
  if negb (negb (line2 =? dol) && kind_eqb LINE (kind t2)) then (dot, block)
  else
    let p1 := scan_hrule (cbegin t2) (cend t2) in
    if negb (p1 ==! cbegin t2) then (dot, block) else
    let p2 := scan_listmark (cbegin t2) (cend t2) in
    let p3 := scan_tab (cbegin t2) (cend t2) in
    if negb (p3 ==! cbegin t2)
    then (line2,
          copy_lines (Z.to_nat (line2 - dot)) (fun t => t) input dot block)
    else if p2 ==! cbegin t2 then (dot, block)
    else (line2, block).

Fixpoint parse_list_while (fuel : nat) (input : tokens)
    (line1 dol : line_iterator) (block : tokens) (indicator : wchar)
    : option (line_iterator * tokens) :=
  match fuel with
  | O => None
  | S fuel' =>
      if negb (line1 =? dol) then
        let t1 := tok input line1 in
        let '(line2, block) :=
          if kind_eqb LINE (kind t1)
          then parse_list_line input line1 dol block indicator
          else if kind_eqb BLANK (kind t1)
          then parse_list_blank input line1 dol block indicator
          else (line1, block) in
        if line2 =? line1 then Some (line1, block)
        else parse_list_while fuel' input line2 dol block indicator
      else Some (line1, block)
  end.

Definition parse_list
    (parse_block : tokens -> tokens -> option tokens) (fuel : nat)
    (input : tokens) (dot dol : line_iterator) (output : tokens)
    : option (line_iterator * tokens) :=
  let t := tok input dot in
  let p1 := scan_listmark (cbegin t) (cend t) in
  if p1 ==! cbegin t then Some (dot, output) else
  let indicator := peek p1 (-1) in
  let stag := if ch "." =? indicator then SOLIST else SULIST in
  let etag := if ch "." =? indicator then EOLIST else EULIST in
  let p2 := scan_of_pred p1 (cend t) 1 (-1) ismdspace in
  let block := push_back [] (Token stag p2 p2) in
  let block := push_back block (Token SLITEM p2 p2) in
  let block := push_back block (Token LINE p2 (cend t)) in
  '(line1, block) <-
    parse_list_while fuel input (dot + 1) dol block indicator ;;
  let e := tok input line1 in
  let block := push_back block (Token ELITEM (cbegin e) (cbegin e)) in
  let block := push_back block (Token etag (cbegin e) (cbegin e)) in
  output <- parse_block block output ;;
  Some (line1, output).

(** The [while (dot != dol)] loop of [parse_block], entered at [dot] with
    the current value of [listitem]. *)
Fixpoint parse_block_while (fuel : nat) (input : tokens)
    (dot : line_iterator) (listitem : bool) (output : tokens)
    : option tokens :=
  match fuel with
  | O => None
  | S fuel' =>
      let dol := dol_of input in
      let again := parse_block_while fuel' input in
      let recur := fun block out => parse_block_while fuel' block 0 false out in
      if negb (dot =? dol) then
        let line := dot in
        let listitem :=
          if kind_eqb SLITEM (kind (tok input line)) then true else listitem in
        if kind_eqb LINE (kind (tok input line)) then
          let '(dot, output) := parse_hrule input line dol output in
          if negb (dot =? line) then again dot listitem output else
          '(dot, output) <- parse_tabcode fuel' input line dol output ;;
          if negb (dot =? line) then again dot listitem output else
          '(dot, output) <- parse_blockquote recur fuel' input line dol output ;;
          if negb (dot =? line) then again dot listitem output else
          let '(dot, output) := parse_atxheading input line dol output in
          if negb (dot =? line) then again dot listitem output else
          '(dot, output) <- parse_list recur fuel' input line dol output ;;
          if negb (dot =? line) then again dot listitem output else
          let '(dot, output) := parse_seheading input line dol output in
          if negb (dot =? line) then again dot listitem output else
          let '(dot, output) :=
            if listitem then parse_listitem input line dol output
            else parse_paragraph input line dol output in
          let listitem := false in
          if line =? dot
          then again (dot + 1) listitem (push_back output (tok input dot))
          else again dot listitem output
        else
          again (dot + 1) listitem (push_back output (tok input dot))
      else Some output
  end.

Definition parse_block (fuel : nat) (input output : tokens) : option tokens :=
  parse_block_while fuel input 0 false output.

End BlockParser.

(** ** split_lines - BLOCK tokenizer *)

Definition blocktag : wstring :=
  L " blockquote del div dl fieldset figure form h1 h2 h3 h4 h5 h6"
  ++ L " hr iframe ins noscript math ol p pre script table ul !COMMENT ".

(** [s.find (pat) != npos] for a non-empty [pat] *)
Definition wstring_contains (s pat : wstring) : bool :=
  std_search (cbegin_of s) (cend_of s) pat <! cend_of s.

Definition wsize (s : wstring) : Z := Z.of_nat (List.length s).

Definition check_blockend (pos eos : char_iterator) : char_iterator :=
  let p1 := scan_of_pred pos eos 0 (-1) ismdspace in
  let p2 := scan_of p1 eos 1 1 NL in
  let p3 := scan_of_pred p2 eos 0 (-1) ismdspace in
  let p4 := scan_of p3 eos 1 1 NL in
  if (eos <=! p4) || ((p1 <! p2) && (p3 <! p4)) then p2 else pos.

Fixpoint parse_blockcode_while (fuel : nat) (pos eos p1 p2 p3 cb : char_iterator)
    (output : tokens) : option (char_iterator * tokens) :=
  match fuel with
  | O => None
  | S fuel' =>
      if p3 <! eos then
        let pat := NL :: L "```" in
        let p4 := std_search p3 eos pat in
        if p4 ==! eos then Some (pos, output) else
        let ce := p4 in
        let p3 := p4 +! wsize pat in
        let p5 := check_blockend p3 eos in
        if (eos <=! p5) || (p3 <! p5) then
          let output := push_back output (Token SPRE p1 p2) in
          let output := push_back output (Token CODE cb ce) in
          let output := push_back output (Token EPRE ce ce) in
          Some (p5, output)
        else parse_blockcode_while fuel' pos eos p1 p2 p3 cb output
      else Some (pos, output)
  end.

Definition parse_blockcode (fuel : nat) (bos pos eos : char_iterator)
    (output : tokens) : option (char_iterator * tokens) :=
  if (bos <=! pos +! (-2)) && negb (NL =? peek pos (-2))
  then Some (pos, output) else
  if (bos <=! pos +! (-1)) && negb (NL =? peek pos (-1))
  then Some (pos, output) else
  let p1 := scan_of pos eos 3 3 (ch "`") in
  if p1 ==! pos then Some (pos, output) else
  let p2 := scan_of_pred p1 eos 0 (-1) ismdprint in
  let p3 := scan_of p2 eos 1 1 NL in
  if p3 ==! p2 then Some (pos, output) else
  parse_blockcode_while fuel pos eos p1 p2 p3 (p3 +! 1) output.

Definition scan_htmlcomment (pos eos : char_iterator) (tagname : wstring)
    : char_iterator * wstring :=
  let p1 := scan_of pos eos 1 1 (ch "<") in
  let p2 := scan_of p1 eos 1 1 (ch "!") in
  let p3 := scan_of p2 eos 2 2 (ch "-") in
  if negb ((pos <! p1) && (p1 <! p2) && (p2 <! p3)) then (pos, tagname) else
  let tagname := L "!COMMENT" in
  let pat := L "-->" in
  let p4 := std_search p3 eos pat in
  if p4 ==! eos then (pos, tagname) else (p4 +! wsize pat, tagname).

Definition scan_htmlattr (fuel : nat) (pos eos : char_iterator)
    : option char_iterator :=
  let p1 := scan_of_pred pos eos 1 (-1) ismdwhite in
  let p2 := scan_of_pred p1 eos 1 (-1) ishtname in
  if negb ((pos <! p1) && (p1 <! p2)) then Some pos else
  let p3 := scan_of_pred p2 eos 0 (-1) ismdwhite in
  let p4 := scan_of p3 eos 1 1 (ch "=") in
  if p4 ==! p3 then Some p2 else
  let p5 := scan_of_pred p4 eos 0 (-1) ismdwhite in
  p6 <- (if (p5 <! eos)
            && ((DQUOTE =? deref p5) || (SQUOTE =? deref p5)
                || (ch "`" =? deref p5))
         then scan_quoted fuel p5 eos (deref p5) (deref p5) (ch "\") ismdany
         else Some (scan_of_pred p5 eos 1 (-1) ishtattr)) ;;
  if p6 ==! p5 then Some pos else Some p6.

Fixpoint scan_htmltag_while (fuel : nat) (eos p4 : char_iterator)
    : option char_iterator :=
  match fuel with
  | O => None
  | S fuel' =>
      if p4 <! eos then
        p5 <- scan_htmlattr fuel' p4 eos ;;
        if p5 ==! p4 then Some p4 else scan_htmltag_while fuel' eos p5
      else Some p4
  end.

Definition scan_htmltag (fuel : nat) (pos eos : char_iterator)
    (tagname : wstring) : option (char_iterator * wstring) :=
  let '(pcom, tagname) := scan_htmlcomment pos eos tagname in
  if pos <! pcom then Some (pcom, tagname) else
  let p1 := scan_of pos eos 1 1 (ch "<") in
  let p2 := scan_of p1 eos 0 1 (ch "/") in
  let p3 := scan_of_pred p2 eos 1 (-1) ishtname in
  if negb ((pos <! p1) && (p2 <! p3)) then Some (pos, tagname) else
  let tagname := slice p1 p3 in
  p4 <- scan_htmltag_while fuel eos p3 ;;
  let p6 := scan_of_pred p4 eos 0 (-1) ismdwhite in
  let p7 := scan_of p6 eos 0 1 (ch "/") in
  let p8 := scan_of p7 eos 1 1 (ch ">") in
  if p8 ==! p7 then Some (pos, tagname) else Some (p8, tagname).

Fixpoint parse_blockhtml_while (fuel : nat) (pos eos p1 : char_iterator)
    (pat2 : wstring) (output : tokens) : option (char_iterator * tokens) :=
  match fuel with
  | O => None
  | S fuel' =>
      if p1 <! eos then
        let p2 := std_search p1 eos pat2 in
        if p2 ==! eos then Some (pos, output) else
        let p3 := scan_of_pred (p2 +! wsize pat2) eos 0 (-1) ismdwhite in
        let p1 := scan_of p3 eos 1 1 (ch ">") in
        if p1 ==! p3 then Some (pos, output) else
        let p5 := check_blockend p1 eos in
        if (eos <=! p5) || (p1 <! p5)
        then Some (p5, push_back output (Token HTML pos p5))
        else parse_blockhtml_while fuel' pos eos p1 pat2 output
      else Some (pos, output)
  end.

Definition parse_blockhtml (fuel : nat) (bos pos eos : char_iterator)
    (output : tokens) : option (char_iterator * tokens) :=
  if (bos <=! pos +! (-2)) && negb (NL =? peek pos (-2))
  then Some (pos, output) else
  if (bos <=! pos +! (-1)) && negb (NL =? peek pos (-1))
  then Some (pos, output) else
  '(p1, tagname) <- scan_htmltag fuel pos eos [] ;;
  if p1 ==! pos then Some (pos, output) else
  let pat1 := L " " ++ tagname ++ L " " in
  if negb (wstring_contains blocktag pat1) then Some (pos, output) else
  if wstring_eqb tagname (L "hr") || wstring_eqb tagname (L "!COMMENT")
     || (ch "/" =? peek p1 (-2))
  then
    let p3 := check_blockend p1 eos in
    if (eos <=! p3) || (p1 <! p3)
    then Some (p3, push_back output (Token HTML pos p3))
    else Some (pos, output)
  else
    let pat2 := L "</" ++ tagname in
    parse_blockhtml_while fuel pos eos p1 pat2 output.

Definition scan_refdef_id (fuel : nat) (pos eos : char_iterator) (id : wstring)
    : option (char_iterator * wstring) :=
  let p1 := scan_tab_not pos eos in
  p2 <- scan_quoted fuel p1 eos (ch "[") (ch "]") (ch "\") ismdprint ;;
  if (p1 <! p2) && (ch "]" =? peek p1 1) then Some (pos, id) else
  let p3 := scan_of p2 eos 1 1 (ch ":") in
  let p4 := scan_of_pred p3 eos 1 (-1) ismdspace in
  if negb ((p1 <! p2) && (p2 <! p3) && (p3 <! p4)) then Some (pos, id) else
  Some (p4, decode_linkid (p1 +! 1) (p2 +! (-1))).

Definition scan_refdef_uri (fuel : nat) (pos eos : char_iterator)
    (uri : wstring) : option (char_iterator * wstring) :=
  p3 <- scan_quoted fuel pos eos (ch "<") (ch ">") (ch "\") ismdprint ;;
  let '(p1, p2, p3) :=
    if pos <! p3 then (pos +! 1, p3 +! (-1), p3)
    else let p3 := scan_of_pred pos eos 1 (-1) ismdgraph in (pos, p3, p3) in
  if p2 <=! p1 then Some (pos, uri) else Some (p3, slice p1 p2).

Definition scan_refdef_title (pos eos : char_iterator) (title : wstring)
    : char_iterator * wstring :=
  let p1 := scan_of_pred pos eos 0 (-1) ismdspace in
  let p2 := scan_of p1 eos 1 1 NL in
  let p2 := if p1 <! p2 then scan_of_pred p2 eos 0 (-1) ismdspace else p2 in
  if (pos <! p2) && (p2 <! eos)
     && ((DQUOTE =? deref p2) || (SQUOTE =? deref p2) || (ch "`" =? deref p2)
         || (ch "(" =? deref p2))
  then
    let qq := if ch "(" =? deref p2 then ch ")" else deref p2 in
    let p4 := scan_of_pred p2 eos 0 (-1) ismdprint in
    let p3 := rscan_of_pred p2 p4 ismdspace in
    if (p3 -! p2 >? 2) && (qq =? peek p3 (-1))
    then (p4, slice (p2 +! 1) (p3 +! (-1)))
    else (pos, title)
  else (pos, title).

Definition parse_refdef (fuel : nat) (pos eos : char_iterator)
    (dict : refdict_type) : option (char_iterator * refdict_type) :=
  '(p1, entry_id) <- scan_refdef_id fuel pos eos [] ;;
  if (p1 ==! pos) || (ch "^" =? at_index entry_id 0) then Some (pos, dict) else
  '(p2, entry_uri) <- scan_refdef_uri fuel p1 eos [] ;;
  if p2 ==! pos then Some (pos, dict) else
  let '(p3, entry_title) := scan_refdef_title p2 eos [] in
  let p4 := scan_of_pred p3 eos 0 (-1) ismdspace in
  let p5 := scan_of p4 eos 1 1 NL in
  if (p5 <! eos) && (p4 ==! p5) then Some (pos, dict) else
  Some (p5, dict_assign dict entry_id (Reflink entry_id entry_uri entry_title)).

Fixpoint split_lines_while (fuel : nat) (input : wstring) (p4 : char_iterator)
    (output : tokens) (dict : refdict_type) : option (tokens * refdict_type) :=
  match fuel with
  | O => None
  | S fuel' =>
      let bos := cbegin_of input in
      let eos := cend_of input in
      if p4 <! eos then
        let p1 := p4 in
        '(p4, output) <- parse_blockcode fuel' bos p1 eos output ;;
        if p1 <! p4 then split_lines_while fuel' input p4 output dict else
        '(p4, output) <- parse_blockhtml fuel' bos p1 eos output ;;
        if p1 <! p4 then split_lines_while fuel' input p4 output dict else
        '(p4, dict) <- parse_refdef fuel' p1 eos dict ;;
        if p1 <! p4 then split_lines_while fuel' input p4 output dict else
        let p2 := scan_of_pred p1 eos 0 (-1) ismdspace in
        let p3 := scan_of_pred p2 eos 0 (-1) ismdprint in
        let p4 := scan_of p3 eos 1 1 NL in
        let output :=
          if p2 ==! p3 then push_back output (Token BLANK p3 p4)
          else push_back output (Token LINE p1 p4) in
        split_lines_while fuel' input p4 output dict
      else Some (output, dict)
  end.

Definition split_lines (fuel : nat) (input : wstring) (output : tokens)
    (dict : refdict_type) : option (tokens * refdict_type) :=
  split_lines_while fuel input (cbegin_of input) output dict.

(** ** parse_inline - INLINE tokenizer and parser *)

Definition null_iterator : char_iterator := Iter [] 0.

(** Filler for reads outside a deque of inline tokens. *)
Definition null_token : token_type := Token BLANK null_iterator null_iterator.

Definition nests := list nest_type.

Definition back {A : Type} (d : A) (q : list A) : A := last q d.
Definition pop_back {A : Type} (q : list A) : list A := removelast q.
Definition is_empty {A : Type} (q : list A) : bool :=
  match q with [] => true | _ => false end.

(** [output[i]] *)
Definition at_pos (output : tokens) (i : nat) : token_type :=
  nth i output null_token.

(** [output[i] = f (output[i])] *)
Fixpoint modify {A : Type} (output : list A) (i : nat) (f : A -> A)
    : list A :=
  match output, i with
  | [], _ => []
  | t :: rest, O => f t :: rest
  | t :: rest, S i' => t :: modify rest i' f
  end.

Definition set_kind (k : kind_type) (t : token_type) : token_type :=
  Token k (cbegin t) (cend t).

Definition set_cend (e : char_iterator) (t : token_type) : token_type :=
  Token (kind t) (cbegin t) e.

Definition set_n (v : Z) (f : nest_type) : nest_type := Nest (pos f) v.

Definition nest_back (nest : nests) : nest_type := back (Nest 0 0) nest.

Definition parse_text (tbegin tend : char_iterator) (output : tokens)
    : char_iterator * tokens :=
  if tend <=! tbegin then (tend, output) else
  if negb (is_empty output) && kind_eqb TEXT (kind (back null_token output))
     && (cend (back null_token output) ==! tbegin)
  then (tend, modify output (List.length output - 1) (set_cend tend))
  else (tend, push_back output (Token TEXT tbegin tend)).

Definition nest_exists (nestlist : nests) (n0 : Z) : bool :=
  existsb (fun i =>
    ((n0 =? 0) && (n i =? 0))
    || ((n0 =? 1) && ((n i =? 1) || (n i =? 3)))
    || ((n0 =? 2) && ((n i =? 2) || (n i =? 3)))
    || ((n0 =? 3) && ((n i =? 1) || (n i =? 2) || (n i =? 3)))) nestlist.

Definition patch_emphasis (embegin emend : char_iterator)
    (leftwhite rightwhite : bool) (output : tokens) (nest : nests)
    : tokens * nests :=
  let n1 := emend -! embegin in
  let n2 := 3 - n1 in
  let sem1 := if 1 =? n1 then SEM else SSTRONG in
  let eem1 := if 1 =? n1 then EEM else ESTRONG in
  let sem2 := if 1 =? n2 then SEM else SSTRONG in
  let already := nest_exists nest n1 in
  let as_text := (push_back output (Token TEXT embegin emend), nest) in
  if negb already then
    if negb rightwhite
    then (push_back output (Token sem1 embegin emend),
          push_back nest (Nest (List.length output) n1))
    else as_text
  else if (n (nest_back nest) =? n1) || (n (nest_back nest) =? 3) then
    let smark := deref (cbegin (at_pos output (pos (nest_back nest)))) in
    if negb leftwhite && (smark =? deref embegin) then
      let nest := pop_back nest in
      let output := push_back output (Token eem1 embegin emend) in
      if negb (is_empty nest) && (n (nest_back nest) =? 3) then
        let pos := pos (nest_back nest) in
        let output := modify output pos (set_kind sem2) in
        let output :=
          modify output pos (fun t => set_cend (cbegin t +! n2) t) in
        let output := modify output (pos + 1) (set_kind sem1) in
        let nest :=
          modify nest (List.length nest - 1) (set_n n2) in
        (output, nest)
      else (output, nest)
    else as_text
  else as_text.

Definition patch_emphasis_three (embegin emend : char_iterator)
    (leftwhite rightwhite : bool) (output : tokens) (nest : nests)
    : tokens * nests :=
  let nnest := List.length nest in
  let already := nest_exists nest 3 in
  let as_text := (snd (parse_text embegin emend output), nest) in
  if negb already then
    if negb rightwhite then
      let nest := push_back nest (Nest (List.length output) 3) in
      let nest := push_back nest (Nest (List.length output) 3) in
      let output := push_back output (Token SSTRONG embegin emend) in
      let output := push_back output (Token SEM embegin embegin) in
      (output, nest)
    else as_text
  else if (2 <=? nnest)%nat
          && (n (nth (nnest - 1) nest (Nest 0 0)) >? 0)
          && (n (nth (nnest - 2) nest (Nest 0 0)) >? 0) then
    let smark := deref (cbegin (at_pos output (pos (nest_back nest)))) in
    if leftwhite || negb (smark =? deref embegin) then as_text
    else if negb (n (nest_back nest) =? 2) then
      let output := push_back output (Token EEM embegin emend) in
      let output := push_back output (Token ESTRONG embegin emend) in
      (output, pop_back (pop_back nest))
    else
      let output := push_back output (Token ESTRONG embegin emend) in
      let output := push_back output (Token EEM embegin emend) in
      (output, pop_back (pop_back nest))
  else as_text.

Definition parse_space (pos eos : char_iterator) (output : tokens)
    : char_iterator * tokens :=
  let p1 := scan_of pos eos 1 (-1) (ch " ") in
  let p2 := scan_of p1 eos 1 1 NL in
  if (p1 -! pos >=? 2) && (p1 <! p2)
  then (p2, push_back output (Token BREAK pos p2))
  else parse_text pos p2 output.

Definition parse_escape (pos eos : char_iterator) (output : tokens)
    : char_iterator * tokens :=
  let p1 := scan_of pos eos 1 1 (ch "\") in
  let p2 := scan_of_pred p1 eos 1 1 ismdescapable in
  if p1 ==! p2 then parse_text pos p1 output
  else parse_text pos p2 output.

Definition parse_inlinecode (pos eos : char_iterator) (output : tokens)
    : char_iterator * tokens :=
  let p1 := scan_of pos eos 1 (-1) (ch "`") in
  let p2 := scan_of_pred p1 eos 0 (-1) ismdwhite in
  let p3 := std_search p2 eos (slice pos p1) in
  if p3 ==! eos then parse_text pos p2 output else
  let p4 := scan_of (p3 +! (p1 -! pos)) eos 0 (-1) (ch "`") in
  let p3 := p4 +! (- (p1 -! pos)) in
  let p3 := rscan_of_pred p2 p3 ismdwhite in
  let output := push_back output (Token SCODE p2 p2) in
  let output := push_back output (Token CODE p2 p3) in
  let output := push_back output (Token ECODE p3 p3) in
  (p4, output).

Definition parse_emphasis (bos pos eos : char_iterator) (output : tokens)
    (nest : nests) : char_iterator * tokens * nests :=
  let p1 := scan_of pos eos 1 (-1) (deref pos) in
  let n := p1 -! pos in
  let leftwhite := (pos ==! bos) || ismdwhite (peek pos (-1)) in
  let rightwhite :=
    (p1 ==! eos) || ismdwhite (peek p1 0)
    || (((ch "." =? peek p1 0) || (ch "," =? peek p1 0)
         || (ch ";" =? peek p1 0) || (ch ":" =? peek p1 0))
        && ((p1 +! 1 ==! eos) || ismdwhite (peek p1 1))) in
  if (n >? 3) || (leftwhite && rightwhite)
  then let '(p, output) := parse_text pos p1 output in (p, output, nest)
  else if n =? 1
  then let '(output, nest) :=
         patch_emphasis pos p1 leftwhite rightwhite output nest in
       (p1, output, nest)
  else if n =? 2
  then let '(output, nest) :=
         patch_emphasis pos p1 leftwhite rightwhite output nest in
       (p1, output, nest)
  else if n =? 3
  then let '(output, nest) :=
         patch_emphasis_three pos p1 leftwhite rightwhite output nest in
       (p1, output, nest)
  else (p1, output, nest).

(** [std::equal (s.cbegin (), s.cend (), p)] *)
Fixpoint std_equal (s : wstring) (p : char_iterator) : bool :=
  match s with
  | [] => true
  | c :: s' => (c =? deref p) && std_equal s' (p +! 1)
  end.

Definition match_uri (p e : char_iterator) : bool :=
  existsb (fun s => (e -! p >=? wsize s) && std_equal s p)
    [L "https://"; L "http://"; L "ftp://"; L "ftps://"; L "mailto:"].

Definition parse_angle (fuel : nat) (pos eos : char_iterator)
    (output : tokens) : option (char_iterator * tokens) :=
  '(p1, _) <- scan_htmltag fuel pos eos [] ;;
  if pos <! p1 then Some (p1, push_back output (Token HTML pos p1)) else
  p2 <- scan_quoted fuel pos eos (ch "<") (ch ">") (ch "\") ismdprint ;;
  let after_uri :=
    if p2 -! pos >? 2 then
      if match_uri (pos +! 1) (p2 +! (-1)) then
        let output := push_back output (Token SABEGIN pos pos) in
        let output := push_back output (Token URI (pos +! 1) (p2 +! (-1))) in
        let output := push_back output (Token SAEND p2 p2) in
        let output := push_back output (Token TEXT (pos +! 1) (p2 +! (-1))) in
        let output := push_back output (Token EA p2 p2) in
        inl (p2, output)
      else inr (snd (parse_text pos p2 output))
    else inr output in
  match after_uri with
  | inl r => Some r
  | inr output =>
      let p3 := scan_of pos eos 1 (-1) (ch "<") in
      Some (parse_text pos p3 output)
  end.

Definition parse_link_bracket (fuel : nat) (pos eos altbegin altend : char_iterator)
    (attribute : tokens) : option (char_iterator * tokens) :=
  let p1 := scan_of_pred pos eos 0 (-1) ismdwhite in
  p2 <- scan_quoted fuel p1 eos (ch "[") (ch "]") (ch "\") ismdany ;;
  if p2 -! p1 >? 2
  then Some (p2, push_back attribute (Token LINKID (p1 +! 1) (p2 +! (-1))))
  else Some (p2, push_back attribute (Token LINKID altbegin altend)).

(** [while (p4 < p5 && ! ismdwhite (p4[-1])) p4 = std::find (p4 + 1, p5, qq)] *)
Fixpoint find_title_quote (k : nat) (p4 p5 : char_iterator) (qq : wchar)
    : char_iterator :=
  match k with
  | S k' =>
      if (p4 <! p5) && negb (ismdwhite (peek p4 (-1)))
      then find_title_quote k' (std_find (p4 +! 1) p5 qq) p5 qq
      else p4
  | O => p4
  end.

Definition parse_link_paren (fuel : nat) (pos eos : char_iterator)
    (attribute : tokens) : option (char_iterator * tokens) :=
  p6 <- scan_quoted fuel pos eos (ch "(") (ch ")") (ch "\") ismdany ;;
  if pos ==! p6 then Some (pos, attribute) else
  let p1 := pos +! 1 in
  let p5 := rscan_of_pred p1 (p6 +! (-1)) ismdwhite in
  let p2 := p5 in
  p2 <- (if ch "<" =? deref p1 then
           p2 <- scan_quoted fuel p1 p5 (ch "<") (ch ">") (ch "\") ismdany ;;
           Some (if p1 ==! p2 then p1 +! 1 else p2 +! (-1))
         else Some (if p2 ==! p5 then p1 +! 1 else p2 +! 1)) ;;
  let '(p3, p4) :=
    if (DQUOTE =? peek p5 (-1)) || (SQUOTE =? peek p5 (-1)) then
      let qq := peek p5 (-1) in
      let p4 := std_find p2 p5 qq in
      let p4 := find_title_quote (dist p4 p5) p4 p5 qq in
      (rscan_of_pred p2 p4 ismdwhite, p4)
    else (p5, p5) in
  let attribute :=
    if (p3 -! p1 >? 1) && (ch "<" =? peek p1 0) && (ch ">" =? peek p3 (-1))
    then push_back attribute (Token URI (p1 +! 1) (p3 +! (-1)))
    else push_back attribute (Token URI p1 p3) in
  let attribute :=
    if (p5 -! p4 >? 1) && (peek p4 0 =? peek p5 (-1))
       && ((DQUOTE =? peek p5 (-1)) || (SQUOTE =? peek p5 (-1)))
    then push_back attribute (Token TITLE (p4 +! 1) (p5 +! (-1)))
    else attribute in
  Some (p6, attribute).

Definition parse_make_link (cbegin cend : char_iterator)
    (inner attribute output : tokens) : char_iterator * tokens :=
  let output := push_back output (Token SABEGIN cbegin cbegin) in
  let output := output ++ attribute in
  let output := push_back output (Token SAEND cbegin cbegin) in
  let output := output ++ inner in
  let output := push_back output (Token EA cend cend) in
  (cend, output).

Definition parse_fetch_reference_link (dict : refdict_type)
    (attribute : tokens) : bool * tokens :=
  let a0 := at_pos attribute 0 in
  let linkid := decode_linkid (cbegin a0) (cend a0) in
  match dict_find dict linkid with
  | None => (false, attribute)
  | Some rf =>
      let attribute := [] in
      let attribute :=
        push_back attribute (Token URI (cbegin_of (uri rf)) (cend_of (uri rf))) in
      let attribute :=
        if negb (is_empty (title rf))
        then push_back attribute
               (Token TITLE (cbegin_of (title rf)) (cend_of (title rf)))
        else attribute in
      (true, attribute)
  end.

(** [while (nest.back ().n != 0) { inner[nest.back ().pos].kind = TEXT;
    nest.pop_back (); }]  Every turn pops a frame, so the length of [nest]
    bounds the loop. *)
Fixpoint demote_until_link (k : nat) (inner : tokens) (nest : nests)
    : tokens * nests :=
  match k with
  | S k' =>
      if negb (n (nest_back nest) =? 0)
      then demote_until_link k'
             (modify inner (pos (nest_back nest)) (set_kind TEXT))
             (pop_back nest)
      else (inner, nest)
  | O => (inner, nest)
  end.

(** [while (! nest.empty ()) { output[nest.back ().pos].kind = TEXT;
    nest.pop_back (); }] *)
Fixpoint demote_all (k : nat) (output : tokens) (nest : nests)
    : tokens * nests :=
  match k with
  | S k' =>
      if negb (is_empty nest)
      then demote_all k'
             (modify output (pos (nest_back nest)) (set_kind TEXT))
             (pop_back nest)
      else (output, nest)
  | O => (output, nest)
  end.

Definition inline_result : Type := char_iterator * tokens * nests.

(** [parse_inline_loop] is passed in: it is the recursive call of the
    inline loop on the bracketed text. *)
Definition parse_link
    (parse_inline_loop :
       char_iterator -> char_iterator -> char_iterator -> tokens -> nests ->
       option inline_result)
    (fuel : nat) (bos pos eos : char_iterator) (output : tokens)
    (dict : refdict_type) (nest : nests) : option inline_result :=
  let inner : tokens := [] in
  let attribute : tokens := [] in
  let nest := push_back nest (Nest (List.length output) 0) in
  let p1 := scan_of pos eos 1 1 (ch "[") in
  if pos ==! p1 then Some (pos, output, nest) else
  '(p2, inner, nest) <- parse_inline_loop bos p1 eos inner nest ;;
  let '(inner, nest) := demote_until_link (List.length nest) inner nest in
  let p3 := scan_of p2 eos 1 1 (ch "]") in
  let nest := pop_back nest in
  let already := nest_exists nest 0 in
  if (p1 ==! p2) || (p2 ==! p3)
  then let '(p, output) := parse_text pos p1 output in Some (p, output, nest)
  else
  '(p4, attribute) <- parse_link_paren fuel p3 eos attribute ;;
  if negb already && (p3 <! p4)
  then let '(p, output) := parse_make_link pos p4 inner attribute output in
       Some (p, output, nest)
  else
  '(p5, attribute) <- parse_link_bracket fuel p3 eos p1 p2 attribute ;;
  let '(fetched, attribute') :=
    if negb already then parse_fetch_reference_link dict attribute
    else (false, attribute) in
  if negb already && fetched
  then let '(p, output) := parse_make_link pos p5 inner attribute' output in
       Some (p, output, nest)
  else
  let '(_, output) := parse_text pos p1 output in
  '(_, output, nest) <- parse_inline_loop bos p1 p2 output nest ;;
  let '(p, output) := parse_text p2 p5 output in
  Some (p, output, nest).

Definition parse_make_image (pos : char_iterator)
    (inner attribute output : tokens) : char_iterator * tokens :=
  let output := push_back output (Token IMGBEGIN pos pos) in
  let output := output ++ attribute in
  let output := output ++ inner in
  let output := push_back output (Token IMGEND pos pos) in
  (pos, output).

Definition parse_image (fuel : nat) (pos eos : char_iterator)
    (output : tokens) (dict : refdict_type)
    : option (char_iterator * tokens) :=
  let inner : tokens := [] in
  let attribute : tokens := [] in
  let p1 := scan_of pos eos 1 1 (ch "!") in
  let p2 := scan_of p1 eos 1 1 (ch "[") in
  if (pos ==! p1) || (p1 ==! p2) then Some (pos, output) else
  p3 <- scan_quoted fuel p1 eos (ch "[") (ch "]") (ch "\") ismdany ;;
  if p1 ==! p3 then Some (parse_text pos p2 output) else
  let inner := push_back inner (Token ALT p2 (p3 +! (-1))) in
  '(p4, attribute) <- parse_link_paren fuel p3 eos attribute ;;
  if p3 <! p4 then Some (parse_make_image p4 inner attribute output) else
  '(p5, attribute) <-
    parse_link_bracket fuel p3 eos p2 (p3 +! (-1)) attribute ;;
  let '(fetched, attribute) := parse_fetch_reference_link dict attribute in
  if fetched then Some (parse_make_image p5 inner attribute output)
  else Some (parse_text pos p5 output).

Fixpoint parse_inline_loop (fuel : nat) (dict : refdict_type)
    (bos pos eos : char_iterator) (output : tokens) (nest : nests)
    : option inline_result :=
  match fuel with
  | O => None
  | S fuel' =>
      let p1 := pos in
      if (p1 <! eos) && negb (ch "]" =? deref p1) then
        '(p1, output, nest) <-
          (if ch " " =? deref p1
           then let '(p, o) := parse_space p1 eos output in Some (p, o, nest)
           else if ch "\" =? deref p1
           then let '(p, o) := parse_escape p1 eos output in Some (p, o, nest)
           else if ch "`" =? deref p1
           then let '(p, o) := parse_inlinecode p1 eos output in
                Some (p, o, nest)
           else if (ch "*" =? deref p1) || (ch "_" =? deref p1)
           then Some (parse_emphasis bos p1 eos output nest)
           else if ch "<" =? deref p1
           then '(p, o) <- parse_angle fuel' p1 eos output ;; Some (p, o, nest)
           else if ch "[" =? deref p1
           then parse_link (parse_inline_loop fuel' dict) fuel'
                  bos p1 eos output dict nest
           else if ch "!" =? deref p1
           then '(p, o) <- parse_image fuel' p1 eos output dict ;;
                Some (p, o, nest)
           else
             let ccls := L " \`*_<![]" in
             let p2 := std_find_first_of p1 eos ccls in
             let '(p, o) := parse_text p1 p2 output in Some (p, o, nest)) ;;
        parse_inline_loop fuel' dict bos p1 eos output nest
      else Some (p1, output, nest)
  end.

(** The outer [while (pos < eos)] loop of [parse_inline]. *)
Fixpoint parse_inline_while (fuel : nat) (dict : refdict_type)
    (bos pos eos : char_iterator) (output : tokens) (nest : nests)
    : option (tokens * nests) :=
  match fuel with
  | O => None
  | S fuel' =>
      if pos <! eos then
        let pos0 := pos in
        '(pos, output, nest) <-
          parse_inline_loop fuel' dict bos pos0 eos output nest ;;
        let '(pos, output) :=
          if (pos0 ==! pos) && (ch "]" =? deref pos)
          then parse_text pos (pos +! 1) output
          else (pos, output) in
        parse_inline_while fuel' dict bos pos eos output nest
      else Some (output, nest)
  end.

(** [parse_inline], returning the local [nest] along with [output] so
    that its final state can be stated. *)
Definition parse_inline_nest (fuel : nat) (input : wstring) (output : tokens)
    (dict : refdict_type) : option (tokens * nests) :=
  let nest : nests := [] in
  let bos := cbegin_of input in
  let eos := cend_of input in
  '(output, nest) <- parse_inline_while fuel dict bos bos eos output nest ;;
  Some (demote_all (List.length nest) output nest).

Definition parse_inline (fuel : nat) (input : wstring) (output : tokens)
    (dict : refdict_type) : option tokens :=
  '(output, _) <- parse_inline_nest fuel input output dict ;;
  Some output.

(** ** print_inline - INLINE output builder *)

Definition ostream := wstring.

Definition tbl : list (list Z) :=
  (*    d   x   a   #   ; *)
  [ [0; 0;  0;  0;  0;  0];
    [0; 0;  2;  2;  3;  0];  (* S1: [A-Za-z] S2 | '#' S3 *)
    [0; 2;  2;  2;  0;  9];  (* S2: [A-Za-z0-9] S2 | ';' ACCEPT *)
    [0; 4;  0;  0;  0;  0];  (* S3: [0-9] S4 | 'x' S5 *)
    [0; 4;  0;  0;  0;  9];  (* S4: [0-9] S4 | ';' ACCEPT *)
    [0; 6;  6;  0;  0;  0];  (* S5: [0-9] S6 | [A-Fa-f] S6 *)
    [0; 6;  6;  0;  0;  9] ] (* S6: [0-9] S6 | [A-Fa-f] S6 | ';' ACCEPT *).

Definition tbl_at (state ccls : Z) : Z :=
  nth (Z.to_nat ccls) (nth (Z.to_nat state) tbl []) 0.

Definition entity_ccls (c : wchar) : Z :=
  if (ch "0" <=? c) && (c <=? ch "9") then 1
  else if (ch "A" <=? c) && (c <=? ch "F") then 2
  else if (ch "a" <=? c) && (c <=? ch "f") then 2
  else if (ch "G" <=? c) && (c <=? ch "Z") then 3
  else if (ch "g" <=? c) && (c <=? ch "z") then 3
  else if ch "#" =? c then 4
  else if ch ";" =? c then 5
  else 0.

Fixpoint check_html5entity_loop (k : nat) (s : char_iterator) (state : Z)
    : option char_iterator :=
  match k with
  | S k' =>
      let ccls := entity_ccls (deref s) in
      let state :=
        if (3 =? state) && (ch "x" =? deref s) then 5 else tbl_at state ccls in
      if 0 =? state then None
      else if 9 =? state then Some (s +! 1)
      else check_html5entity_loop k' (s +! 1) state
  | O => None
  end.

(** Returns the updated [s0] when the source returns [true]. *)
Definition check_html5entity (s0 e : char_iterator) : option char_iterator :=
  if negb ((s0 <! e) && (ch "&" =? deref s0)) then None
  else check_html5entity_loop (dist (s0 +! 1) e) (s0 +! 1) 1.

(** The C.UTF-8 [codecvt] facet of the C++ library, which the source
    reaches through [std::use_facet]: conversion stops at the first code
    point (octet sequence) that has no UTF-8 form. *)
Fixpoint encode_utf8 (w : wstring) : list Z :=
  match w with
  | [] => []
  | c :: w' =>
      if (0 <=? c) && (c <? 128) then c :: encode_utf8 w'
      else if (128 <=? c) && (c <? 2048)
      then (192 + c / 64) :: (128 + c mod 64) :: encode_utf8 w'
      else if ((2048 <=? c) && (c <? 55296)) || ((57344 <=? c) && (c <? 65536))
      then (224 + c / 4096) :: (128 + (c / 64) mod 64) :: (128 + c mod 64)
           :: encode_utf8 w'
      else if (65536 <=? c) && (c <? 1114112)
      then (240 + c / 262144) :: (128 + (c / 4096) mod 64)
           :: (128 + (c / 64) mod 64) :: (128 + c mod 64) :: encode_utf8 w'
      else []
  end.

Definition is_cont (b : Z) : bool := (128 <=? b) && (b <? 192).

Fixpoint decode_utf8_loop (k : nat) (o : list Z) : wstring :=
  match k with
  | O => []
  | S k' =>
      match o with
      | [] => []
      | b0 :: r0 =>
          if (0 <=? b0) && (b0 <? 128) then b0 :: decode_utf8_loop k' r0
          else match r0 with
          | b1 :: r1 =>
              if (194 <=? b0) && (b0 <? 224) && is_cont b1
              then ((b0 - 192) * 64 + (b1 - 128)) :: decode_utf8_loop k' r1
              else match r1 with
              | b2 :: r2 =>
                  let c3 := (b0 - 224) * 4096 + (b1 - 128) * 64 + (b2 - 128) in
                  if (224 <=? b0) && (b0 <? 240) && is_cont b1 && is_cont b2
                     && (((2048 <=? c3) && (c3 <? 55296))
                         || ((57344 <=? c3) && (c3 <? 65536)))
                  then c3 :: decode_utf8_loop k' r2
                  else match r2 with
                  | b3 :: r3 =>
                      let c4 := (b0 - 240) * 262144 + (b1 - 128) * 4096
                                + (b2 - 128) * 64 + (b3 - 128) in
                      if (240 <=? b0) && (b0 <? 245) && is_cont b1
                         && is_cont b2 && is_cont b3
                         && (65536 <=? c4) && (c4 <? 1114112)
                      then c4 :: decode_utf8_loop k' r3
                      else []
                  | [] => []
                  end
              | [] => []
              end
          | [] => []
          end
      end
  end.

Definition decode_utf8 (octets : list Z) : wstring :=
  decode_utf8_loop (List.length octets) octets.

Fixpoint print_with_escape_html_loop (k : nat) (s e : char_iterator)
    (output : ostream) : ostream :=
  match k with
  | O => output
  | S k' =>
      if negb (s <! e) then output
      else if ch "&" =? deref s then
        match check_html5entity s e with
        | Some s1 =>
            print_with_escape_html_loop k' (s1 +! (-1) +! 1) e
              (output ++ slice s s1)
        | None =>
            print_with_escape_html_loop k' (s +! 1) e (output ++ L "&amp;")
        end
      else
        print_with_escape_html_loop k' (s +! 1) e
          (output ++
             (if deref s =? ch "<" then L "&lt;"
              else if deref s =? ch ">" then L "&gt;"
              else if deref s =? DQUOTE then L "&quot;"
              else if deref s =? SQUOTE then L "&#39;"
              else [deref s]))
  end.

Definition print_with_escape_html (s e : char_iterator) (output : ostream)
    : ostream :=
  print_with_escape_html_loop (dist s e) s e output.

Fixpoint print_with_escape_htmlall_loop (k : nat) (s : char_iterator)
    (output : ostream) : ostream :=
  match k with
  | O => output
  | S k' =>
      print_with_escape_htmlall_loop k' (s +! 1)
        (output ++
           (if deref s =? ch "&" then L "&amp;"
            else if deref s =? ch "<" then L "&lt;"
            else if deref s =? ch ">" then L "&gt;"
            else if deref s =? DQUOTE then L "&quot;"
            else if deref s =? SQUOTE then L "&#39;"
            else [deref s]))
  end.

Definition print_with_escape_htmlall (s e : char_iterator) (output : ostream)
    : ostream :=
  print_with_escape_htmlall_loop (dist s e) s output.

Definition hexdigit (v : Z) : Z :=
  if v <? 10 then v + ch "0" else v + ch "A" - 10.

Fixpoint print_with_escape_uri_loop (k : nat) (s oend : char_iterator)
    (t : list Z) : list Z :=
  match k with
  | O => t
  | S k' =>
      let safe := L "-_.,:;*+=()/~?#" in
      let amp := L "&amp;" in
      let c := deref s in
      print_with_escape_uri_loop k' (s +! 1) oend
        (if ismdalnum c || wfind c safe then t ++ [c]
         else if (s +! 2 <! oend) && (c =? ch "%")
                 && ismdxdigit (peek s 1) && ismdxdigit (peek s 2)
         then t ++ [c]
         else if (s +! 4 <! oend) && std_equal amp s then t ++ [c]
         else if c =? ch "&" then t ++ L "&amp;"
         else
           let hi := Z.land (Z.shiftr c 4) 15 in
           let lo := Z.land c 15 in
           t ++ [ch "%"; hexdigit hi; hexdigit lo])
  end.

Definition print_with_escape_uri (s e : char_iterator) (output : ostream)
    : ostream :=
  let w := slice s e in
  let o := encode_utf8 w in
  let t := print_with_escape_uri_loop (List.length o) (cbegin_of o)
             (cend_of o) [] in
  output ++ decode_utf8 t.

Definition token_iterator := Z.

(** [*p] for an iterator of the inline token deque or of the block token
    deque in the output builders. *)
Definition tk (input : tokens) (p : token_iterator) : token_type :=
  tok null_token input p.

Definition print_innerlink (input : tokens) (p : token_iterator)
    (output : ostream) (dict : refdict_type) : token_iterator * ostream :=
  let stremtpy : wstring := [] in
  let skind := kind (tk input p) in           (* SABEGIN || IMGBEGIN *)
  let output := output ++ kindname skind in
  let p := p + 1 in
  let titleb := cbegin_of stremtpy in
  let titlee := cend_of stremtpy in
  let '(p, titleb, titlee, output) :=
    if kind_eqb URI (kind (tk input p)) then
      let uri := unescape_backslash (cbegin (tk input p)) (cend (tk input p)) in
      let output :=
        print_with_escape_uri (cbegin_of uri) (cend_of uri) output in
      let p := p + 1 in
      if kind_eqb TITLE (kind (tk input p))
      then (p + 1, cbegin (tk input p), cend (tk input p), output)
      else (p, titleb, titlee, output)
    else (p, titleb, titlee, output) in
  let '(p, output) :=
    if kind_eqb IMGBEGIN skind then
      let output := output ++ kindname (kind (tk input p)) in   (* ALT *)
      let alt := unescape_backslash (cbegin (tk input p)) (cend (tk input p)) in
      let output :=
        print_with_escape_html (cbegin_of alt) (cend_of alt) output in
      (p + 1, output)
    else (p, output) in
  let output :=
    if titleb <! titlee then
      let output := output ++ kindname TITLE in
      let title := unescape_backslash titleb titlee in
      print_with_escape_html (cbegin_of title) (cend_of title) output
    else output in
  let output := output ++ kindname (kind (tk input p)) in  (* EAEND || IMGEND *)
  (p, output).

(** [for (; p < input.cend () && TEXT == p->kind; ++p)
      if (p->cbegin < p->cend) src.append (p->cbegin, p->cend);] *)
Fixpoint gather_text (k : nat) (input : tokens) (p : token_iterator)
    (src : wstring) : token_iterator * wstring :=
  match k with
  | S k' =>
      let t := tk input p in
      if kind_eqb TEXT (kind t)
      then gather_text k' input (p + 1)
             (if cbegin t <! cend t then src ++ slice (cbegin t) (cend t)
              else src)
      else (p, src)
  | O => (p, src)
  end.

Fixpoint print_inline_loop (k : nat) (input : tokens) (p : token_iterator)
    (output : ostream) (dict : refdict_type) : ostream :=
  match k with
  | O => output
  | S k' =>
      if negb (p <? dol_of input) then output else
      let t := tk input p in
      let '(p, output) :=
        if kind_leb BREAK (kind t) then (p, output ++ kindname (kind t))
        else if kind_eqb CODE (kind t)
        then (p, print_with_escape_htmlall (cbegin t) (cend t) output)
        else if kind_eqb HTML (kind t)
        then (p, output ++ slice (cbegin t) (cend t))
        else if kind_eqb SABEGIN (kind t) || kind_eqb IMGBEGIN (kind t)
        then print_innerlink input p output dict
        else if kind_eqb TEXT (kind t) then
          let '(p, src) :=
            gather_text (Z.to_nat (dol_of input - p)) input p [] in
          let text := unescape_backslash (cbegin_of src) (cend_of src) in
          (p - 1,
           print_with_escape_html (cbegin_of text) (cend_of text) output)
        else (p, output) in
      print_inline_loop k' input (p + 1) output dict
  end.

Definition print_inline (input : tokens) (output : ostream)
    (dict : refdict_type) : ostream :=
  print_inline_loop (List.length input) input 0 output dict.

(** ** print_block - BLOCK output builder *)

(** [for (; dot < dol && CODE == dot->kind; ++dot) ...] *)
Fixpoint print_code_lines (k : nat) (input : tokens) (dot : line_iterator)
    (output : ostream) : line_iterator * ostream :=
  match k with
  | S k' =>
      let t := tk input dot in
      if kind_eqb CODE (kind t) then
        print_code_lines k' input (dot + 1)
          (if (dot + 1 <? dol_of input)
              && negb (kind_eqb CODE (kind (tk input (dot + 1))))
              && (cbegin t <! cend t +! (-1))
              && (NL =? peek (cend t) (-1))
           then print_with_escape_htmlall (cbegin t) (cend t +! (-1)) output
           else print_with_escape_htmlall (cbegin t) (cend t) output)
      else (dot, output)
  | O => (dot, output)
  end.

(** [for (; dot < dol && INLINE == dot->kind; ++dot)
      src.append (dot->cbegin, dot->cend);] *)
Fixpoint gather_inline (k : nat) (input : tokens) (dot : line_iterator)
    (src : wstring) : line_iterator * wstring :=
  match k with
  | S k' =>
      let t := tk input dot in
      if kind_eqb INLINE (kind t)
      then gather_inline k' input (dot + 1) (src ++ slice (cbegin t) (cend t))
      else (dot, src)
  | O => (dot, src)
  end.

Fixpoint print_block_while (fuel : nat) (input : tokens) (dot : line_iterator)
    (output : ostream) (dict : refdict_type) : option ostream :=
  match fuel with
  | O => None
  | S fuel' =>
      let dol := dol_of input in
      if dot <? dol then
        let olddot := dot in
        let t := tk input dot in
        '(dot, output) <-
          (if kind_eqb BLANK (kind t) then
             let dot := skip_kind null_token (Z.to_nat (dol - dot)) BLANK input dot in
             Some (dot, if dot <? dol then output ++ [NL] else output)
           else if kind_leb HRULE (kind t) then
             let output :=
               if kind_eqb SOLIST (kind t) || kind_eqb SULIST (kind t) then
                 if (dot - 1 >? 0)
                    && kind_eqb (kind (tk input (dot - 1))) INLINE
                 then output ++ [NL] else output
               else output in
             Some (dot + 1, output ++ kindname (kind t))
           else if kind_eqb HTML (kind t) then
             Some (dot + 1, output ++ slice (cbegin t) (cend t))
           else if kind_eqb CODE (kind t) then
             Some (print_code_lines (Z.to_nat (dol - dot)) input dot output)
           else if kind_eqb INLINE (kind t) then
             let '(dot, src) :=
               gather_inline (Z.to_nat (dol - dot)) input dot [] in
             let src :=
               if (wsize src >? 0) && (NL =? last src 0)
               then removelast src else src in
             inline_input <- parse_inline fuel' src [] dict ;;
             Some (dot, print_inline inline_input output dict)
           else Some (dot, output)) ;;
        let dot := if olddot =? dot then dot + 1 else dot in
        print_block_while fuel' input dot output dict
      else Some output
  end.

Definition print_block (fuel : nat) (input : tokens) (output : ostream)
    (dict : refdict_type) : option ostream :=
  let dot := skip_kind null_token (Z.to_nat (dol_of input)) BLANK input 0 in
  print_block_while fuel input dot output dict.

(** ** The entry point *)

Definition markdown (past_end : token_type) (fuel : nat) (input : wstring)
    (output : ostream) : option ostream :=
  let pass1 : tokens := [] in
  let pass2 : tokens := [] in
  let dict : refdict_type := [] in
  '(pass1, dict) <- split_lines fuel input pass1 dict ;;
  pass2 <- parse_block past_end fuel pass1 pass2 ;;
  print_block fuel pass2 output dict.

(** translate (input_text) -> output_text *)
Definition translate (past_end : token_type) (fuel : nat) (input : wstring)
    : option wstring :=
  markdown past_end fuel input [].

(** ** What the claims speak about *)

(** [translate] run on [input] terminates with [output]: from some amount
    of fuel on, whatever a read past the end of a deque yields. *)
Definition translates_to (input output : wstring) : Prop :=
  exists fuel0 : nat, forall (past_end : token_type) (fuel : nat),
    (fuel0 <= fuel)%nat -> translate past_end fuel input = Some output.

(** [translate] run on [input] never returns. *)
Definition diverges (input : wstring) : Prop :=
  forall (past_end : token_type) (fuel : nat),
    translate past_end fuel input = None.

(** An input made of spaces, tabs and newlines only. *)
Definition blank_input (input : wstring) : Prop :=
  Forall (fun c => ismdwhite c = true) input.

Definition all_blank (ts : tokens) : Prop :=
  Forall (fun t => kind t = BLANK) ts.

(** Text handed to the inline parser for the run of INLINE tokens that
    starts at [dot]. *)
Definition inline_source (input : tokens) (dot : line_iterator) : wstring :=
  let src :=
    snd (gather_inline (Z.to_nat (dol_of input - dot)) input dot []) in
  if (wsize src >? 0) && (NL =? last src 0) then removelast src else src.

Definition count_kind (k : kind_type) (ts : tokens) : nat :=
  List.length (filter (fun t => kind_eqb k (kind t)) ts).

(** [[i, j)] is the longest stretch of characters of [s] that starts at
    [i], satisfies [pr] throughout and does not go beyond [limit]. *)
Definition fwd_run (pr : wchar -> bool) (s : wstring) (i j limit : Z) : Prop :=
  i <= j <= limit
  /\ (forall m, i <= m < j -> pr (at_index s m) = true)
  /\ (j = limit \/ pr (at_index s j) = false).

(** [[j, i)] is the longest stretch of characters of [s] that ends at
    [i], satisfies [pr] throughout and does not go below [limit]. *)
Definition back_run (pr : wchar -> bool) (s : wstring) (i j limit : Z) : Prop :=
  limit <= j <= i
  /\ (forall m, j <= m < i -> pr (at_index s m) = true)
  /\ (j = limit \/ pr (at_index s (j - 1)) = false).

(** [output'] is [output] with the text [[b, e)] added at the end: as a
    new TEXT token, or by extending a TEXT token that ends at [b]. *)
Definition appended_text (output : tokens) (b e : char_iterator)
    (output' : tokens) : Prop :=
  output' = output ++ [Token TEXT b e]
  \/ exists o t, output = o ++ [t] /\ kind t = TEXT /\ idx (cend t) = idx b
       /\ output' = o ++ [Token TEXT (cbegin t) e].

(** One of the characters [.,;:] *)
Definition is_punct (c : wchar) : bool :=
  (ch "." =? c) || (ch "," =? c) || (ch ";" =? c) || (ch ":" =? c).

(** What "on failure, emit the [!] as text and retry the bracket as a
    link" describes: the [!] becomes text and [parse_link] runs on the
    bracket that follows. *)
Definition image_retry_as_link (fuel : nat) (bos pos eos : char_iterator)
    (output : tokens) (dict : refdict_type) (nest : nests)
    : option inline_result :=
  let '(p, output) := parse_text pos (pos +! 1) output in
  parse_link (parse_inline_loop fuel dict) fuel bos p eos output dict nest.

(** The shape of an ATX heading line in the words of the specification:
    one to six [#], then a space. *)
Definition atx_claimed_shape (line : wstring) : Prop :=
  exists (h : nat) (rest : wstring),
    (1 <= h <= 6)%nat /\ line = repeat (ch "#") h ++ ch " " :: rest.

(** Executable counterparts of [fwd_run] and [back_run]. *)
Definition all_between (pr : wchar -> bool) (s : wstring) (i : Z) (k : nat)
    : bool :=
  forallb (fun d => pr (at_index s (i + Z.of_nat d))) (seq 0 k).

Definition fwd_run_b (pr : wchar -> bool) (s : wstring) (i j limit : Z)
    : bool :=
  (i <=? j) && (j <=? limit) && all_between pr s i (Z.to_nat (j - i))
  && ((j =? limit) || negb (pr (at_index s j))).

Definition back_run_b (pr : wchar -> bool) (s : wstring) (i j limit : Z)
    : bool :=
  (limit <=? j) && (j <=? i) && all_between pr s j (Z.to_nat (i - j))
  && ((j =? limit) || negb (pr (at_index s (j - 1)))).

(** *** Entities and general text escaping, in the words of the
    specification *)

Definition AMP : wchar := ch "&".
Definition SEMI : wchar := ch ";".

Definition is_alpha (c : wchar) : bool :=
  ((ch "A" <=? c) && (c <=? ch "Z")) || ((ch "a" <=? c) && (c <=? ch "z")).

(** A well-formed entity: named ([&amp;]), decimal ([&#123;]) or
    hexadecimal ([&#xAB;]). *)
Inductive entity : wstring -> Prop :=
  | entity_named (a : wchar) (body : wstring) :
      is_alpha a = true -> forallb ismdalnum body = true ->
      entity (AMP :: a :: body ++ [SEMI])
  | entity_decimal (d : wchar) (ds : wstring) :
      ismddigit d = true -> forallb ismddigit ds = true ->
      entity (AMP :: ch "#" :: d :: ds ++ [SEMI])
  | entity_hexadecimal (h : wchar) (hs : wstring) :
      ismdxdigit h = true -> forallb ismdxdigit hs = true ->
      entity (AMP :: ch "#" :: ch "x" :: h :: hs ++ [SEMI]).

(** [escaped src out]: [out] is [src] with every entity passed through,
    every other [&] replaced by [&amp;], the characters [<] and [>], the
    double quote and the single quote replaced by their entities, and all
    other characters unchanged. *)
Inductive escaped : wstring -> wstring -> Prop :=
  | escaped_nil : escaped [] []
  | escaped_entity (e rest out : wstring) :
      entity e -> escaped rest out -> escaped (e ++ rest) (e ++ out)
  | escaped_amp (rest out : wstring) :
      (forall e r, entity e -> AMP :: rest <> e ++ r) ->
      escaped rest out -> escaped (AMP :: rest) (L "&amp;" ++ out)
  | escaped_lt (rest out : wstring) :
      escaped rest out -> escaped (ch "<" :: rest) (L "&lt;" ++ out)
  | escaped_gt (rest out : wstring) :
      escaped rest out -> escaped (ch ">" :: rest) (L "&gt;" ++ out)
  | escaped_quot (rest out : wstring) :
      escaped rest out -> escaped (DQUOTE :: rest) (L "&quot;" ++ out)
  | escaped_apos (rest out : wstring) :
      escaped rest out -> escaped (SQUOTE :: rest) (L "&#39;" ++ out)
  | escaped_other (c : wchar) (rest out : wstring) :
      c <> AMP -> c <> ch "<" -> c <> ch ">" -> c <> DQUOTE -> c <> SQUOTE ->
      escaped rest out -> escaped (c :: rest) (c :: out).

(** What may still follow, up to and including the [;], when the
    automaton of [check_html5entity] is in [state]. *)
Inductive entity_rest : Z -> wstring -> Prop :=
  | rest_named (a : wchar) (w : wstring) :
      is_alpha a = true -> entity_rest 2 w -> entity_rest 1 (a :: w)
  | rest_numeric (w : wstring) :
      entity_rest 3 w -> entity_rest 1 (ch "#" :: w)
  | rest_name_end : entity_rest 2 [SEMI]
  | rest_name_more (c : wchar) (w : wstring) :
      ismdalnum c = true -> entity_rest 2 w -> entity_rest 2 (c :: w)
  | rest_decimal (d : wchar) (w : wstring) :
      ismddigit d = true -> entity_rest 4 w -> entity_rest 3 (d :: w)
  | rest_hexadecimal (w : wstring) :
      entity_rest 5 w -> entity_rest 3 (ch "x" :: w)
  | rest_decimal_end : entity_rest 4 [SEMI]
  | rest_decimal_more (d : wchar) (w : wstring) :
      ismddigit d = true -> entity_rest 4 w -> entity_rest 4 (d :: w)
  | rest_hex_first (h : wchar) (w : wstring) :
      ismdxdigit h = true -> entity_rest 6 w -> entity_rest 5 (h :: w)
  | rest_hex_end : entity_rest 6 [SEMI]
  | rest_hex_more (h : wchar) (w : wstring) :
      ismdxdigit h = true -> entity_rest 6 w -> entity_rest 6 (h :: w).

(** One step of the automaton. *)
Definition entity_step (state : Z) (c : wchar) : Z :=
  if (3 =? state) && (ch "x" =? c) then 5 else tbl_at state (entity_ccls c).

(** A character that [scan_quoted] steps over without changing level. *)
Definition inert (lq rq esc : wchar) (pr : wchar -> bool) (c : wchar) : Prop :=
  pr c = true /\ c <> esc /\ c <> rq /\ c <> lq
  /\ (lq = ch "(" -> c <> ch "<").

(** The ranges [[b, e)] and [[b', e')] hold the same characters. *)
Definition same_text (b e b' e' : char_iterator) : Prop :=
  idx e - idx b = idx e' - idx b'
  /\ forall n, 0 <= n < idx e - idx b ->
       at_index (str b) (idx b + n) = at_index (str b') (idx b' + n).

(** *** Reference links and inline links *)

(** The text [[a][b]] *)
Definition reference_form (a b : wstring) : wstring :=
  ch "[" :: a ++ ch "]" :: ch "[" :: b ++ [ch "]"].

(** The text [[a](uri "title")] *)
Definition inline_form (a uri title : wstring) : wstring :=
  ch "[" :: a ++ ch "]" :: ch "(" :: uri ++ ch " " :: DQUOTE :: title
  ++ [DQUOTE; ch ")"].

(** What the output builder adds to [output] for the inline text [src]:
    the two calls that [print_block] makes on a paragraph. *)
Definition render_inline (fuel : nat) (dict : refdict_type) (src : wstring)
    (output : ostream) : option ostream :=
  inline_input <- parse_inline fuel src [] dict ;;
  Some (print_inline inline_input output dict).

(** A link identifier without brackets and backslashes. *)
Definition plain_id (b : wstring) : bool :=
  negb (is_empty b)
  && forallb (fun c => ismdany c && negb (wfind c (L "[]\"))) b.

(** Texts made of segments: where segment [k] starts. *)
Definition offset (segs : list wstring) (k : nat) : Z :=
  wsize (List.concat (firstn k segs)).

Definition reference_segments (a b : wstring) : list wstring :=
  [[ch "["]; a; [ch "]"; ch "["]; b; [ch "]"]].

Definition inline_segments (a uri title : wstring) : list wstring :=
  [[ch "["]; a; [ch "]"; ch "("]; uri; [ch " "; DQUOTE]; title;
   [DQUOTE; ch ")"]].

Definition reference_attribute (rf : reflink_type) : tokens :=
  Token URI (cbegin_of (uri rf)) (cend_of (uri rf))
  :: (if negb (is_empty (title rf))
      then [Token TITLE (cbegin_of (title rf)) (cend_of (title rf))]
      else []).

(** *** Tokens up to what is read through [end ()] *)

(** Two tokens are the same up to the iterators of a block marker that
    covers no character. *)
Definition same_token (t t' : token_type) : Prop :=
  t = t'
  \/ (kind t = kind t' /\ kind_leb HRULE (kind t) = true
      /\ cbegin t = cend t /\ cbegin t' = cend t').

Definition same_tokens : tokens -> tokens -> Prop := Forall2 same_token.

(** Both runs stop at the same line, between [lo] and [hi], with the same
    tokens. *)
Definition same_result (lo hi : line_iterator)
    (r r' : line_iterator * tokens) : Prop :=
  fst r = fst r' /\ lo <= fst r <= hi /\ same_tokens (snd r) (snd r').

(** Both runs run out of fuel, or both return and [R] relates what they
    return. *)
Definition same_option {A : Type} (R : A -> A -> Prop) (o o' : option A)
    : Prop :=
  match o, o' with
  | Some x, Some x' => R x x'
  | None, None => True
  | _, _ => False
  end.

(** *** Characters of the output *)

(** The characters that end a text or an attribute value in HTML. *)
Definition html_special (c : wchar) : bool :=
  (c =? ch "<") || (c =? ch ">") || (c =? DQUOTE) || (c =? SQUOTE).

(** The characters that [print_with_escape_uri] writes: letters, digits,
    its safe punctuation, [%] and [&]. *)
Definition uri_char (c : wchar) : bool :=
  ismdalnum c || wfind c (L "-_.,:;*+=()/~?#%&").

(** A Unicode scalar value: a code point that is not a surrogate. *)
Definition scalar_value (c : wchar) : bool :=
  (0 <=? c) && (c <? 1114112) && negb ((55296 <=? c) && (c <? 57344)).

(** *** Backslash escapes and link identifiers *)

(** A text written with a backslash before every character that can be
    escaped. *)
Definition backslash_escaped (w : wstring) : wstring :=
  flat_map (fun c => if ismdescapable c then [ch "\"; c] else [c]) w.

(** The lower case form of an ASCII letter; other characters as they
    are. *)
Definition ascii_lower (c : wchar) : wchar :=
  if (ch "A" <=? c) && (c <=? ch "Z") then c + (ch "a" - ch "A") else c.

(** *** Plain paragraphs *)

(** A letter, a digit or a space. *)
Definition word_char (c : wchar) : bool := ismdalnum c || (c =? ch " ").

(** *** Reference definitions *)

(** A link label that can be written between brackets as it is, on one
    line. *)
Definition plain_label (b : wstring) : bool :=
  negb (is_empty b)
  && forallb (fun c => ismdprint c && negb (wfind c (L "[]\"))) b.

(** A target written without angle brackets; it can be empty. *)
Definition bare_target (u : wstring) : bool :=
  forallb ismdgraph u && negb (ch "<" =? at_index u 0).

(** The line [[b]: uri] *)
Definition definition_form (b uri : wstring) : wstring :=
  ch "[" :: b ++ ch "]" :: ch ":" :: ch " " :: uri ++ [NL].

(** The line [[b]: uri "title"] *)
Definition titled_definition_form (b uri title : wstring) : wstring :=
  ch "[" :: b ++ ch "]" :: ch ":" :: ch " " :: uri ++ ch " " :: DQUOTE
  :: title ++ [DQUOTE; NL].

Definition definition_segments (b uri tail : wstring) : list wstring :=
  [[ch "["]; b; [ch "]"; ch ":"; ch " "]; uri; tail].

(** The entry that a definition of [b] stores. *)
Definition definition_entry (b uri title : wstring) : reflink_type :=
  Reflink (decode_linkid (cbegin_of b) (cend_of b)) uri title.

(** A title that can be written between double quotes on the line of
    the definition. *)
Definition quoted_title (t : wstring) : bool :=
  negb (is_empty t) && forallb ismdprint t.

(** *** ATX headings *)

(** The line of [k] number signs, a space and the text [t]. *)
Definition atx_heading_form (k : nat) (t : wstring) : wstring :=
  repeat (ch "#") k ++ ch " " :: t ++ [NL].

Definition heading_level (k : nat) : Z := Z.min (Z.of_nat k) 6.

Definition heading_open (n : Z) : wstring := L "<h" ++ [ch "0" + n] ++ L ">".

Definition heading_close (n : Z) : wstring :=
  L "</h" ++ [ch "0" + n] ++ L ">" ++ [NL].

Definition atx_heading_segments (k : nat) (t : wstring) : list wstring :=
  [repeat (ch "#") k; [ch " "]; t; [NL]].

(** *** Horizontal rules *)

(** The characters of a rule line after the first: the rule character
    [d], spaces and tabs. *)
Definition rule_rest (d : wchar) (rest : wstring) : bool :=
  forallb (fun x => ismdspace x || (d =? x)) rest.

(** How many times [d] occurs in [l]. *)
Definition occurrences (d : wchar) (l : wstring) : Z :=
  Z.of_nat (List.length (filter (Z.eqb d) l)).

(** *** Code blocks *)

(** A character of code, with the ampersand, the angle brackets and the
    two quotes replaced by their entities. *)
Definition escape_code_char (c : wchar) : wstring :=
  if c =? ch "&" then L "&amp;"
  else if c =? ch "<" then L "&lt;"
  else if c =? ch ">" then L "&gt;"
  else if c =? DQUOTE then L "&quot;"
  else if c =? SQUOTE then L "&#39;"
  else [c].

Definition escape_code (w : wstring) : wstring := flat_map escape_code_char w.

(** *** Quotations and lists *)

(** The line [> t] *)
Definition blockquote_form (t : wstring) : wstring :=
  ch ">" :: ch " " :: t ++ [NL].

(** The line [m t] of a list item, [m] being its marker. *)
Definition list_item_form (m t : wstring) : wstring := m ++ ch " " :: t ++ [NL].

(** A number, as it begins an item of an ordered list. *)
Definition item_number (ds : wstring) : bool :=
  negb (is_empty ds) && forallb ismddigit ds.

(** *** Escaped text *)

(** [i] is where the escaped form of a prefix of [u] ends in the escaped
    form of [u]: a position between two characters of [u]. *)
Definition escape_boundary (u : wstring) (i : Z) : Prop :=
  exists u1 u2, u = u1 ++ u2 /\ i = wsize (backslash_escaped u1).

(** *** Underlined headings *)

(** The level of a heading underlined with [d]. *)
Definition setext_level (d : wchar) : Z := if ch "=" =? d then 1 else 2.

(** The text [t] on a line, underlined with [n] characters [d]. *)
Definition setext_heading_form (t : wstring) (d : wchar) (n : nat) : wstring :=
  t ++ [NL] ++ repeat d n ++ [NL].

(** *** Reading the same text in another buffer *)

(** The position of [p] in the buffer [s]. *)
Definition retarget (s : wstring) (p : char_iterator) : char_iterator :=
  Iter s (idx p).

(** The token [t] with its positions taken in [s]. *)
Definition retarget_token (s : wstring) (t : token_type) : token_type :=
  Token (kind t) (retarget s (cbegin t)) (retarget s (cend t)).

(** A token of the buffer [s] that begins in [[lo, hi)] and ends at
    [hi + 1] at the latest. *)
Definition inside (s : wstring) (lo hi : Z) (t : token_type) : Prop :=
  str (cbegin t) = s /\ lo <= idx (cbegin t) < hi /\ idx (cend t) <= hi + 1.

(** The frames above the lowest one that is not an emphasis frame. *)
Definition emphasis_frames (above : nests) : Prop :=
  Forall (fun f => 0 < n f) above.

(** Link text that the inline parser reads without looking past the
    closing bracket: outside backslash escapes it holds no backquote, no
    [<], no [!] and no bracket, and it does not end in a backslash. *)
Fixpoint link_text (a : wstring) : bool :=
  match a with
  | [] => true
  | c :: rest =>
      if ch "\" =? c then
        match rest with
        | [] => false
        | d :: rest' =>
            if ismdescapable d then link_text rest' else link_text rest
        end
      else negb (wfind c (L "`<![]")) && link_text rest
  end.

(** The same, for the characters of the buffer [s] from the position [i]
    to [hi]. *)
Inductive text_region (s : wstring) (hi : Z) : Z -> Prop :=
  | region_end : text_region s hi hi
  | region_escape (i : Z) :
      i + 1 < hi -> at_index s i = ch "\" ->
      ismdescapable (at_index s (i + 1)) = true ->
      text_region s hi (i + 2) -> text_region s hi i
  | region_backslash (i : Z) :
      i + 1 < hi -> at_index s i = ch "\" ->
      ismdescapable (at_index s (i + 1)) = false ->
      text_region s hi (i + 1) -> text_region s hi i
  | region_char (i : Z) :
      i < hi -> wfind (at_index s i) (L "\`<![]") = false ->
      text_region s hi (i + 1) -> text_region s hi i.

(** The parenthesised part [(uri "title")] of an inline link. *)
Definition paren_part (uri title : wstring) : wstring :=
  ch "(" :: uri ++ ch " " :: DQUOTE :: title ++ [DQUOTE; ch ")"].

Definition paren_segments (uri title : wstring) : list wstring :=
  [[ch "("]; uri; [ch " "; DQUOTE]; title; [DQUOTE; ch ")"]].

(** Is there a double quote just after a whitespace character? *)
Fixpoint white_quote (u : wstring) : bool :=
  match u with
  | [] => false
  | c :: rest =>
      match rest with
      | [] => false
      | d :: _ => (ismdwhite c && (DQUOTE =? d)) || white_quote rest
      end
  end.

(** A link target that [parse_link_paren] takes for the target when it
    stands before a title: it is not empty, does not begin with [<], does
    not end in whitespace and has no double quote after whitespace. *)
Definition target_ok (u : wstring) : bool :=
  negb (is_empty u) && negb (ch "<" =? at_index u 0)
  && negb (ismdwhite (at_index u (wsize u - 1))) && negb (white_quote u).

(** The parenthesised part, scanned by itself, closes at its last
    parenthesis: its parentheses are balanced, every [<] in it is closed
    by [>], and so on, as [scan_quoted] has it. *)
Definition paren_closes (uri title : wstring) : Prop :=
  exists fuel : nat,
    scan_quoted fuel (cbegin_of (paren_part uri title))
      (cend_of (paren_part uri title)) (ch "(") (ch ")") (ch "\") ismdany
    = Some (cend_of (paren_part uri title)).

(** The tokens that [parse_make_link] adds for a link that begins at
    [lo] and ends at [e] in the buffer [s]. *)
Definition link_tokens_at (s : wstring) (lo e : Z) (attribute inner : tokens)
    : tokens :=
  [Token SABEGIN (Iter s lo) (Iter s lo)] ++ attribute
  ++ [Token SAEND (Iter s lo) (Iter s lo)] ++ inner
  ++ [Token EA (Iter s e) (Iter s e)].

(** Two tokens of the same kind that cover the same characters. *)
Definition same_content (t t' : token_type) : Prop :=
  kind t = kind t'
  /\ same_text (cbegin t) (cend t) (cbegin t') (cend t')
  /\ slice (cbegin t) (cend t) = slice (cbegin t') (cend t').

(** What the output builder writes for a run of text that is one token. *)
Definition text_output (t : token_type) (output : ostream) : ostream :=
  let src := if cbegin t <! cend t then slice (cbegin t) (cend t) else [] in
  let text := unescape_backslash (cbegin_of src) (cend_of src) in
  print_with_escape_html (cbegin_of text) (cend_of text) output.

(** What the output builder writes for the opening tag of a link with
    the target [[ub, ue)] and the title [[tb, te)]. *)
Definition link_head_output (ub ue tb te : char_iterator) (output : ostream)
    : ostream :=
  let target := unescape_backslash ub ue in
  let output :=
    print_with_escape_uri (cbegin_of target) (cend_of target)
      (output ++ kindname SABEGIN) in
  let output :=
    if tb <! te then
      let title := unescape_backslash tb te in
      print_with_escape_html (cbegin_of title) (cend_of title)
        (output ++ kindname TITLE)
    else output in
  output ++ kindname SAEND.

(** Words and spaces on one line: no character that the inline parser
    treats specially apart from the space, and no newline. *)
Definition plain_words (w : wstring) : bool :=
  forallb (fun c => negb (wfind c (L "\`*_<![]")) && negb (c =? NL)) w.

(** The token of the text [[i, j)] of [s], if it is not empty. *)
Definition text_tokens (s : wstring) (i j : Z) : tokens :=
  if i <? j then [Token TEXT (Iter s i) (Iter s j)] else [].

(** No text can be joined to the last token of [base]. *)
Definition closed_tokens (base : tokens) : Prop :=
  is_empty base = true \/ kind_eqb TEXT (kind (back null_token base)) = false.
(** * Properties *)

(** ** More fuel never changes a result *)

(** The scrutinee at the head of a chain of nested [match]es. *)
Ltac head_scrutinee t :=
  lazymatch t with
  | match ?e with _ => _ end => head_scrutinee e
  | _ => t
  end.

Create HintDb fuel.

(** Compares the run with less fuel ([H]) with the run with more fuel (the
    goal) branch by branch: a test that does not depend on the fuel is
    decided once for both; a call that consumes fuel and succeeded in [H]
    succeeds with the same result in the goal. *)
Ltac fuel_auto :=
  repeat match goal with
  | H : Some _ = Some _ |- _ => injection H as H; try subst
  | H : None = Some _ |- _ => discriminate H
  | H : (_, _) = (_, _) |- _ => injection H as H; try subst
  | H : ?l = Some _ |- ?g = Some _ =>
      let e := head_scrutinee l in
      let e' := head_scrutinee g in
      lazymatch l with match _ with _ => _ end => idtac end;
      first
        [ constr_eq e e'; revert H; destruct e eqn:?; intro H
        | let E := fresh "E" in
          let x := fresh "x" in
          destruct e as [x|] eqn:E; [| discriminate H];
          let E' := fresh "E" in
          assert (E' : e' = Some x) by eauto with fuel;
          rewrite E'; clear E' ]
  end; eauto with fuel.

(** Induction on the fuel of a loop: [fuel] is generalised over the other
    arguments, the larger fuel is destructed, and the bodies are compared
    branch by branch. *)
Ltac fuel_induction fuel :=
  induction fuel as [|fuel IH]; [intros; discriminate|];
  intros fuel'; intros;
  destruct fuel' as [|fuel']; [lia|];
  assert ((fuel <= fuel')%nat) by lia;
  match goal with H : _ = Some _ |- _ => simpl in H |- * end;
  fuel_auto.

Lemma scan_quoted_mono_both (fuel : nat) :
  (forall fuel' pos eos lq rq esc pr r, (fuel <= fuel')%nat ->
     scan_quoted fuel pos eos lq rq esc pr = Some r ->
     scan_quoted fuel' pos eos lq rq esc pr = Some r)
  /\ (forall fuel' pos eos lq rq esc pr p level r, (fuel <= fuel')%nat ->
     scan_quoted_while fuel pos eos lq rq esc pr p level = Some r ->
     scan_quoted_while fuel' pos eos lq rq esc pr p level = Some r).
Proof.
  induction fuel as [|fuel [IH1 IH2]]; [split; intros; discriminate|].
  split; intros fuel' pos eos lq rq esc pr.
  - intros r Hle H. destruct fuel' as [|fuel']; [lia|].
    assert (Hle' : (fuel <= fuel')%nat) by lia.
    simpl in H |- *. fuel_auto.
  - intros p level r Hle H. destruct fuel' as [|fuel']; [lia|].
    assert (Hle' : (fuel <= fuel')%nat) by lia.
    simpl in H |- *. fuel_auto.
Qed.

Lemma scan_quoted_mono fuel fuel' pos eos lq rq esc pr r :
  (fuel <= fuel')%nat ->
  scan_quoted fuel pos eos lq rq esc pr = Some r ->
  scan_quoted fuel' pos eos lq rq esc pr = Some r.
Proof. apply scan_quoted_mono_both. Qed.

#[local] Hint Resolve scan_quoted_mono : fuel.

Lemma scan_htmlattr_mono fuel fuel' pos eos r :
  (fuel <= fuel')%nat ->
  scan_htmlattr fuel pos eos = Some r -> scan_htmlattr fuel' pos eos = Some r.
Proof. unfold scan_htmlattr. intros Hle H. fuel_auto. Qed.
#[local] Hint Resolve scan_htmlattr_mono : fuel.

Lemma scan_htmltag_while_mono fuel :
  forall fuel' eos p4 r, (fuel <= fuel')%nat ->
  scan_htmltag_while fuel eos p4 = Some r ->
  scan_htmltag_while fuel' eos p4 = Some r.
Proof. fuel_induction fuel. Qed.
#[local] Hint Resolve scan_htmltag_while_mono : fuel.

Lemma scan_htmltag_mono fuel fuel' pos eos tagname r :
  (fuel <= fuel')%nat ->
  scan_htmltag fuel pos eos tagname = Some r ->
  scan_htmltag fuel' pos eos tagname = Some r.
Proof. unfold scan_htmltag. intros Hle H. fuel_auto. Qed.
#[local] Hint Resolve scan_htmltag_mono : fuel.

Lemma parse_blockcode_while_mono fuel :
  forall fuel' pos eos p1 p2 p3 cb output r, (fuel <= fuel')%nat ->
  parse_blockcode_while fuel pos eos p1 p2 p3 cb output = Some r ->
  parse_blockcode_while fuel' pos eos p1 p2 p3 cb output = Some r.
Proof. fuel_induction fuel. Qed.
#[local] Hint Resolve parse_blockcode_while_mono : fuel.

Lemma parse_blockcode_mono fuel fuel' bos pos eos output r :
  (fuel <= fuel')%nat ->
  parse_blockcode fuel bos pos eos output = Some r ->
  parse_blockcode fuel' bos pos eos output = Some r.
Proof. unfold parse_blockcode. intros Hle H. fuel_auto. Qed.
#[local] Hint Resolve parse_blockcode_mono : fuel.

Lemma parse_blockhtml_while_mono fuel :
  forall fuel' pos eos p1 pat2 output r, (fuel <= fuel')%nat ->
  parse_blockhtml_while fuel pos eos p1 pat2 output = Some r ->
  parse_blockhtml_while fuel' pos eos p1 pat2 output = Some r.
Proof. fuel_induction fuel. Qed.
#[local] Hint Resolve parse_blockhtml_while_mono : fuel.

Lemma parse_blockhtml_mono fuel fuel' bos pos eos output r :
  (fuel <= fuel')%nat ->
  parse_blockhtml fuel bos pos eos output = Some r ->
  parse_blockhtml fuel' bos pos eos output = Some r.
Proof. unfold parse_blockhtml. intros Hle H. fuel_auto. Qed.
#[local] Hint Resolve parse_blockhtml_mono : fuel.

Lemma scan_refdef_id_mono fuel fuel' pos eos id r :
  (fuel <= fuel')%nat ->
  scan_refdef_id fuel pos eos id = Some r ->
  scan_refdef_id fuel' pos eos id = Some r.
Proof. unfold scan_refdef_id. intros Hle H. fuel_auto. Qed.
#[local] Hint Resolve scan_refdef_id_mono : fuel.

Lemma scan_refdef_uri_mono fuel fuel' pos eos uri r :
  (fuel <= fuel')%nat ->
  scan_refdef_uri fuel pos eos uri = Some r ->
  scan_refdef_uri fuel' pos eos uri = Some r.
Proof. unfold scan_refdef_uri. intros Hle H. fuel_auto. Qed.
#[local] Hint Resolve scan_refdef_uri_mono : fuel.

Lemma parse_refdef_mono fuel fuel' pos eos dict r :
  (fuel <= fuel')%nat ->
  parse_refdef fuel pos eos dict = Some r ->
  parse_refdef fuel' pos eos dict = Some r.
Proof. unfold parse_refdef. intros Hle H. fuel_auto. Qed.
#[local] Hint Resolve parse_refdef_mono : fuel.

Lemma split_lines_while_mono fuel :
  forall fuel' input p4 output dict r, (fuel <= fuel')%nat ->
  split_lines_while fuel input p4 output dict = Some r ->
  split_lines_while fuel' input p4 output dict = Some r.
Proof. fuel_induction fuel. Qed.

Lemma split_lines_mono fuel fuel' input output dict r :
  (fuel <= fuel')%nat ->
  split_lines fuel input output dict = Some r ->
  split_lines fuel' input output dict = Some r.
Proof. apply split_lines_while_mono. Qed.

Section BlockFuel.

Variable past_end : token_type.

Lemma parse_tabcode_while_mono fuel :
  forall fuel' input line1 dol output r, (fuel <= fuel')%nat ->
  parse_tabcode_while past_end fuel input line1 dol output = Some r ->
  parse_tabcode_while past_end fuel' input line1 dol output = Some r.
Proof. fuel_induction fuel. Qed.
Hint Resolve parse_tabcode_while_mono : fuel.

Lemma parse_tabcode_mono fuel fuel' input dot dol output r :
  (fuel <= fuel')%nat ->
  parse_tabcode past_end fuel input dot dol output = Some r ->
  parse_tabcode past_end fuel' input dot dol output = Some r.
Proof. unfold parse_tabcode. intros Hle H. fuel_auto. Qed.

Lemma parse_blockquote_while_mono fuel :
  forall fuel' input line1 dol block lazyline r, (fuel <= fuel')%nat ->
  parse_blockquote_while past_end fuel input line1 dol block lazyline = Some r ->
  parse_blockquote_while past_end fuel' input line1 dol block lazyline = Some r.
Proof. fuel_induction fuel. Qed.
Hint Resolve parse_blockquote_while_mono : fuel.

Lemma parse_blockquote_mono pb pb' fuel fuel' input dot dol output r :
  parse_blockquote past_end pb fuel input dot dol output = Some r ->
  (fuel <= fuel')%nat ->
  (forall block out r', pb block out = Some r' -> pb' block out = Some r') ->
  parse_blockquote past_end pb' fuel' input dot dol output = Some r.
Proof. unfold parse_blockquote. intros H Hle Hpb. fuel_auto. Qed.

Lemma parse_list_while_mono fuel :
  forall fuel' input line1 dol block indicator r, (fuel <= fuel')%nat ->
  parse_list_while past_end fuel input line1 dol block indicator = Some r ->
  parse_list_while past_end fuel' input line1 dol block indicator = Some r.
Proof. fuel_induction fuel. Qed.
Hint Resolve parse_list_while_mono : fuel.

Lemma parse_list_mono pb pb' fuel fuel' input dot dol output r :
  parse_list past_end pb fuel input dot dol output = Some r ->
  (fuel <= fuel')%nat ->
  (forall block out r', pb block out = Some r' -> pb' block out = Some r') ->
  parse_list past_end pb' fuel' input dot dol output = Some r.
Proof. unfold parse_list. intros H Hle Hpb. fuel_auto. Qed.

Hint Resolve parse_tabcode_mono parse_blockquote_mono parse_list_mono : fuel.

Lemma parse_block_while_mono fuel :
  forall fuel' input dot listitem output r, (fuel <= fuel')%nat ->
  parse_block_while past_end fuel input dot listitem output = Some r ->
  parse_block_while past_end fuel' input dot listitem output = Some r.
Proof. fuel_induction fuel. Qed.

Lemma parse_block_mono fuel fuel' input output r :
  (fuel <= fuel')%nat ->
  parse_block past_end fuel input output = Some r ->
  parse_block past_end fuel' input output = Some r.
Proof. apply parse_block_while_mono. Qed.

End BlockFuel.

Lemma parse_angle_mono fuel fuel' pos eos output r :
  (fuel <= fuel')%nat ->
  parse_angle fuel pos eos output = Some r ->
  parse_angle fuel' pos eos output = Some r.
Proof. unfold parse_angle. intros Hle H. fuel_auto. Qed.

Lemma parse_link_bracket_mono fuel fuel' pos eos ab ae attribute r :
  (fuel <= fuel')%nat ->
  parse_link_bracket fuel pos eos ab ae attribute = Some r ->
  parse_link_bracket fuel' pos eos ab ae attribute = Some r.
Proof. unfold parse_link_bracket. intros Hle H. fuel_auto. Qed.

Lemma parse_link_paren_mono fuel fuel' pos eos attribute r :
  (fuel <= fuel')%nat ->
  parse_link_paren fuel pos eos attribute = Some r ->
  parse_link_paren fuel' pos eos attribute = Some r.
Proof. unfold parse_link_paren. intros Hle H. fuel_auto. Qed.

#[local] Hint Resolve parse_angle_mono parse_link_bracket_mono
  parse_link_paren_mono : fuel.

Lemma parse_link_mono pil pil' fuel fuel' bos pos eos output dict nest r :
  parse_link pil fuel bos pos eos output dict nest = Some r ->
  (fuel <= fuel')%nat ->
  (forall b p e o n' r', pil b p e o n' = Some r' -> pil' b p e o n' = Some r') ->
  parse_link pil' fuel' bos pos eos output dict nest = Some r.
Proof. unfold parse_link. intros H Hle Hpil. fuel_auto. Qed.

Lemma parse_image_mono fuel fuel' pos eos output dict r :
  (fuel <= fuel')%nat ->
  parse_image fuel pos eos output dict = Some r ->
  parse_image fuel' pos eos output dict = Some r.
Proof. unfold parse_image. intros Hle H. fuel_auto. Qed.

#[local] Hint Resolve parse_link_mono parse_image_mono : fuel.

Lemma parse_inline_loop_mono fuel :
  forall fuel' dict bos pos eos output nest r, (fuel <= fuel')%nat ->
  parse_inline_loop fuel dict bos pos eos output nest = Some r ->
  parse_inline_loop fuel' dict bos pos eos output nest = Some r.
Proof. fuel_induction fuel. Qed.
#[local] Hint Resolve parse_inline_loop_mono : fuel.

Lemma parse_inline_while_mono fuel :
  forall fuel' dict bos pos eos output nest r, (fuel <= fuel')%nat ->
  parse_inline_while fuel dict bos pos eos output nest = Some r ->
  parse_inline_while fuel' dict bos pos eos output nest = Some r.
Proof. fuel_induction fuel. Qed.
#[local] Hint Resolve parse_inline_while_mono : fuel.

Lemma parse_inline_nest_mono fuel fuel' input output dict r :
  (fuel <= fuel')%nat ->
  parse_inline_nest fuel input output dict = Some r ->
  parse_inline_nest fuel' input output dict = Some r.
Proof. unfold parse_inline_nest. intros Hle H. fuel_auto. Qed.
#[local] Hint Resolve parse_inline_nest_mono : fuel.

Lemma parse_inline_mono fuel fuel' input output dict r :
  (fuel <= fuel')%nat ->
  parse_inline fuel input output dict = Some r ->
  parse_inline fuel' input output dict = Some r.
Proof. unfold parse_inline. intros Hle H. fuel_auto. Qed.
#[local] Hint Resolve parse_inline_mono : fuel.

Lemma print_block_while_mono fuel :
  forall fuel' input dot output dict r, (fuel <= fuel')%nat ->
  print_block_while fuel input dot output dict = Some r ->
  print_block_while fuel' input dot output dict = Some r.
Proof. fuel_induction fuel. Qed.

Lemma print_block_mono fuel fuel' input output dict r :
  (fuel <= fuel')%nat ->
  print_block fuel input output dict = Some r ->
  print_block fuel' input output dict = Some r.
Proof. apply print_block_while_mono. Qed.

#[local] Hint Resolve split_lines_mono parse_block_mono print_block_mono : fuel.

Lemma markdown_mono past_end fuel fuel' input output r :
  (fuel <= fuel')%nat ->
  markdown past_end fuel input output = Some r ->
  markdown past_end fuel' input output = Some r.
Proof. unfold markdown. intros Hle H. fuel_auto. Qed.

Lemma translate_mono past_end fuel fuel' input r :
  (fuel <= fuel')%nat ->
  translate past_end fuel input = Some r ->
  translate past_end fuel' input = Some r.
Proof. apply markdown_mono. Qed.

(** ** C3: the triple emphasis scenario *)

(** C3. translate applied to the input [***bold italic***\n] produces
    exactly [<p><strong><em>bold italic</em></strong></p>\n]. *)
Theorem translate_bold_italic :
  translates_to (L "***bold italic***" ++ [NL])
    (L "<p><strong><em>bold italic</em></strong></p>" ++ [NL]).
Proof.
  exists 40%nat. intros past_end fuel Hle.
  apply translate_mono with (fuel := 40%nat); [exact Hle|].
  vm_compute. reflexivity.
Qed.
(** ** Facts about the scanners *)

Lemma iter_eta (p : char_iterator) : Iter (str p) (idx p) = p.
Proof. destruct p; reflexivity. Qed.

(** A scan whose first character fails the test stays where it is. *)
Lemma scan_of_pred_stay pos eos n1 n2 pr :
  pr (deref pos) = false -> scan_of_pred pos eos n1 n2 pr = pos.
Proof.
  intros Hpr. unfold scan_of_pred.
  destruct (dist pos eos); simpl; rewrite ?Hpr;
    destruct ((n2 <? 0) || (0 <? n2)); destruct (0 <? n1); reflexivity.
Qed.

(** A scan from the end of the range stays where it is. *)
Lemma scan_of_pred_at_end pos eos n1 n2 pr :
  idx eos <= idx pos -> scan_of_pred pos eos n1 n2 pr = pos.
Proof.
  intros Hle. unfold scan_of_pred, dist.
  replace (Z.to_nat (idx eos - idx pos)) with O by lia. simpl.
  destruct ((n2 <? 0) || (0 <? n2)); destruct (0 <? n1); reflexivity.
Qed.

(** The unbounded scan [scan_of (p, eos, 0, -1, pr)] stops at the first
    character that fails [pr], or at [eos]. *)
Lemma scan_of_loop_unbounded k pr pos :
  forall p i n1, n1 <= i ->
  exists j, scan_of_loop k pr pos p i n1 (-1) = Iter (str p) j
    /\ idx p <= j <= idx p + Z.of_nat k
    /\ (forall m, idx p <= m < j -> pr (at_index (str p) m) = true)
    /\ (j = idx p + Z.of_nat k \/ pr (at_index (str p) j) = false).
Proof.
  induction k as [|k IH]; intros p i n1 Hi; simpl.
  - assert (E : (i <? n1) = false) by (apply Z.ltb_ge; lia). rewrite E.
    exists (idx p). rewrite iter_eta. repeat split; lia.
  - destruct (pr (deref p)) eqn:Hp.
    + destruct (IH (p +! 1) (i + 1) n1 ltac:(lia)) as (j & E & Hb & Hall & Hend).
      simpl in *. exists j. rewrite E. repeat split; try lia.
      * intros m Hm. destruct (Z.eq_dec m (idx p)) as [->|]; [exact Hp|].
        apply Hall. lia.
      * destruct Hend as [->|Hend]; [left; lia|right; exact Hend].
    + assert (E : (i <? n1) = false) by (apply Z.ltb_ge; lia). rewrite E.
      exists (idx p). rewrite iter_eta. repeat split; try lia.
      right. exact Hp.
Qed.

Lemma scan_of_pred_unbounded pos eos pr :
  idx pos <= idx eos ->
  exists j, scan_of_pred pos eos 0 (-1) pr = Iter (str pos) j
    /\ idx pos <= j <= idx eos
    /\ (forall m, idx pos <= m < j -> pr (at_index (str pos) m) = true)
    /\ (j = idx eos \/ pr (at_index (str pos) j) = false).
Proof.
  intros Hle. unfold scan_of_pred.
  destruct (@scan_of_loop_unbounded (dist pos eos) pr pos pos 0 0 ltac:(lia))
    as (j & E & Hb & Hall & Hend).
  unfold dist in *. rewrite Z2Nat.id in * by lia.
  exists j. repeat split; try assumption; try lia.
  destruct Hend; [left; lia | right; assumption].
Qed.

Lemma scan_of_loop_str k pr pos :
  forall p i n1 n2, str p = str pos ->
  str (scan_of_loop k pr pos p i n1 n2) = str pos.
Proof.
  induction k as [|k IH]; intros p i n1 n2 Hs; simpl;
    destruct ((n2 <? 0) || (i <? n2)); try destruct (pr (deref p));
    try destruct (i <? n1); auto.
Qed.

Lemma scan_of_pred_str pos eos n1 n2 pr :
  str (scan_of_pred pos eos n1 n2 pr) = str pos.
Proof. apply scan_of_loop_str. reflexivity. Qed.

Lemma scan_of_str pos eos n1 n2 c : str (scan_of pos eos n1 n2 c) = str pos.
Proof. apply scan_of_pred_str. Qed.

(** [scan_of (pos, eos, 1, 1, c)] steps over one [c]. *)
Lemma scan_of_pred_one pos eos pr :
  scan_of_pred pos eos 1 1 pr
  = if (pos <! eos) && pr (deref pos) then pos +! 1 else pos.
Proof.
  unfold scan_of_pred, dist, ilt.
  destruct (idx pos <? idx eos) eqn:Hlt.
  - apply Z.ltb_lt in Hlt.
    destruct (Z.to_nat (idx eos - idx pos)) as [|k] eqn:Hk; [lia|].
    simpl. destruct (pr (deref pos)); [|reflexivity].
    destruct k; reflexivity.
  - apply Z.ltb_ge in Hlt.
    replace (Z.to_nat (idx eos - idx pos)) with O by lia. reflexivity.
Qed.

(** ** C10: blank input *)

Lemma ismdwhite_cases c : ismdwhite c = true -> c = 10 \/ c = 9 \/ c = 32.
Proof.
  unfold ismdwhite, NL, TAB. change (ch " ") with 32. intros H.
  apply orb_prop in H as [H|H]; [apply orb_prop in H as [H|H]|];
    apply Z.eqb_eq in H; lia.
Qed.

Lemma at_index_blank input i :
  blank_input input ->
  (0 <= i < wsize input -> ismdwhite (at_index input i) = true)
  /\ (at_index input i = 0 \/ ismdwhite (at_index input i) = true).
Proof.
  intros Hb. unfold at_index, wsize.
  destruct (i <? 0) eqn:Hi; [split; [lia|left; reflexivity]|].
  apply Z.ltb_ge in Hi.
  destruct (Nat.lt_ge_cases (Z.to_nat i) (List.length input)) as [Hlt|Hge].
  - assert (H : ismdwhite (nth (Z.to_nat i) input 0) = true).
    { unfold blank_input in Hb. rewrite Forall_forall in Hb.
      apply Hb. apply nth_In. exact Hlt. }
    split; [intros _; exact H | right; exact H].
  - rewrite nth_overflow by exact Hge. split; [lia | left; reflexivity].
Qed.

Lemma parse_blockcode_skips fuel bos pos eos output :
  (ch "`" =? deref pos) = false ->
  parse_blockcode fuel bos pos eos output = Some (pos, output).
Proof.
  intros H. unfold parse_blockcode.
  destruct (_ && _); [reflexivity|]. destruct (_ && _); [reflexivity|].
  unfold scan_of at 1. rewrite scan_of_pred_stay by exact H.
  unfold ieq. rewrite Z.eqb_refl. reflexivity.
Qed.

Lemma parse_blockhtml_skips fuel bos pos eos output :
  (ch "<" =? deref pos) = false ->
  parse_blockhtml fuel bos pos eos output = Some (pos, output).
Proof.
  intros H. unfold parse_blockhtml.
  destruct (_ && _); [reflexivity|]. destruct (_ && _); [reflexivity|].
  unfold scan_htmltag, scan_htmlcomment.
  unfold scan_of at 1. rewrite scan_of_pred_stay by exact H.
  assert (Hnlt : (pos <! pos) = false) by (apply Z.ltb_irrefl).
  rewrite Hnlt. simpl. rewrite Hnlt.
  unfold scan_of at 1. rewrite scan_of_pred_stay by exact H.
  rewrite Hnlt. simpl.
  unfold ieq. rewrite Z.eqb_refl. reflexivity.
Qed.

Lemma scan_quoted_unfold fuel pos eos lq rq esc pr :
  scan_quoted (S fuel) pos eos lq rq esc pr
  = if negb ((pos <! eos) && (lq =? deref pos)) then Some pos
    else scan_quoted_while fuel pos eos lq rq esc pr (pos +! 1) 1.
Proof. reflexivity. Qed.

Lemma scan_quoted_no_open fuel pos eos lq rq esc pr :
  (lq =? deref pos) = false ->
  scan_quoted (S fuel) pos eos lq rq esc pr = Some pos.
Proof.
  intros H. rewrite scan_quoted_unfold, H, andb_false_r. reflexivity.
Qed.

Lemma parse_refdef_skips fuel pos eos dict :
  (forall i, (ch "[" =? at_index (str pos) i) = false) ->
  parse_refdef (S fuel) pos eos dict = Some (pos, dict).
Proof.
  intros H. unfold parse_refdef, scan_refdef_id.
  set (p1 := scan_tab_not pos eos).
  assert (Hq : scan_quoted (S fuel) p1 eos (ch "[") (ch "]") (ch "\") ismdprint
               = Some p1).
  { apply scan_quoted_no_open. unfold deref.
    replace (str p1) with (str pos) by (symmetry; apply scan_of_str).
    apply H. }
  rewrite Hq.
  assert (Hnlt : (p1 <! p1) = false) by (apply Z.ltb_irrefl).
  rewrite Hnlt. simpl.
  unfold ieq. rewrite Z.eqb_refl. reflexivity.
Qed.

Lemma split_lines_while_unfold fuel' input p4 output dict :
  split_lines_while (S fuel') input p4 output dict
  = let bos := cbegin_of input in
    let eos := cend_of input in
    if p4 <! eos then
      let p1 := p4 in
      '(p4, output) <- parse_blockcode fuel' bos p1 eos output ;;
      if p1 <! p4 then split_lines_while fuel' input p4 output dict else
      '(p4, output) <- parse_blockhtml fuel' bos p1 eos output ;;
      if p1 <! p4 then split_lines_while fuel' input p4 output dict else
      '(p4, dict) <- parse_refdef fuel' p1 eos dict ;;
      if p1 <! p4 then split_lines_while fuel' input p4 output dict else
      let p2 := scan_of_pred p1 eos 0 (-1) ismdspace in
      let p3 := scan_of_pred p2 eos 0 (-1) ismdprint in
      let p4 := scan_of p3 eos 1 1 NL in
      let output :=
        if p2 ==! p3 then push_back output (Token BLANK p3 p4)
        else push_back output (Token LINE p1 p4) in
      split_lines_while fuel' input p4 output dict
    else Some (output, dict).
Proof. reflexivity. Qed.

Lemma blank_char_tests c :
  c = 0 \/ ismdwhite c = true ->
  (ch "`" =? c) = false /\ (ch "<" =? c) = false /\ (ch "[" =? c) = false
  /\ (ismdspace c = false -> ismdprint c = false /\ (c = 0 \/ c = NL)).
Proof.
  intros H.
  assert (Hc : c = 0 \/ c = 10 \/ c = 9 \/ c = 32)
    by (destruct H as [->|H]; [auto | right; apply ismdwhite_cases, H]).
  destruct Hc as [-> | [-> | [-> | ->]]];
    (split; [reflexivity|]); (split; [reflexivity|]); (split; [reflexivity|]);
    intros Hs; try discriminate Hs; (split; [reflexivity|]);
    [left | right]; reflexivity.
Qed.

Lemma split_lines_blank_step fuel input p output dict :
  blank_input input -> str p = input -> 0 <= idx p < wsize input ->
  exists p' t, str p' = input /\ idx p < idx p' <= wsize input
    /\ kind t = BLANK
    /\ split_lines_while (S (S fuel)) input p output dict
       = split_lines_while (S fuel) input p' (push_back output t) dict.
Proof.
  intros Hb Hs Hi.
  assert (Hc : forall i, at_index input i = 0 \/ ismdwhite (at_index input i) = true)
    by (intros i; apply at_index_blank; exact Hb).
  rewrite split_lines_while_unfold. cbv zeta.
  assert (Hlt : (p <! cend_of input) = true)
    by (apply Z.ltb_lt; unfold wsize in Hi; simpl; lia).
  assert (Hnlt : (p <! p) = false) by apply Z.ltb_irrefl.
  rewrite Hlt.
  rewrite parse_blockcode_skips
    by (unfold deref; rewrite Hs; apply blank_char_tests, Hc).
  rewrite Hnlt.
  rewrite parse_blockhtml_skips
    by (unfold deref; rewrite Hs; apply blank_char_tests, Hc).
  rewrite Hnlt.
  rewrite parse_refdef_skips
    by (intros i; rewrite Hs; apply blank_char_tests, Hc).
  rewrite Hnlt.
  destruct (scan_of_pred_unbounded p (cend_of input) ismdspace)
    as (j2 & E2 & Hb2 & Hall2 & Hend2); [simpl; unfold wsize in Hi; lia|].
  rewrite E2, Hs in *. simpl in Hb2, Hend2.
  assert (E3 : scan_of_pred (Iter input j2) (cend_of input) 0 (-1) ismdprint
               = Iter input j2).
  { destruct Hend2 as [->|Hns].
    - apply scan_of_pred_at_end. simpl. lia.
    - apply scan_of_pred_stay. unfold deref. simpl.
      apply (blank_char_tests (Hc j2)). exact Hns. }
  rewrite E3. unfold ieq at 1. simpl idx. rewrite Z.eqb_refl.
  unfold scan_of. rewrite scan_of_pred_one.
  match goal with |- context [Token BLANK _ ?q] => set (p4 := q) end.
  exists p4, (Token BLANK (Iter input j2) p4).
  assert (Hp4 : str p4 = input /\ idx p < idx p4 <= wsize input).
  { subst p4. unfold deref. cbn [str idx].
    destruct (Iter input j2 <! cend_of input) eqn:Hj;
      unfold ilt, cend_of in Hj; cbn [idx] in Hj.
    - apply Z.ltb_lt in Hj.
      destruct (NL =? at_index input j2) eqn:Hnl; cbn [andb iadd str idx];
        (split; [reflexivity|]); unfold wsize; try lia.
      destruct Hend2 as [->|Hns]; [lia|].
      destruct (Z.eq_dec j2 (idx p)) as [->|]; [|lia].
      exfalso.
      destruct (blank_char_tests (Hc (idx p))) as (_ & _ & _ & Hx).
      destruct (Hx Hns) as (_ & [H0|Hn]).
      + pose proof (proj1 (at_index_blank (idx p) Hb) Hi) as Hw.
        rewrite H0 in Hw. discriminate.
      + rewrite Hn in Hnl. discriminate.
    - apply Z.ltb_ge in Hj. cbn [andb str idx]. split; [reflexivity|].
      unfold wsize in *. lia. }
  destruct Hp4 as (Hs4 & Hi4). repeat split; try assumption; lia.
Qed.

Lemma split_lines_while_blank input :
  blank_input input ->
  forall (k : nat) p output dict fuel,
    str p = input -> 0 <= idx p <= wsize input ->
    wsize input - idx p <= Z.of_nat k -> (k + 2 <= fuel)%nat ->
    exists bl, all_blank bl /\ (List.length bl <= k)%nat
      /\ split_lines_while fuel input p output dict = Some (output ++ bl, dict).
Proof.
  intros Hb. induction k as [|k IH]; intros p output dict fuel Hs Hi Hk Hf.
  - exists []. repeat split; [constructor | simpl; lia |].
    destruct fuel as [|fuel]; [lia|]. rewrite split_lines_while_unfold.
    cbv zeta. replace (p <! cend_of input) with false
      by (symmetry; apply Z.ltb_ge; unfold wsize in *; simpl; lia).
    rewrite app_nil_r. reflexivity.
  - destruct fuel as [|[|fuel]]; try lia.
    destruct (Z.eq_dec (idx p) (wsize input)) as [Heq|Hne].
    + exists []. repeat split; [constructor | simpl; lia |].
      rewrite split_lines_while_unfold.
      cbv zeta. replace (p <! cend_of input) with false
        by (symmetry; apply Z.ltb_ge; unfold wsize in *; simpl; lia).
      rewrite app_nil_r. reflexivity.
    + destruct (@split_lines_blank_step fuel input p output dict Hb Hs)
        as (p' & t & Hs' & Hi' & Ht & E); [lia|].
      rewrite E.
      destruct (IH p' (push_back output t) dict (S fuel) Hs')
        as (bl & Hbl & Hlen & E'); try lia.
      exists (t :: bl). repeat split.
      * constructor; assumption.
      * simpl; lia.
      * rewrite E'. unfold push_back. rewrite <- app_assoc. reflexivity.
Qed.

Lemma tok_in_range pe (input : tokens) (i : Z) :
  0 <= i < dol_of input -> In (tok pe input i) input.
Proof.
  intros Hi. unfold tok, dol_of in *.
  replace (i <? 0) with false by (symmetry; apply Z.ltb_ge; lia).
  apply nth_In. lia.
Qed.

Lemma kind_of_blank pe (input : tokens) (i : Z) :
  all_blank input -> 0 <= i < dol_of input -> kind (tok pe input i) = BLANK.
Proof.
  intros Hb Hi. unfold all_blank in Hb. rewrite Forall_forall in Hb.
  apply Hb, tok_in_range, Hi.
Qed.

Lemma parse_block_while_blank pe (input : tokens) :
  all_blank input ->
  forall (k : nat) dot listitem output fuel,
    0 <= dot <= dol_of input -> dol_of input - dot <= Z.of_nat k ->
    (k + 1 <= fuel)%nat ->
    exists bl, all_blank bl
      /\ parse_block_while pe fuel input dot listitem output
         = Some (output ++ bl).
Proof.
  intros Hb. induction k as [|k IH]; intros dot listitem output fuel Hd Hk Hf;
    (destruct fuel as [|fuel]; [lia|]); cbn [parse_block_while].
  - replace (dot =? dol_of input) with true by (symmetry; apply Z.eqb_eq; lia).
    exists []. split; [constructor | rewrite app_nil_r; reflexivity].
  - destruct (dot =? dol_of input) eqn:Hdot; cbn [negb].
    + exists []. split; [constructor | rewrite app_nil_r; reflexivity].
    + apply Z.eqb_neq in Hdot.
      rewrite (@kind_of_blank pe input dot Hb) by lia.
      change (kind_eqb LINE BLANK) with false.
      change (kind_eqb SLITEM BLANK) with false. cbv iota.
      destruct (IH (dot + 1) listitem (push_back output (tok pe input dot)) fuel)
        as (bl & Hbl & E); try lia.
      rewrite E. exists (tok pe input dot :: bl). split.
      * constructor; [apply (@kind_of_blank pe input dot Hb); lia | exact Hbl].
      * unfold push_back. rewrite <- app_assoc. reflexivity.
Qed.

Lemma skip_kind_blank pe (input : tokens) :
  all_blank input ->
  forall (k : nat) dot, 0 <= dot -> dot + Z.of_nat k <= dol_of input ->
  skip_kind pe k BLANK input dot = dot + Z.of_nat k.
Proof.
  intros Hb. induction k as [|k IH]; intros dot H0 Hk; cbn [skip_kind].
  - lia.
  - rewrite (@kind_of_blank pe input dot Hb) by lia.
    change (kind_eqb BLANK BLANK) with true. cbv iota.
    rewrite IH by lia. lia.
Qed.

Lemma print_block_blank (input : tokens) output dict fuel :
  all_blank input -> print_block (S fuel) input output dict = Some output.
Proof.
  intros Hb. unfold print_block.
  rewrite (@skip_kind_blank null_token input Hb) by (unfold dol_of; lia).
  cbn [print_block_while]. unfold dol_of. rewrite Nat2Z.id.
  replace (0 + Z.of_nat (List.length input) <? Z.of_nat (List.length input))
    with false by (symmetry; apply Z.ltb_ge; lia).
  reflexivity.
Qed.

(** C10. For the empty input and for every input made of spaces, tabs and
    newlines only, translate produces the empty output. *)
Theorem translate_blank_input (input : wstring) :
  blank_input input -> translates_to input [].
Proof.
  intros Hb. exists (List.length input + 2)%nat. intros past_end fuel Hf.
  unfold translate, markdown, split_lines.
  destruct (@split_lines_while_blank input Hb (List.length input)
              (cbegin_of input) [] [] fuel)
    as (bl & Hbl & Hlen & E); try reflexivity;
    try (unfold wsize; simpl; lia).
  rewrite E. simpl app.
  destruct (@parse_block_while_blank past_end bl Hbl (List.length bl) 0 false
              [] fuel)
    as (bl' & Hbl' & E'); try (unfold dol_of; lia).
  unfold parse_block. rewrite E'. simpl app.
  destruct fuel as [|fuel]; [lia|].
  apply print_block_blank. exact Hbl'.
Qed.

Lemma translate_blank_input_witness :
  blank_input (L "  " ++ [NL; TAB; NL])
  /\ translates_to (L "  " ++ [NL; TAB; NL]) [].
Proof.
  assert (H : blank_input (L "  " ++ [NL; TAB; NL]))
    by (repeat constructor).
  split; [exact H | apply (@translate_blank_input _ H)].
Defined.

(** ** C9: an input on which the translator does not return *)

Lemma parse_image_stuck fuel pos eos output dict :
  (pos <! eos) = true -> (ch "!" =? deref pos) = true ->
  ((pos +! 1 <! eos) && (ch "[" =? peek pos 1)) = false ->
  parse_image fuel pos eos output dict = Some (pos, output).
Proof.
  intros Hlt Hbang Hnb. unfold parse_image.
  unfold scan_of. rewrite !scan_of_pred_one. rewrite Hlt, Hbang. cbn [andb].
  unfold peek in Hnb. rewrite Hnb.
  replace (pos +! 1 ==! pos +! 1) with true
    by (symmetry; apply Z.eqb_refl).
  rewrite orb_true_r. reflexivity.
Qed.

(** At a [!] that is not followed by [[], the inline loop makes no
    progress: [parse_image] returns [pos] and the loop tests the same
    character again. *)
Lemma parse_inline_loop_stuck dict bos pos eos :
  (pos <! eos) = true -> (ch "!" =? deref pos) = true ->
  ((pos +! 1 <! eos) && (ch "[" =? peek pos 1)) = false ->
  forall fuel output nest,
    parse_inline_loop fuel dict bos pos eos output nest = None.
Proof.
  intros Hlt Hbang Hnb. apply Z.eqb_eq in Hbang.
  induction fuel as [|fuel IH]; intros output nest; [reflexivity|].
  cbn [parse_inline_loop]. rewrite Hlt, <- Hbang.
  change (negb (ch "]" =? ch "!")) with true. cbn [andb].
  change (ch " " =? ch "!") with false.
  change (ch "\" =? ch "!") with false.
  change (ch "`" =? ch "!") with false.
  change (ch "*" =? ch "!") with false.
  change (ch "_" =? ch "!") with false.
  change (ch "<" =? ch "!") with false.
  change (ch "[" =? ch "!") with false.
  change (ch "!" =? ch "!") with true. cbn [orb].
  rewrite parse_image_stuck; try assumption.
  - apply IH.
  - rewrite <- Hbang. reflexivity.
Qed.

Lemma parse_inline_stuck_hello dict fuel :
  parse_inline fuel (L "Hello!") [] dict = None.
Proof.
  unfold parse_inline, parse_inline_nest.
  destruct fuel as [|[|fuel]]; try reflexivity.
  cbn [parse_inline_while]. change (cbegin_of (L "Hello!") <! cend_of (L "Hello!")) with true.
  cbv iota.
  cbn [parse_inline_loop].
  set (s := L "Hello!").
  change (cbegin_of s <! cend_of s) with true.
  change (deref (cbegin_of s)) with (ch "H").
  change (negb (ch "]" =? ch "H")) with true. cbn [andb].
  change (ch " " =? ch "H") with false.
  change (ch "\" =? ch "H") with false.
  change (ch "`" =? ch "H") with false.
  change (ch "*" =? ch "H") with false.
  change (ch "_" =? ch "H") with false.
  change (ch "<" =? ch "H") with false.
  change (ch "[" =? ch "H") with false.
  change (ch "!" =? ch "H") with false. cbn [orb]. cbv iota.
  change (std_find_first_of (cbegin_of s) (cend_of s) (L " \`*_<![]"))
    with (Iter s 5).
  change (parse_text (cbegin_of s) (Iter s 5) [])
    with (Iter s 5, [Token TEXT (Iter s 0) (Iter s 5)]).
  cbv iota beta.
  rewrite parse_inline_loop_stuck; reflexivity.
Qed.

Lemma print_block_while_marker fuel input dot output dict :
  (dot <? dol_of input) = true ->
  kind_eqb BLANK (kind (tk input dot)) = false ->
  kind_leb HRULE (kind (tk input dot)) = true ->
  kind_eqb SOLIST (kind (tk input dot)) || kind_eqb SULIST (kind (tk input dot))
  = false ->
  print_block_while (S fuel) input dot output dict
  = print_block_while fuel input (dot + 1)
      (output ++ kindname (kind (tk input dot))) dict.
Proof.
  intros Hlt Hb Hm Hl. cbn [print_block_while].
  rewrite Hlt, Hb, Hm, Hl.
  replace (dot =? dot + 1) with false by (symmetry; apply Z.eqb_neq; lia).
  reflexivity.
Qed.

Lemma print_block_while_inline_stuck input dot dict :
  (dot <? dol_of input) = true ->
  kind (tk input dot) = INLINE ->
  (forall fuel, parse_inline fuel (inline_source input dot) [] dict = None) ->
  forall fuel output, print_block_while fuel input dot output dict = None.
Proof.
  intros Hlt Hk Hnone fuel output. destruct fuel as [|fuel]; [reflexivity|].
  cbn [print_block_while]. rewrite Hlt, Hk.
  change (kind_eqb BLANK INLINE) with false.
  change (kind_leb HRULE INLINE) with false.
  change (kind_eqb HTML INLINE) with false.
  change (kind_eqb CODE INLINE) with false.
  change (kind_eqb INLINE INLINE) with true. cbv iota.
  specialize (Hnone fuel). unfold inline_source in Hnone.
  destruct (gather_inline _ input dot []) as [dot' src]. cbn [snd] in Hnone.
  match goal with
  | |- context [parse_inline fuel ?s [] dict] =>
      replace (parse_inline fuel s [] dict) with (@None tokens)
        by (symmetry; exact Hnone)
  end.
  reflexivity.
Qed.

(** C9 (the code departs from the claim). On the input [Hello!\n] the
    translator never returns, whatever fuel it is given: the inline loop
    stays at the [!] for ever. *)
Theorem translate_hello_bang_diverges : diverges (L "Hello!" ++ [NL]).
Proof.
  intros past_end fuel.
  destruct (translate past_end fuel (L "Hello!" ++ [NL])) as [w|] eqn:E;
    [exfalso | reflexivity].
  apply translate_mono with (fuel' := (40 + fuel)%nat) in E; [|lia].
  unfold translate, markdown in E.
  set (input := L "Hello!" ++ [NL]) in *.
  assert (Hs : split_lines (40 + fuel) input [] []
               = Some ([Token LINE (Iter input 0) (Iter input 7)], [])).
  { apply split_lines_mono with (fuel := 40%nat); [lia|].
    vm_compute. reflexivity. }
  rewrite Hs in E.
  assert (Hp : parse_block past_end (40 + fuel)
                 [Token LINE (Iter input 0) (Iter input 7)] []
               = Some [Token SPARAGRAPH (Iter input 0) (Iter input 0);
                       Token INLINE (Iter input 0) (Iter input 7);
                       Token EPARAGRAPH (cbegin past_end) (cbegin past_end)]).
  { apply parse_block_mono with (fuel := 40%nat); [lia|].
    vm_compute. reflexivity. }
  rewrite Hp in E. clear Hs Hp.
  set (toks := [Token SPARAGRAPH _ _; _; _]) in E.
  unfold print_block in E.
  change (skip_kind null_token (Z.to_nat (dol_of toks)) BLANK toks 0)
    with 0 in E.
  change (40 + fuel)%nat with (S (39 + fuel)) in E.
  rewrite print_block_while_marker in E by reflexivity.
  rewrite print_block_while_inline_stuck in E; [discriminate E | reflexivity..|].
  intros f. change (inline_source toks (0 + 1)) with (L "Hello!").
  apply parse_inline_stuck_hello.
Qed.

(** ** C2: what the inline parser leaves behind *)

Lemma demote_all_empties :
  forall (k : nat) output nest, (List.length nest <= k)%nat ->
  snd (demote_all k output nest) = [].
Proof.
  induction k as [|k IH]; intros output nest Hk.
  - destruct nest; [reflexivity | simpl in Hk; lia].
  - cbn [demote_all]. destruct nest as [|f nest']; [reflexivity|].
    cbn [is_empty negb]. apply IH. unfold pop_back.
    destruct (@exists_last _ (f :: nest') ltac:(discriminate)) as (q & x & E).
    rewrite E, removelast_last.
    apply (f_equal (@List.length _)) in E. rewrite length_app in E.
    simpl in *. lia.
Qed.

(** The emphasis nest stack is empty when [parse_inline] returns. *)
Lemma parse_inline_nest_empty fuel input output dict out nest :
  parse_inline_nest fuel input output dict = Some (out, nest) -> nest = [].
Proof.
  unfold parse_inline_nest. intros H.
  destruct (parse_inline_while _ _ _ _ _ _ _) as [[o n0]|]; [|discriminate].
  injection H as H. rewrite <- (@demote_all_empties (List.length n0) o n0 (le_n _)).
  rewrite H. reflexivity.
Qed.

(** C2 (the code departs from the claim). On [***a] the inline parser
    returns with an empty nest stack, but the zero-width SEM that was
    emitted with the triple run is still in the token sequence and has no
    EEM: both frames of the triple run point at the SSTRONG token, which is
    the only one rewritten to TEXT.  The translator prints the unclosed
    [<em>]. *)
Theorem parse_inline_leaves_unmatched_sem :
  let s := L "***a" in
  let out := [Token TEXT (Iter s 0) (Iter s 3);
              Token SEM (Iter s 0) (Iter s 0);
              Token TEXT (Iter s 3) (Iter s 4)] in
  parse_inline_nest 20 s [] [] = Some (out, [])
  /\ count_kind SEM out = 1%nat /\ count_kind EEM out = 0%nat
  /\ translates_to (s ++ [NL]) (L "<p>***<em>a</p>" ++ [NL]).
Proof.
  cbv zeta. split; [vm_compute; reflexivity|].
  split; [reflexivity|]. split; [reflexivity|].
  exists 40%nat. intros past_end fuel Hle.
  apply translate_mono with (fuel := 40%nat); [exact Hle|].
  vm_compute. reflexivity.
Qed.

(** ** Scans compute maximal runs *)

Lemma fwd_run_unique pr s i j j' limit :
  fwd_run pr s i j limit -> fwd_run pr s i j' limit -> j = j'.
Proof.
  intros (Hb & Hall & Hend) (Hb' & Hall' & Hend').
  destruct (Z.lt_trichotomy j j') as [Hlt|[Heq|Hgt]]; [|exact Heq|].
  - destruct Hend as [->|Hf]; [lia|].
    rewrite Hall' in Hf by lia. discriminate.
  - destruct Hend' as [->|Hf]; [lia|].
    rewrite Hall in Hf by lia. discriminate.
Qed.

Lemma back_run_unique pr s i j j' limit :
  back_run pr s i j limit -> back_run pr s i j' limit -> j = j'.
Proof.
  intros (Hb & Hall & Hend) (Hb' & Hall' & Hend').
  destruct (Z.lt_trichotomy j j') as [Hlt|[Heq|Hgt]]; [|exact Heq|].
  - destruct Hend' as [->|Hf]; [lia|].
    rewrite Hall in Hf by lia. discriminate.
  - destruct Hend as [->|Hf]; [lia|].
    rewrite Hall' in Hf by lia. discriminate.
Qed.

(** Once [n1] characters have been seen, [n1] no longer matters. *)
Lemma scan_of_loop_seen k pr pos :
  forall p i n1 n1' n2, n1 <= i -> n1' <= i ->
  scan_of_loop k pr pos p i n1 n2 = scan_of_loop k pr pos p i n1' n2.
Proof.
  induction k as [|k IH]; intros p i n1 n1' n2 H H'; simpl;
    replace (i <? n1) with false by (symmetry; apply Z.ltb_ge; lia);
    replace (i <? n1') with false by (symmetry; apply Z.ltb_ge; lia);
    [reflexivity|].
  destruct ((n2 <? 0) || (i <? n2)); [|reflexivity].
  destruct (pr (deref p)); [|reflexivity].
  apply IH; lia.
Qed.

Lemma scan_of_pred_min1 pos eos n2 pr :
  scan_of_pred pos eos 1 n2 pr = scan_of_pred pos eos 0 n2 pr.
Proof.
  unfold scan_of_pred. destruct (dist pos eos) as [|k]; simpl.
  - destruct ((n2 <? 0) || (0 <? n2)); reflexivity.
  - destruct ((n2 <? 0) || (0 <? n2)); [|reflexivity].
    destruct (pr (deref pos)); [|reflexivity].
    apply scan_of_loop_seen; lia.
Qed.

(** A scan of at most [n2 - i] more characters. *)
Lemma scan_of_loop_bounded k pr pos :
  forall p i n2, 0 <= i <= n2 ->
  exists j, scan_of_loop k pr pos p i 0 n2 = Iter (str p) j
    /\ fwd_run pr (str p) (idx p) j
         (Z.min (idx p + Z.of_nat k) (idx p + (n2 - i))).
Proof.
  induction k as [|k IH]; intros p i n2 Hi; simpl.
  - replace (i <? 0) with false by (symmetry; apply Z.ltb_ge; lia).
    exists (idx p). rewrite iter_eta.
    split; [destruct ((n2 <? 0) || (i <? n2)); reflexivity|].
    repeat split; try lia.
  - replace (n2 <? 0) with false by (symmetry; apply Z.ltb_ge; lia).
    cbn [orb]. destruct (i <? n2) eqn:Hlt.
    + apply Z.ltb_lt in Hlt. destruct (pr (deref p)) eqn:Hp.
      * destruct (IH (p +! 1) (i + 1) n2 ltac:(lia)) as (j & E & Hb & Hall & Hend).
        cbn [iadd str idx] in *. exists j. split; [exact E|].
        repeat split; try lia.
        -- intros m Hm. destruct (Z.eq_dec m (idx p)) as [->|]; [exact Hp|].
           apply Hall. lia.
        -- destruct Hend as [->|Hend]; [left; lia | right; exact Hend].
      * replace (i <? 0) with false by (symmetry; apply Z.ltb_ge; lia).
        exists (idx p). rewrite iter_eta. split; [reflexivity|].
        repeat split; try lia. right. exact Hp.
    + apply Z.ltb_ge in Hlt. exists (idx p). rewrite iter_eta.
      split; [reflexivity|]. repeat split; try lia.
Qed.

(** [scan_of (pos, eos, n1, -1, pr)] with [n1 <= 1] ends where the run of
    [pr] that starts at [pos] ends. *)
Lemma scan_of_pred_run pos eos n1 pr j :
  n1 = 0 \/ n1 = 1 -> idx pos <= idx eos ->
  fwd_run pr (str pos) (idx pos) j (idx eos) ->
  scan_of_pred pos eos n1 (-1) pr = Iter (str pos) j.
Proof.
  intros Hn Hle Hrun.
  assert (E : scan_of_pred pos eos n1 (-1) pr = scan_of_pred pos eos 0 (-1) pr)
    by (destruct Hn as [->| ->]; [reflexivity | apply scan_of_pred_min1]).
  rewrite E.
  destruct (@scan_of_pred_unbounded pos eos pr Hle) as (j' & E' & Hb & Hall & Hend).
  rewrite E'. f_equal.
  apply (@fwd_run_unique pr (str pos) (idx pos) j' j (idx eos));
    [repeat split; try assumption; lia | exact Hrun].
Qed.

(** The same for a scan of at most [n2] characters. *)
Lemma scan_of_pred_run_bounded pos eos n1 n2 pr j :
  n1 = 0 \/ n1 = 1 -> 0 <= n2 -> idx pos <= idx eos ->
  fwd_run pr (str pos) (idx pos) j (Z.min (idx eos) (idx pos + n2)) ->
  scan_of_pred pos eos n1 n2 pr = Iter (str pos) j.
Proof.
  intros Hn Hn2 Hle Hrun.
  assert (E : scan_of_pred pos eos n1 n2 pr = scan_of_pred pos eos 0 n2 pr)
    by (destruct Hn as [->| ->]; [reflexivity | apply scan_of_pred_min1]).
  rewrite E. unfold scan_of_pred.
  destruct (@scan_of_loop_bounded (dist pos eos) pr pos pos 0 n2 ltac:(lia))
    as (j' & E' & Hrun').
  rewrite E'. f_equal. unfold dist in Hrun'. rewrite Z2Nat.id in Hrun' by lia.
  replace (idx pos + (idx eos - idx pos)) with (idx eos) in Hrun' by lia.
  replace (n2 - 0) with n2 in Hrun' by lia.
  exact (fwd_run_unique Hrun' Hrun).
Qed.

Lemma rscan_of_loop_run k pr :
  forall p, exists j, rscan_of_loop k pr p = Iter (str p) j
    /\ back_run pr (str p) (idx p) j (idx p - Z.of_nat k).
Proof.
  induction k as [|k IH]; intros p; cbn [rscan_of_loop].
  - exists (idx p). rewrite iter_eta. split; [reflexivity|].
    repeat split; try lia.
  - unfold peek. destruct (pr (deref (p +! -1))) eqn:Hp.
    + destruct (IH (p +! -1)) as (j & E & Hb & Hall & Hend).
      cbn [iadd str idx] in *. exists j. split; [exact E|].
      repeat split; try lia.
      * intros m Hm. destruct (Z.eq_dec m (idx p + -1)) as [->|]; [exact Hp|].
        apply Hall. lia.
      * destruct Hend as [->|Hend]; [left; lia | right; exact Hend].
    + exists (idx p). rewrite iter_eta. split; [reflexivity|].
      repeat split; try lia. right.
      unfold deref in Hp. cbn [iadd str idx] in Hp.
      replace (idx p - 1) with (idx p + -1) by lia. exact Hp.
Qed.

(** [rscan_of (bos, pos, pr)] ends where the run of [pr] that ends at
    [pos] begins. *)
Lemma rscan_of_pred_run bos pos pr j :
  idx bos <= idx pos ->
  back_run pr (str pos) (idx pos) j (idx bos) ->
  rscan_of_pred bos pos pr = Iter (str pos) j.
Proof.
  intros Hle Hrun. unfold rscan_of_pred.
  destruct (rscan_of_loop_run (dist bos pos) pr pos) as (j' & E & Hrun').
  rewrite E. f_equal. unfold dist in Hrun'. rewrite Z2Nat.id in Hrun' by lia.
  replace (idx pos - (idx pos - idx bos)) with (idx bos) in Hrun' by lia.
  exact (back_run_unique Hrun' Hrun).
Qed.

Lemma all_between_ok pr s i k :
  all_between pr s i k = true ->
  forall m, i <= m < i + Z.of_nat k -> pr (at_index s m) = true.
Proof.
  unfold all_between. rewrite forallb_forall. intros H m Hm.
  replace m with (i + Z.of_nat (Z.to_nat (m - i))) by lia.
  apply H. apply in_seq. lia.
Qed.

Lemma fwd_run_b_ok pr s i j limit :
  fwd_run_b pr s i j limit = true -> fwd_run pr s i j limit.
Proof.
  unfold fwd_run_b. intros H.
  apply andb_prop in H as [H Hend]. apply andb_prop in H as [H Hall].
  apply andb_prop in H as [H1 H2]. apply Z.leb_le in H1, H2.
  repeat split; try assumption.
  - intros m Hm. apply (@all_between_ok _ _ _ _ Hall). lia.
  - apply orb_prop in Hend as [Hend|Hend];
      [left; apply Z.eqb_eq, Hend | right; apply negb_true_iff, Hend].
Qed.

Lemma back_run_b_ok pr s i j limit :
  back_run_b pr s i j limit = true -> back_run pr s i j limit.
Proof.
  unfold back_run_b. intros H.
  apply andb_prop in H as [H Hend]. apply andb_prop in H as [H Hall].
  apply andb_prop in H as [H1 H2]. apply Z.leb_le in H1, H2.
  repeat split; try assumption.
  - intros m Hm. apply (@all_between_ok _ _ _ _ Hall). lia.
  - apply orb_prop in Hend as [Hend|Hend];
      [left; apply Z.eqb_eq, Hend | right; apply negb_true_iff, Hend].
Qed.

(** ** C8: emphasis runs that are plain text *)

Lemma modify_last {A : Type} (o : list A) (t : A) (f : A -> A) :
  modify (o ++ [t]) (List.length (o ++ [t]) - 1) f = o ++ [f t].
Proof.
  rewrite length_app. simpl List.length.
  replace (List.length o + 1 - 1)%nat with (List.length o) by lia.
  induction o as [|x o IH]; [reflexivity|].
  simpl. rewrite IH. reflexivity.
Qed.

Lemma kind_eqb_text k : kind_eqb TEXT k = true -> k = TEXT.
Proof. destruct k; intros H; try discriminate H; reflexivity. Qed.

Lemma parse_text_appends b e output :
  idx b < idx e ->
  fst (parse_text b e output) = e
  /\ appended_text output b e (snd (parse_text b e output)).
Proof.
  intros Hlt. unfold parse_text.
  replace (e <=! b) with false by (symmetry; apply Z.leb_gt; exact Hlt).
  destruct (negb (is_empty output) && _ && _) eqn:Hc; cbn [fst snd].
  - split; [reflexivity|]. right.
    apply andb_prop in Hc as [Hc Hend]. apply andb_prop in Hc as [Hne Hk].
    destruct output as [|x output']; [discriminate Hne|].
    destruct (@exists_last _ (x :: output') ltac:(discriminate)) as (o & t & E).
    rewrite E in *. unfold back in *. rewrite last_last in *.
    exists o, t. repeat split.
    + apply kind_eqb_text, Hk.
    + apply Z.eqb_eq, Hend.
    + rewrite modify_last. unfold set_cend.
      rewrite (kind_eqb_text _ Hk). reflexivity.
  - split; [reflexivity|]. left. reflexivity.
Qed.

(** C8. A run [[pos, j)] of one character that is longer than three, or
    that has whitespace on both sides, is emitted as literal TEXT and
    leaves the nest stack alone.  The left side is whitespace at the start
    of the buffer or after a whitespace character; the right side is
    whitespace at the end of the input, before a whitespace character, or
    before one of [.,;:] that is itself followed by whitespace or the end
    of the input. *)
Theorem parse_emphasis_literal bos pos eos output nest j :
  let s := str pos in
  let leftwhite :=
    (idx pos =? idx bos) || ismdwhite (at_index s (idx pos - 1)) in
  let rightwhite :=
    (j =? idx eos) || ismdwhite (at_index s j)
    || (is_punct (at_index s j)
        && ((j + 1 =? idx eos) || ismdwhite (at_index s (j + 1)))) in
  idx pos < idx eos ->
  fwd_run (Z.eqb (deref pos)) s (idx pos) j (idx eos) ->
  j - idx pos > 3 \/ leftwhite && rightwhite = true ->
  exists output',
    parse_emphasis bos pos eos output nest = (Iter s j, output', nest)
    /\ appended_text output pos (Iter s j) output'.
Proof.
  intros s leftwhite rightwhite Hlt Hrun Hc.
  assert (Hj : idx pos < j).
  { destruct Hrun as (Hb & Hall & Hend).
    destruct (Z.eq_dec j (idx pos)) as [->|]; [|lia].
    destruct Hend as [Hend|Hend]; [lia|].
    unfold deref in Hend. fold s in Hend. rewrite Z.eqb_refl in Hend.
    discriminate. }
  unfold parse_emphasis. unfold scan_of.
  rewrite (@scan_of_pred_run pos eos 1 (Z.eqb (deref pos)) j) by (auto; lia).
  fold s. unfold peek, deref, ieq, idiff. cbn [iadd str idx]. fold s.
  replace (idx pos + -1) with (idx pos - 1) by lia.
  replace (j + 0) with j by lia.
  fold leftwhite. unfold is_punct in rightwhite. fold rightwhite.
  assert (Hcond : (j - idx pos >? 3) || leftwhite && rightwhite = true).
  { destruct Hc as [Hc|Hc].
    - replace (j - idx pos >? 3) with true
        by (symmetry; apply Z.gtb_lt; lia). reflexivity.
    - rewrite Hc. apply orb_true_r. }
  rewrite Hcond.
  destruct (@parse_text_appends pos (Iter s j) output Hj) as (Hf & Ha).
  destruct (parse_text pos (Iter s j) output) as [p o]. cbn [fst snd] in *.
  subst p. exists o. split; [reflexivity | exact Ha].
Qed.

Lemma parse_emphasis_literal_witness :
  let s := L "a ** b" in
  exists output',
    parse_emphasis (Iter s 0) (Iter s 2) (Iter s 6)
      [Token TEXT (Iter s 0) (Iter s 2)] [] = (Iter s 4, output', [])
    /\ appended_text [Token TEXT (Iter s 0) (Iter s 2)] (Iter s 2) (Iter s 4)
         output'.
Proof.
  cbv zeta.
  apply (@parse_emphasis_literal (Iter (L "a ** b") 0) (Iter (L "a ** b") 2)
           (Iter (L "a ** b") 6) [Token TEXT (Iter (L "a ** b") 0)
                                    (Iter (L "a ** b") 2)] [] 4).
  - cbn [idx]. lia.
  - repeat split; cbn [idx str]; try lia.
    + intros m Hm. assert (m = 2 \/ m = 3) as [-> | ->] by lia; reflexivity.
    + right. reflexivity.
  - right. reflexivity.
Defined.

(** ** C5: an image whose target does not resolve *)

Lemma scan_quoted_range_both (fuel : nat) :
  (forall pos eos lq rq esc pr r,
     scan_quoted fuel pos eos lq rq esc pr = Some r ->
     str r = str pos /\ idx pos <= idx r)
  /\ (forall pos eos lq rq esc pr p level r,
     str p = str pos -> idx pos <= idx p ->
     scan_quoted_while fuel pos eos lq rq esc pr p level = Some r ->
     str r = str pos /\ idx pos <= idx r).
Proof.
  induction fuel as [|fuel [IH1 IH2]]; [split; intros; discriminate|].
  split.
  - intros pos eos lq rq esc pr r H. cbn [scan_quoted] in H.
    destruct (negb _) in H.
    + injection H as <-. split; [reflexivity | lia].
    + apply IH2 in H; [exact H | reflexivity | cbn; lia].
  - intros pos eos lq rq esc pr p level r Hs Hi H.
    cbn [scan_quoted_while] in H.
    destruct (level >? 0); [|injection H as <-; split; assumption].
    destruct (negb _) in H; [injection H as <-; split; [reflexivity | lia]|].
    destruct (_ && _ && _) in H; [apply IH2 in H; [exact H | exact Hs | cbn; lia]|].
    destruct (_ && _) in H.
    { destruct (scan_quoted fuel p eos (ch "<") (ch ">") esc pr) as [q|] eqn:Eq;
        [|discriminate H].
      apply IH1 in Eq as [Hsq Hiq].
      apply IH2 in H; [exact H | cbn; congruence | cbn; lia]. }
    destruct (rq =? deref p);
      [apply IH2 in H; [exact H | exact Hs | cbn; lia]|].
    destruct (lq =? deref p);
      apply IH2 in H; try exact H; try exact Hs; cbn; lia.
Qed.

Lemma scan_quoted_range fuel pos eos lq rq esc pr r :
  scan_quoted fuel pos eos lq rq esc pr = Some r ->
  str r = str pos /\ idx pos <= idx r.
Proof. apply scan_quoted_range_both. Qed.

Lemma scan_of_loop_ge k pr pos :
  forall p i n1 n2, idx pos <= idx p ->
  idx pos <= idx (scan_of_loop k pr pos p i n1 n2).
Proof.
  induction k as [|k IH]; intros p i n1 n2 Hp; simpl.
  - destruct ((n2 <? 0) || (i <? n2)); [destruct (i <? n1)|]; lia.
  - destruct ((n2 <? 0) || (i <? n2)); [|lia].
    destruct (pr (deref p)); [apply IH; cbn; lia|].
    destruct (i <? n1); lia.
Qed.

Lemma scan_of_pred_ge pos eos n1 n2 pr :
  idx pos <= idx (scan_of_pred pos eos n1 n2 pr).
Proof. apply scan_of_loop_ge. lia. Qed.

(** Without a parenthesised text after the bracket [parse_link_paren]
    fails and leaves [attribute] as it is. *)
Lemma parse_link_paren_none fuel pos eos attribute p :
  scan_quoted fuel pos eos (ch "(") (ch ")") (ch "\") ismdany = Some p ->
  idx p = idx pos ->
  parse_link_paren fuel pos eos attribute = Some (pos, attribute).
Proof.
  intros H Hp. unfold parse_link_paren. rewrite H.
  replace (pos ==! p) with true by (symmetry; apply Z.eqb_eq; lia).
  reflexivity.
Qed.

(** C5 (as the code has it). Take an image [![inner]] whose bracket
    closes, for which the scan for a parenthesised target after the
    bracket returns without finding one, and whose identifier (the
    reference bracket that follows, or else the bracketed text itself) has
    no entry in the dictionary.  With enough fuel [parse_image] returns,
    and the image is emitted whole as TEXT, from the [!] to the end of
    the reference bracket; nothing is parsed again.  The scan for a
    parenthesised target need not return: it does not when an opening
    parenthesis is followed by a [<] that is never closed, and nothing
    is said here about that case. *)
Theorem parse_image_unresolved fuel0 pos eos output dict p3 p4 p5 :
  let q := scan_of_pred p3 eos 0 (-1) ismdwhite in
  let linkid :=
    if p5 -! q >? 2 then (q +! 1, p5 +! (-1))
    else (pos +! 1 +! 1, p3 +! (-1)) in
  (pos <! eos) = true -> deref pos = ch "!" ->
  (pos +! 1 <! eos) = true -> peek pos 1 = ch "[" ->
  scan_quoted fuel0 (pos +! 1) eos (ch "[") (ch "]") (ch "\") ismdany
  = Some p3 ->
  idx p3 <> idx pos + 1 ->
  scan_quoted fuel0 p3 eos (ch "(") (ch ")") (ch "\") ismdany = Some p4 ->
  idx p4 = idx p3 ->
  scan_quoted fuel0 q eos (ch "[") (ch "]") (ch "\") ismdany = Some p5 ->
  dict_find dict (decode_linkid (fst linkid) (snd linkid)) = None ->
  forall fuel : nat, (fuel0 <= fuel)%nat ->
  exists output',
    parse_image fuel pos eos output dict = Some (p5, output')
    /\ appended_text output pos p5 output'.
Proof.
  intros q linkid Hlt Hbang Hlt1 Hbr H3 Hne H4 Hp4 H5 Hdict fuel Hfuel.
  apply (@scan_quoted_mono fuel0 fuel) in H3; [|exact Hfuel].
  apply (@scan_quoted_mono fuel0 fuel) in H4; [|exact Hfuel].
  apply (@scan_quoted_mono fuel0 fuel) in H5; [|exact Hfuel].
  unfold parse_image. unfold scan_of. rewrite !scan_of_pred_one.
  rewrite Hlt, Hbang, Z.eqb_refl. cbn [andb].
  unfold peek in Hbr. rewrite Hlt1, Hbr, Z.eqb_refl. cbn [andb].
  replace (pos ==! pos +! 1) with false
    by (symmetry; apply Z.eqb_neq; cbn; lia).
  replace (pos +! 1 ==! pos +! 1 +! 1) with false
    by (symmetry; apply Z.eqb_neq; cbn; lia).
  cbn [orb]. rewrite H3.
  replace (pos +! 1 ==! p3) with false
    by (symmetry; apply Z.eqb_neq; cbn; lia).
  rewrite (@parse_link_paren_none fuel p3 eos _ p4 H4 Hp4).
  replace (p3 <! p3) with false by (symmetry; apply Z.ltb_irrefl).
  unfold parse_link_bracket. fold q. rewrite H5.
  assert (Hpos : idx pos < idx p5).
  { apply scan_quoted_range in H3 as [_ H3]. apply scan_quoted_range in H5 as [_ H5].
    pose proof (scan_of_pred_ge p3 eos 0 (-1) ismdwhite) as Hq. fold q in Hq.
    cbn in H3. lia. }
  destruct (@parse_text_appends pos p5 output Hpos) as (Hf & Ha).
  subst linkid.
  destruct (p5 -! q >? 2); cbn [fst snd] in Hdict;
    unfold parse_fetch_reference_link, push_back;
    cbn [app at_pos nth cbegin cend]; rewrite Hdict;
    destruct (parse_text pos p5 output) as [p o]; cbn [fst snd] in *;
    subst p; exists o; (split; [reflexivity | exact Ha]).
Qed.

Lemma parse_image_unresolved_witness :
  let s := L "![*a*]" in
  exists output',
    parse_image 25 (Iter s 0) (Iter s 6) [] [] = Some (Iter s 6, output')
    /\ appended_text [] (Iter s 0) (Iter s 6) output'.
Proof.
  cbv zeta.
  apply (@parse_image_unresolved 20 (Iter (L "![*a*]") 0) (Iter (L "![*a*]") 6)
           [] [] (Iter (L "![*a*]") 6) (Iter (L "![*a*]") 6)
           (Iter (L "![*a*]") 6)); try reflexivity.
  - cbn [idx]. lia.
  - lia.
Defined.

(** C5 (the claim as stated fails). On [![*a*]] with an empty dictionary
    the code emits one TEXT token for the whole construct, printed as
    [![*a*]]; emitting the [!] and parsing the bracket as a link would
    give emphasis tokens, printed as [![<em>a</em>]]. *)
Lemma image_retry_counterexample :
  let s := L "![*a*]" in
  let it := Iter s in
  parse_image 20 (it 0) (it 6) [] [] = Some (it 6, [Token TEXT (it 0) (it 6)])
  /\ image_retry_as_link 20 (it 0) (it 0) (it 6) [] [] []
     = Some (it 6, [Token TEXT (it 0) (it 2); Token SEM (it 2) (it 3);
                    Token TEXT (it 3) (it 4); Token EEM (it 4) (it 5);
                    Token TEXT (it 5) (it 6)], [])
  /\ print_inline [Token TEXT (it 0) (it 6)] [] [] = L "![*a*]"
  /\ print_inline [Token TEXT (it 0) (it 2); Token SEM (it 2) (it 3);
                   Token TEXT (it 3) (it 4); Token EEM (it 4) (it 5);
                   Token TEXT (it 5) (it 6)] [] [] = L "![<em>a</em>]"
  /\ option_map snd (parse_image 20 (it 0) (it 6) [] [])
     <> option_map (fun r => snd (fst r))
          (image_retry_as_link 20 (it 0) (it 0) (it 6) [] [] []).
Proof.
  cbv zeta. repeat split; try (vm_compute; reflexivity).
  vm_compute. discriminate.
Qed.

(** ** C4: ATX headings *)

(** C4 (as the code has it). Let [parse_atxheading] be called on a token
    that ranges over [[b, e)] of [s].  Skip at most three spaces (to
    [j1]), then the run of [#] (to [j2]), then the run of spaces and tabs
    (to [j3]); from the end of the line strip whitespace (back to [k1]),
    then [#] (back to [k2]), then spaces and tabs (back to [k3]), never
    going below [j3].  A heading is recognised only when there is at
    least one [#] and the content [[j3, k3)] is not empty, whether or not
    a space follows the [#], and [parse_atxheading] recognises it
    whenever that holds; the level is the number of [#], capped at 6,
    and the INLINE token is the content. *)
Theorem parse_atxheading_shape past_end input dot dol output s b e
    j1 j2 j3 k1 k2 k3 :
  cbegin (tok past_end input dot) = Iter s b ->
  cend (tok past_end input dot) = Iter s e ->
  b <= e ->
  fwd_run (Z.eqb (ch " ")) s b j1 (Z.min e (b + 3)) ->
  fwd_run (Z.eqb (ch "#")) s j1 j2 e ->
  fwd_run ismdspace s j2 j3 e ->
  back_run ismdwhite s e k1 j3 ->
  back_run (Z.eqb (ch "#")) s k1 k2 j3 ->
  back_run ismdspace s k2 k3 j3 ->
  parse_atxheading past_end input dot dol output
  = if (j1 <? j2) && (j3 <? k3)
    then (dot + 1,
          output ++ [Token (stag (Z.min (j2 - j1) 6)) (Iter s j3) (Iter s j3);
                     Token INLINE (Iter s j3) (Iter s k3);
                     Token (etag (Z.min (j2 - j1) 6)) (Iter s k3) (Iter s k3)])
    else (dot, output).
Proof.
  intros Hb He Hbe R1 R2 R3 B1 B2 B3.
  unfold parse_atxheading. rewrite Hb, He.
  unfold scan_tab_not, scan_of, rscan_of.
  rewrite (@scan_of_pred_run_bounded (Iter s b) (Iter s e) 0 3 _ j1)
    by (cbn [str idx]; auto; lia).
  cbn [str].
  assert (Hj1 : j1 <= e) by (destruct R1 as ((_ & H) & _); lia).
  rewrite (@scan_of_pred_run (Iter s j1) (Iter s e) 1 _ j2)
    by (cbn [str idx]; auto).
  cbn [str]. unfold ieq at 1. cbn [idx].
  assert (Hj2 : j1 <= j2 <= e) by (destruct R2 as (H & _); exact H).
  destruct (j2 =? j1) eqn:E21.
  { apply Z.eqb_eq in E21.
    replace (j1 <? j2) with false by (symmetry; apply Z.ltb_ge; lia).
    reflexivity. }
  apply Z.eqb_neq in E21.
  replace (j1 <? j2) with true by (symmetry; apply Z.ltb_lt; lia).
  cbn [andb].
  rewrite (@scan_of_pred_run (Iter s j2) (Iter s e) 0 _ j3)
    by (cbn [str idx]; auto; lia).
  cbn [str].
  assert (Hj3 : j2 <= j3 <= e) by (destruct R3 as (H & _); exact H).
  rewrite (@rscan_of_pred_run (Iter s j3) (Iter s e) _ k1)
    by (cbn [str idx]; auto; lia).
  cbn [str].
  assert (Hk1 : j3 <= k1 <= e) by (destruct B1 as (H & _); exact H).
  rewrite (@rscan_of_pred_run (Iter s j3) (Iter s k1) _ k2)
    by (cbn [str idx]; auto; lia).
  cbn [str].
  assert (Hk2 : j3 <= k2 <= k1) by (destruct B2 as (H & _); exact H).
  rewrite (@rscan_of_pred_run (Iter s j3) (Iter s k2) _ k3)
    by (cbn [str idx]; auto; lia).
  assert (Hk3 : j3 <= k3 <= k2) by (destruct B3 as (H & _); exact H).
  unfold ieq, idiff. cbn [idx].
  destruct (j3 =? k3) eqn:E3.
  { apply Z.eqb_eq in E3.
    replace (j3 <? k3) with false by (symmetry; apply Z.ltb_ge; lia).
    reflexivity. }
  apply Z.eqb_neq in E3.
  replace (j3 <? k3) with true by (symmetry; apply Z.ltb_lt; lia).
  replace (if j2 - j1 >? 6 then 6 else j2 - j1) with (Z.min (j2 - j1) 6).
  - unfold push_back. rewrite <- !app_assoc. reflexivity.
  - destruct (j2 - j1 >? 6) eqn:E6;
      [apply Z.gtb_lt in E6 | rewrite Z.gtb_ltb in E6; apply Z.ltb_ge in E6];
      lia.
Qed.

Lemma parse_atxheading_shape_witness :
  let s := L "## Title ##" ++ [NL] in
  parse_atxheading null_token [Token LINE (Iter s 0) (Iter s 12)] 0 1 []
  = (1, [Token SHEADING2 (Iter s 3) (Iter s 3);
         Token INLINE (Iter s 3) (Iter s 8);
         Token EHEADING2 (Iter s 8) (Iter s 8)]).
Proof.
  cbv zeta.
  apply (@parse_atxheading_shape null_token
           [Token LINE (Iter (L "## Title ##" ++ [NL]) 0)
              (Iter (L "## Title ##" ++ [NL]) 12)] 0 1 []
           (L "## Title ##" ++ [NL]) 0 12 0 2 3 11 9 8);
    try reflexivity; try lia;
    first [apply fwd_run_b_ok | apply back_run_b_ok]; reflexivity.
Defined.

(** C4 (the claim as stated fails). [#Title] has no space after the [#]
    and is a level 1 heading all the same; a line of seven [#] and a
    title is a heading of level 6; and a heading may stand after a
    leading space. *)
Lemma atx_no_space_counterexample :
  let s := L "#Title" ++ [NL] in
  let s7 := L "####### Title" ++ [NL] in
  let s1 := L " # Title" ++ [NL] in
  (parse_atxheading null_token [Token LINE (Iter s 0) (Iter s 7)] 0 1 []
   = (1, [Token SHEADING1 (Iter s 1) (Iter s 1);
          Token INLINE (Iter s 1) (Iter s 6);
          Token EHEADING1 (Iter s 6) (Iter s 6)])
   /\ ~ atx_claimed_shape s)
  /\ (parse_atxheading null_token [Token LINE (Iter s7 0) (Iter s7 14)] 0 1 []
      = (1, [Token SHEADING6 (Iter s7 8) (Iter s7 8);
             Token INLINE (Iter s7 8) (Iter s7 13);
             Token EHEADING6 (Iter s7 13) (Iter s7 13)])
      /\ ~ atx_claimed_shape s7)
  /\ (parse_atxheading null_token [Token LINE (Iter s1 0) (Iter s1 9)] 0 1 []
      = (1, [Token SHEADING1 (Iter s1 3) (Iter s1 3);
             Token INLINE (Iter s1 3) (Iter s1 8);
             Token EHEADING1 (Iter s1 8) (Iter s1 8)])
      /\ ~ atx_claimed_shape s1).
Proof.
  cbv zeta. split; [|split].
  - split; [vm_compute; reflexivity|].
    intros (h & rest & Hh & E).
    destruct h as [|[|h]]; [lia | discriminate E | discriminate E].
  - split; [vm_compute; reflexivity|].
    intros (h & rest & Hh & E).
    do 7 (destruct h as [|h]; [first [lia | discriminate E]|]).
    lia.
  - split; [vm_compute; reflexivity|].
    intros (h & rest & Hh & E).
    destruct h as [|h]; [lia | discriminate E].
Qed.

(** ** C7: general text escaping *)

Ltac chars :=
  repeat match goal with
  | |- context [ch ?a] =>
      let v := eval vm_compute in (ch a) in change (ch a) with v
  | H : context [ch ?a] |- _ =>
      let v := eval vm_compute in (ch a) in change (ch a) with v in H
  end;
  unfold AMP, SEMI, DQUOTE, SQUOTE, NL, TAB in *;
  repeat match goal with
  | |- context [ch ?a] =>
      let v := eval vm_compute in (ch a) in change (ch a) with v
  | H : context [ch ?a] |- _ =>
      let v := eval vm_compute in (ch a) in change (ch a) with v in H
  end.

(** Turns tests on characters into arithmetic. *)
Ltac tests :=
  repeat match goal with
  | H : (_ && _) = true |- _ => apply andb_prop in H; destruct H
  | H : (_ || _) = false |- _ => apply orb_false_elim in H; destruct H
  | H : (_ && _) = false |- _ => apply andb_false_iff in H; destruct H
  | H : (_ || _) = true |- _ => apply orb_prop in H; destruct H
  | H : negb _ = true |- _ => apply negb_true_iff in H
  | H : negb _ = false |- _ => apply negb_false_iff in H
  | H : (_ <=? _) = true |- _ => apply Z.leb_le in H
  | H : (_ <=? _) = false |- _ => apply Z.leb_gt in H
  | H : (_ <? _) = true |- _ => apply Z.ltb_lt in H
  | H : (_ <? _) = false |- _ => apply Z.ltb_ge in H
  | H : (_ =? _) = true |- _ => apply Z.eqb_eq in H
  | H : (_ =? _) = false |- _ => apply Z.eqb_neq in H
  end.

Lemma entity_rest_name body :
  forallb ismdalnum body = true -> entity_rest 2 (body ++ [SEMI]).
Proof.
  induction body as [|c body IH]; simpl; intros H; [constructor|].
  apply andb_prop in H as [Hc H]. constructor; auto.
Qed.

Lemma entity_rest_decimal ds :
  forallb ismddigit ds = true -> entity_rest 4 (ds ++ [SEMI]).
Proof.
  induction ds as [|c ds IH]; simpl; intros H; [constructor|].
  apply andb_prop in H as [Hc H]. constructor; auto.
Qed.

Lemma entity_rest_hex hs :
  forallb ismdxdigit hs = true -> entity_rest 6 (hs ++ [SEMI]).
Proof.
  induction hs as [|c hs IH]; simpl; intros H; [constructor|].
  apply andb_prop in H as [Hc H]. constructor; auto.
Qed.

Lemma entity_has_rest e :
  entity e -> exists w, e = AMP :: w /\ entity_rest 1 w.
Proof.
  intros [a body Ha Hb | d ds Hd Hds | h hs Hh Hhs]; eexists; (split; [reflexivity|]).
  - apply rest_named; [exact Ha | apply entity_rest_name, Hb].
  - apply rest_numeric, rest_decimal; [exact Hd | apply entity_rest_decimal, Hds].
  - apply rest_numeric, rest_hexadecimal, rest_hex_first;
      [exact Hh | apply entity_rest_hex, Hhs].
Qed.

Lemma entity_rest_name_inv st w :
  entity_rest st w -> st = 2 ->
  exists body, w = body ++ [SEMI] /\ forallb ismdalnum body = true.
Proof.
  induction 1; intros E; try discriminate E.
  - exists []. split; reflexivity.
  - destruct (IHentity_rest E) as (body & -> & Hb).
    exists (c :: body). split; [reflexivity|]. simpl. rewrite H, Hb. reflexivity.
Qed.

Lemma entity_rest_decimal_inv st w :
  entity_rest st w -> st = 4 ->
  exists ds, w = ds ++ [SEMI] /\ forallb ismddigit ds = true.
Proof.
  induction 1; intros E; try discriminate E.
  - exists []. split; reflexivity.
  - destruct (IHentity_rest E) as (ds & -> & Hb).
    exists (d :: ds). split; [reflexivity|]. simpl. rewrite H, Hb. reflexivity.
Qed.

Lemma entity_rest_hex_inv st w :
  entity_rest st w -> st = 6 ->
  exists hs, w = hs ++ [SEMI] /\ forallb ismdxdigit hs = true.
Proof.
  induction 1; intros E; try discriminate E.
  - exists []. split; reflexivity.
  - destruct (IHentity_rest E) as (hs & -> & Hb).
    exists (h :: hs). split; [reflexivity|]. simpl. rewrite H, Hb. reflexivity.
Qed.

Lemma entity_of_rest w : entity_rest 1 w -> entity (AMP :: w).
Proof.
  intros H. inversion H as [a w' Ha H2 | w' H3 | | | | | | | | |]; subst.
  - destruct (entity_rest_name_inv H2 eq_refl) as (body & -> & Hb).
    apply entity_named; assumption.
  - inversion H3 as [ | | | | d w'' Hd H4 | w'' H5 | | | | |]; subst.
    + destruct (entity_rest_decimal_inv H4 eq_refl) as (ds & -> & Hb).
      apply entity_decimal; assumption.
    + inversion H5 as [ | | | | | | | | h w3 Hh H6 | |]; subst.
      destruct (entity_rest_hex_inv H6 eq_refl) as (hs & -> & Hb).
      apply entity_hexadecimal; assumption.
Qed.

Ltac char_class :=
  unfold is_alpha, ismdalnum, ismdxdigit, ismddigit; chars;
  repeat rewrite ?orb_true_iff, ?andb_true_iff, ?Z.leb_le; lia.

Ltac rest_step Hw :=
  first
    [ apply rest_named; [char_class | exact Hw]
    | apply rest_numeric; exact Hw
    | apply rest_name_more; [char_class | exact Hw]
    | apply rest_decimal; [char_class | exact Hw]
    | apply rest_hexadecimal; exact Hw
    | apply rest_decimal_more; [char_class | exact Hw]
    | apply rest_hex_first; [char_class | exact Hw]
    | apply rest_hex_more; [char_class | exact Hw] ].

(** A step of the automaton that does not reject either accepts on [;]
    or reads a character that the entity may contain at this point. *)
Lemma entity_step_sound st c :
  1 <= st <= 6 -> entity_step st c <> 0 ->
  (entity_step st c = 9 /\ c = SEMI /\ entity_rest st [SEMI])
  \/ (1 <= entity_step st c <= 6
      /\ forall w, entity_rest (entity_step st c) w -> entity_rest st (c :: w)).
Proof.
  intros Hst.
  assert (Hc : st = 1 \/ st = 2 \/ st = 3 \/ st = 4 \/ st = 5 \/ st = 6) by lia.
  clear Hst. unfold entity_step, entity_ccls.
  destruct Hc as [-> | [-> | [-> | [-> | [-> | ->]]]]];
    match goal with |- context [(3 =? ?n) && _] =>
      let v := eval vm_compute in (3 =? n) in change (3 =? n) with v
    end; cbn [andb];
    repeat (match goal with
            | |- context [if ?b then _ else _] => destruct b eqn:?
            end; cbv iota);
    repeat match goal with |- context [tbl_at ?a ?b] =>
      let v := eval vm_compute in (tbl_at a b) in change (tbl_at a b) with v
    end;
    intros Hz; try (exfalso; apply Hz; reflexivity);
    first
      [ left; split; [reflexivity|]; split;
        [symmetry; apply Z.eqb_eq; assumption | constructor]
      | right; split; [lia|]; intros w Hw; tests;
        try match goal with H : _ = c |- _ => subst c end;
        rest_step Hw ].
Qed.

(** Conversely, the automaton follows every entity. *)
Lemma entity_step_complete st c w :
  entity_rest st (c :: w) ->
  (w = [] /\ entity_step st c = 9)
  \/ (1 <= entity_step st c <= 6 /\ entity_rest (entity_step st c) w).
Proof.
  intros H.
  inversion H as [a w' Ha H2 | w' H3 | | c' w' Hc H2 | d w' Hd H4 | w' H5
                 | | d w' Hd H4 | h w' Hh H6 | | h w' Hh H6]; subst;
    unfold entity_step, entity_ccls;
    match goal with |- context [(3 =? ?n) && _] =>
      let v := eval vm_compute in (3 =? n) in change (3 =? n) with v
    end; cbn [andb];
    repeat (match goal with
            | |- context [if ?b then _ else _] => destruct b eqn:?
            end; cbv iota);
    repeat match goal with |- context [tbl_at ?a ?b] =>
      let v := eval vm_compute in (tbl_at a b) in change (tbl_at a b) with v
    end;
    try (left; split; reflexivity);
    try (right; split; [lia | assumption]);
    exfalso; unfold is_alpha, ismdalnum, ismdxdigit, ismddigit in *;
    chars; tests; try lia; try discriminate.
Qed.

Lemma entity_step_nul st : 1 <= st <= 6 -> entity_step st 0 = 0.
Proof.
  intros Hst.
  assert (Hc : st = 1 \/ st = 2 \/ st = 3 \/ st = 4 \/ st = 5 \/ st = 6) by lia.
  destruct Hc as [-> | [-> | [-> | [-> | [-> | ->]]]]]; reflexivity.
Qed.

Lemma check_html5entity_loop_unfold k s state :
  check_html5entity_loop (S k) s state
  = let state := entity_step state (deref s) in
    if 0 =? state then None
    else if 9 =? state then Some (s +! 1)
    else check_html5entity_loop k (s +! 1) state.
Proof. reflexivity. Qed.

Lemma skipn_at_index (s : wstring) (p : Z) :
  0 <= p < wsize s ->
  skipn (Z.to_nat p) s = at_index s p :: skipn (Z.to_nat (p + 1)) s.
Proof.
  intros Hp. unfold at_index, wsize in *.
  replace (p <? 0) with false by (symmetry; apply Z.ltb_ge; lia).
  replace (Z.to_nat (p + 1)) with (S (Z.to_nat p)) by lia.
  assert (Hn : (Z.to_nat p < List.length s)%nat) by lia.
  revert Hn. generalize (Z.to_nat p). clear Hp p.
  induction s as [|x s IH]; intros n Hn; [simpl in Hn; lia|].
  destruct n as [|n]; [reflexivity|].
  simpl in Hn. apply (IH n). lia.
Qed.

Lemma at_index_outside (s : wstring) (p : Z) :
  wsize s <= p -> at_index s p = 0.
Proof.
  intros Hp. unfold at_index, wsize in *.
  destruct (p <? 0); [reflexivity|]. apply nth_overflow. lia.
Qed.

Lemma skipn_head (s : wstring) (p : Z) c t :
  0 <= p -> skipn (Z.to_nat p) s = c :: t ->
  p < wsize s /\ at_index s p = c /\ skipn (Z.to_nat (p + 1)) s = t.
Proof.
  intros Hp E.
  assert (Hlt : p < wsize s).
  { destruct (Z_lt_ge_dec p (wsize s)) as [H|H]; [exact H|].
    rewrite skipn_all2 in E by (unfold wsize in H; lia). discriminate E. }
  rewrite skipn_at_index in E by lia. injection E as E1 E2. auto.
Qed.

Lemma check_html5entity_loop_sound (s : wstring) :
  forall k p st q, 0 <= p -> 1 <= st <= 6 ->
  check_html5entity_loop k (Iter s p) st = Some q ->
  exists w, entity_rest st w /\ q = Iter s (p + wsize w)
    /\ p + wsize w <= wsize s
    /\ skipn (Z.to_nat p) s = w ++ skipn (Z.to_nat (p + wsize w)) s.
Proof.
  induction k as [|k IH]; intros p st q Hp Hst H; [discriminate H|].
  rewrite check_html5entity_loop_unfold in H. cbv zeta in H.
  unfold deref in H. cbn [str idx] in H.
  destruct (Z_lt_ge_dec p (wsize s)) as [Hlt|Hge].
  2:{ rewrite at_index_outside, entity_step_nul in H by lia. discriminate H. }
  destruct (0 =? entity_step st (at_index s p)) eqn:E0; [discriminate H|].
  apply Z.eqb_neq in E0.
  destruct (@entity_step_sound st (at_index s p) Hst ltac:(lia))
    as [(E9 & Ec & Hr) | (Hst' & Hr)].
  - rewrite E9 in H. cbn in H. injection H as <-.
    exists [SEMI]. change (wsize [SEMI]) with 1.
    split; [exact Hr|]. split; [reflexivity|]. split; [lia|].
    rewrite skipn_at_index by lia. rewrite Ec. reflexivity.
  - replace (9 =? entity_step st (at_index s p)) with false in H
      by (symmetry; apply Z.eqb_neq; lia).
    cbn [iadd str idx] in H.
    apply IH in H; [|cbn [idx]; lia|exact Hst']. cbn [idx] in H.
    destruct H as (w & Hw & -> & Hb & Hsk).
    exists (at_index s p :: w). unfold wsize in *. cbn [List.length app].
    repeat split.
    + apply Hr, Hw.
    + f_equal. lia.
    + lia.
    + rewrite skipn_at_index by (unfold wsize; lia). f_equal.
      rewrite Hsk. do 2 f_equal. lia.
Qed.

Lemma check_html5entity_loop_complete (s : wstring) :
  forall w st k p r, entity_rest st w -> 0 <= p ->
  (List.length w <= k)%nat -> skipn (Z.to_nat p) s = w ++ r ->
  check_html5entity_loop k (Iter s p) st = Some (Iter s (p + wsize w)).
Proof.
  induction w as [|c w IH]; intros st k p r Hw Hp Hk Hsk; [inversion Hw|].
  destruct k as [|k]; [simpl in Hk; lia|].
  apply skipn_head in Hsk as (Hlt & Hc & Hsk); [|exact Hp].
  rewrite check_html5entity_loop_unfold. cbv zeta.
  unfold deref. cbn [str idx iadd]. rewrite Hc.
  destruct (entity_step_complete Hw) as [(-> & E9) | (Hst' & Hw')].
  - rewrite E9. cbn. reflexivity.
  - replace (0 =? entity_step st c) with false
      by (symmetry; apply Z.eqb_neq; lia).
    replace (9 =? entity_step st c) with false
      by (symmetry; apply Z.eqb_neq; lia).
    change (Iter s p +! 1) with (Iter s (p + 1)).
    change (skipn (Z.to_nat (p + 1)) s = w ++ r) in Hsk.
    rewrite (IH _ k (p + 1) r Hw') by (simpl in Hk; auto; lia).
    unfold wsize. cbn [List.length]. f_equal. f_equal. lia.
Qed.

Lemma print_with_escape_html_loop_unfold k s e output :
  print_with_escape_html_loop (S k) s e output
  = if negb (s <! e) then output
    else if ch "&" =? deref s then
      match check_html5entity s e with
      | Some s1 =>
          print_with_escape_html_loop k (s1 +! (-1) +! 1) e
            (output ++ slice s s1)
      | None =>
          print_with_escape_html_loop k (s +! 1) e (output ++ L "&amp;")
      end
    else
      print_with_escape_html_loop k (s +! 1) e
        (output ++
           (if deref s =? ch "<" then L "&lt;"
            else if deref s =? ch ">" then L "&gt;"
            else if deref s =? DQUOTE then L "&quot;"
            else if deref s =? SQUOTE then L "&#39;"
            else [deref s])).
Proof. reflexivity. Qed.

Lemma skipn_length_eq (s : wstring) (p : Z) (w r : wstring) :
  0 <= p -> skipn (Z.to_nat p) s = w ++ r ->
  (List.length w <= Z.to_nat (wsize s - p))%nat.
Proof.
  intros Hp E. apply (f_equal (@List.length _)) in E.
  rewrite length_skipn, length_app in E. unfold wsize. lia.
Qed.

Lemma print_with_escape_html_loop_escaped (s : wstring) :
  forall (k : nat) (i : Z) (output : ostream),
    0 <= i <= wsize s -> wsize s - i <= Z.of_nat k ->
    exists r,
      print_with_escape_html_loop k (Iter s i) (cend_of s) output = output ++ r
      /\ escaped (skipn (Z.to_nat i) s) r.
Proof.
  induction k as [|k IH]; intros i output Hi Hk.
  - exists []. rewrite app_nil_r. split; [reflexivity|].
    rewrite skipn_all2 by (unfold wsize in *; lia). constructor.
  - rewrite print_with_escape_html_loop_unfold.
    unfold ilt. change (idx (cend_of s)) with (wsize s). cbn [idx].
    destruct (Z.eq_dec i (wsize s)) as [->|Hne].
    { rewrite Z.ltb_irrefl. cbn [negb]. exists []. rewrite app_nil_r.
      split; [reflexivity|].
      rewrite skipn_all2 by (unfold wsize in *; lia). constructor. }
    replace (i <? wsize s) with true by (symmetry; apply Z.ltb_lt; lia).
    cbn [negb]. rewrite skipn_at_index by lia.
    unfold deref at 1. cbn [str idx].
    destruct (ch "&" =? at_index s i) eqn:Eamp.
    + apply Z.eqb_eq in Eamp. rewrite <- Eamp. fold AMP.
      unfold check_html5entity, ilt, deref.
      change (idx (cend_of s)) with (wsize s). cbn [str idx iadd].
      replace (i <? wsize s) with true by (symmetry; apply Z.ltb_lt; lia).
      rewrite <- Eamp, Z.eqb_refl. cbn [andb negb].
      unfold dist. change (idx (cend_of s)) with (wsize s). cbn [idx].
      match goal with
      | |- context [check_html5entity_loop ?n ?p 1] =>
          destruct (check_html5entity_loop n p 1) as [s1|] eqn:Ec
      end.
      * apply check_html5entity_loop_sound in Ec; [|cbn [idx]; lia|lia].
        cbn [str idx] in Ec.
        destruct Ec as (w & Hw & -> & Hb & Hsk).
        cbn [iadd str idx].
        replace (i + 1 + wsize w + -1 + 1) with (i + 1 + wsize w) by lia.
        assert (Hsl : slice (Iter s i) (Iter s (i + 1 + wsize w)) = AMP :: w).
        { unfold slice. cbn [str idx]. rewrite skipn_at_index by lia.
          rewrite <- Eamp. fold AMP. rewrite Hsk.
          replace (Z.to_nat (i + 1 + wsize w - i)) with (S (List.length w))
            by (unfold wsize; lia).
          cbn [firstn]. f_equal.
          rewrite firstn_app, firstn_all, Nat.sub_diag. cbn [firstn].
          apply app_nil_r. }
        rewrite Hsl.
        assert (Hwn : 0 <= wsize w) by (unfold wsize; lia).
        destruct (IH (i + 1 + wsize w) (output ++ AMP :: w)) as (r & E & He);
          [lia | lia |].
        replace (Iter s (i + 1 + wsize w) +! -1 +! 1)
          with (Iter s (i + 1 + wsize w))
          by (unfold iadd; cbn [str idx]; f_equal; lia).
        exists ((AMP :: w) ++ r). split.
        -- rewrite E, <- app_assoc. reflexivity.
        -- rewrite Hsk. change (AMP :: w ++ ?x) with ((AMP :: w) ++ x).
           apply escaped_entity; [apply entity_of_rest, Hw | exact He].
      * destruct (IH (i + 1) (output ++ L "&amp;")) as (r & E & He);
          [lia | lia |].
        change (Iter s i +! 1) with (Iter s (i + 1)).
        exists (L "&amp;" ++ r). split.
        -- rewrite E, <- app_assoc. reflexivity.
        -- apply escaped_amp; [|exact He].
           intros e r' Hent Heq.
           destruct (entity_has_rest Hent) as (w & -> & Hw).
           injection Heq as Heq.
           pose proof (@skipn_length_eq s (i + 1) w r' ltac:(lia) Heq) as Hlen.
           rewrite (@check_html5entity_loop_complete s w 1 _ (i + 1) r' Hw)
             in Ec; [discriminate Ec | lia | unfold wsize in *; exact Hlen | exact Heq].
    + apply Z.eqb_neq in Eamp.
      destruct (IH (i + 1)
                  (output ++
                     (if at_index s i =? ch "<" then L "&lt;"
                      else if at_index s i =? ch ">" then L "&gt;"
                      else if at_index s i =? DQUOTE then L "&quot;"
                      else if at_index s i =? SQUOTE then L "&#39;"
                      else [at_index s i]))) as (r & E & He); [lia | lia |].
      change (Iter s i +! 1) with (Iter s (i + 1)).
      unfold deref. cbn [str idx]. rewrite E.
      rewrite <- app_assoc. eexists. split; [reflexivity|].
      destruct (at_index s i =? ch "<") eqn:E1;
        [apply Z.eqb_eq in E1; rewrite E1; apply escaped_lt, He|].
      destruct (at_index s i =? ch ">") eqn:E2;
        [apply Z.eqb_eq in E2; rewrite E2; apply escaped_gt, He|].
      destruct (at_index s i =? DQUOTE) eqn:E3;
        [apply Z.eqb_eq in E3; rewrite E3; apply escaped_quot, He|].
      destruct (at_index s i =? SQUOTE) eqn:E4;
        [apply Z.eqb_eq in E4; rewrite E4; apply escaped_apos, He|].
      apply Z.eqb_neq in E1, E2, E3, E4.
      apply escaped_other; auto.
Qed.

(** C7. In general-text mode an [&] that begins a well-formed numeric or
    named entity is passed through with the entity, any other [&] becomes
    [&amp;], the characters [<] and [>], the double quote and the single
    quote become [&lt;], [&gt;], [&quot;] and [&#39;], and every other
    character is written unchanged. *)
Theorem print_with_escape_html_escaped (s : wstring) (output : ostream) :
  exists r,
    print_with_escape_html (cbegin_of s) (cend_of s) output = output ++ r
    /\ escaped s r.
Proof.
  unfold print_with_escape_html, cbegin_of.
  destruct (@print_with_escape_html_loop_escaped s
              (dist (Iter s 0) (cend_of s)) 0 output) as (r & E & He).
  - unfold wsize. lia.
  - unfold dist, wsize, cend_of. cbn [idx]. lia.
  - exists r. split; [exact E | exact He].
Qed.

(** ** Facts used for links *)

Lemma at_index_app_l (l1 l2 : wstring) (i : Z) :
  i < wsize l1 -> at_index (l1 ++ l2) i = at_index l1 i.
Proof.
  intros Hi. unfold at_index, wsize in *.
  destruct (i <? 0) eqn:E; [reflexivity|]. apply Z.ltb_ge in E.
  apply app_nth1. lia.
Qed.

Lemma at_index_app_r (l1 l2 : wstring) (i : Z) :
  wsize l1 <= i -> at_index (l1 ++ l2) i = at_index l2 (i - wsize l1).
Proof.
  intros Hi. unfold at_index, wsize in *.
  replace (i <? 0) with false by (symmetry; apply Z.ltb_ge; lia).
  replace (i - Z.of_nat (List.length l1) <? 0) with false
    by (symmetry; apply Z.ltb_ge; lia).
  rewrite app_nth2 by lia. f_equal. lia.
Qed.

(** The character of [pre ++ mid ++ post] at offset [i] of [mid]. *)
Lemma at_index_mid (pre mid post : wstring) (i : Z) :
  0 <= i < wsize mid ->
  at_index (pre ++ mid ++ post) (wsize pre + i) = at_index mid i.
Proof.
  intros Hi. rewrite at_index_app_r by lia.
  replace (wsize pre + i - wsize pre) with i by lia.
  apply at_index_app_l. lia.
Qed.

Lemma slice_mid (pre mid post : wstring) :
  slice (Iter (pre ++ mid ++ post) (wsize pre))
        (Iter (pre ++ mid ++ post) (wsize pre + wsize mid)) = mid.
Proof.
  unfold slice, wsize. cbn [str idx].
  replace (Z.to_nat (Z.of_nat (List.length pre) + Z.of_nat (List.length mid)
                     - Z.of_nat (List.length pre)))
    with (List.length mid) by lia.
  rewrite Nat2Z.id, skipn_app, skipn_all, Nat.sub_diag. cbn [skipn app].
  rewrite firstn_app, firstn_all, Nat.sub_diag. cbn [firstn]. apply app_nil_r.
Qed.

Lemma slice_whole (s : wstring) : slice (cbegin_of s) (cend_of s) = s.
Proof.
  unfold slice, cbegin_of, cend_of. cbn [str idx].
  rewrite Z.sub_0_r, Nat2Z.id. cbn [skipn Z.to_nat]. apply firstn_all.
Qed.

(** [std::find] and [std::find_first_of] stop at the first character
    that satisfies the test. *)
Lemma find_loop_run k pr :
  forall p, exists j, find_loop k pr p = Iter (str p) j
    /\ fwd_run (fun c => negb (pr c)) (str p) (idx p) j (idx p + Z.of_nat k).
Proof.
  induction k as [|k IH]; intros p; cbn [find_loop].
  - exists (idx p). rewrite iter_eta. split; [reflexivity|].
    repeat split; try lia.
  - destruct (pr (deref p)) eqn:Hp.
    + exists (idx p). rewrite iter_eta. split; [reflexivity|].
      repeat split; try lia. right. unfold deref in Hp. rewrite Hp. reflexivity.
    + destruct (IH (p +! 1)) as (j & E & Hb & Hall & Hend).
      cbn [iadd str idx] in *. exists j. split; [exact E|].
      repeat split; try lia.
      * intros m Hm. destruct (Z.eq_dec m (idx p)) as [->|].
        -- unfold deref in Hp. rewrite Hp. reflexivity.
        -- apply Hall. lia.
      * destruct Hend as [->|Hend]; [left; lia | right; exact Hend].
Qed.

Lemma find_loop_first first last pr j :
  idx first <= idx last ->
  fwd_run (fun c => negb (pr c)) (str first) (idx first) j (idx last) ->
  find_loop (dist first last) pr first = Iter (str first) j.
Proof.
  intros Hle Hrun.
  destruct (find_loop_run (dist first last) pr first) as (j' & E & Hrun').
  rewrite E. f_equal. unfold dist in Hrun'. rewrite Z2Nat.id in Hrun' by lia.
  replace (idx first + (idx last - idx first)) with (idx last) in Hrun' by lia.
  exact (fwd_run_unique Hrun' Hrun).
Qed.

(** *** Quoted text without anything special inside *)

Lemma scan_quoted_while_inert pos eos lq rq esc pr :
  rq <> esc -> pr rq = true -> (lq = ch "(" -> rq <> ch "<") ->
  forall (len : nat) fuel p,
    (len + 2 <= fuel)%nat ->
    (forall m, idx p <= m < idx p + Z.of_nat len ->
               inert lq rq esc pr (at_index (str p) m)) ->
    idx p + Z.of_nat len < idx eos ->
    at_index (str p) (idx p + Z.of_nat len) = rq ->
    scan_quoted_while fuel pos eos lq rq esc pr p 1
    = Some (Iter (str p) (idx p + Z.of_nat len + 1)).
Proof.
  intros Hre Hpr Hlt.
  induction len as [|len IH]; intros fuel p Hf Hin He Hrq.
  - destruct fuel as [|[|fuel]]; try lia.
    rewrite Z.add_0_r in *. cbn [scan_quoted_while].
    change (1 >? 0) with true. cbv iota.
    unfold ilt, deref. replace (idx p <? idx eos) with true
      by (symmetry; apply Z.ltb_lt; lia).
    rewrite Hrq, Hpr. cbn [andb negb].
    replace (esc =? rq) with false by (symmetry; apply Z.eqb_neq; auto).
    cbn [andb].
    replace ((lq =? ch "(") && (ch "<" =? rq)) with false.
    2:{ symmetry. apply andb_false_iff.
        destruct (lq =? ch "(") eqn:El; [right | left; reflexivity].
        apply Z.eqb_eq in El. apply Z.eqb_neq. intros E. apply (Hlt El).
        symmetry. exact E. }
    rewrite Z.eqb_refl. change (1 - 1 >? 0) with false. cbv iota.
    reflexivity.
  - destruct fuel as [|fuel]; [lia|].
    destruct (Hin (idx p) ltac:(lia)) as (Hc1 & Hc2 & Hc3 & Hc4 & Hc5).
    cbn [scan_quoted_while]. change (1 >? 0) with true. cbv iota.
    unfold ilt, deref. replace (idx p <? idx eos) with true
      by (symmetry; apply Z.ltb_lt; lia).
    rewrite Hc1. cbn [andb negb].
    replace (esc =? at_index (str p) (idx p)) with false
      by (symmetry; apply Z.eqb_neq; auto).
    cbn [andb].
    replace ((lq =? ch "(") && (ch "<" =? at_index (str p) (idx p)))
      with false.
    2:{ symmetry. apply andb_false_iff.
        destruct (lq =? ch "(") eqn:El; [right | left; reflexivity].
        apply Z.eqb_eq in El. apply Z.eqb_neq. intros E. apply (Hc5 El).
        symmetry. exact E. }
    replace (rq =? at_index (str p) (idx p)) with false
      by (symmetry; apply Z.eqb_neq; auto).
    replace (lq =? at_index (str p) (idx p)) with false
      by (symmetry; apply Z.eqb_neq; auto).
    rewrite (IH fuel (p +! 1)); cbn [iadd str idx].
    + f_equal. f_equal. lia.
    + lia.
    + intros m Hm. apply Hin. lia.
    + lia.
    + rewrite <- Hrq. f_equal. lia.
Qed.

(** A quoted text [lq body rq] whose body is inert is scanned to its end. *)
Lemma scan_quoted_inert fuel pos eos lq rq esc pr (n : nat) :
  rq <> esc -> pr rq = true -> (lq = ch "(" -> rq <> ch "<") ->
  (n + 3 <= fuel)%nat ->
  at_index (str pos) (idx pos) = lq ->
  (forall m, idx pos + 1 <= m < idx pos + 1 + Z.of_nat n ->
             inert lq rq esc pr (at_index (str pos) m)) ->
  idx pos + 1 + Z.of_nat n < idx eos ->
  at_index (str pos) (idx pos + 1 + Z.of_nat n) = rq ->
  scan_quoted fuel pos eos lq rq esc pr
  = Some (Iter (str pos) (idx pos + Z.of_nat n + 2)).
Proof.
  intros Hre Hpr Hlt Hf Hlq Hin He Hrq.
  destruct fuel as [|fuel]; [lia|]. rewrite scan_quoted_unfold.
  unfold ilt, deref. replace (idx pos <? idx eos) with true
    by (symmetry; apply Z.ltb_lt; lia).
  rewrite Hlq, Z.eqb_refl. cbn [andb negb].
  rewrite (@scan_quoted_while_inert pos eos lq rq esc pr Hre Hpr Hlt n fuel
             (pos +! 1)); cbn [iadd str idx]; try assumption; try lia.
  f_equal. f_equal. lia.
Qed.

(** *** Functions of a range depend on its characters only *)

Lemma same_text_from b e b' e' t t' :
  same_text b e b' e' -> str t = str b -> str t' = str b' ->
  idx t - idx b = idx t' - idx b' -> idx b <= idx t ->
  same_text t e t' e'.
Proof.
  intros (Hlen & Hch) Hs Hs' Hd Hle. split; [lia|].
  intros n Hn. rewrite Hs, Hs'.
  replace (idx t + n) with (idx b + (idx t - idx b + n)) by lia.
  replace (idx t' + n) with (idx b' + (idx t - idx b + n)) by lia.
  apply Hch. lia.
Qed.

Lemma same_text_mid (pre mid post : wstring) :
  same_text (Iter (pre ++ mid ++ post) (wsize pre))
            (Iter (pre ++ mid ++ post) (wsize pre + wsize mid))
            (cbegin_of mid) (cend_of mid).
Proof.
  split; cbn [str idx cbegin_of cend_of]; [unfold wsize; lia|].
  intros n Hn. rewrite at_index_mid by lia. f_equal.
Qed.

Lemma unescape_backslash_loop_same k :
  forall s eos s' eos' acc, same_text s eos s' eos' ->
  unescape_backslash_loop k s eos acc = unescape_backslash_loop k s' eos' acc.
Proof.
  induction k as [|k IH]; intros s eos s' eos' acc Hsame; [reflexivity|].
  cbn [unescape_backslash_loop]. destruct Hsame as (Hlen & Hch).
  unfold ilt, peek, deref. cbn [iadd str idx].
  replace (idx s' <? idx eos') with (idx s <? idx eos)
    by (destruct (idx s <? idx eos) eqn:E; symmetry;
        [apply Z.ltb_lt in E; apply Z.ltb_lt | apply Z.ltb_ge in E; apply Z.ltb_ge];
        lia).
  destruct (idx s <? idx eos) eqn:Elt; [|reflexivity]. apply Z.ltb_lt in Elt.
  cbn [negb].
  assert (H0 : at_index (str s) (idx s) = at_index (str s') (idx s')).
  { pose proof (Hch 0 ltac:(lia)) as H. rewrite !Z.add_0_r in H. exact H. }
  rewrite <- H0.
  replace (idx s' + 1 <? idx eos') with (idx s + 1 <? idx eos)
    by (destruct (idx s + 1 <? idx eos) eqn:E; symmetry;
        [apply Z.ltb_lt in E; apply Z.ltb_lt | apply Z.ltb_ge in E; apply Z.ltb_ge];
        lia).
  destruct (idx s + 1 <? idx eos) eqn:Elt1.
  - apply Z.ltb_lt in Elt1. rewrite <- (Hch 1 ltac:(lia)).
    destruct (_ && _ && _);
      apply IH; apply (@same_text_from s eos s' eos'); cbn [iadd str idx];
      try reflexivity; try lia; split; assumption.
  - rewrite !andb_false_r. cbn [andb].
    apply IH; apply (@same_text_from s eos s' eos'); cbn [iadd str idx];
      try reflexivity; try lia; split; assumption.
Qed.

Lemma unescape_backslash_same b e b' e' :
  same_text b e b' e' -> unescape_backslash b e = unescape_backslash b' e'.
Proof.
  intros H. unfold unescape_backslash, dist. destruct H as (Hlen & Hch).
  rewrite Hlen. apply unescape_backslash_loop_same. split; assumption.
Qed.

Lemma scan_of_pred_same s eos s' eos' pr :
  same_text s eos s' eos' -> idx s <= idx eos ->
  exists d, 0 <= d
    /\ scan_of_pred s eos 0 (-1) pr = Iter (str s) (idx s + d)
    /\ scan_of_pred s' eos' 0 (-1) pr = Iter (str s') (idx s' + d).
Proof.
  intros (Hlen & Hch) Hle.
  destruct (@scan_of_pred_unbounded s eos pr Hle) as (j & E & Hb & Hall & Hend).
  exists (j - idx s). split; [lia|]. split; [rewrite E; f_equal; lia|].
  apply scan_of_pred_run; [left; reflexivity | lia |].
  repeat split; try lia.
  - intros m Hm. replace m with (idx s' + (m - idx s')) by lia.
    rewrite <- Hch by lia. apply Hall. lia.
  - destruct Hend as [->|Hend]; [left; lia|].
    destruct (Z.eq_dec j (idx eos)) as [->|Hne]; [left; lia|]. right.
    rewrite <- Hch by lia. replace (idx s + (j - idx s)) with j by lia.
    exact Hend.
Qed.

Lemma decode_linkid_loop_same k :
  forall s eos s' eos' acc, same_text s eos s' eos' ->
  decode_linkid_loop k s eos acc = decode_linkid_loop k s' eos' acc.
Proof.
  induction k as [|k IH]; intros s eos s' eos' acc Hsame; [reflexivity|].
  cbn [decode_linkid_loop]. pose proof Hsame as (Hlen & Hch).
  unfold ilt, peek, deref. cbn [iadd str idx].
  replace (idx s' <? idx eos') with (idx s <? idx eos)
    by (destruct (idx s <? idx eos) eqn:E; symmetry;
        [apply Z.ltb_lt in E; apply Z.ltb_lt | apply Z.ltb_ge in E; apply Z.ltb_ge];
        lia).
  destruct (idx s <? idx eos) eqn:Elt; [|reflexivity]. apply Z.ltb_lt in Elt.
  cbn [negb].
  assert (H0 : at_index (str s) (idx s) = at_index (str s') (idx s')).
  { pose proof (Hch 0 ltac:(lia)) as H. rewrite !Z.add_0_r in H. exact H. }
  rewrite <- H0.
  destruct (_ && _) eqn:Eup.
  { apply IH; apply (@same_text_from s eos s' eos'); cbn [iadd str idx];
      try reflexivity; try lia; exact Hsame. }
  replace (idx s' + 1 <? idx eos') with (idx s + 1 <? idx eos)
    by (destruct (idx s + 1 <? idx eos) eqn:E; symmetry;
        [apply Z.ltb_lt in E; apply Z.ltb_lt | apply Z.ltb_ge in E; apply Z.ltb_ge];
        lia).
  assert (Hesc :
    (ch "\" =? at_index (str s) (idx s)) && (idx s + 1 <? idx eos)
    && ismdescapable (at_index (str s') (idx s' + 1))
    = (ch "\" =? at_index (str s) (idx s)) && (idx s + 1 <? idx eos)
      && ismdescapable (at_index (str s) (idx s + 1))).
  { destruct (idx s + 1 <? idx eos) eqn:Elt1.
    - apply Z.ltb_lt in Elt1. rewrite <- (Hch 1 ltac:(lia)). reflexivity.
    - rewrite !andb_false_r. reflexivity. }
  rewrite Hesc. clear Hesc.
  destruct (_ && _ && _) eqn:Eesc.
  { assert (Hlt1 : idx s + 1 < idx eos).
    { apply andb_prop in Eesc as [Eesc _]. apply andb_prop in Eesc as [_ Eesc].
      apply Z.ltb_lt. exact Eesc. }
    rewrite <- (Hch 1 ltac:(lia)).
    apply IH; apply (@same_text_from s eos s' eos'); cbn [iadd str idx];
      try reflexivity; try lia; exact Hsame. }
  destruct (ismdwhite (at_index (str s) (idx s))).
  - destruct (@scan_of_pred_same s eos s' eos' ismdwhite Hsame ltac:(lia))
      as (d & Hd & E1 & E2).
    rewrite E1, E2. cbn [iadd str idx].
    apply IH; apply (@same_text_from s eos s' eos'); cbn [iadd str idx];
      try reflexivity; try lia; try exact Hsame.
  - apply IH; apply (@same_text_from s eos s' eos'); cbn [iadd str idx];
      try reflexivity; try lia; exact Hsame.
Qed.

Lemma decode_linkid_same b e b' e' :
  same_text b e b' e' -> decode_linkid b e = decode_linkid b' e'.
Proof.
  intros H. unfold decode_linkid, dist. pose proof H as (Hlen & Hch).
  rewrite Hlen. apply decode_linkid_loop_same. exact H.
Qed.

(** ** C6: reference links and inline links *)

Lemma Forall_at_index (P : wchar -> Prop) (l : wstring) (i : Z) :
  Forall P l -> 0 <= i < wsize l -> P (at_index l i).
Proof.
  intros H Hi. rewrite Forall_forall in H. apply H.
  unfold at_index, wsize in *.
  replace (i <? 0) with false by (symmetry; apply Z.ltb_ge; lia).
  apply nth_In. lia.
Qed.

Lemma forallb_at_index (f : wchar -> bool) (l : wstring) (i : Z) :
  forallb f l = true -> 0 <= i < wsize l -> f (at_index l i) = true.
Proof.
  intros H Hi. rewrite forallb_forall in H. apply H.
  unfold at_index, wsize in *.
  replace (i <? 0) with false by (symmetry; apply Z.ltb_ge; lia).
  apply nth_In. lia.
Qed.

Lemma nonempty_wsize (l : wstring) : negb (is_empty l) = true -> 1 <= wsize l.
Proof. destruct l; [discriminate|]. unfold wsize. simpl. lia. Qed.

(** A run of characters that the inline loop does not dispatch on, up to
    a closing bracket, becomes one TEXT token. *)
Lemma parse_inline_loop_plain fuel dict bos s i j eos nest :
  i < j < idx eos ->
  (forall m, i <= m < j -> wfind (at_index s m) (L " \`*_<![]") = false) ->
  at_index s j = ch "]" ->
  parse_inline_loop (S (S fuel)) dict bos (Iter s i) eos [] nest
  = Some (Iter s j, [Token TEXT (Iter s i) (Iter s j)], nest).
Proof.
  intros Hij Hplain Hclose.
  assert (Hc := Hplain i ltac:(lia)).
  remember (S fuel) as fuel1 eqn:Hf1.
  cbn [parse_inline_loop]. unfold ilt, deref. cbn [str idx].
  replace (i <? idx eos) with true by (symmetry; apply Z.ltb_lt; lia).
  unfold wfind in Hc. cbn [L existsb] in Hc. tests.
  repeat match goal with
  | H : at_index s i <> ?c |- _ =>
      replace (c =? at_index s i) with false
        by (symmetry; apply Z.eqb_neq; intros E; apply H; symmetry; exact E);
      clear H
  end.
  cbn [negb andb orb].
  unfold std_find_first_of.
  rewrite (@find_loop_first (Iter s i) eos _ j); cbn [str idx]; try lia.
  2:{ repeat split; try lia.
      - intros m Hm. rewrite Hplain by lia. reflexivity.
      - right. rewrite Hclose. reflexivity. }
  unfold parse_text, ile. cbn [idx is_empty negb andb].
  replace (j <=? i) with false by (symmetry; apply Z.leb_gt; lia).
  unfold push_back. cbn [app].
  subst fuel1. cbn [parse_inline_loop]. unfold ilt, deref. cbn [str idx].
  rewrite Hclose, Z.eqb_refl. rewrite andb_false_r. reflexivity.
Qed.

(** *** Texts made of segments *)

Lemma concat_split (segs : list wstring) :
  forall k, (k < List.length segs)%nat ->
  List.concat segs
  = List.concat (firstn k segs) ++ nth k segs [] ++ List.concat (skipn (S k) segs).
Proof.
  induction segs as [|x segs IH]; intros k Hk; [simpl in Hk; lia|].
  destruct k as [|k]; [reflexivity|].
  cbn [firstn List.concat nth skipn]. rewrite <- app_assoc. f_equal.
  apply IH. simpl in Hk. lia.
Qed.

Lemma at_index_segment (segs : list wstring) (k : nat) (i : Z) :
  (k < List.length segs)%nat -> 0 <= i < wsize (nth k segs []) ->
  at_index (List.concat segs) (offset segs k + i) = at_index (nth k segs []) i.
Proof.
  intros Hk Hi. rewrite (concat_split segs Hk) at 1.
  apply at_index_mid. exact Hi.
Qed.

Lemma same_text_segment (segs : list wstring) (k : nat) :
  (k < List.length segs)%nat ->
  same_text (Iter (List.concat segs) (offset segs k))
            (Iter (List.concat segs) (offset segs k + wsize (nth k segs [])))
            (cbegin_of (nth k segs [])) (cend_of (nth k segs [])).
Proof.
  intros Hk. rewrite (concat_split segs Hk). apply same_text_mid.
Qed.

Lemma slice_segment (segs : list wstring) (k : nat) :
  (k < List.length segs)%nat ->
  slice (Iter (List.concat segs) (offset segs k))
        (Iter (List.concat segs) (offset segs k + wsize (nth k segs [])))
  = nth k segs [].
Proof.
  intros Hk. rewrite (concat_split segs Hk). apply slice_mid.
Qed.

Lemma wsize_app (l1 l2 : wstring) : wsize (l1 ++ l2) = wsize l1 + wsize l2.
Proof. unfold wsize. rewrite length_app. lia. Qed.

Lemma wsize_cons (c : wchar) (l : wstring) : wsize (c :: l) = 1 + wsize l.
Proof. unfold wsize. cbn [List.length]. lia. Qed.

Lemma wsize_nil : wsize [] = 0.
Proof. reflexivity. Qed.

Lemma wsize_nonneg (l : wstring) : 0 <= wsize l.
Proof. unfold wsize. lia. Qed.

Ltac sizes :=
  unfold offset, reference_segments, inline_segments;
  cbn [firstn List.concat nth app];
  repeat (rewrite wsize_app || rewrite wsize_cons || rewrite wsize_nil).

Lemma reference_form_segments a b :
  reference_form a b = List.concat (reference_segments a b).
Proof.
  unfold reference_form, reference_segments. cbn [List.concat app].
  reflexivity.
Qed.

Lemma inline_form_segments a uri title :
  inline_form a uri title = List.concat (inline_segments a uri title).
Proof.
  unfold inline_form, inline_segments. cbn [List.concat app].
  reflexivity.
Qed.

(** Where the parts of [[a][b]] are. *)
Lemma reference_form_anatomy a b :
  let s := reference_form a b in
  let A := wsize a in
  let B := wsize b in
  wsize s = A + B + 4
  /\ at_index s 0 = ch "["
  /\ (forall i, 0 <= i < A -> at_index s (1 + i) = at_index a i)
  /\ at_index s (A + 1) = ch "]"
  /\ at_index s (A + 2) = ch "["
  /\ (forall i, 0 <= i < B -> at_index s (A + 3 + i) = at_index b i)
  /\ at_index s (A + 3 + B) = ch "]"
  /\ same_text (Iter s (A + 3)) (Iter s (A + 3 + B)) (cbegin_of b) (cend_of b)
  /\ slice (Iter s 1) (Iter s (A + 1)) = a.
Proof.
  cbv zeta. rewrite reference_form_segments.
  set (segs := reference_segments a b).
  assert (H0 : offset segs 0 = 0) by reflexivity.
  assert (H1 : offset segs 1 = 1) by (subst segs; sizes; lia).
  assert (H2 : offset segs 2 = wsize a + 1) by (subst segs; sizes; lia).
  assert (H3 : offset segs 3 = wsize a + 3) by (subst segs; sizes; lia).
  assert (H4 : offset segs 4 = wsize a + 3 + wsize b)
    by (subst segs; sizes; lia).
  pose proof (wsize_nonneg a). pose proof (wsize_nonneg b).
  split; [subst segs; sizes; lia|].
  split; [reflexivity|].
  split.
  { intros i Hi. rewrite <- H1.
    rewrite at_index_segment; [reflexivity | simpl; lia | exact Hi]. }
  split.
  { replace (wsize a + 1) with (offset segs 2 + 0) by lia.
    rewrite at_index_segment; [reflexivity | simpl; lia | cbn; lia]. }
  split.
  { replace (wsize a + 2) with (offset segs 2 + 1) by lia.
    rewrite at_index_segment; [reflexivity | simpl; lia | cbn; lia]. }
  split.
  { intros i Hi. rewrite <- H3.
    rewrite at_index_segment; [reflexivity | simpl; lia | exact Hi]. }
  split.
  { replace (wsize a + 3 + wsize b) with (offset segs 4 + 0) by lia.
    rewrite at_index_segment; [reflexivity | simpl; lia | cbn; lia]. }
  split.
  { rewrite <- H3. apply (@same_text_segment segs 3). simpl. lia. }
  rewrite <- H1 at 1. replace (wsize a + 1) with (offset segs 1 + wsize a) by lia.
  apply (@slice_segment segs 1). simpl. lia.
Qed.

(** Where the parts of [[a](uri "title")] are. *)
Lemma inline_form_anatomy a u t :
  let s := inline_form a u t in
  let A := wsize a in
  let U := wsize u in
  let T := wsize t in
  wsize s = A + U + T + 7
  /\ at_index s 0 = ch "["
  /\ (forall i, 0 <= i < A -> at_index s (1 + i) = at_index a i)
  /\ at_index s (A + 1) = ch "]"
  /\ at_index s (A + 2) = ch "("
  /\ (forall i, 0 <= i < U -> at_index s (A + 3 + i) = at_index u i)
  /\ at_index s (A + 3 + U) = ch " "
  /\ at_index s (A + 4 + U) = DQUOTE
  /\ (forall i, 0 <= i < T -> at_index s (A + 5 + U + i) = at_index t i)
  /\ at_index s (A + 5 + U + T) = DQUOTE
  /\ at_index s (A + 6 + U + T) = ch ")"
  /\ same_text (Iter s (A + 3)) (Iter s (A + 3 + U)) (cbegin_of u) (cend_of u)
  /\ same_text (Iter s (A + 5 + U)) (Iter s (A + 5 + U + T))
       (cbegin_of t) (cend_of t)
  /\ slice (Iter s 1) (Iter s (A + 1)) = a.
Proof.
  cbv zeta. rewrite inline_form_segments.
  set (segs := inline_segments a u t).
  assert (H1 : offset segs 1 = 1) by (subst segs; sizes; lia).
  assert (H2 : offset segs 2 = wsize a + 1) by (subst segs; sizes; lia).
  assert (H3 : offset segs 3 = wsize a + 3) by (subst segs; sizes; lia).
  assert (H4 : offset segs 4 = wsize a + 3 + wsize u)
    by (subst segs; sizes; lia).
  assert (H5 : offset segs 5 = wsize a + 5 + wsize u)
    by (subst segs; sizes; lia).
  assert (H6 : offset segs 6 = wsize a + 5 + wsize u + wsize t)
    by (subst segs; sizes; lia).
  pose proof (wsize_nonneg a). pose proof (wsize_nonneg u).
  pose proof (wsize_nonneg t).
  split; [subst segs; sizes; lia|].
  split; [reflexivity|].
  split.
  { intros i Hi. rewrite <- H1.
    rewrite at_index_segment; [reflexivity | simpl; lia | exact Hi]. }
  split.
  { replace (wsize a + 1) with (offset segs 2 + 0) by lia.
    rewrite at_index_segment; [reflexivity | simpl; lia | cbn; lia]. }
  split.
  { replace (wsize a + 2) with (offset segs 2 + 1) by lia.
    rewrite at_index_segment; [reflexivity | simpl; lia | cbn; lia]. }
  split.
  { intros i Hi. rewrite <- H3.
    rewrite at_index_segment; [reflexivity | simpl; lia | exact Hi]. }
  split.
  { replace (wsize a + 3 + wsize u) with (offset segs 4 + 0) by lia.
    rewrite at_index_segment; [reflexivity | simpl; lia | cbn; lia]. }
  split.
  { replace (wsize a + 4 + wsize u) with (offset segs 4 + 1) by lia.
    rewrite at_index_segment; [reflexivity | simpl; lia | cbn; lia]. }
  split.
  { intros i Hi. rewrite <- H5.
    rewrite at_index_segment; [reflexivity | simpl; lia | exact Hi]. }
  split.
  { replace (wsize a + 5 + wsize u + wsize t) with (offset segs 6 + 0) by lia.
    rewrite at_index_segment; [reflexivity | simpl; lia | cbn; lia]. }
  split.
  { replace (wsize a + 6 + wsize u + wsize t) with (offset segs 6 + 1) by lia.
    rewrite at_index_segment; [reflexivity | simpl; lia | cbn; lia]. }
  split.
  { rewrite <- H3. apply (@same_text_segment segs 3). simpl. lia. }
  split.
  { rewrite <- H5. apply (@same_text_segment segs 5). simpl. lia. }
  rewrite <- H1 at 1. replace (wsize a + 1) with (offset segs 1 + wsize a) by lia.
  apply (@slice_segment segs 1). simpl. lia.
Qed.

Lemma plain_id_chars b :
  plain_id b = true ->
  1 <= wsize b
  /\ forall i, 0 <= i < wsize b ->
       inert (ch "[") (ch "]") (ch "\") ismdany (at_index b i).
Proof.
  unfold plain_id. intros H. apply andb_prop in H as [Hne Hall].
  split; [apply nonempty_wsize, Hne|].
  intros i Hi. pose proof (@forallb_at_index _ b i Hall Hi) as Hc.
  cbv beta in Hc. apply andb_prop in Hc as [Hany Hc].
  apply negb_true_iff in Hc. unfold wfind in Hc. cbn [L existsb] in Hc.
  tests. unfold inert. repeat split; auto.
  intros E. discriminate E.
Qed.

(** ** C6: reference links and inline links *)

(** Reduce the [let]s and the matches on known values, nothing else. *)
Ltac step := cbv beta iota zeta.

Lemma find_title_quote_stay k p4 p5 qq :
  ismdwhite (peek p4 (-1)) = true -> find_title_quote k p4 p5 qq = p4.
Proof.
  intros H. destruct k as [|k]; cbn [find_title_quote]; [reflexivity|].
  rewrite H. cbn [negb]. rewrite andb_false_r. reflexivity.
Qed.

Lemma same_text_ilt b e b' e' :
  same_text b e b' e' -> (b <! e) = (b' <! e').
Proof.
  intros [Hd _]. unfold ilt.
  destruct (Z.ltb_spec (idx b) (idx e)), (Z.ltb_spec (idx b') (idx e'));
    try reflexivity; lia.
Qed.

(** ** C6: reference links and inline links, in any buffer *)

Section Retarget.

Variables (s1 s2 : wstring) (lo hi : Z).
Hypothesis agree : forall m, lo <= m <= hi -> at_index s1 m = at_index s2 m.

Let G := retarget s2.
Let GT := retarget_token s2.

Lemma retarget_add p k : G (p +! k) = G p +! k.
Proof. reflexivity. Qed.

Lemma retarget_deref p :
  str p = s1 -> lo <= idx p <= hi -> deref (G p) = deref p.
Proof.
  intros Hs Hi. unfold deref, G, retarget. cbn [str idx]. rewrite Hs.
  symmetry. apply agree. exact Hi.
Qed.

Lemma back_map_token (out : tokens) :
  out <> [] -> back null_token (map GT out) = GT (back null_token out).
Proof.
  intros Hne. unfold back.
  destruct (@exists_last _ out Hne) as (o & t & ->).
  rewrite map_app. cbn [map]. rewrite !last_last. reflexivity.
Qed.

Lemma is_empty_map {A B : Type} (g : A -> B) (l : list A) :
  is_empty (map g l) = is_empty l.
Proof. destruct l; reflexivity. Qed.

Lemma modify_map {A B : Type} (g : A -> B) (f : A -> A) (f' : B -> B)
    (l : list A) :
  (forall x, f' (g x) = g (f x)) ->
  forall i, modify (map g l) i f' = map g (modify l i f).
Proof.
  intros Hf. induction l as [|x l IH]; intros i; [reflexivity|].
  destruct i as [|i]; cbn [map modify]; [rewrite Hf; reflexivity|].
  rewrite IH. reflexivity.
Qed.

Lemma push_back_map {A B : Type} (g : A -> B) (l : list A) (x : A) :
  push_back (map g l) (g x) = map g (push_back l x).
Proof. unfold push_back. rewrite map_app. reflexivity. Qed.

Lemma at_pos_map_deref (out : tokens) (k : nat) :
  Forall (inside s1 lo hi) out ->
  deref (cbegin (at_pos (map GT out) k)) = deref (cbegin (at_pos out k)).
Proof.
  intros Hin. unfold at_pos.
  destruct (Nat.lt_ge_cases k (List.length out)) as [Hlt | Hge].
  - rewrite (@nth_indep _ (map GT out) k null_token (GT null_token))
      by (rewrite length_map; exact Hlt).
    rewrite map_nth.
    assert (Ht : inside s1 lo hi (nth k out null_token)).
    { rewrite Forall_forall in Hin. apply Hin. apply nth_In. exact Hlt. }
    destruct Ht as (Hs & Hi & _).
    change (cbegin (GT ?t)) with (G (cbegin t)).
    apply retarget_deref; [exact Hs | lia].
  - rewrite !nth_overflow by (rewrite ?length_map; exact Hge). reflexivity.
Qed.

Lemma parse_text_map b e (out : tokens) :
  parse_text (G b) (G e) (map GT out)
  = (G (fst (parse_text b e out)), map GT (snd (parse_text b e out))).
Proof.
  unfold parse_text.
  change (G e <=! G b) with (e <=! b).
  destruct (e <=! b); [reflexivity|].
  rewrite is_empty_map.
  destruct out as [|x out'] eqn:Eo; [reflexivity|].
  rewrite <- Eo. assert (Hne : out <> []) by (rewrite Eo; discriminate).
  rewrite (back_map_token Hne).
  change (kind (GT ?t)) with (kind t).
  change (cend (GT ?t) ==! G b) with (cend t ==! b).
  destruct (negb (is_empty out) && _ && _); cbn [fst snd].
  - rewrite length_map.
    rewrite (@modify_map _ _ GT (set_cend e) (set_cend (G e))); reflexivity.
  - change (Token TEXT (G b) (G e)) with (GT (Token TEXT b e)).
    rewrite push_back_map. reflexivity.
Qed.

Lemma patch_emphasis_map b e lw rw (out : tokens) (nest : nests) :
  str b = s1 -> lo <= idx b <= hi -> Forall (inside s1 lo hi) out ->
  patch_emphasis (G b) (G e) lw rw (map GT out) nest
  = (map GT (fst (patch_emphasis b e lw rw out nest)),
     snd (patch_emphasis b e lw rw out nest)).
Proof.
  intros Hs Hb Hin. unfold patch_emphasis. cbv zeta.
  change (G e -! G b) with (e -! b).
  rewrite length_map, (at_pos_map_deref _ Hin), (retarget_deref _ Hs Hb).
  change (Token ?k (G b) (G e)) with (GT (Token k b e)).
  rewrite !push_back_map.
  destruct (negb (nest_exists nest (e -! b))).
  { destruct (negb rw); reflexivity. }
  destruct ((n (nest_back nest) =? e -! b) || (n (nest_back nest) =? 3));
    [|reflexivity].
  destruct (negb lw && _); [|reflexivity].
  destruct (negb (is_empty (pop_back nest)) && _); [|reflexivity].
  cbn [fst snd].
  rewrite (@modify_map _ _ GT (set_kind (if 1 =? 3 - (e -! b) then SEM else SSTRONG))
             (set_kind (if 1 =? 3 - (e -! b) then SEM else SSTRONG)))
    by reflexivity.
  rewrite (@modify_map _ _ GT
             (fun t => set_cend (cbegin t +! (3 - (e -! b))) t)
             (fun t => set_cend (cbegin t +! (3 - (e -! b))) t))
    by reflexivity.
  rewrite (@modify_map _ _ GT (set_kind (if 1 =? e -! b then SEM else SSTRONG))
             (set_kind (if 1 =? e -! b then SEM else SSTRONG)))
    by reflexivity.
  reflexivity.
Qed.

Lemma patch_emphasis_three_map b e lw rw (out : tokens) (nest : nests) :
  str b = s1 -> lo <= idx b <= hi -> Forall (inside s1 lo hi) out ->
  patch_emphasis_three (G b) (G e) lw rw (map GT out) nest
  = (map GT (fst (patch_emphasis_three b e lw rw out nest)),
     snd (patch_emphasis_three b e lw rw out nest)).
Proof.
  intros Hs Hb Hin. unfold patch_emphasis_three. cbv zeta.
  rewrite length_map, (at_pos_map_deref _ Hin), (retarget_deref _ Hs Hb).
  rewrite parse_text_map.
  change (Token ?k (G b) (G e)) with (GT (Token k b e)).
  change (Token ?k (G b) (G b)) with (GT (Token k b b)).
  rewrite !push_back_map.
  destruct (negb (nest_exists nest 3)).
  { destruct (negb rw); reflexivity. }
  destruct ((2 <=? List.length nest)%nat && _ && _); [|reflexivity].
  destruct (lw || _); [reflexivity|].
  destruct (negb _); reflexivity.
Qed.

End Retarget.


(** *** What the emphasis patches keep *)

Lemma Forall_modify {A : Type} (P : A -> Prop) (f : A -> A) (l : list A) :
  (forall x, P x -> P (f x)) -> Forall P l ->
  forall i, Forall P (modify l i f).
Proof.
  intros Hf Hl. induction Hl as [|x l Hx Hl IH]; intros i; [constructor|].
  destruct i as [|i]; cbn [modify]; constructor; auto.
Qed.

Lemma Forall_push_back {A : Type} (P : A -> Prop) (l : list A) (x : A) :
  Forall P l -> P x -> Forall P (push_back l x).
Proof.
  intros Hl Hx. unfold push_back. apply Forall_app. split; [exact Hl|].
  constructor; [exact Hx | constructor].
Qed.

Lemma inside_set_kind s lo hi k t :
  inside s lo hi t -> inside s lo hi (set_kind k t).
Proof. intros H. exact H. Qed.

Lemma parse_text_inside s lo hi b e (out : tokens) :
  str b = s -> lo <= idx b < hi -> idx e <= hi + 1 ->
  Forall (inside s lo hi) out ->
  Forall (inside s lo hi) (snd (parse_text b e out)).
Proof.
  intros Hs Hb He Hin. unfold parse_text.
  destruct (e <=! b); [exact Hin|].
  destruct (negb (is_empty out) && _ && _); cbn [snd].
  - apply Forall_modify; [|exact Hin].
    intros x (H1 & H2 & H3).
    repeat split; cbn [set_cend cbegin cend]; try assumption; lia.
  - apply Forall_push_back; [exact Hin|].
    repeat split; cbn [cbegin cend]; try assumption; lia.
Qed.

Lemma patch_emphasis_inside s lo hi b e lw rw (out : tokens) (nest : nests) :
  str b = s -> lo <= idx b < hi -> idx e <= hi + 1 -> 1 <= e -! b ->
  Forall (inside s lo hi) out ->
  Forall (inside s lo hi) (fst (patch_emphasis b e lw rw out nest)).
Proof.
  intros Hs Hb He Hn Hin. unfold patch_emphasis. cbv zeta.
  assert (Hnew : forall k, inside s lo hi (Token k b e))
    by (intros k; repeat split; cbn [cbegin cend]; try assumption; lia).
  assert (Hpush : forall k, Forall (inside s lo hi) (push_back out (Token k b e)))
    by (intros k; apply Forall_push_back; [exact Hin | apply Hnew]).
  destruct (negb (nest_exists nest (e -! b))).
  { destruct (negb rw); cbn [fst]; apply Hpush. }
  destruct ((n (nest_back nest) =? e -! b) || (n (nest_back nest) =? 3));
    [|cbn [fst]; apply Hpush].
  destruct (negb lw && _); [|cbn [fst]; apply Hpush].
  destruct (negb (is_empty (pop_back nest)) && _); cbn [fst]; [|apply Hpush].
  apply Forall_modify; [intros x Hx; exact Hx|].
  apply Forall_modify.
  { intros x (H1 & H2 & H3).
    repeat split; cbn [set_cend cbegin cend iadd idx]; try assumption; lia. }
  apply Forall_modify; [intros x Hx; exact Hx|]. apply Hpush.
Qed.

Lemma patch_emphasis_three_inside s lo hi b e lw rw (out : tokens)
    (nest : nests) :
  str b = s -> lo <= idx b < hi -> idx e <= hi + 1 ->
  Forall (inside s lo hi) out ->
  Forall (inside s lo hi) (fst (patch_emphasis_three b e lw rw out nest)).
Proof.
  intros Hs Hb He Hin. unfold patch_emphasis_three. cbv zeta.
  assert (Hnew : forall k, inside s lo hi (Token k b e))
    by (intros k; repeat split; cbn [cbegin cend]; try assumption; lia).
  assert (Hnew0 : forall k, inside s lo hi (Token k b b))
    by (intros k; repeat split; cbn [cbegin cend]; try assumption; lia).
  pose proof (@parse_text_inside s lo hi b e out Hs Hb He Hin) as Htext.
  destruct (negb (nest_exists nest 3)).
  { destruct (negb rw); cbn [fst]; [|exact Htext].
    repeat apply Forall_push_back; auto. }
  destruct ((2 <=? List.length nest)%nat && _ && _); [|exact Htext].
  destruct (lw || _); [exact Htext|].
  destruct (negb _); cbn [fst]; repeat apply Forall_push_back; auto.
Qed.

(** The frames of the emphasis marks stand above a frame that is none
    (a link frame, or the bottom of the stack), and the patches leave
    that frame and what is below it alone. *)
Lemma nest_back_app (base above : nests) (f : nest_type) :
  nest_back (base ++ above ++ [f]) = f.
Proof. unfold nest_back, back. rewrite app_assoc. apply last_last. Qed.

Lemma pop_back_app (base above : nests) (f : nest_type) :
  pop_back (base ++ above ++ [f]) = base ++ above.
Proof. unfold pop_back. rewrite app_assoc. apply removelast_last. Qed.

Lemma emphasis_frames_split (above : nests) :
  above = [] \/ exists ab f, above = ab ++ [f].
Proof.
  destruct above as [|x l]; [left; reflexivity | right].
  destruct (@exists_last _ (x :: l) ltac:(discriminate)) as (ab & f & E).
  exists ab, f. exact E.
Qed.

Lemma patch_emphasis_frames b e lw rw (out : tokens) (base above : nests) :
  n (nest_back base) = 0 -> emphasis_frames above -> 1 <= e -! b <= 2 ->
  exists above',
    snd (patch_emphasis b e lw rw out (base ++ above)) = base ++ above'
    /\ emphasis_frames above'.
Proof.
  intros Hbase Hab Hn. unfold patch_emphasis. cbv zeta.
  assert (Hsame : exists above', base ++ above = base ++ above'
                                 /\ emphasis_frames above')
    by (exists above; split; [reflexivity | exact Hab]).
  destruct (negb (nest_exists (base ++ above) (e -! b))).
  { destruct (negb rw); cbn [snd]; [|exact Hsame].
    exists (above ++ [Nest (List.length out) (e -! b)]).
    unfold push_back. rewrite app_assoc. split; [reflexivity|].
    apply Forall_app. split; [exact Hab|].
    constructor; [cbn [n]; lia | constructor]. }
  destruct (emphasis_frames_split above) as [-> | (ab & f & ->)].
  { rewrite app_nil_r, Hbase.
    replace (0 =? e -! b) with false by (symmetry; apply Z.eqb_neq; lia).
    cbn [orb snd]. rewrite app_nil_r in Hsame. exact Hsame. }
  apply Forall_app in Hab as [Hab Hf].
  rewrite nest_back_app, pop_back_app.
  destruct ((n f =? e -! b) || (n f =? 3)); [|exact Hsame].
  destruct (negb lw && _); [|exact Hsame].
  destruct (negb (is_empty (base ++ ab)) && _) eqn:Hc; cbn [snd];
    [|exists ab; split; [reflexivity | exact Hab]].
  apply andb_prop in Hc as [_ Hc]. apply Z.eqb_eq in Hc.
  destruct (emphasis_frames_split ab) as [-> | (ab' & g & ->)].
  { rewrite app_nil_r in Hc. lia. }
  apply Forall_app in Hab as [Hab' Hg].
  exists (ab' ++ [set_n (3 - (e -! b)) g]).
  rewrite !app_assoc. rewrite modify_last. split; [reflexivity|].
  apply Forall_app. split; [exact Hab'|].
  constructor; [cbn [set_n n]; lia | constructor].
Qed.

Lemma patch_emphasis_three_frames b e lw rw (out : tokens)
    (base above : nests) :
  n (nest_back base) = 0 -> emphasis_frames above ->
  exists above',
    snd (patch_emphasis_three b e lw rw out (base ++ above)) = base ++ above'
    /\ emphasis_frames above'.
Proof.
  intros Hbase Hab. unfold patch_emphasis_three. cbv zeta.
  assert (Hsame : exists above', base ++ above = base ++ above'
                                 /\ emphasis_frames above')
    by (exists above; split; [reflexivity | exact Hab]).
  destruct (negb (nest_exists (base ++ above) 3)).
  { destruct (negb rw); cbn [snd]; [|exact Hsame].
    exists (above ++ [Nest (List.length out) 3; Nest (List.length out) 3]).
    unfold push_back. rewrite <- !app_assoc. split; [reflexivity|].
    apply Forall_app. split; [exact Hab|].
    repeat constructor; cbn [n]; lia. }
  destruct ((2 <=? List.length (base ++ above))%nat && _ && _) eqn:Hc;
    [|exact Hsame].
  apply andb_prop in Hc as [Hc H2]. apply andb_prop in Hc as [Hlen H1].
  apply Nat.leb_le in Hlen. apply Z.gtb_lt in H1, H2.
  assert (Hpop : exists ab g f, above = ab ++ [g; f]).
  { destruct (emphasis_frames_split above) as [-> | (ab & f & ->)].
    { exfalso. rewrite app_nil_r in *.
      destruct (emphasis_frames_split base) as [-> | (bb & h & ->)];
        [cbn in Hlen; lia|].
      replace (List.length (bb ++ [h]) - 1)%nat with (List.length bb) in H1
        by (rewrite length_app; cbn; lia).
      rewrite nth_middle in H1.
      unfold nest_back, back in Hbase. rewrite last_last in Hbase. lia. }
    destruct (emphasis_frames_split ab) as [-> | (ab' & g & ->)].
    { exfalso. cbn [app] in *.
      destruct (emphasis_frames_split base) as [-> | (bb & h & ->)];
        [cbn in Hlen; lia|].
      replace (List.length ((bb ++ [h]) ++ [f]) - 2)%nat
        with (List.length bb) in H2
        by (rewrite !length_app; cbn; lia).
      rewrite <- app_assoc in H2. cbn [app] in H2. rewrite nth_middle in H2.
      unfold nest_back, back in Hbase. rewrite last_last in Hbase. lia. }
    exists ab', g, f. rewrite <- app_assoc. reflexivity. }
  destruct Hpop as (ab & g & f & ->).
  apply Forall_app in Hab as [Hab _].
  assert (Epop : pop_back (pop_back (base ++ ab ++ [g; f])) = base ++ ab).
  { change [g; f] with ([g] ++ [f]).
    replace (base ++ ab ++ [g] ++ [f]) with (base ++ (ab ++ [g]) ++ [f])
      by (rewrite <- !app_assoc; reflexivity).
    rewrite pop_back_app. apply pop_back_app. }
  destruct (lw || _); [exact Hsame|].
  destruct (negb _); cbn [snd]; rewrite Epop; exists ab;
    (split; [reflexivity | exact Hab]).
Qed.


(** *** Link text, position by position *)

Lemma text_region_le s hi i : text_region s hi i -> i <= hi.
Proof. induction 1; lia. Qed.

Lemma text_region_skip s hi (k : nat) :
  forall i j, text_region s hi i -> i <= j <= hi -> j - i <= Z.of_nat k ->
    (forall m, i <= m < j -> at_index s m <> ch "\") ->
    text_region s hi j.
Proof.
  induction k as [|k IH]; intros i j Hr Hj Hk Hno.
  - replace j with i by lia. exact Hr.
  - destruct (Z.eq_dec i j) as [-> | Hne]; [exact Hr|].
    inversion Hr as [E | ? _ Hc _ _ | ? _ Hc _ _ | ? _ _ Hr']; subst.
    + lia.
    + exfalso. apply (Hno i); [lia | exact Hc].
    + exfalso. apply (Hno i); [lia | exact Hc].
    + apply (IH (i + 1) j Hr'); try lia. intros m Hm. apply Hno. lia.
Qed.

Lemma link_text_region_len (k : nat) :
  forall (a : wstring) s off,
    (List.length a <= k)%nat -> link_text a = true ->
    (forall m, 0 <= m < wsize a -> at_index s (off + m) = at_index a m) ->
    text_region s (off + wsize a) off.
Proof.
  induction k as [|k IH]; intros a s off Hlen Ha Hs.
  - destruct a; [|cbn in Hlen; lia].
    change (wsize []) with 0. rewrite Z.add_0_r. constructor.
  - destruct a as [|c rest].
    { change (wsize []) with 0. rewrite Z.add_0_r. constructor. }
    assert (Hc : at_index s off = c).
    { specialize (Hs 0). rewrite Z.add_0_r in Hs. rewrite Hs; [reflexivity|].
      rewrite wsize_cons. pose proof (wsize_nonneg rest). lia. }
    assert (Hrest : forall m, 0 <= m < wsize rest ->
              at_index s (off + 1 + m) = at_index rest m).
    { intros m Hm. replace (off + 1 + m) with (off + (m + 1)) by lia.
      rewrite Hs by (rewrite wsize_cons; lia).
      unfold at_index.
      replace (m + 1 <? 0) with false by (symmetry; apply Z.ltb_ge; lia).
      replace (m <? 0) with false by (symmetry; apply Z.ltb_ge; lia).
      replace (Z.to_nat (m + 1)) with (S (Z.to_nat m)) by lia.
      reflexivity. }
    pose proof (wsize_nonneg rest) as Hr0.
    cbn [link_text] in Ha. rewrite wsize_cons.
    destruct (ch "\" =? c) eqn:Eb.
    + apply Z.eqb_eq in Eb.
      destruct rest as [|d rest']; [discriminate Ha|].
      assert (Hd : at_index s (off + 1) = d).
      { specialize (Hrest 0). rewrite Z.add_0_r in Hrest.
        rewrite Hrest; [reflexivity|].
        rewrite wsize_cons. pose proof (wsize_nonneg rest'). lia. }
      pose proof (wsize_nonneg rest') as Hr1.
      destruct (ismdescapable d) eqn:Ed.
      * rewrite wsize_cons. apply region_escape;
          [lia | congruence | rewrite Hd; exact Ed |].
        replace (off + (1 + (1 + wsize rest')))
          with ((off + 2) + wsize rest') by lia.
        apply (IH rest' s (off + 2)); [cbn in Hlen |- *; lia | exact Ha |].
        intros m Hm. replace (off + 2 + m) with (off + 1 + (m + 1)) by lia.
        rewrite Hrest by (rewrite wsize_cons; lia).
        unfold at_index.
        replace (m + 1 <? 0) with false by (symmetry; apply Z.ltb_ge; lia).
        replace (m <? 0) with false by (symmetry; apply Z.ltb_ge; lia).
        replace (Z.to_nat (m + 1)) with (S (Z.to_nat m)) by lia.
        reflexivity.
      * rewrite wsize_cons. apply region_backslash;
          [lia | congruence | rewrite Hd; exact Ed |].
        replace (off + (1 + (1 + wsize rest')))
          with ((off + 1) + wsize (d :: rest'))
          by (rewrite wsize_cons; lia).
        apply (IH (d :: rest') s (off + 1));
          [cbn in Hlen |- *; lia | exact Ha | exact Hrest].
    + apply andb_prop in Ha as [Hsp Ha]. apply negb_true_iff in Hsp.
      apply region_char; try lia.
      * rewrite Hc. unfold wfind in *. cbn [L existsb] in *.
        rewrite Z.eqb_sym, Eb. cbn [orb]. exact Hsp.
      * replace (off + (1 + wsize rest)) with ((off + 1) + wsize rest) by lia.
        apply (IH rest s (off + 1)); [cbn in Hlen; lia | exact Ha | exact Hrest].
Qed.

Lemma link_text_region (a : wstring) s off :
  link_text a = true ->
  (forall m, 0 <= m < wsize a -> at_index s (off + m) = at_index a m) ->
  text_region s (off + wsize a) off.
Proof. apply (@link_text_region_len (List.length a)). lia. Qed.


(** *** The inline loop, branch by branch *)

Lemma parse_inline_loop_end fuel dict bos pos eos (out : tokens)
    (nest : nests) :
  deref pos = ch "]" ->
  parse_inline_loop (S fuel) dict bos pos eos out nest = Some (pos, out, nest).
Proof.
  intros H. cbn [parse_inline_loop]. rewrite H.
  change (ch "]" =? ch "]") with true. cbn [negb]. rewrite andb_false_r.
  reflexivity.
Qed.

Lemma parse_inline_loop_space fuel dict bos pos eos (out : tokens)
    (nest : nests) :
  (pos <! eos) = true -> deref pos = ch " " ->
  parse_inline_loop (S fuel) dict bos pos eos out nest
  = parse_inline_loop fuel dict bos (fst (parse_space pos eos out)) eos
      (snd (parse_space pos eos out)) nest.
Proof.
  intros Hlt H. cbn [parse_inline_loop]. rewrite Hlt, H.
  change (ch "]" =? ch " ") with false.
  change (ch " " =? ch " ") with true. cbn [negb andb].
  destruct (parse_space pos eos out) as [p o]. reflexivity.
Qed.

Lemma parse_inline_loop_escape fuel dict bos pos eos (out : tokens)
    (nest : nests) :
  (pos <! eos) = true -> deref pos = ch "\" ->
  parse_inline_loop (S fuel) dict bos pos eos out nest
  = parse_inline_loop fuel dict bos (fst (parse_escape pos eos out)) eos
      (snd (parse_escape pos eos out)) nest.
Proof.
  intros Hlt H. cbn [parse_inline_loop]. rewrite Hlt, H.
  change (ch "]" =? ch "\") with false.
  change (ch " " =? ch "\") with false.
  change (ch "\" =? ch "\") with true. cbn [negb andb].
  destruct (parse_escape pos eos out) as [p o]. reflexivity.
Qed.

Lemma parse_inline_loop_emphasis fuel dict bos pos eos (out : tokens)
    (nest : nests) :
  (pos <! eos) = true -> deref pos = ch "*" \/ deref pos = ch "_" ->
  parse_inline_loop (S fuel) dict bos pos eos out nest
  = let r := parse_emphasis bos pos eos out nest in
    parse_inline_loop fuel dict bos (fst (fst r)) eos (snd (fst r)) (snd r).
Proof.
  intros Hlt H. cbn [parse_inline_loop]. rewrite Hlt. cbv zeta.
  destruct (parse_emphasis bos pos eos out nest) as [[p o] ns].
  destruct H as [H | H]; rewrite H; reflexivity.
Qed.

Lemma parse_inline_loop_default fuel dict bos pos eos (out : tokens)
    (nest : nests) :
  (pos <! eos) = true -> wfind (deref pos) (L " \`*_<![]") = false ->
  parse_inline_loop (S fuel) dict bos pos eos out nest
  = let r := parse_text pos (std_find_first_of pos eos (L " \`*_<![]")) out in
    parse_inline_loop fuel dict bos (fst r) eos (snd r) nest.
Proof.
  intros Hlt H. cbn [parse_inline_loop]. rewrite Hlt. cbv zeta.
  destruct (parse_text pos (std_find_first_of pos eos (L " \`*_<![]")) out)
    as [p o].
  unfold wfind in H. cbn [L existsb] in H.
  repeat (apply orb_false_elim in H; destruct H as [? H]).
  repeat match goal with
  | E : (deref pos =? ?c) = false |- _ =>
      rewrite (Z.eqb_sym (deref pos) c) in E; rewrite E; clear E
  end.
  reflexivity.
Qed.


(** *** One step of the inline loop inside a link text *)

Lemma parse_text_pair b e (out : tokens) :
  idx b < idx e -> parse_text b e out = (e, snd (parse_text b e out)).
Proof.
  intros Hlt. destruct (@parse_text_appends b e out Hlt) as (Hf & _).
  destruct (parse_text b e out) as [p o]. cbn [fst snd] in *.
  rewrite Hf. reflexivity.
Qed.

Section LinkRegion.

Variables (s1 s2 : wstring) (lo hi : Z).
Hypothesis agree : forall m, lo <= m <= hi -> at_index s1 m = at_index s2 m.
Hypothesis closing : at_index s1 hi = ch "]".
Variable dict : refdict_type.
Variables (bos1 bos2 eos1 eos2 : char_iterator).
Hypothesis bos_same : idx bos2 = idx bos1.
Hypothesis bos_low : idx bos1 <= lo.
Hypothesis eos1_far : hi < idx eos1.
Hypothesis eos2_far : hi < idx eos2.

Local Notation "'G'" := (retarget s2).
Local Notation "'GT'" := (retarget_token s2).

Lemma run_transfer pr i j :
  lo <= i <= hi -> pr (at_index s1 hi) = false ->
  fwd_run pr s1 i j (idx eos1) ->
  j <= hi /\ fwd_run pr s2 i j (idx eos2).
Proof.
  intros Hi Hstop (Hb & Hall & Hend).
  assert (Hj : j <= hi).
  { destruct (Z_le_gt_dec j hi) as [H | H]; [exact H|].
    rewrite (Hall hi) in Hstop by lia. discriminate Hstop. }
  split; [exact Hj|]. repeat split; try lia.
  - intros m Hm. rewrite <- agree by lia. apply Hall. exact Hm.
  - right. rewrite <- agree by lia. destruct Hend as [E | E]; [lia | exact E].
Qed.

Lemma space_step i (out : tokens) :
  lo <= i < hi -> at_index s1 i = ch " " -> Forall (inside s1 lo hi) out ->
  exists j out',
    i < j <= hi
    /\ (forall m, i <= m < j -> at_index s1 m <> ch "\")
    /\ parse_space (Iter s1 i) eos1 out = (Iter s1 j, out')
    /\ parse_space (Iter s2 i) eos2 (map GT out) = (Iter s2 j, map GT out')
    /\ Forall (inside s1 lo hi) out'.
Proof.
  intros Hi Hsp Hin. unfold parse_space, scan_of.
  rewrite (@scan_of_pred_min1 (Iter s1 i) eos1 (-1)).
  rewrite (@scan_of_pred_min1 (Iter s2 i) eos2 (-1)).
  destruct (@scan_of_pred_unbounded (Iter s1 i) eos1 (Z.eqb (ch " "))
              ltac:(cbn [idx]; lia)) as (j1 & E1 & Hb & Hrun & Hstop).
  cbn [str idx] in E1, Hb, Hrun, Hstop.
  assert (Hfwd : fwd_run (Z.eqb (ch " ")) s1 i j1 (idx eos1))
    by (repeat split; try lia; assumption).
  destruct (@run_transfer (Z.eqb (ch " ")) i j1 ltac:(lia)
              ltac:(rewrite closing; reflexivity) Hfwd) as (Hj1 & Hfwd2).
  assert (Hij : i < j1).
  { destruct Hstop as [-> | Hstop]; [lia|].
    destruct (Z.eq_dec j1 i) as [-> | ]; [|lia].
    rewrite Hsp in Hstop. discriminate Hstop. }
  rewrite E1.
  rewrite (@scan_of_pred_run (Iter s2 i) eos2 0 (Z.eqb (ch " ")) j1)
    by (cbn [str idx]; auto; lia).
  cbn [str]. rewrite !scan_of_pred_one. unfold ilt, deref. cbn [str idx].
  replace (j1 <? idx eos1) with true by (symmetry; apply Z.ltb_lt; lia).
  replace (j1 <? idx eos2) with true by (symmetry; apply Z.ltb_lt; lia).
  rewrite <- (agree (m := j1)) by lia. cbn [andb].
  assert (Hno : forall j, j1 <= j <= j1 + 1 ->
            (j = j1 + 1 -> at_index s1 j1 = NL) ->
            forall m, i <= m < j -> at_index s1 m <> ch "\").
  { intros j Hj Hnl m Hm E.
    destruct (Z_lt_ge_dec m j1) as [Hlt | Hge].
    - pose proof (Hrun m ltac:(lia)) as Hm'. apply Z.eqb_eq in Hm'.
      rewrite <- Hm' in E. vm_compute in E. discriminate E.
    - assert (m = j1) by lia. subst m. rewrite Hnl in E by lia.
      vm_compute in E. discriminate E. }
  destruct (NL =? at_index s1 j1) eqn:Enl.
  - apply Z.eqb_eq in Enl.
    assert (Hlt : j1 < hi).
    { destruct (Z.eq_dec j1 hi) as [-> | ]; [|lia].
      rewrite closing in Enl. discriminate Enl. }
    unfold iadd, idiff. cbn [str idx].
    replace (j1 <? j1 + 1) with true by (symmetry; apply Z.ltb_lt; lia).
    rewrite andb_true_r.
    destruct (j1 - i >=? 2).
    + exists (j1 + 1), (push_back out (Token BREAK (Iter s1 i) (Iter s1 (j1 + 1)))).
      split; [lia|]. split; [apply Hno; [lia | intros _; symmetry; exact Enl]|].
      split; [reflexivity|]. split.
      * change (Token BREAK (Iter s2 i) (Iter s2 (j1 + 1)))
          with (GT (Token BREAK (Iter s1 i) (Iter s1 (j1 + 1)))).
        rewrite push_back_map. reflexivity.
      * apply Forall_push_back; [exact Hin|].
        repeat split; cbn [cbegin cend str idx]; lia.
    + exists (j1 + 1), (snd (parse_text (Iter s1 i) (Iter s1 (j1 + 1)) out)).
      split; [lia|]. split; [apply Hno; [lia | intros _; symmetry; exact Enl]|].
      pose proof (@parse_text_pair (Iter s1 i) (Iter s1 (j1 + 1)) out
                    ltac:(cbn [idx]; lia)) as Hf.
      split; [exact Hf|]. split.
      * change (Iter s2 i) with (G (Iter s1 i)).
        change (Iter s2 (j1 + 1)) with (G (Iter s1 (j1 + 1))).
        rewrite parse_text_map. rewrite Hf. reflexivity.
      * apply parse_text_inside; cbn [str idx]; auto; lia.
  - unfold idiff. cbn [idx]. rewrite Z.ltb_irrefl, andb_false_r.
    exists j1, (snd (parse_text (Iter s1 i) (Iter s1 j1) out)).
    split; [lia|]. split; [apply Hno; [lia | intros; lia]|].
    pose proof (@parse_text_pair (Iter s1 i) (Iter s1 j1) out
                  ltac:(cbn [idx]; lia)) as Hf.
    split; [exact Hf|]. split.
    + change (Iter s2 i) with (G (Iter s1 i)).
      change (Iter s2 j1) with (G (Iter s1 j1)).
      rewrite parse_text_map. rewrite Hf. reflexivity.
    + apply parse_text_inside; cbn [str idx]; auto; lia.
Qed.

Lemma escape_step i (out : tokens) :
  lo <= i -> i + 1 < hi -> at_index s1 i = ch "\" ->
  Forall (inside s1 lo hi) out ->
  let j := if ismdescapable (at_index s1 (i + 1)) then i + 2 else i + 1 in
  exists out',
    parse_escape (Iter s1 i) eos1 out = (Iter s1 j, out')
    /\ parse_escape (Iter s2 i) eos2 (map GT out) = (Iter s2 j, map GT out')
    /\ Forall (inside s1 lo hi) out'.
Proof.
  intros Hi Hi1 Hb Hin j. unfold parse_escape, scan_of.
  rewrite !scan_of_pred_one. unfold ilt, deref, iadd. cbn [str idx].
  rewrite <- (agree (m := i)) by lia. rewrite Hb, Z.eqb_refl.
  replace (i <? idx eos1) with true by (symmetry; apply Z.ltb_lt; lia).
  replace (i <? idx eos2) with true by (symmetry; apply Z.ltb_lt; lia).
  cbn [andb str idx].
  replace (i + 1 <? idx eos1) with true by (symmetry; apply Z.ltb_lt; lia).
  replace (i + 1 <? idx eos2) with true by (symmetry; apply Z.ltb_lt; lia).
  rewrite <- (agree (m := i + 1)) by lia. cbn [andb]. subst j.
  destruct (ismdescapable (at_index s1 (i + 1))); unfold ieq; cbn [str idx].
  - replace (i + 1 =? i + 1 + 1) with false
      by (symmetry; apply Z.eqb_neq; lia).
    replace (i + 1 + 1) with (i + 2) by lia.
    exists (snd (parse_text (Iter s1 i) (Iter s1 (i + 2)) out)).
    pose proof (@parse_text_pair (Iter s1 i) (Iter s1 (i + 2)) out
                  ltac:(cbn [idx]; lia)) as Hf.
    split; [exact Hf|]. split.
    + change (Iter s2 i) with (G (Iter s1 i)).
      change (Iter s2 (i + 2)) with (G (Iter s1 (i + 2))).
      rewrite parse_text_map. rewrite Hf. reflexivity.
    + apply parse_text_inside; cbn [str idx]; auto; lia.
  - rewrite Z.eqb_refl.
    exists (snd (parse_text (Iter s1 i) (Iter s1 (i + 1)) out)).
    pose proof (@parse_text_pair (Iter s1 i) (Iter s1 (i + 1)) out
                  ltac:(cbn [idx]; lia)) as Hf.
    split; [exact Hf|]. split.
    + change (Iter s2 i) with (G (Iter s1 i)).
      change (Iter s2 (i + 1)) with (G (Iter s1 (i + 1))).
      rewrite parse_text_map. rewrite Hf. reflexivity.
    + apply parse_text_inside; cbn [str idx]; auto; lia.
Qed.

Lemma default_step i (out : tokens) :
  lo <= i < hi -> wfind (at_index s1 i) (L " \`*_<![]") = false ->
  Forall (inside s1 lo hi) out ->
  exists j out',
    i < j <= hi
    /\ (forall m, i <= m < j -> at_index s1 m <> ch "\")
    /\ parse_text (Iter s1 i)
         (std_find_first_of (Iter s1 i) eos1 (L " \`*_<![]")) out
       = (Iter s1 j, out')
    /\ parse_text (Iter s2 i)
         (std_find_first_of (Iter s2 i) eos2 (L " \`*_<![]")) (map GT out)
       = (Iter s2 j, map GT out')
    /\ Forall (inside s1 lo hi) out'.
Proof.
  intros Hi Hc Hin. unfold std_find_first_of.
  destruct (find_loop_run (dist (Iter s1 i) eos1)
              (fun c => wfind c (L " \`*_<![]")) (Iter s1 i))
    as (j & E & Hrun).
  unfold dist in Hrun. cbn [str idx] in E, Hrun.
  rewrite Z2Nat.id in Hrun by lia.
  replace (i + (idx eos1 - i)) with (idx eos1) in Hrun by lia.
  destruct (@run_transfer (fun c => negb (wfind c (L " \`*_<![]"))) i j
              ltac:(lia) ltac:(rewrite closing; reflexivity) Hrun)
    as (Hj & Hrun2).
  rewrite E.
  rewrite (@find_loop_first (Iter s2 i) eos2 _ j)
    by (cbn [str idx]; first [lia | exact Hrun2]).
  cbn [str].
  destruct Hrun as (Hb & Hall & Hstop).
  assert (Hij : i < j).
  { destruct Hstop as [-> | Hstop]; [lia|].
    destruct (Z.eq_dec j i) as [-> | ]; [|lia].
    rewrite Hc in Hstop. discriminate Hstop. }
  exists j, (snd (parse_text (Iter s1 i) (Iter s1 j) out)).
  split; [lia|]. split.
  { intros m Hm Em. specialize (Hall m Hm). rewrite Em in Hall.
    discriminate Hall. }
  pose proof (@parse_text_pair (Iter s1 i) (Iter s1 j) out
                ltac:(cbn [idx]; lia)) as Hf.
  split; [exact Hf|]. split.
  - change (Iter s2 i) with (G (Iter s1 i)).
    change (Iter s2 j) with (G (Iter s1 j)).
    rewrite parse_text_map. rewrite Hf. reflexivity.
  - apply parse_text_inside; cbn [str idx]; auto; lia.
Qed.

Lemma emphasis_step i (out : tokens) (base above : nests) :
  lo < i < hi -> at_index s1 i = ch "*" \/ at_index s1 i = ch "_" ->
  Forall (inside s1 lo hi) out ->
  n (nest_back base) = 0 -> emphasis_frames above ->
  exists j out' above',
    i < j <= hi
    /\ (forall m, i <= m < j -> at_index s1 m <> ch "\")
    /\ parse_emphasis bos1 (Iter s1 i) eos1 out (base ++ above)
       = (Iter s1 j, out', base ++ above')
    /\ parse_emphasis bos2 (Iter s2 i) eos2 (map GT out) (base ++ above)
       = (Iter s2 j, map GT out', base ++ above')
    /\ Forall (inside s1 lo hi) out'
    /\ emphasis_frames above'.
Proof.
  intros Hi Hc Hin Hbase Hab.
  (* the run of marks *)
  destruct (@scan_of_pred_unbounded (Iter s1 i) eos1
              (Z.eqb (at_index s1 i)) ltac:(cbn [idx]; lia))
    as (j & E1 & Hb & Hrun & Hstop).
  cbn [str idx] in E1, Hb, Hrun, Hstop.
  assert (Hfwd : fwd_run (Z.eqb (at_index s1 i)) s1 i j (idx eos1))
    by (repeat split; try lia; assumption).
  destruct (@run_transfer (Z.eqb (at_index s1 i)) i j ltac:(lia)
              ltac:(rewrite closing; destruct Hc as [-> | ->]; reflexivity)
              Hfwd) as (Hj & Hfwd2).
  assert (Hij : i < j).
  { destruct Hstop as [-> | Hstop]; [lia|].
    destruct (Z.eq_dec j i) as [-> | ]; [|lia].
    rewrite Z.eqb_refl in Hstop. discriminate Hstop. }
  assert (Hno : forall m, i <= m < j -> at_index s1 m <> ch "\").
  { intros m Hm E. specialize (Hrun m Hm). apply Z.eqb_eq in Hrun.
    rewrite E in Hrun. destruct Hc as [Hc | Hc]; rewrite Hc in Hrun;
      vm_compute in Hrun; discriminate Hrun. }
  assert (S1 : scan_of (Iter s1 i) eos1 1 (-1) (deref (Iter s1 i))
               = Iter s1 j).
  { unfold scan_of. rewrite scan_of_pred_min1. exact E1. }
  assert (S2 : scan_of (Iter s2 i) eos2 1 (-1) (deref (Iter s2 i))
               = Iter s2 j).
  { unfold scan_of, deref. cbn [str idx]. rewrite <- (agree (m := i)) by lia.
    rewrite scan_of_pred_min1.
    apply (@scan_of_pred_run (Iter s2 i) eos2 0 _ j);
      cbn [str idx]; auto; lia. }
  unfold parse_emphasis. rewrite S1, S2. cbv zeta.
  unfold peek, deref, ieq, iadd, idiff. cbn [str idx].
  replace (i =? idx bos1) with false by (symmetry; apply Z.eqb_neq; lia).
  replace (i =? idx bos2) with false by (symmetry; apply Z.eqb_neq; lia).
  replace (j =? idx eos1) with false by (symmetry; apply Z.eqb_neq; lia).
  replace (j =? idx eos2) with false by (symmetry; apply Z.eqb_neq; lia).
  rewrite !Z.add_0_r.
  rewrite <- (agree (m := i + -1)) by lia.
  rewrite <- (agree (m := j)) by lia.
  cbn [orb].
  assert (Hright :
    ((ch "." =? at_index s1 j) || (ch "," =? at_index s1 j)
     || (ch ";" =? at_index s1 j) || (ch ":" =? at_index s1 j))
    && ((j + 1 =? idx eos2) || ismdwhite (at_index s2 (j + 1)))
    = ((ch "." =? at_index s1 j) || (ch "," =? at_index s1 j)
       || (ch ";" =? at_index s1 j) || (ch ":" =? at_index s1 j))
      && ((j + 1 =? idx eos1) || ismdwhite (at_index s1 (j + 1)))).
  { destruct (Z.eq_dec j hi) as [-> | Hne].
    - rewrite closing. reflexivity.
    - rewrite <- (agree (m := j + 1)) by lia.
      replace (j + 1 =? idx eos1) with false
        by (symmetry; apply Z.eqb_neq; lia).
      replace (j + 1 =? idx eos2) with false
        by (symmetry; apply Z.eqb_neq; lia).
      reflexivity. }
  rewrite Hright.
  set (lw := ismdwhite (at_index s1 (i + -1))).
  set (rw := ismdwhite (at_index s1 j)
             || ((ch "." =? at_index s1 j) || (ch "," =? at_index s1 j)
                 || (ch ";" =? at_index s1 j) || (ch ":" =? at_index s1 j))
                && ((j + 1 =? idx eos1) || ismdwhite (at_index s1 (j + 1)))).
  assert (Hsame : exists above', base ++ above = base ++ above'
                                 /\ emphasis_frames above')
    by (exists above; split; [reflexivity | exact Hab]).
  change (Iter s2 i) with (G (Iter s1 i)).
  change (Iter s2 j) with (G (Iter s1 j)).
  destruct ((j - i >? 3) || (lw && rw)).
  { rewrite parse_text_map.
    rewrite (@parse_text_pair (Iter s1 i) (Iter s1 j) out ltac:(cbn [idx]; lia)).
    cbn [fst snd].
    exists j, (snd (parse_text (Iter s1 i) (Iter s1 j) out)), above.
    repeat split; try lia; try assumption.
    apply parse_text_inside; cbn [str idx]; auto; lia. }
  assert (Hpatch : 1 <= j - i <= 2 ->
    exists (j0 : Z) (out' : tokens) (above' : list nest_type),
      i < j0 <= hi /\
      (forall m : Z, i <= m < j0 -> at_index s1 m <> ch "\") /\
      (let '(output, nest) :=
         patch_emphasis (Iter s1 i) (Iter s1 j) lw rw out (base ++ above) in
       (Iter s1 j, output, nest)) = (Iter s1 j0, out', base ++ above') /\
      (let '(output, nest) :=
         patch_emphasis (G (Iter s1 i)) (G (Iter s1 j)) lw rw (map GT out)
           (base ++ above) in
       (G (Iter s1 j), output, nest))
      = (Iter s2 j0, map GT out', base ++ above') /\
      Forall (inside s1 lo hi) out' /\ emphasis_frames above').
  { intros Hn.
    rewrite (@patch_emphasis_map s1 s2 lo hi agree (Iter s1 i) (Iter s1 j)
               lw rw out (base ++ above) eq_refl ltac:(cbn [idx]; lia) Hin).
    destruct (@patch_emphasis_frames (Iter s1 i) (Iter s1 j) lw rw out base
                above Hbase Hab ltac:(unfold idiff; cbn [idx]; lia))
      as (above' & Ea & Hab').
    pose proof (@patch_emphasis_inside s1 lo hi (Iter s1 i) (Iter s1 j) lw rw
                  out (base ++ above) eq_refl ltac:(cbn [idx]; lia)
                  ltac:(cbn [idx]; lia) ltac:(unfold idiff; cbn [idx]; lia)
                  Hin) as Hin'.
    destruct (patch_emphasis (Iter s1 i) (Iter s1 j) lw rw out (base ++ above))
      as [o ns]. cbn [fst snd] in *. subst ns.
    exists j, o, above'. repeat split; try lia; assumption. }
  destruct (j - i =? 1) eqn:E1'.
  { apply Hpatch. apply Z.eqb_eq in E1'. lia. }
  destruct (j - i =? 2) eqn:E2'.
  { apply Hpatch. apply Z.eqb_eq in E2'. lia. }
  destruct (j - i =? 3) eqn:E3'.
  { rewrite (@patch_emphasis_three_map s1 s2 lo hi agree (Iter s1 i)
               (Iter s1 j) lw rw out (base ++ above) eq_refl
               ltac:(cbn [idx]; lia) Hin).
    destruct (@patch_emphasis_three_frames (Iter s1 i) (Iter s1 j) lw rw out
                base above Hbase Hab) as (above' & Ea & Hab').
    pose proof (@patch_emphasis_three_inside s1 lo hi (Iter s1 i) (Iter s1 j)
                  lw rw out (base ++ above) eq_refl ltac:(cbn [idx]; lia)
                  ltac:(cbn [idx]; lia) Hin) as Hin'.
    destruct (patch_emphasis_three (Iter s1 i) (Iter s1 j) lw rw out
                (base ++ above)) as [o ns]. cbn [fst snd] in *. subst ns.
    exists j, o, above'. repeat split; try lia; assumption. }
  exists j, out, above. repeat split; try lia; assumption.
Qed.

(** The inline loop reads a link text to its closing bracket, and reads
    it in the same way in both buffers. *)
Lemma link_text_loop (k : nat) :
  forall i (out : tokens) (base above : nests),
    text_region s1 hi i -> lo < i -> hi - i <= Z.of_nat k ->
    Forall (inside s1 lo hi) out ->
    n (nest_back base) = 0 -> emphasis_frames above ->
    exists out' above',
      Forall (inside s1 lo hi) out' /\ emphasis_frames above'
      /\ forall fuel : nat, (k + 1 <= fuel)%nat ->
           parse_inline_loop fuel dict bos1 (Iter s1 i) eos1 out (base ++ above)
           = Some (Iter s1 hi, out', base ++ above')
           /\ parse_inline_loop fuel dict bos2 (Iter s2 i) eos2 (map GT out)
                (base ++ above)
              = Some (Iter s2 hi, map GT out', base ++ above').
Proof.
  assert (Hstop : forall (out : tokens) (base above : nests),
            lo <= hi ->
            Forall (inside s1 lo hi) out -> emphasis_frames above ->
            forall k' : nat,
            exists out' above',
              Forall (inside s1 lo hi) out' /\ emphasis_frames above'
              /\ forall fuel : nat, (k' + 1 <= fuel)%nat ->
                   parse_inline_loop fuel dict bos1 (Iter s1 hi) eos1 out
                     (base ++ above)
                   = Some (Iter s1 hi, out', base ++ above')
                   /\ parse_inline_loop fuel dict bos2 (Iter s2 hi) eos2
                        (map GT out) (base ++ above)
                      = Some (Iter s2 hi, map GT out', base ++ above')).
  { intros out base above Hlh Hin Hab k'. exists out, above.
    split; [exact Hin|]. split; [exact Hab|].
    intros fuel Hf. destruct fuel as [|fuel]; [lia|].
    split; apply parse_inline_loop_end; unfold deref; cbn [str idx];
      [|rewrite <- agree by lia]; exact closing. }
  induction k as [|k IH]; intros i out base above Hr Hi Hk Hin Hbase Hab.
  { pose proof (text_region_le Hr). replace i with hi by lia.
    apply Hstop; try assumption; lia. }
  destruct (Z.eq_dec i hi) as [-> | Hne];
    [apply Hstop; try assumption; lia|].
  pose proof (text_region_le Hr) as Hle.
  assert (Hlt1 : (Iter s1 i <! eos1) = true)
    by (apply Z.ltb_lt; cbn [idx]; lia).
  assert (Hlt2 : (Iter s2 i <! eos2) = true)
    by (apply Z.ltb_lt; cbn [idx]; lia).
  assert (Hchar : deref (Iter s2 i) = deref (Iter s1 i))
    by (unfold deref; cbn [str idx]; symmetry; apply agree; lia).
  (* after one step the loop goes on from [j] *)
  assert (Hnext : forall j (out1 : tokens) (above1 : nests),
            i < j <= hi -> text_region s1 hi j ->
            Forall (inside s1 lo hi) out1 -> emphasis_frames above1 ->
            exists out' above',
              Forall (inside s1 lo hi) out' /\ emphasis_frames above'
              /\ forall fuel : nat, (k + 1 <= fuel)%nat ->
                   parse_inline_loop fuel dict bos1 (Iter s1 j) eos1 out1
                     (base ++ above1)
                   = Some (Iter s1 hi, out', base ++ above')
                   /\ parse_inline_loop fuel dict bos2 (Iter s2 j) eos2
                        (map GT out1) (base ++ above1)
                      = Some (Iter s2 hi, map GT out', base ++ above')).
  { intros j out1 above1 Hj Hrj Hin1 Hab1.
    apply IH; try assumption; lia. }
  inversion Hr as [E | ? Hi1 Hc Hesc Hr' | ? Hi1 Hc Hesc Hr' | ? _ Hc Hr'];
    subst; [lia | | |].
  - (* an escape *)
    destruct (@escape_step i out ltac:(lia) Hi1 Hc Hin) as (out1 & P1 & P2 & Hin1).
    rewrite Hesc in P1, P2.
    destruct (@Hnext (i + 2) out1 above ltac:(lia) Hr' Hin1 Hab)
      as (out' & above' & Hin' & Hab' & Hrun).
    exists out', above'. split; [exact Hin'|]. split; [exact Hab'|].
    intros fuel Hf. destruct fuel as [|fuel]; [lia|].
    rewrite !parse_inline_loop_escape
      by (try assumption; rewrite ?Hchar; exact Hc).
    rewrite P1, P2. cbn [fst snd]. apply Hrun. lia.
  - (* a backslash *)
    destruct (@escape_step i out ltac:(lia) Hi1 Hc Hin) as (out1 & P1 & P2 & Hin1).
    rewrite Hesc in P1, P2.
    destruct (@Hnext (i + 1) out1 above ltac:(lia) Hr' Hin1 Hab)
      as (out' & above' & Hin' & Hab' & Hrun).
    exists out', above'. split; [exact Hin'|]. split; [exact Hab'|].
    intros fuel Hf. destruct fuel as [|fuel]; [lia|].
    rewrite !parse_inline_loop_escape
      by (try assumption; rewrite ?Hchar; exact Hc).
    rewrite P1, P2. cbn [fst snd]. apply Hrun. lia.
  - (* any other character *)
    destruct (Z.eq_dec (at_index s1 i) (ch " ")) as [Hsp | Hnsp].
    { destruct (@space_step i out ltac:(lia) Hsp Hin)
        as (j & out1 & Hj & Hno & P1 & P2 & Hin1).
      assert (Hrj : text_region s1 hi j)
        by (apply (@text_region_skip s1 hi (Z.to_nat (j - i)) i j Hr);
            try lia; exact Hno).
      destruct (@Hnext j out1 above Hj Hrj Hin1 Hab)
        as (out' & above' & Hin' & Hab' & Hrun).
      exists out', above'. split; [exact Hin'|]. split; [exact Hab'|].
      intros fuel Hf. destruct fuel as [|fuel]; [lia|].
      rewrite !parse_inline_loop_space
        by (try assumption; rewrite ?Hchar; exact Hsp).
      rewrite P1, P2. cbn [fst snd]. apply Hrun. lia. }
    destruct (Z.eq_dec (at_index s1 i) (ch "*")) as [Hst | Hnst];
      [|destruct (Z.eq_dec (at_index s1 i) (ch "_")) as [Hus | Hnus]].
    1,2: assert (Hem : at_index s1 i = ch "*" \/ at_index s1 i = ch "_")
           by (first [left; assumption | right; assumption]).
    1,2: destruct (@emphasis_step i out base above ltac:(lia) Hem Hin Hbase Hab)
           as (j & out1 & above1 & Hj & Hno & P1 & P2 & Hin1 & Hab1).
    1,2: assert (Hrj : text_region s1 hi j)
           by (apply (@text_region_skip s1 hi (Z.to_nat (j - i)) i j Hr);
               try lia; exact Hno).
    1,2: destruct (@Hnext j out1 above1 Hj Hrj Hin1 Hab1)
           as (out' & above' & Hin' & Hab' & Hrun).
    1,2: exists out', above'; split; [exact Hin'|]; split; [exact Hab'|].
    1,2: intros fuel Hf; destruct fuel as [|fuel]; [lia|].
    1,2: rewrite !parse_inline_loop_emphasis
           by (try assumption; rewrite ?Hchar; exact Hem).
    1,2: cbv zeta; rewrite P1, P2; cbn [fst snd]; apply Hrun; lia.
    assert (Hplain : wfind (at_index s1 i) (L " \`*_<![]") = false).
    { unfold wfind in *. cbn [L existsb] in *.
      replace (at_index s1 i =? ch " ") with false
        by (symmetry; apply Z.eqb_neq; exact Hnsp).
      replace (at_index s1 i =? ch "*") with false
        by (symmetry; apply Z.eqb_neq; exact Hnst).
      replace (at_index s1 i =? ch "_") with false
        by (symmetry; apply Z.eqb_neq; exact Hnus).
      repeat (apply orb_false_elim in Hc; destruct Hc as [? Hc]).
      repeat match goal with
      | E : (at_index s1 i =? _) = false |- _ => rewrite E; clear E
      end.
      reflexivity. }
    destruct (@default_step i out ltac:(lia) Hplain Hin)
      as (j & out1 & Hj & Hno & P1 & P2 & Hin1).
    assert (Hrj : text_region s1 hi j)
      by (apply (@text_region_skip s1 hi (Z.to_nat (j - i)) i j Hr);
          try lia; exact Hno).
    destruct (@Hnext j out1 above Hj Hrj Hin1 Hab)
      as (out' & above' & Hin' & Hab' & Hrun).
    exists out', above'. split; [exact Hin'|]. split; [exact Hab'|].
    intros fuel Hf. destruct fuel as [|fuel]; [lia|].
    rewrite !parse_inline_loop_default
      by (try assumption; rewrite ?Hchar; exact Hplain).
    cbv zeta. rewrite P1, P2. cbn [fst snd]. apply Hrun. lia.
Qed.

End LinkRegion.


(** *** The scan of a parenthesised part *)

Ltac iter_norm :=
  repeat match goal with
  | |- context [Iter ?x ?a +! ?b] =>
      change (Iter x a +! b) with (Iter x (a + b))
  | H : context [Iter ?x ?a +! ?b] |- _ =>
      change (Iter x a +! b) with (Iter x (a + b)) in H
  end.

(** Inside parentheses [scan_quoted] steps over [<...>]; where the [<] is
    not closed it comes back to the [<] time after time. *)
Lemma scan_quoted_while_stuck pos eos rq esc pr p q0 :
  (p <! eos) = true -> pr (deref p) = true -> deref p = ch "<" ->
  esc <> ch "<" -> q0 = p ->
  (forall f q, scan_quoted f p eos (ch "<") (ch ">") esc pr = Some q ->
               q = q0) ->
  forall (fuel : nat) level, 0 < level ->
    scan_quoted_while fuel pos eos (ch "(") rq esc pr p level = None.
Proof.
  intros Hlt Hpr Hc Hesc Hq0 Hnested.
  induction fuel as [|fuel IH]; intros level Hl; [reflexivity|].
  cbn [scan_quoted_while].
  replace (level >? 0) with true by (symmetry; apply Z.gtb_lt; lia).
  rewrite Hlt, Hpr, Hc. cbn [andb negb].
  replace (esc =? ch "<") with false by (symmetry; apply Z.eqb_neq; exact Hesc).
  cbn [andb]. change (ch "(" =? ch "(") with true.
  change (ch "<" =? ch "<") with true. cbn [andb].
  destruct (scan_quoted fuel p eos (ch "<") (ch ">") esc pr) as [q|] eqn:Eq;
    [|reflexivity].
  apply Hnested in Eq. subst q q0.
  replace (p +! -1 +! 1) with p.
  - apply IH. exact Hl.
  - destruct p as [sp ip]. unfold iadd. cbn [str idx]. f_equal. lia.
Qed.

Section Embed.

Variables (part s : wstring) (off : Z) (eos : char_iterator).
Hypothesis same :
  forall k, 0 <= k < wsize part -> at_index s (off + k) = at_index part k.
Hypothesis eos_far : off + wsize part <= idx eos.
Variables (esc : wchar) (pr : wchar -> bool).
Hypothesis last_plain : at_index part (wsize part - 1) <> esc.
Hypothesis esc_plain : esc <> ch "<".

(** A scan that succeeds within [part] standing alone succeeds in the
    same way where [part] stands in [s]. *)
Lemma scan_quoted_embed_both (fuel : nat) :
  (forall lq rq j r,
     0 <= j ->
     scan_quoted fuel (Iter part j) (cend_of part) lq rq esc pr = Some r ->
     j < idx r ->
     scan_quoted fuel (Iter s (off + j)) eos lq rq esc pr
     = Some (Iter s (off + idx r)))
  /\ (forall lq rq j0 j level r,
     0 <= j0 < j ->
     scan_quoted_while fuel (Iter part j0) (cend_of part) lq rq esc pr
       (Iter part j) level = Some r ->
     idx r <> j0 ->
     scan_quoted_while fuel (Iter s (off + j0)) eos lq rq esc pr
       (Iter s (off + j)) level = Some (Iter s (off + idx r))).
Proof.
  assert (Hend : idx (cend_of part) = wsize part) by reflexivity.
  induction fuel as [|fuel [IHA IHB]]; [split; intros; discriminate|].
  split.
  - intros lq rq j r Hj H Hr. cbn [scan_quoted] in H |- *.
    unfold ilt, deref in H |- *. rewrite Hend in H. cbn [str idx] in H |- *.
    destruct ((j <? wsize part) && (lq =? at_index part j)) eqn:Ec;
      cbn [negb] in H; [|injection H as <-; cbn [idx] in Hr; lia].
    apply andb_prop in Ec as [Ej Ec]. apply Z.ltb_lt in Ej.
    rewrite same by lia. rewrite Ec.
    replace (off + j <? idx eos) with true by (symmetry; apply Z.ltb_lt; lia).
    cbn [andb negb].
    change (Iter part j +! 1) with (Iter part (j + 1)) in H.
    change (Iter s (off + j) +! 1) with (Iter s (off + j + 1)).
    replace (off + j + 1) with (off + (j + 1)) by lia.
    apply IHB; [lia | exact H | lia].
  - intros lq rq j0 j level r Hj H Hr. cbn [scan_quoted_while] in H |- *.
    destruct (level >? 0) eqn:Elev; [|injection H as <-; reflexivity].
    apply Z.gtb_lt in Elev.
    unfold ilt, peek in H |- *. unfold deref in H |- *. rewrite Hend in H.
    cbn [iadd str idx] in H |- *. iter_norm.
    destruct ((j <? wsize part) && pr (at_index part j)) eqn:Ec;
      cbn [negb] in H; [|injection H as <-; cbn [idx] in Hr; lia].
    apply andb_prop in Ec as [Ej Ec]. apply Z.ltb_lt in Ej.
    rewrite same by lia. rewrite Ec.
    replace (off + j <? idx eos) with true by (symmetry; apply Z.ltb_lt; lia).
    cbn [andb negb].
    (* the escape *)
    assert (Eesc :
      (esc =? at_index part j) && (off + j + 1 <? idx eos)
      && ((esc =? at_index s (off + j + 1))
          || (rq =? at_index s (off + j + 1))
          || (lq =? at_index s (off + j + 1)))
      = (esc =? at_index part j) && (j + 1 <? wsize part)
        && ((esc =? at_index part (j + 1)) || (rq =? at_index part (j + 1))
            || (lq =? at_index part (j + 1)))).
    { destruct (esc =? at_index part j) eqn:Ee; [|reflexivity].
      apply Z.eqb_eq in Ee.
      assert (j + 1 < wsize part).
      { destruct (Z.eq_dec j (wsize part - 1)) as [-> | ]; [|lia].
        exfalso. apply last_plain. symmetry. exact Ee. }
      replace (off + j + 1) with (off + (j + 1)) by lia.
      rewrite same by lia.
      replace (off + (j + 1) <? idx eos) with true
        by (symmetry; apply Z.ltb_lt; lia).
      replace (j + 1 <? wsize part) with true
        by (symmetry; apply Z.ltb_lt; lia).
      reflexivity. }
    rewrite Eesc.
    destruct ((esc =? at_index part j) && (j + 1 <? wsize part) && _).
    { replace (off + j + 1 + 1) with (off + (j + 1 + 1)) by lia.
      apply IHB; [lia | exact H | exact Hr]. }
    destruct ((lq =? ch "(") && (ch "<" =? at_index part j)) eqn:Elt.
    { apply andb_prop in Elt as [El Ea].
      apply Z.eqb_eq in El, Ea. subst lq.
      destruct (scan_quoted fuel (Iter part j) (cend_of part) (ch "<")
                  (ch ">") esc pr) as [q|] eqn:Eq; [|discriminate H].
      destruct (scan_quoted_range _ _ _ _ _ _ _ Eq) as (Hsq & Hiq).
      cbn [str idx] in Hsq, Hiq.
      destruct (Z.eq_dec (idx q) j) as [Eqj | Hne].
      - (* the scan for [>] fails: no result at all *)
        exfalso.
        assert (Hq : q = Iter part j)
          by (destruct q as [sq iq]; cbn [str idx] in *; subst; reflexivity).
        replace (q +! -1 +! 1) with (Iter part j) in H
          by (rewrite Hq; unfold iadd; cbn [str idx]; f_equal; lia).
        rewrite (@scan_quoted_while_stuck (Iter part j0) (cend_of part) rq esc
                   pr (Iter part j) q) in H.
        + discriminate H.
        + apply Z.ltb_lt. rewrite Hend. cbn [idx]. lia.
        + exact Ec.
        + symmetry. exact Ea.
        + exact esc_plain.
        + exact Hq.
        + intros f q' Hq'.
          destruct (Nat.le_ge_cases f fuel) as [Hle | Hge].
          * apply (@scan_quoted_mono f fuel) in Hq'; [|exact Hle]. congruence.
          * apply (@scan_quoted_mono fuel f) in Eq; [|exact Hge]. congruence.
        + exact Elev.
      - rewrite (IHA (ch "<") (ch ">") j q ltac:(lia) Eq ltac:(lia)).
        unfold iadd in H |- *. cbn [str idx] in H |- *. rewrite Hsq in H.
        replace (off + idx q + -1 + 1) with (off + (idx q + -1 + 1)) by lia.
        apply IHB; [lia | exact H | exact Hr]. }
    destruct (rq =? at_index part j).
    { replace (off + j + 1) with (off + (j + 1)) by lia.
      apply IHB; [lia | exact H | exact Hr]. }
    destruct (lq =? at_index part j);
      replace (off + j + 1) with (off + (j + 1)) by lia;
      (apply IHB; [lia | exact H | exact Hr]).
Qed.

End Embed.


(** *** The parenthesised part of an inline link *)

Lemma paren_part_segments u t :
  paren_part u t = List.concat (paren_segments u t).
Proof.
  unfold paren_part, paren_segments. cbn [List.concat app].
  reflexivity.
Qed.

Lemma paren_part_anatomy u t :
  let part := paren_part u t in
  let U := wsize u in
  let T := wsize t in
  wsize part = U + T + 5
  /\ at_index part 0 = ch "("
  /\ (forall i, 0 <= i < U -> at_index part (1 + i) = at_index u i)
  /\ at_index part (U + 1) = ch " "
  /\ at_index part (U + 2) = DQUOTE
  /\ (forall i, 0 <= i < T -> at_index part (U + 3 + i) = at_index t i)
  /\ at_index part (U + T + 3) = DQUOTE
  /\ at_index part (U + T + 4) = ch ")".
Proof.
  cbv zeta. rewrite paren_part_segments.
  set (segs := paren_segments u t).
  assert (Hsz : forall k, offset segs k
                = wsize (List.concat (firstn k segs))) by reflexivity.
  assert (H1 : offset segs 1 = 1) by reflexivity.
  assert (H2 : offset segs 2 = wsize u + 1).
  { rewrite Hsz. subst segs. unfold paren_segments.
    cbn [firstn List.concat app].
    repeat (rewrite wsize_app || rewrite wsize_cons || rewrite wsize_nil).
    lia. }
  assert (H3 : offset segs 3 = wsize u + 3).
  { rewrite Hsz. subst segs. unfold paren_segments.
    cbn [firstn List.concat app].
    repeat (rewrite wsize_app || rewrite wsize_cons || rewrite wsize_nil).
    lia. }
  assert (H4 : offset segs 4 = wsize u + wsize t + 3).
  { rewrite Hsz. subst segs. unfold paren_segments.
    cbn [firstn List.concat app].
    repeat (rewrite wsize_app || rewrite wsize_cons || rewrite wsize_nil).
    lia. }
  pose proof (wsize_nonneg u). pose proof (wsize_nonneg t).
  split.
  { subst segs. unfold paren_segments. cbn [List.concat app].
    repeat (rewrite wsize_app || rewrite wsize_cons || rewrite wsize_nil).
    lia. }
  split; [reflexivity|].
  split.
  { intros i Hi. rewrite <- H1.
    rewrite at_index_segment; [reflexivity | simpl; lia | exact Hi]. }
  split.
  { replace (wsize u + 1) with (offset segs 2 + 0) by lia.
    rewrite at_index_segment; [reflexivity | simpl; lia | cbn; lia]. }
  split.
  { replace (wsize u + 2) with (offset segs 2 + 1) by lia.
    rewrite at_index_segment; [reflexivity | simpl; lia | cbn; lia]. }
  split.
  { intros i Hi. rewrite <- H3.
    rewrite at_index_segment; [reflexivity | simpl; lia | exact Hi]. }
  split.
  { replace (wsize u + wsize t + 3) with (offset segs 4 + 0) by lia.
    rewrite at_index_segment; [reflexivity | simpl; lia | cbn; lia]. }
  replace (wsize u + wsize t + 4) with (offset segs 4 + 1) by lia.
  rewrite at_index_segment; [reflexivity | simpl; lia | cbn; lia].
Qed.

Lemma white_quote_spec (u : wstring) :
  white_quote u = false ->
  forall k, 0 <= k -> ismdwhite (at_index u k) = true ->
    at_index u (k + 1) <> DQUOTE.
Proof.
  induction u as [|c rest IH]; intros H k Hk Hw E.
  - unfold at_index in E. destruct (k + 1 <? 0); [discriminate E|].
    destruct (Z.to_nat (k + 1)); discriminate E.
  - cbn [white_quote] in H. destruct rest as [|d rest'].
    + unfold at_index in E.
      replace (k + 1 <? 0) with false in E by (symmetry; apply Z.ltb_ge; lia).
      replace (Z.to_nat (k + 1)) with (S (Z.to_nat k)) in E by lia.
      cbn [nth] in E. destruct (Z.to_nat k); discriminate E.
    + apply orb_false_elim in H as [H1 H2].
      destruct (Z.eq_dec k 0) as [-> | Hne].
      * change (at_index (c :: d :: rest') 0) with c in Hw.
        change (at_index (c :: d :: rest') (0 + 1)) with d in E.
        rewrite Hw, E, Z.eqb_refl in H1. discriminate H1.
      * apply (IH H2 (k - 1) ltac:(lia)).
        -- rewrite <- Hw. unfold at_index.
           replace (k - 1 <? 0) with false by (symmetry; apply Z.ltb_ge; lia).
           replace (k <? 0) with false by (symmetry; apply Z.ltb_ge; lia).
           replace (Z.to_nat k) with (S (Z.to_nat (k - 1))) by lia.
           reflexivity.
        -- rewrite <- E. unfold at_index.
           replace (k - 1 + 1 <? 0) with false
             by (symmetry; apply Z.ltb_ge; lia).
           replace (k + 1 <? 0) with false by (symmetry; apply Z.ltb_ge; lia).
           replace (Z.to_nat (k + 1)) with (S (Z.to_nat (k - 1 + 1))) by lia.
           reflexivity.
Qed.


Section ParenInline.

Variables (s u t : wstring) (off : Z) (eos : char_iterator).
Hypothesis placed :
  forall k, 0 <= k < wsize (paren_part u t) ->
    at_index s (off + k) = at_index (paren_part u t) k.
Hypothesis off_nonneg : 0 <= off.
Hypothesis eos_far : off + wsize (paren_part u t) <= idx eos.
Hypothesis target : target_ok u = true.

Lemma paren_inline_chars :
  1 <= wsize u /\ 0 <= wsize t
  /\ wsize (paren_part u t) = wsize u + wsize t + 5
  /\ at_index s off = ch "("
  /\ (forall i, 0 <= i < wsize u -> at_index s (off + 1 + i) = at_index u i)
  /\ at_index s (off + wsize u + 1) = ch " "
  /\ at_index s (off + wsize u + 2) = DQUOTE
  /\ at_index s (off + wsize u + wsize t + 3) = DQUOTE
  /\ at_index s (off + wsize u + wsize t + 4) = ch ")"
  /\ at_index u 0 <> ch "<"
  /\ ismdwhite (at_index u (wsize u - 1)) = false
  /\ white_quote u = false.
Proof.
  destruct (paren_part_anatomy u t)
    as (Hlen & H0 & Hu & Hsp & Hq1 & Ht & Hq2 & Hp).
  pose proof (wsize_nonneg t) as HT. pose proof (wsize_nonneg u) as HU.
  unfold target_ok in target.
  apply andb_prop in target as [Hx Hwq]. apply andb_prop in Hx as [Hx Hlast].
  apply andb_prop in Hx as [Hne Hlt].
  apply nonempty_wsize in Hne.
  apply negb_true_iff in Hlt, Hlast, Hwq. apply Z.eqb_neq in Hlt.
  split; [exact Hne|]. split; [exact HT|]. split; [exact Hlen|].
  split; [rewrite <- H0, <- (Z.add_0_r off) at 1; apply placed; lia|].
  split.
  { intros i Hi. rewrite <- Hu by exact Hi.
    replace (off + 1 + i) with (off + (1 + i)) by lia. apply placed. lia. }
  split.
  { rewrite <- Hsp. replace (off + wsize u + 1) with (off + (wsize u + 1))
      by lia. apply placed. lia. }
  split.
  { rewrite <- Hq1. replace (off + wsize u + 2) with (off + (wsize u + 2))
      by lia. apply placed. lia. }
  split.
  { rewrite <- Hq2.
    replace (off + wsize u + wsize t + 3) with (off + (wsize u + wsize t + 3))
      by lia. apply placed. lia. }
  split.
  { rewrite <- Hp.
    replace (off + wsize u + wsize t + 4) with (off + (wsize u + wsize t + 4))
      by lia. apply placed. lia. }
  split; [intros E; apply Hlt; symmetry; exact E|].
  split; assumption.
Qed.

(** The loop that looks for the opening quote of the title stops at the
    first quote that stands after whitespace. *)
Lemma title_quote_found (m : nat) :
  forall y (k : nat),
    off + 2 <= y <= off + wsize u + 2 -> at_index s y = DQUOTE ->
    off + wsize u + 2 - y <= Z.of_nat m ->
    off + wsize u + wsize t + 4 - y <= Z.of_nat k ->
    find_title_quote k (Iter s y) (Iter s (off + wsize u + wsize t + 4)) DQUOTE
    = Iter s (off + wsize u + 2).
Proof.
  destruct paren_inline_chars
    as (HU & HT & Hlen & C0 & Cu & Csp & Cq1 & Cq2 & Cp & Hlt & Hlast & Hwq).
  induction m as [|m IH]; intros y k Hy Hq Hm Hk.
  - replace y with (off + wsize u + 2) by lia.
    apply find_title_quote_stay. unfold peek, deref. cbn [iadd str idx].
    replace (off + wsize u + 2 + -1) with (off + wsize u + 1) by lia.
    rewrite Csp. reflexivity.
  - destruct (Z.eq_dec y (off + wsize u + 2)) as [-> | Hne].
    { apply find_title_quote_stay. unfold peek, deref. cbn [iadd str idx].
      replace (off + wsize u + 2 + -1) with (off + wsize u + 1) by lia.
      rewrite Csp. reflexivity. }
    assert (Hy1 : y <> off + wsize u + 1)
      by (intros ->; rewrite Csp in Hq; discriminate Hq).
    destruct k as [|k]; [lia|]. cbn [find_title_quote].
    unfold ilt, peek, deref. cbn [iadd str idx].
    replace (y <? off + wsize u + wsize t + 4) with true
      by (symmetry; apply Z.ltb_lt; lia).
    (* the quote stands in the target, after a character that is no
       whitespace *)
    assert (Hnw : ismdwhite (at_index s (y + -1)) = false).
    { destruct (ismdwhite (at_index s (y + -1))) eqn:E; [|reflexivity].
      exfalso.
      replace (y + -1) with (off + 1 + (y - off - 2)) in E by lia.
      rewrite Cu in E by lia.
      apply (@white_quote_spec u Hwq (y - off - 2) ltac:(lia) E).
      rewrite <- Cu by lia.
      replace (off + 1 + (y - off - 2 + 1)) with y by lia. exact Hq. }
    rewrite Hnw. cbn [negb andb].
    unfold std_find. iter_norm.
    destruct (find_loop_run
                (dist (Iter s (y + 1)) (Iter s (off + wsize u + wsize t + 4)))
                (Z.eqb DQUOTE) (Iter s (y + 1))) as (y' & E & Hb & Hall & Hend).
    rewrite E. cbn [str idx] in *. unfold dist in Hb, Hend. cbn [idx] in Hb, Hend.
    rewrite Z2Nat.id in Hb, Hend by lia.
    assert (Hy' : y' <= off + wsize u + 2).
    { destruct (Z_le_gt_dec y' (off + wsize u + 2)) as [H | H]; [exact H|].
      specialize (Hall (off + wsize u + 2) ltac:(lia)).
      rewrite Cq1, Z.eqb_refl in Hall. discriminate Hall. }
    apply IH; lia.
Qed.

(** [parse_link_paren] on [(uri "title")]: the target and the title are
    read back as they are. *)
Lemma parse_link_paren_inline (fuel0 fuel : nat) (attribute : tokens) :
  scan_quoted fuel0 (cbegin_of (paren_part u t)) (cend_of (paren_part u t))
    (ch "(") (ch ")") (ch "\") ismdany
  = Some (cend_of (paren_part u t)) ->
  (fuel0 <= fuel)%nat ->
  parse_link_paren fuel (Iter s off) eos attribute
  = Some (Iter s (off + wsize u + wsize t + 5),
          attribute
          ++ [Token URI (Iter s (off + 1)) (Iter s (off + 1 + wsize u));
              Token TITLE (Iter s (off + wsize u + 3))
                (Iter s (off + wsize u + wsize t + 3))]).
Proof.
  intros Hscan Hfuel.
  destruct paren_inline_chars
    as (HU & HT & Hlen & C0 & Cu & Csp & Cq1 & Cq2 & Cp & Hlt & Hlast & Hwq).
  (* the scan to the closing parenthesis *)
  assert (Hlastp : at_index (paren_part u t) (wsize (paren_part u t) - 1)
                   <> ch "\").
  { destruct (paren_part_anatomy u t) as (_ & _ & _ & _ & _ & _ & _ & Hp).
    rewrite Hlen. replace (wsize u + wsize t + 5 - 1)
      with (wsize u + wsize t + 4) by lia.
    rewrite Hp. discriminate. }
  pose proof (proj1 (@scan_quoted_embed_both (paren_part u t) s off eos placed
                       eos_far (ch "\") ismdany Hlastp ltac:(discriminate)
                       fuel0)
                (ch "(") (ch ")") 0 (cend_of (paren_part u t)) ltac:(lia)
                Hscan ltac:(cbn [cend_of idx]; fold (wsize (paren_part u t)); lia))
    as Hs.
  change (idx (cend_of (paren_part u t))) with (wsize (paren_part u t)) in Hs.
  rewrite Z.add_0_r, Hlen in Hs.
  apply (@scan_quoted_mono fuel0 fuel) in Hs; [|exact Hfuel].
  unfold parse_link_paren. rewrite Hs. cbv beta iota zeta.
  unfold peek, idiff. iter_norm.
  replace (Iter s off ==! Iter s (off + (wsize u + wsize t + 5))) with false
    by (symmetry; apply Z.eqb_neq; cbn [idx]; lia).
  cbv iota.
  replace (off + (wsize u + wsize t + 5) + -1)
    with (off + wsize u + wsize t + 4) by lia.
  (* the end of the title *)
  rewrite (@rscan_of_pred_run (Iter s (off + 1))
             (Iter s (off + wsize u + wsize t + 4)) ismdwhite
             (off + wsize u + wsize t + 4)).
  2:{ cbn [idx]. lia. }
  2:{ cbn [str idx]. repeat split; try lia. right.
      replace (off + wsize u + wsize t + 4 - 1)
        with (off + wsize u + wsize t + 3) by lia.
      rewrite Cq2. reflexivity. }
  change (str (Iter s (off + wsize u + wsize t + 4))) with s.
  iter_norm.
  replace (Iter s (off + wsize u + wsize t + 4)
           ==! Iter s (off + wsize u + wsize t + 4)) with true
    by (symmetry; apply Z.eqb_refl).
  replace (deref (Iter s (off + 1))) with (at_index u 0)
    by (unfold deref; cbn [str idx]; rewrite <- (Cu 0) by lia; f_equal; lia).
  replace (deref (Iter s (off + 1 + 0))) with (at_index u 0)
    by (unfold deref; cbn [str idx]; rewrite <- (Cu 0) by lia; f_equal; lia).
  replace (ch "<" =? at_index u 0) with false
    by (symmetry; apply Z.eqb_neq; intros E; apply Hlt; symmetry; exact E).
  cbv iota.
  replace (deref (Iter s (off + wsize u + wsize t + 4 + -1))) with DQUOTE
    by (unfold deref; cbn [str idx]; rewrite <- Cq2; f_equal; lia).
  rewrite Z.eqb_refl. cbn [orb]. cbv iota.
  (* the opening quote of the title *)
  assert (Hfind : exists y,
            off + 2 <= y <= off + wsize u + 2 /\ at_index s y = DQUOTE
            /\ std_find (Iter s (off + 1 + 1))
                 (Iter s (off + wsize u + wsize t + 4)) DQUOTE = Iter s y).
  { unfold std_find.
    destruct (find_loop_run
                (dist (Iter s (off + 1 + 1))
                   (Iter s (off + wsize u + wsize t + 4)))
                (Z.eqb DQUOTE) (Iter s (off + 1 + 1)))
      as (y & E & Hb & Hall & Hend).
    rewrite E. cbn [str idx] in *. unfold dist in Hb, Hend.
    cbn [idx] in Hb, Hend. rewrite Z2Nat.id in Hb, Hend by lia.
    assert (Hy : y <= off + wsize u + 2).
    { destruct (Z_le_gt_dec y (off + wsize u + 2)) as [H | H]; [exact H|].
      specialize (Hall (off + wsize u + 2) ltac:(lia)).
      rewrite Cq1, Z.eqb_refl in Hall. discriminate Hall. }
    exists y. split; [lia|]. split; [lia | reflexivity]. }
  destruct Hfind as (y & Hy & Hq & ->).
  rewrite (@title_quote_found (Z.to_nat (off + wsize u + 2 - y)) y _ Hy Hq
             ltac:(lia)).
  2:{ unfold dist. cbn [idx]. lia. }
  (* the end of the target *)
  rewrite (@rscan_of_pred_run (Iter s (off + 1 + 1))
             (Iter s (off + wsize u + 2)) ismdwhite (off + 1 + wsize u)).
  2:{ cbn [idx]. lia. }
  2:{ cbn [str idx]. split; [lia|]. split.
      - intros m Hm. replace m with (off + wsize u + 1) by lia.
        rewrite Csp. reflexivity.
      - destruct (Z.eq_dec (wsize u) 1) as [E1 | Hne]; [left; lia | right].
        replace (off + 1 + wsize u - 1) with (off + 1 + (wsize u - 1)) by lia.
        rewrite Cu by lia. exact Hlast. }
  change (str (Iter s (off + wsize u + 2))) with s.
  cbv beta iota. iter_norm.
  rewrite andb_false_r. cbn [andb]. cbv iota.
  replace (deref (Iter s (off + wsize u + 2 + 0))) with DQUOTE
    by (unfold deref; cbn [str idx]; rewrite <- Cq1; f_equal; lia).
  cbn [idx].
  replace (off + wsize u + wsize t + 4 - (off + wsize u + 2) >? 1) with true
    by (symmetry; apply Z.gtb_lt; lia).
  rewrite Z.eqb_refl. cbn [andb orb]. cbv iota.
  unfold push_back. rewrite <- app_assoc. cbn [app].
  replace (off + wsize u + 2 + 1) with (off + wsize u + 3) by lia.
  replace (off + (wsize u + wsize t + 5)) with (off + wsize u + wsize t + 5)
    by lia.
  replace (off + wsize u + wsize t + 4 + -1)
    with (off + wsize u + wsize t + 3) by lia.
  reflexivity.
Qed.

End ParenInline.


(** *** The link frame and the emphasis frames above it *)

Lemma demote_until_link_frames s2 (above : nests) :
  forall (k : nat) (inner : tokens) (base : nests),
    emphasis_frames above -> n (nest_back base) = 0 ->
    (List.length above <= k)%nat ->
    exists inner',
      demote_until_link k inner (base ++ above) = (inner', base)
      /\ demote_until_link k (map (retarget_token s2) inner) (base ++ above)
         = (map (retarget_token s2) inner', base)
      /\ (forall s lo hi, Forall (inside s lo hi) inner ->
                          Forall (inside s lo hi) inner').
Proof.
  induction above as [|f ab IH] using rev_ind; intros k inner base Hab Hbase Hk.
  - rewrite app_nil_r. exists inner.
    destruct k as [|k]; cbn [demote_until_link]; rewrite ?Hbase;
      repeat split; auto.
  - apply Forall_app in Hab as [Hab Hf].
    inversion Hf as [|? ? Hnf _]; subst.
    rewrite length_app in Hk. cbn [List.length] in Hk.
    destruct k as [|k]; [lia|]. cbn [demote_until_link].
    rewrite nest_back_app, pop_back_app.
    replace (n f =? 0) with false by (symmetry; apply Z.eqb_neq; lia).
    cbn [negb].
    destruct (IH k (modify inner (pos f) (set_kind TEXT)) base Hab Hbase
                ltac:(lia)) as (inner' & E1 & E2 & Hin).
    exists inner'. split; [exact E1|]. split.
    + rewrite (@modify_map _ _ (retarget_token s2) (set_kind TEXT)
                 (set_kind TEXT)) by reflexivity.
      exact E2.
    + intros s lo hi H. apply Hin. apply Forall_modify; [|exact H].
      intros x Hx. exact Hx.
Qed.

(** *** Texts with a link in them *)

Lemma same_text_in_context (pre mid post : wstring) x y b' e' :
  same_text (Iter mid x) (Iter mid y) b' e' -> 0 <= x -> y <= wsize mid ->
  same_text (Iter (pre ++ mid ++ post) (wsize pre + x))
    (Iter (pre ++ mid ++ post) (wsize pre + y)) b' e'.
Proof.
  intros (Hlen & Hch) Hx Hy. cbn [str idx] in *. split; cbn [str idx]; [lia|].
  intros k Hk. rewrite <- Hch by lia.
  replace (wsize pre + x + k) with (wsize pre + (x + k)) by lia.
  apply at_index_mid. lia.
Qed.

Lemma wsize_context (pre mid post : wstring) :
  wsize (pre ++ mid ++ post) = wsize pre + wsize mid + wsize post.
Proof. rewrite !wsize_app. lia. Qed.


(** *** [parse_link] on a link whose text has been read *)

Lemma parse_link_front (s : wstring) (lo hi : Z) eos fuel pil bos
    (output : tokens) dict (nest : nests) (inner inner' : tokens)
    (nest1 : nests) :
  at_index s lo = ch "[" -> at_index s hi = ch "]" ->
  lo + 1 < hi -> hi < idx eos ->
  pil bos (Iter s (lo + 1)) eos [] (push_back nest (Nest (List.length output) 0))
  = Some (Iter s hi, inner, nest1) ->
  demote_until_link (List.length nest1) inner nest1
  = (inner', push_back nest (Nest (List.length output) 0)) ->
  nest_exists nest 0 = false ->
  parse_link pil fuel bos (Iter s lo) eos output dict nest
  = ('(p4, attribute) <- parse_link_paren fuel (Iter s (hi + 1)) eos [] ;;
     if Iter s (hi + 1) <! p4
     then let '(p, output) :=
            parse_make_link (Iter s lo) p4 inner' attribute output in
          Some (p, output, nest)
     else
     '(p5, attribute) <-
       parse_link_bracket fuel (Iter s (hi + 1)) eos (Iter s (lo + 1))
         (Iter s hi) attribute ;;
     let '(fetched, attribute') :=
       parse_fetch_reference_link dict attribute in
     if fetched
     then let '(p, output) :=
            parse_make_link (Iter s lo) p5 inner' attribute' output in
          Some (p, output, nest)
     else
     let '(_, output) := parse_text (Iter s lo) (Iter s (lo + 1)) output in
     '(_, output, nest) <- pil bos (Iter s (lo + 1)) (Iter s hi) output nest ;;
     let '(p, output) := parse_text (Iter s hi) p5 output in
     Some (p, output, nest)).
Proof.
  intros Hopen Hclose Hlen Heos Hloop Hdemote Halready.
  unfold parse_link. cbv zeta. unfold scan_of.
  rewrite scan_of_pred_one.
  replace ((Iter s lo <! eos) && (ch "[" =? deref (Iter s lo))) with true.
  2:{ unfold ilt, deref. cbn [str idx]. rewrite Hopen. symmetry.
      apply andb_true_intro. split; [apply Z.ltb_lt; lia | reflexivity]. }
  iter_norm.
  replace (Iter s lo ==! Iter s (lo + 1)) with false
    by (symmetry; apply Z.eqb_neq; cbn [idx]; lia).
  cbv iota. rewrite Hloop. cbv beta iota. rewrite Hdemote. cbv beta iota.
  rewrite scan_of_pred_one.
  replace ((Iter s hi <! eos) && (ch "]" =? deref (Iter s hi))) with true.
  2:{ unfold ilt, deref. cbn [str idx]. rewrite Hclose. symmetry.
      apply andb_true_intro. split; [apply Z.ltb_lt; lia | reflexivity]. }
  iter_norm.
  replace (Iter s (lo + 1) ==! Iter s hi) with false
    by (symmetry; apply Z.eqb_neq; cbn [idx]; lia).
  replace (Iter s hi ==! Iter s (hi + 1)) with false
    by (symmetry; apply Z.eqb_neq; cbn [idx]; lia).
  cbn [orb]. cbv iota.
  replace (pop_back (push_back nest (Nest (List.length output) 0))) with nest
    by (unfold pop_back, push_back; rewrite removelast_last; reflexivity).
  rewrite Halready. cbn [negb andb].
  destruct (parse_link_paren fuel (Iter s (hi + 1)) eos []) as [[p4 attr]|];
    [|reflexivity].
  cbv beta iota.
  destruct (Iter s (hi + 1) <! p4); [reflexivity|].
  destruct (parse_link_bracket fuel (Iter s (hi + 1)) eos (Iter s (lo + 1))
              (Iter s hi) attr) as [[p5 attr']|]; [|reflexivity].
  cbv beta iota.
  destruct (parse_fetch_reference_link dict attr') as [fetched attr''].
  reflexivity.
Qed.


Section LinkForms.

Variables (pre a b post : wstring) (dict : refdict_type) (rf : reflink_type).
Hypothesis text_ok : link_text a = true.
Hypothesis text_nonempty : 1 <= wsize a.
Hypothesis id_ok : plain_id b = true.
Hypothesis found :
  dict_find dict (decode_linkid (cbegin_of b) (cend_of b)) = Some rf.
Hypothesis target : target_ok (uri rf) = true.
Variable fuel0 : nat.
Hypothesis closes :
  scan_quoted fuel0 (cbegin_of (paren_part (uri rf) (title rf)))
    (cend_of (paren_part (uri rf) (title rf))) (ch "(") (ch ")") (ch "\")
    ismdany
  = Some (cend_of (paren_part (uri rf) (title rf))).

Local Notation "'s1'" := (pre ++ reference_form a b ++ post).
Local Notation "'s2'" := (pre ++ inline_form a (uri rf) (title rf) ++ post).
Local Notation "'lo'" := (wsize pre).
Local Notation "'hi'" := (wsize pre + wsize a + 1).

Lemma reference_context :
  wsize s1 = lo + wsize a + wsize b + 4 + wsize post
  /\ at_index s1 lo = ch "["
  /\ (forall i, 0 <= i < wsize a -> at_index s1 (lo + 1 + i) = at_index a i)
  /\ at_index s1 hi = ch "]"
  /\ at_index s1 (hi + 1) = ch "["
  /\ (forall i, 0 <= i < wsize b -> at_index s1 (hi + 2 + i) = at_index b i)
  /\ at_index s1 (hi + 2 + wsize b) = ch "]"
  /\ same_text (Iter s1 (hi + 2)) (Iter s1 (hi + 2 + wsize b))
       (cbegin_of b) (cend_of b).
Proof.
  destruct (reference_form_anatomy a b)
    as (Hlen & H0 & Ha & Hc1 & Hc2 & Hb & Hc3 & Hsame & _).
  pose proof (wsize_nonneg a). pose proof (wsize_nonneg b).
  split; [rewrite wsize_context, Hlen; lia|].
  split; [rewrite <- H0, <- (Z.add_0_r lo) at 1; apply at_index_mid; lia|].
  split.
  { intros i Hi. rewrite <- Ha by exact Hi.
    replace (lo + 1 + i) with (lo + (1 + i)) by lia. apply at_index_mid. lia. }
  split.
  { rewrite <- Hc1. replace hi with (lo + (wsize a + 1)) by lia.
    apply at_index_mid. lia. }
  split.
  { rewrite <- Hc2. replace (hi + 1) with (lo + (wsize a + 2)) by lia.
    apply at_index_mid. lia. }
  split.
  { intros i Hi. rewrite <- Hb by exact Hi.
    replace (hi + 2 + i) with (lo + (wsize a + 3 + i)) by lia.
    apply at_index_mid. lia. }
  split.
  { rewrite <- Hc3.
    replace (hi + 2 + wsize b) with (lo + (wsize a + 3 + wsize b)) by lia.
    apply at_index_mid. lia. }
  replace (hi + 2) with (lo + (wsize a + 3)) by lia.
  replace (lo + (wsize a + 3) + wsize b)
    with (lo + (wsize a + 3 + wsize b)) by lia.
  apply same_text_in_context; [exact Hsame | lia | lia].
Qed.

Lemma inline_context :
  wsize s2
  = lo + wsize a + wsize (uri rf) + wsize (title rf) + 7 + wsize post
  /\ at_index s2 lo = ch "["
  /\ (forall i, 0 <= i < wsize a -> at_index s2 (lo + 1 + i) = at_index a i)
  /\ at_index s2 hi = ch "]"
  /\ (forall k, 0 <= k < wsize (paren_part (uri rf) (title rf)) ->
        at_index s2 (hi + 1 + k)
        = at_index (paren_part (uri rf) (title rf)) k)
  /\ same_text (Iter s2 (hi + 2)) (Iter s2 (hi + 2 + wsize (uri rf)))
       (cbegin_of (uri rf)) (cend_of (uri rf))
  /\ same_text (Iter s2 (hi + wsize (uri rf) + 4))
       (Iter s2 (hi + wsize (uri rf) + 4 + wsize (title rf)))
       (cbegin_of (title rf)) (cend_of (title rf)).
Proof.
  destruct (inline_form_anatomy a (uri rf) (title rf))
    as (Hlen & H0 & Ha & Hc1 & _ & _ & _ & _ & _ & _ & _ & Hsu & Hst & _).
  pose proof (wsize_nonneg a). pose proof (wsize_nonneg (uri rf)).
  pose proof (wsize_nonneg (title rf)).
  destruct (paren_part_anatomy (uri rf) (title rf)) as (Hplen & _).
  split; [rewrite wsize_context, Hlen; lia|].
  split; [rewrite <- H0, <- (Z.add_0_r lo) at 1; apply at_index_mid; lia|].
  split.
  { intros i Hi. rewrite <- Ha by exact Hi.
    replace (lo + 1 + i) with (lo + (1 + i)) by lia. apply at_index_mid. lia. }
  split.
  { rewrite <- Hc1. replace hi with (lo + (wsize a + 1)) by lia.
    apply at_index_mid. lia. }
  split.
  { intros k Hk.
    replace (hi + 1 + k) with (lo + (wsize a + 2 + k)) by lia.
    rewrite at_index_mid by lia.
    change (inline_form a (uri rf) (title rf))
      with ((ch "[" :: a) ++ [ch "]"] ++ paren_part (uri rf) (title rf)).
    replace (wsize a + 2 + k) with (wsize (ch "[" :: a) + (1 + k))
      by (rewrite wsize_cons; lia).
    rewrite at_index_app_r by (rewrite wsize_cons; lia).
    replace (wsize (ch "[" :: a) + (1 + k) - wsize (ch "[" :: a))
      with (1 + k) by lia.
    rewrite at_index_app_r by (change (wsize [ch "]"]) with 1; lia).
    change (wsize [ch "]"]) with 1. f_equal. lia. }
  split.
  { replace (hi + 2) with (lo + (wsize a + 3)) by lia.
    replace (lo + (wsize a + 3) + wsize (uri rf))
      with (lo + (wsize a + 3 + wsize (uri rf))) by lia.
    apply same_text_in_context; [exact Hsu | lia | lia]. }
  replace (hi + wsize (uri rf) + 4) with (lo + (wsize a + 5 + wsize (uri rf)))
    by lia.
  replace (lo + (wsize a + 5 + wsize (uri rf)) + wsize (title rf))
    with (lo + (wsize a + 5 + wsize (uri rf) + wsize (title rf))) by lia.
  apply same_text_in_context; [exact Hst | lia | lia].
Qed.

Lemma forms_agree :
  forall m, lo <= m <= hi -> at_index s1 m = at_index s2 m.
Proof.
  destruct reference_context as (_ & H0 & Ha & Hc & _).
  destruct inline_context as (_ & H0' & Ha' & Hc' & _).
  intros m Hm.
  destruct (Z.eq_dec m lo) as [-> | H1]; [rewrite H0, H0'; reflexivity|].
  destruct (Z.eq_dec m hi) as [-> | H2]; [rewrite Hc, Hc'; reflexivity|].
  replace m with (lo + 1 + (m - lo - 1)) by lia.
  rewrite Ha, Ha' by lia. reflexivity.
Qed.

(** [parse_link] on [[a][b]], once the text [a] has been read. *)
Lemma parse_link_reference_at fuel bos (output : tokens) (nest : nests)
    (inner inner' : tokens) (nest1 : nests) :
  (wsize b + 3 <= Z.of_nat fuel) ->
  parse_inline_loop fuel dict bos (Iter s1 (lo + 1)) (cend_of s1) []
    (push_back nest (Nest (List.length output) 0))
  = Some (Iter s1 hi, inner, nest1) ->
  demote_until_link (List.length nest1) inner nest1
  = (inner', push_back nest (Nest (List.length output) 0)) ->
  nest_exists nest 0 = false ->
  parse_link (parse_inline_loop fuel dict) fuel bos (Iter s1 lo) (cend_of s1)
    output dict nest
  = Some (Iter s1 (hi + wsize b + 3),
          output
          ++ link_tokens_at s1 lo (hi + wsize b + 3) (reference_attribute rf)
               inner',
          nest).
Proof.
  intros Hfuel Hloop Hdemote Halready.
  destruct reference_context
    as (Hlen & H0 & Ha & Hc1 & Hc2 & Hb & Hc3 & Hsame).
  destruct (@plain_id_chars b id_ok) as (HB & Hbchars).
  pose proof (wsize_nonneg post) as Hpost.
  assert (Hend : idx (cend_of s1) = wsize s1) by reflexivity.
  rewrite (@parse_link_front s1 lo hi (cend_of s1) fuel
             (parse_inline_loop fuel dict) bos output dict nest inner inner'
             nest1 H0 Hc1 ltac:(lia) ltac:(rewrite Hend, Hlen; lia) Hloop
             Hdemote Halready).
  destruct fuel as [|[|fuel]]; try lia.
  remember (S (S fuel)) as f eqn:Hf.
  (* no parenthesised target *)
  unfold parse_link_paren. rewrite Hf at 1.
  rewrite scan_quoted_no_open
    by (unfold deref; cbn [str idx]; rewrite Hc2; reflexivity).
  replace (Iter s1 (hi + 1) ==! Iter s1 (hi + 1)) with true
    by (symmetry; apply Z.eqb_refl).
  cbv beta iota.
  replace (Iter s1 (hi + 1) <! Iter s1 (hi + 1)) with false
    by (symmetry; apply Z.ltb_irrefl).
  cbv iota.
  (* the identifier *)
  unfold parse_link_bracket.
  rewrite scan_of_pred_stay
    by (unfold deref; cbn [str idx]; rewrite Hc2; reflexivity).
  rewrite (@scan_quoted_inert f (Iter s1 (hi + 1)) (cend_of s1)
             (ch "[") (ch "]") (ch "\") ismdany (Z.to_nat (wsize b)));
    cbn [str idx]; try rewrite Z2Nat.id by lia.
  2:{ discriminate. }
  2:{ reflexivity. }
  2:{ intros E. discriminate E. }
  2:{ lia. }
  2:{ exact Hc2. }
  2:{ intros m Hm. replace m with (hi + 2 + (m - (hi + 2))) by lia.
      rewrite Hb by lia. apply Hbchars. lia. }
  2:{ rewrite Hend, Hlen. lia. }
  2:{ replace (hi + 1 + 1 + wsize b) with (hi + 2 + wsize b) by lia.
      exact Hc3. }
  cbv beta iota. unfold idiff. cbn [idx].
  replace (hi + 1 + wsize b + 2 - (hi + 1) >? 2) with true
    by (symmetry; apply Z.gtb_lt; lia).
  cbv iota. change (push_back [] ?x) with [x].
  (* the dictionary *)
  unfold parse_fetch_reference_link. cbn [at_pos nth cbegin cend].
  iter_norm.
  replace (hi + 1 + 1) with (hi + 2) by lia.
  replace (hi + 1 + wsize b + 2 + -1) with (hi + 2 + wsize b) by lia.
  rewrite (decode_linkid_same Hsame), found. cbv beta iota.
  unfold parse_make_link, link_tokens_at, reference_attribute, push_back.
  cbv beta iota zeta.
  replace (hi + 1 + wsize b + 2) with (hi + wsize b + 3) by lia.
  destruct (negb (is_empty (title rf))); cbn [app];
    repeat (rewrite <- ?app_assoc; cbn [app]); reflexivity.
Qed.

(** [parse_link] on [[a](uri "title")], once the text [a] has been
    read. *)
Lemma parse_link_inline_at fuel bos (output : tokens) (nest : nests)
    (inner inner' : tokens) (nest1 : nests) :
  (fuel0 <= fuel)%nat ->
  parse_inline_loop fuel dict bos (Iter s2 (lo + 1)) (cend_of s2) []
    (push_back nest (Nest (List.length output) 0))
  = Some (Iter s2 hi, inner, nest1) ->
  demote_until_link (List.length nest1) inner nest1
  = (inner', push_back nest (Nest (List.length output) 0)) ->
  nest_exists nest 0 = false ->
  parse_link (parse_inline_loop fuel dict) fuel bos (Iter s2 lo) (cend_of s2)
    output dict nest
  = Some (Iter s2 (hi + wsize (uri rf) + wsize (title rf) + 6),
          output
          ++ link_tokens_at s2 lo (hi + wsize (uri rf) + wsize (title rf) + 6)
               [Token URI (Iter s2 (hi + 2))
                  (Iter s2 (hi + 2 + wsize (uri rf)));
                Token TITLE (Iter s2 (hi + wsize (uri rf) + 4))
                  (Iter s2 (hi + wsize (uri rf) + 4 + wsize (title rf)))]
               inner',
          nest).
Proof.
  intros Hfuel Hloop Hdemote Halready.
  destruct inline_context as (Hlen & H0 & Ha & Hc1 & Hpart & _).
  destruct (paren_part_anatomy (uri rf) (title rf)) as (Hplen & _).
  pose proof (wsize_nonneg post) as Hpost.
  pose proof (wsize_nonneg (uri rf)) as HU.
  pose proof (wsize_nonneg (title rf)) as HT.
  pose proof (wsize_nonneg pre) as Hpre.
  assert (Hend : idx (cend_of s2) = wsize s2) by reflexivity.
  rewrite (@parse_link_front s2 lo hi (cend_of s2) fuel
             (parse_inline_loop fuel dict) bos output dict nest inner inner'
             nest1 H0 Hc1 ltac:(lia) ltac:(rewrite Hend, Hlen; lia) Hloop
             Hdemote Halready).
  assert (Hfar : hi + 1 + wsize (paren_part (uri rf) (title rf))
                 <= idx (cend_of s2))
    by (rewrite Hend, Hlen, Hplen; lia).
  rewrite (@parse_link_paren_inline s2 (uri rf) (title rf) (hi + 1)
             (cend_of s2) Hpart Hfar target fuel0 fuel [] closes Hfuel).
  cbv beta iota. unfold ilt at 1. cbn [idx].
  replace (hi + 1 <? hi + 1 + wsize (uri rf) + wsize (title rf) + 5) with true
    by (symmetry; apply Z.ltb_lt; lia).
  cbv iota.
  unfold parse_make_link, link_tokens_at, push_back. cbv beta iota zeta.
  replace (hi + 1 + wsize (uri rf) + wsize (title rf) + 5)
    with (hi + wsize (uri rf) + wsize (title rf) + 6) by lia.
  replace (hi + 1 + 1) with (hi + 2) by lia.
  replace (hi + 1 + 1 + wsize (uri rf)) with (hi + 2 + wsize (uri rf)) by lia.
  replace (hi + 1 + wsize (uri rf) + 3) with (hi + wsize (uri rf) + 4) by lia.
  replace (hi + 1 + wsize (uri rf) + wsize (title rf) + 3)
    with (hi + wsize (uri rf) + 4 + wsize (title rf)) by lia.
  cbn [app]. repeat (rewrite <- ?app_assoc; cbn [app]). reflexivity.
Qed.

(** Both forms of the link, wherever they stand: [parse_link] emits the
    link with the same text tokens, after any tokens and under any stack
    of frames that holds no open link. *)
Lemma parse_link_both bos1 bos2 (output1 output2 : tokens) (nest : nests) :
  idx bos2 = idx bos1 -> idx bos1 <= lo ->
  List.length output2 = List.length output1 ->
  nest_exists nest 0 = false ->
  exists inner,
    Forall (inside s1 lo hi) inner
    /\ forall fuel : nat,
         (Z.to_nat (wsize a + wsize b) + fuel0 + 4 <= fuel)%nat ->
         parse_link (parse_inline_loop fuel dict) fuel bos1 (Iter s1 lo)
           (cend_of s1) output1 dict nest
         = Some (Iter s1 (hi + wsize b + 3),
                 output1
                 ++ link_tokens_at s1 lo (hi + wsize b + 3)
                      (reference_attribute rf) inner,
                 nest)
         /\ parse_link (parse_inline_loop fuel dict) fuel bos2 (Iter s2 lo)
              (cend_of s2) output2 dict nest
            = Some (Iter s2 (hi + wsize (uri rf) + wsize (title rf) + 6),
                    output2
                    ++ link_tokens_at s2 lo
                         (hi + wsize (uri rf) + wsize (title rf) + 6)
                         [Token URI (Iter s2 (hi + 2))
                            (Iter s2 (hi + 2 + wsize (uri rf)));
                          Token TITLE (Iter s2 (hi + wsize (uri rf) + 4))
                            (Iter s2 (hi + wsize (uri rf) + 4
                                      + wsize (title rf)))]
                         (map (retarget_token s2) inner),
                    nest).
Proof.
  intros Hbos Hlow Hout Halready.
  destruct reference_context as (Hlen1 & H0 & Ha & Hc1 & _).
  destruct inline_context as (Hlen2 & _).
  pose proof (wsize_nonneg post) as Hpost.
  pose proof (wsize_nonneg b) as HB.
  pose proof (wsize_nonneg (uri rf)) as HU.
  pose proof (wsize_nonneg (title rf)) as HT.
  pose proof (wsize_nonneg pre) as Hpre.
  assert (Hend1 : idx (cend_of s1) = wsize s1) by reflexivity.
  assert (Hend2 : idx (cend_of s2) = wsize s2) by reflexivity.
  assert (Hregion : text_region s1 hi (lo + 1)).
  { replace hi with (lo + 1 + wsize a) by lia.
    apply link_text_region; [exact text_ok | exact Ha]. }
  set (base := push_back nest (Nest (List.length output1) 0)).
  assert (Hbase : n (nest_back base) = 0).
  { unfold base, push_back, nest_back, back. rewrite last_last. reflexivity. }
  destruct (@link_text_loop s1 s2 lo hi forms_agree Hc1 dict bos1 bos2
              (cend_of s1) (cend_of s2) Hbos Hlow
              ltac:(rewrite Hend1, Hlen1; lia) ltac:(rewrite Hend2, Hlen2; lia)
              (Z.to_nat (wsize a)) (lo + 1) [] base [] Hregion ltac:(lia)
              ltac:(lia) ltac:(constructor) Hbase ltac:(constructor))
    as (inner0 & above' & Hin0 & Hab' & Hrun).
  destruct (@demote_until_link_frames s2 above'
              (List.length (base ++ above')) inner0 base Hab' Hbase
              ltac:(rewrite length_app; lia))
    as (inner & Hd1 & Hd2 & Hin).
  exists inner. split; [apply Hin; exact Hin0|].
  intros fuel Hfuel.
  destruct (Hrun fuel ltac:(lia)) as (Hrun1 & Hrun2).
  rewrite app_nil_r in Hrun1, Hrun2. cbn [map] in Hrun2.
  split.
  - apply (@parse_link_reference_at fuel bos1 output1 nest inner0 inner
             (base ++ above')); try assumption. lia.
  - apply (@parse_link_inline_at fuel bos2 output2 nest
             (map (retarget_token s2) inner0)
             (map (retarget_token s2) inner) (base ++ above'));
      try assumption; try lia; rewrite Hout; assumption.
Qed.

End LinkForms.


(** *** The output builder reads kinds and characters only *)

Lemma same_content_refl t : same_content t t.
Proof.
  split; [reflexivity|]. split; [|reflexivity].
  split; [reflexivity | intros; reflexivity].
Qed.

Lemma tk_same_content (X X' : tokens) p :
  Forall2 same_content X X' -> same_content (tk X p) (tk X' p).
Proof.
  intros H. unfold tk, tok. destruct (p <? 0); [apply same_content_refl|].
  revert H. generalize (Z.to_nat p). intros i H. revert i.
  induction H as [|x x' l l' Hx _ IH]; intros i.
  - destruct i; apply same_content_refl.
  - destruct i as [|i]; [exact Hx | apply IH].
Qed.

Lemma dol_of_same (X X' : tokens) :
  Forall2 same_content X X' -> dol_of X' = dol_of X.
Proof.
  intros H. unfold dol_of. rewrite (Forall2_length H). reflexivity.
Qed.

Lemma print_with_escape_htmlall_loop_same (k : nat) :
  forall s s' output,
    (forall i, 0 <= i < Z.of_nat k ->
       at_index (str s) (idx s + i) = at_index (str s') (idx s' + i)) ->
    print_with_escape_htmlall_loop k s output
    = print_with_escape_htmlall_loop k s' output.
Proof.
  induction k as [|k IH]; intros s s' output H; [reflexivity|].
  cbn [print_with_escape_htmlall_loop]. unfold deref.
  pose proof (H 0 ltac:(lia)) as H0. rewrite !Z.add_0_r in H0. rewrite H0.
  apply IH. intros i Hi. cbn [iadd str idx].
  replace (idx s + 1 + i) with (idx s + (1 + i)) by lia.
  replace (idx s' + 1 + i) with (idx s' + (1 + i)) by lia.
  apply H. lia.
Qed.

Lemma print_with_escape_htmlall_same b e b' e' output :
  same_text b e b' e' ->
  print_with_escape_htmlall b e output = print_with_escape_htmlall b' e' output.
Proof.
  intros (Hlen & Hch). unfold print_with_escape_htmlall, dist.
  rewrite <- Hlen. apply print_with_escape_htmlall_loop_same.
  intros i Hi. apply Hch. lia.
Qed.

Ltac same_tokens_rewrite H :=
  repeat match goal with
  | |- context [kind (tk ?Y ?q)] =>
      lazymatch type of H with
      | Forall2 same_content _ Y =>
          rewrite <- (proj1 (tk_same_content q H))
      end
  | |- context [unescape_backslash (cbegin (tk ?Y ?q)) (cend (tk ?Y ?q))] =>
      lazymatch type of H with
      | Forall2 same_content _ Y =>
          rewrite <- (unescape_backslash_same (proj1 (proj2 (tk_same_content q H))))
      end
  | |- context [cbegin (tk ?Y ?q) <! cend (tk ?Y ?q)] =>
      lazymatch type of H with
      | Forall2 same_content _ Y =>
          rewrite <- (same_text_ilt (proj1 (proj2 (tk_same_content q H))))
      end
  | |- context [slice (cbegin (tk ?Y ?q)) (cend (tk ?Y ?q))] =>
      lazymatch type of H with
      | Forall2 same_content _ Y =>
          rewrite <- (proj2 (proj2 (tk_same_content q H)))
      end
  | |- context [print_with_escape_htmlall (cbegin (tk ?Y ?q))
                  (cend (tk ?Y ?q)) ?o] =>
      lazymatch type of H with
      | Forall2 same_content _ Y =>
          rewrite <- (@print_with_escape_htmlall_same _ _ _ _ o
                        (proj1 (proj2 (tk_same_content q H))))
      end
  end.

Lemma print_innerlink_same (X X' : tokens) p output dict :
  Forall2 same_content X X' ->
  print_innerlink X p output dict = print_innerlink X' p output dict.
Proof.
  intros H. unfold print_innerlink. cbv zeta.
  same_tokens_rewrite H.
  destruct (kind_eqb URI (kind (tk X (p + 1)))).
  - same_tokens_rewrite H.
    destruct (kind_eqb TITLE (kind (tk X (p + 1 + 1))));
      destruct (kind_eqb IMGBEGIN (kind (tk X p)));
      cbv beta iota; same_tokens_rewrite H; reflexivity.
  - destruct (kind_eqb IMGBEGIN (kind (tk X p)));
      cbv beta iota; same_tokens_rewrite H; reflexivity.
Qed.

Lemma gather_text_same (X X' : tokens) :
  Forall2 same_content X X' ->
  forall (k : nat) p src, gather_text k X p src = gather_text k X' p src.
Proof.
  intros H. induction k as [|k IH]; intros p src; [reflexivity|].
  cbn [gather_text]. cbv zeta. same_tokens_rewrite H.
  destruct (kind_eqb TEXT (kind (tk X p))); [|reflexivity]. apply IH.
Qed.

Lemma print_inline_loop_same dict (X X' : tokens) :
  Forall2 same_content X X' ->
  forall (k : nat) p output,
    print_inline_loop k X p output dict = print_inline_loop k X' p output dict.
Proof.
  intros H. induction k as [|k IH]; intros p output; [reflexivity|].
  cbn [print_inline_loop]. cbv zeta.
  rewrite (dol_of_same H). rewrite <- (print_innerlink_same p output dict H).
  rewrite <- (gather_text_same H).
  same_tokens_rewrite H.
  destruct (negb (p <? dol_of X)); [reflexivity|].
  destruct (kind_leb BREAK (kind (tk X p))); [apply IH|].
  destruct (kind_eqb CODE (kind (tk X p))); [apply IH|].
  destruct (kind_eqb HTML (kind (tk X p))); [apply IH|].
  destruct (kind_eqb SABEGIN (kind (tk X p)) || kind_eqb IMGBEGIN (kind (tk X p))).
  { destruct (print_innerlink X p output dict) as [p' o']. apply IH. }
  destruct (kind_eqb TEXT (kind (tk X p))); [|apply IH].
  destruct (gather_text (Z.to_nat (dol_of X - p)) X p []) as [p' src].
  apply IH.
Qed.

Lemma print_inline_same dict (X X' : tokens) output :
  Forall2 same_content X X' ->
  print_inline X output dict = print_inline X' output dict.
Proof.
  intros H. unfold print_inline. rewrite (Forall2_length H).
  apply print_inline_loop_same. exact H.
Qed.


(** *** The output builder goes through the tokens from left to right *)

Lemma dol_of_app (X Z : tokens) : dol_of (X ++ Z) = dol_of X + dol_of Z.
Proof. unfold dol_of. rewrite length_app. lia. Qed.

Lemma tk_app (X Z : tokens) j :
  0 <= j -> tk (X ++ Z) (dol_of X + j) = tk Z j.
Proof.
  intros Hj. unfold tk, tok, dol_of.
  replace (Z.of_nat (List.length X) + j <? 0) with false
    by (symmetry; apply Z.ltb_ge; lia).
  replace (j <? 0) with false by (symmetry; apply Z.ltb_ge; lia).
  rewrite app_nth2 by lia. f_equal. lia.
Qed.

Ltac shift_tokens X :=
  repeat match goal with
  | |- context [tk (X ++ ?Z) (dol_of X + ?j + ?d)] =>
      replace (dol_of X + j + d) with (dol_of X + (j + d)) by lia
  end;
  repeat match goal with
  | |- context [tk (X ++ ?Z) (dol_of X + ?j)] =>
      rewrite (@tk_app X Z j) by lia
  end.

Lemma print_innerlink_ge (Z : tokens) j output dict :
  j <= fst (print_innerlink Z j output dict).
Proof.
  unfold print_innerlink. cbv zeta.
  destruct (kind_eqb URI _); [destruct (kind_eqb TITLE _)|];
    destruct (kind_eqb IMGBEGIN _); cbn [fst]; lia.
Qed.

Lemma print_innerlink_shift (X Z : tokens) j output dict :
  0 <= j ->
  print_innerlink (X ++ Z) (dol_of X + j) output dict
  = (dol_of X + fst (print_innerlink Z j output dict),
     snd (print_innerlink Z j output dict)).
Proof.
  intros Hj. unfold print_innerlink. cbv zeta. shift_tokens X.
  destruct (kind_eqb URI (kind (tk Z (j + 1)))).
  - shift_tokens X.
    destruct (kind_eqb TITLE (kind (tk Z (j + 1 + 1))));
      destruct (kind_eqb IMGBEGIN (kind (tk Z j)));
      cbv beta iota; shift_tokens X; cbn [fst snd]; f_equal; lia.
  - destruct (kind_eqb IMGBEGIN (kind (tk Z j)));
      cbv beta iota; shift_tokens X; cbn [fst snd]; f_equal; lia.
Qed.

Lemma gather_text_ge (Z : tokens) :
  forall (k : nat) j src, j <= fst (gather_text k Z j src).
Proof.
  induction k as [|k IH]; intros j src; cbn [gather_text fst]; [lia|].
  cbv zeta. destruct (kind_eqb TEXT _); cbn [fst]; [|lia].
  specialize (IH (j + 1)
    (if cbegin (tk Z j) <! cend (tk Z j)
     then src ++ slice (cbegin (tk Z j)) (cend (tk Z j)) else src)).
  lia.
Qed.

Lemma gather_text_shift (X Z : tokens) :
  forall (k : nat) j src,
    0 <= j ->
    gather_text k (X ++ Z) (dol_of X + j) src
    = (dol_of X + fst (gather_text k Z j src), snd (gather_text k Z j src)).
Proof.
  induction k as [|k IH]; intros j src Hj; [reflexivity|].
  cbn [gather_text]. cbv zeta. shift_tokens X.
  destruct (kind_eqb TEXT (kind (tk Z j))); [|reflexivity].
  replace (dol_of X + j + 1) with (dol_of X + (j + 1)) by lia.
  apply IH. lia.
Qed.

Lemma print_inline_loop_shift dict (X Z : tokens) :
  forall (k : nat) j output,
    0 <= j ->
    print_inline_loop k (X ++ Z) (dol_of X + j) output dict
    = print_inline_loop k Z j output dict.
Proof.
  induction k as [|k IH]; intros j output Hj; [reflexivity|].
  cbn [print_inline_loop]. cbv zeta.
  rewrite dol_of_app.
  replace (dol_of X + j <? dol_of X + dol_of Z) with (j <? dol_of Z)
    by (destruct (Z.ltb_spec j (dol_of Z)); symmetry;
        [apply Z.ltb_lt | apply Z.ltb_ge]; lia).
  destruct (negb (j <? dol_of Z)); [reflexivity|].
  shift_tokens X.
  replace (dol_of X + dol_of Z - (dol_of X + j)) with (dol_of Z - j) by lia.
  rewrite print_innerlink_shift, gather_text_shift by lia.
  pose proof (print_innerlink_ge Z j output dict) as Hl.
  pose proof (gather_text_ge Z (Z.to_nat (dol_of Z - j)) j []) as Hg.
  destruct (kind_leb BREAK (kind (tk Z j))).
  { replace (dol_of X + j + 1) with (dol_of X + (j + 1)) by lia.
    apply IH. lia. }
  destruct (kind_eqb CODE (kind (tk Z j))).
  { replace (dol_of X + j + 1) with (dol_of X + (j + 1)) by lia.
    apply IH. lia. }
  destruct (kind_eqb HTML (kind (tk Z j))).
  { replace (dol_of X + j + 1) with (dol_of X + (j + 1)) by lia.
    apply IH. lia. }
  destruct (kind_eqb SABEGIN (kind (tk Z j)) || kind_eqb IMGBEGIN (kind (tk Z j))).
  { destruct (print_innerlink Z j output dict) as [p' o']. cbn [fst snd] in *.
    replace (dol_of X + p' + 1) with (dol_of X + (p' + 1)) by lia.
    apply IH. lia. }
  destruct (kind_eqb TEXT (kind (tk Z j))).
  { destruct (gather_text (Z.to_nat (dol_of Z - j)) Z j []) as [p' src].
    cbn [fst snd] in *.
    replace (dol_of X + p' - 1 + 1) with (dol_of X + (p' - 1 + 1)) by lia.
    apply IH. lia. }
  replace (dol_of X + j + 1) with (dol_of X + (j + 1)) by lia.
  apply IH. lia.
Qed.


Lemma gather_text_first (Z : tokens) (k : nat) j src :
  kind_eqb TEXT (kind (tk Z j)) = true ->
  j + 1 <= fst (gather_text (S k) Z j src).
Proof.
  intros H. cbn [gather_text]. cbv zeta. rewrite H.
  apply gather_text_ge.
Qed.

(** Fuel beyond the number of tokens left changes nothing. *)
Lemma print_inline_loop_fuel dict (Z : tokens) :
  forall (k k' : nat) j output,
    dol_of Z - j <= Z.of_nat k -> dol_of Z - j <= Z.of_nat k' ->
    print_inline_loop k Z j output dict
    = print_inline_loop k' Z j output dict.
Proof.
  assert (Hend : forall (k : nat) j output,
            dol_of Z <= j -> print_inline_loop k Z j output dict = output).
  { intros [|k] j output Hj; [reflexivity|].
    cbn [print_inline_loop].
    replace (j <? dol_of Z) with false by (symmetry; apply Z.ltb_ge; lia).
    reflexivity. }
  induction k as [|k IH]; intros k' j output Hk Hk'.
  { rewrite !Hend by lia. reflexivity. }
  destruct k' as [|k']; [rewrite !Hend by lia; reflexivity|].
  cbn [print_inline_loop]. cbv zeta.
  destruct (j <? dol_of Z) eqn:Ej; cbn [negb]; [|reflexivity].
  apply Z.ltb_lt in Ej.
  pose proof (print_innerlink_ge Z j output dict) as Hl.
  destruct (kind_leb BREAK (kind (tk Z j))); [apply IH; lia|].
  destruct (kind_eqb CODE (kind (tk Z j))); [apply IH; lia|].
  destruct (kind_eqb HTML (kind (tk Z j))); [apply IH; lia|].
  destruct (kind_eqb SABEGIN (kind (tk Z j))
            || kind_eqb IMGBEGIN (kind (tk Z j))).
  { destruct (print_innerlink Z j output dict) as [p' o']. cbn [fst] in Hl.
    apply IH; lia. }
  destruct (kind_eqb TEXT (kind (tk Z j))) eqn:Et; [|apply IH; lia].
  destruct (Z.to_nat (dol_of Z - j)) as [|k0] eqn:Ek0; [lia|].
  pose proof (@gather_text_first Z k0 j [] Et) as Hg.
  destruct (gather_text (S k0) Z j []) as [p' src]. cbn [fst] in Hg.
  apply IH; lia.
Qed.

Lemma print_inline_loop_enough dict (Z : tokens) (k : nat) output :
  (List.length Z <= k)%nat ->
  print_inline_loop k Z 0 output dict = print_inline Z output dict.
Proof.
  intros Hk. unfold print_inline.
  apply print_inline_loop_fuel; unfold dol_of; lia.
Qed.

(** A text token that stands before a token that is no text. *)
Lemma print_inline_text_first dict (t : token_type) (Z : tokens) output :
  kind t = TEXT -> kind_eqb TEXT (kind (tk Z 0)) = false ->
  print_inline (t :: Z) output dict
  = print_inline Z (text_output t output) dict.
Proof.
  intros Ht Hz. unfold print_inline at 1. cbn [List.length].
  cbn [print_inline_loop]. cbv zeta.
  replace (0 <? dol_of (t :: Z)) with true
    by (symmetry; apply Z.ltb_lt; unfold dol_of; cbn [List.length]; lia).
  cbn [negb]. change (tk (t :: Z) 0) with t. rewrite Ht.
  change (kind_leb BREAK TEXT) with false.
  change (kind_eqb CODE TEXT) with false.
  change (kind_eqb HTML TEXT) with false.
  change (kind_eqb SABEGIN TEXT) with false.
  change (kind_eqb IMGBEGIN TEXT) with false.
  change (kind_eqb TEXT TEXT) with true. cbn [orb]. cbv iota.
  replace (Z.to_nat (dol_of (t :: Z) - 0)) with (S (List.length Z))
    by (unfold dol_of; cbn [List.length]; lia).
  cbn [gather_text]. cbv zeta. change (tk (t :: Z) 0) with t. rewrite Ht.
  change (kind_eqb TEXT TEXT) with true. cbv iota.
  assert (Hstop : forall k src,
            gather_text k (t :: Z) (0 + 1) src = (1, src)).
  { intros k src. change (t :: Z) with ([t] ++ Z).
    change (0 + 1) with (dol_of [t] + 0).
    rewrite gather_text_shift by lia.
    destruct k as [|k]; [reflexivity|].
    cbn [gather_text]. cbv zeta. rewrite Hz. reflexivity. }
  rewrite Hstop. cbv beta iota.
  change (t :: Z) with ([t] ++ Z).
  change (1 - 1 + 1) with (dol_of [t] + 0).
  rewrite print_inline_loop_shift by lia.
  rewrite print_inline_loop_enough by lia.
  unfold text_output. cbv zeta. cbn [app]. reflexivity.
Qed.

(** The opening tag of a link. *)
Lemma print_inline_link_head dict x y ub ue tb te (Z : tokens) output :
  print_inline
    (Token SABEGIN x x :: Token URI ub ue :: Token TITLE tb te
     :: Token SAEND y y :: Z) output dict
  = print_inline Z (link_head_output ub ue tb te output) dict.
Proof.
  unfold print_inline at 1.
  change (List.length (Token SABEGIN x x :: Token URI ub ue
                       :: Token TITLE tb te :: Token SAEND y y :: Z))
    with (S (3 + List.length Z)).
  remember (3 + List.length Z)%nat as k eqn:Ek.
  cbn [print_inline_loop]. cbv zeta.
  set (head := [Token SABEGIN x x; Token URI ub ue; Token TITLE tb te;
                Token SAEND y y]).
  change (Token SABEGIN x x :: Token URI ub ue :: Token TITLE tb te
          :: Token SAEND y y :: Z) with (head ++ Z).
  replace (0 <? dol_of (head ++ Z)) with true
    by (symmetry; apply Z.ltb_lt; rewrite dol_of_app; unfold dol_of, head;
        cbn [List.length]; lia).
  cbn [negb]. change (tk (head ++ Z) 0) with (Token SABEGIN x x).
  cbn [kind]. change (kind_leb BREAK SABEGIN) with false.
  change (kind_eqb CODE SABEGIN) with false.
  change (kind_eqb HTML SABEGIN) with false.
  change (kind_eqb SABEGIN SABEGIN) with true. cbn [orb]. cbv iota.
  unfold print_innerlink. cbv zeta.
  change (tk (head ++ Z) 0) with (Token SABEGIN x x).
  change (tk (head ++ Z) (0 + 1)) with (Token URI ub ue).
  change (tk (head ++ Z) (0 + 1 + 1)) with (Token TITLE tb te).
  cbn [kind cbegin cend]. change (kind_eqb URI URI) with true.
  change (kind_eqb TITLE TITLE) with true.
  change (kind_eqb IMGBEGIN SABEGIN) with false. cbv iota.
  change (tk (head ++ Z) (0 + 1 + 1 + 1)) with (Token SAEND y y).
  cbn [kind].
  change (0 + 1 + 1 + 1 + 1) with (dol_of head + 0).
  rewrite print_inline_loop_shift by lia.
  rewrite print_inline_loop_enough by lia.
  reflexivity.
Qed.

(** The same without a title. *)
Lemma print_inline_link_head_untitled dict x y ub ue (Z : tokens) output :
  print_inline
    (Token SABEGIN x x :: Token URI ub ue :: Token SAEND y y :: Z) output dict
  = print_inline Z
      (link_head_output ub ue (cbegin_of []) (cend_of []) output) dict.
Proof.
  unfold print_inline at 1.
  change (List.length (Token SABEGIN x x :: Token URI ub ue
                       :: Token SAEND y y :: Z))
    with (S (2 + List.length Z)).
  remember (2 + List.length Z)%nat as k eqn:Ek.
  cbn [print_inline_loop]. cbv zeta.
  set (head := [Token SABEGIN x x; Token URI ub ue; Token SAEND y y]).
  change (Token SABEGIN x x :: Token URI ub ue :: Token SAEND y y :: Z)
    with (head ++ Z).
  replace (0 <? dol_of (head ++ Z)) with true
    by (symmetry; apply Z.ltb_lt; rewrite dol_of_app; unfold dol_of, head;
        cbn [List.length]; lia).
  cbn [negb]. change (tk (head ++ Z) 0) with (Token SABEGIN x x).
  cbn [kind]. change (kind_leb BREAK SABEGIN) with false.
  change (kind_eqb CODE SABEGIN) with false.
  change (kind_eqb HTML SABEGIN) with false.
  change (kind_eqb SABEGIN SABEGIN) with true. cbn [orb]. cbv iota.
  unfold print_innerlink. cbv zeta.
  change (tk (head ++ Z) 0) with (Token SABEGIN x x).
  change (tk (head ++ Z) (0 + 1)) with (Token URI ub ue).
  change (tk (head ++ Z) (0 + 1 + 1)) with (Token SAEND y y).
  cbn [kind cbegin cend]. change (kind_eqb URI URI) with true.
  change (kind_eqb TITLE SAEND) with false.
  change (kind_eqb IMGBEGIN SABEGIN) with false. cbv iota.
  change (tk (head ++ Z) (0 + 1 + 1)) with (Token SAEND y y).
  cbn [kind].
  change (0 + 1 + 1 + 1) with (dol_of head + 0).
  rewrite print_inline_loop_shift by lia.
  rewrite print_inline_loop_enough by lia.
  reflexivity.
Qed.


(** *** Words around a link *)

Lemma parse_text_fresh b e (base : tokens) :
  idx b < idx e -> closed_tokens base ->
  parse_text b e base = (e, base ++ [Token TEXT b e]).
Proof.
  intros Hlt Hc. unfold parse_text.
  replace (e <=! b) with false by (symmetry; apply Z.leb_gt; exact Hlt).
  destruct Hc as [Hc | Hc]; rewrite Hc; cbn [negb andb];
    rewrite ?andb_false_r; reflexivity.
Qed.

Lemma parse_text_extend b m e (base : tokens) :
  idx m < idx e ->
  parse_text m e (base ++ [Token TEXT b m]) = (e, base ++ [Token TEXT b e]).
Proof.
  intros Hlt. unfold parse_text.
  replace (e <=! m) with false by (symmetry; apply Z.leb_gt; exact Hlt).
  assert (Hne : is_empty (base ++ [Token TEXT b m]) = false)
    by (destruct base; reflexivity).
  rewrite Hne. unfold back. rewrite last_last. cbn [kind cend negb andb].
  change (kind_eqb TEXT TEXT) with true. unfold ieq. rewrite Z.eqb_refl.
  cbn [andb]. rewrite modify_last. reflexivity.
Qed.

Lemma plain_words_chars (w : wstring) :
  plain_words w = true ->
  forall m, 0 <= m < wsize w ->
    wfind (at_index w m) (L "\`*_<![]") = false /\ at_index w m <> NL.
Proof.
  unfold plain_words. rewrite forallb_forall. intros H m Hm.
  assert (Hin : In (at_index w m) w).
  { unfold at_index, wsize in *.
    replace (m <? 0) with false by (symmetry; apply Z.ltb_ge; lia).
    apply nth_In. lia. }
  specialize (H _ Hin). apply andb_prop in H as [H1 H2].
  split; [destruct (wfind _ _); [discriminate H1 | reflexivity]|].
  intros E. rewrite E in H2. discriminate H2.
Qed.

Lemma parse_inline_loop_link fuel dict bos pos eos (out : tokens)
    (nest : nests) :
  (pos <! eos) = true -> deref pos = ch "[" ->
  parse_inline_loop (S fuel) dict bos pos eos out nest
  = ('(p1, o, ns) <-
       parse_link (parse_inline_loop fuel dict) fuel bos pos eos out dict nest ;;
     parse_inline_loop fuel dict bos p1 eos o ns).
Proof.
  intros Hlt H. cbn [parse_inline_loop]. rewrite Hlt, H. reflexivity.
Qed.

Lemma parse_inline_loop_stop fuel dict bos pos eos (out : tokens)
    (nest : nests) :
  (pos <! eos) = false ->
  parse_inline_loop (S fuel) dict bos pos eos out nest = Some (pos, out, nest).
Proof. intros Hlt. cbn [parse_inline_loop]. rewrite Hlt. reflexivity. Qed.

Section Words.

Variables (dict : refdict_type) (s : wstring) (bos eos : char_iterator).
Variables (i0 j : Z) (base : tokens) (nest : nests).
Hypothesis stop_low : j <= idx eos.
Hypothesis words :
  forall m, i0 <= m < j ->
    wfind (at_index s m) (L "\`*_<![]") = false /\ at_index s m <> NL.
Hypothesis stop : j = idx eos \/ at_index s j = ch "[".
Hypothesis closed : closed_tokens base.

Lemma words_text i i' :
  i0 <= i < i' ->
  parse_text (Iter s i) (Iter s i') (base ++ text_tokens s i0 i)
  = (Iter s i', base ++ text_tokens s i0 i').
Proof.
  intros Hi. unfold text_tokens.
  replace (i0 <? i') with true by (symmetry; apply Z.ltb_lt; lia).
  destruct (Z.ltb_spec i0 i) as [Hlt | Hge].
  - apply parse_text_extend. cbn [idx]. lia.
  - replace i with i0 by lia. rewrite app_nil_r.
    apply parse_text_fresh; [cbn [idx]; lia | exact closed].
Qed.

Lemma words_step i :
  i0 <= i < j ->
  exists i', i < i' <= j
    /\ forall fuel,
         parse_inline_loop (S fuel) dict bos (Iter s i) eos
           (base ++ text_tokens s i0 i) nest
         = parse_inline_loop fuel dict bos (Iter s i') eos
             (base ++ text_tokens s i0 i') nest.
Proof.
  intros Hi. destruct (words Hi) as (Hw & Hnl).
  assert (Hlt : (Iter s i <! eos) = true)
    by (apply Z.ltb_lt; cbn [idx]; lia).
  destruct (Z.eq_dec (at_index s i) (ch " ")) as [Hsp | Hsp].
  - (* spaces *)
    destruct (@scan_of_pred_unbounded (Iter s i) eos (Z.eqb (ch " "))
                ltac:(cbn [idx]; lia)) as (j1 & E1 & Hb & Hrun & Hend).
    cbn [str idx] in E1, Hb, Hrun, Hend.
    assert (Hij : i < j1).
    { destruct Hend as [-> | Hend]; [lia|].
      destruct (Z.eq_dec j1 i) as [-> | ]; [|lia].
      rewrite Hsp in Hend. discriminate Hend. }
    assert (Hj1 : j1 <= j).
    { destruct (Z.le_gt_cases j1 j) as [|Hgt]; [assumption|exfalso].
      destruct stop as [-> | Hs]; [lia|].
      specialize (Hrun j ltac:(lia)). rewrite Hs in Hrun. discriminate Hrun. }
    exists j1. split; [lia|]. intros fuel.
    rewrite parse_inline_loop_space by assumption.
    assert (Hsp' : parse_space (Iter s i) eos (base ++ text_tokens s i0 i)
                   = (Iter s j1, base ++ text_tokens s i0 j1)).
    { unfold parse_space, scan_of.
      rewrite (@scan_of_pred_min1 (Iter s i) eos (-1)), E1.
      rewrite scan_of_pred_one.
      assert (Hno : ((Iter s j1 <! eos) && (NL =? deref (Iter s j1)))
                    = false).
      { unfold ilt, deref. cbn [str idx].
        destruct (Z.eq_dec j1 j) as [-> | Hne].
        - destruct stop as [-> | Hs];
            [rewrite Z.ltb_irrefl; reflexivity
            | rewrite Hs; apply andb_false_r].
        - destruct (@words j1 ltac:(lia)) as (_ & Hn).
          replace (NL =? at_index s j1) with false
            by (symmetry; apply Z.eqb_neq; congruence).
          apply andb_false_r. }
      rewrite Hno.
      replace (Iter s j1 <! Iter s j1) with false
        by (symmetry; apply Z.ltb_irrefl).
      rewrite andb_false_r. apply words_text. lia. }
    rewrite Hsp'. reflexivity.
  - (* a word *)
    assert (Hc : wfind (at_index s i) (L " \`*_<![]") = false).
    { unfold wfind in *. cbn [L existsb] in *.
      replace (at_index s i =? ch " ") with false
        by (symmetry; apply Z.eqb_neq; exact Hsp).
      exact Hw. }
    destruct (find_loop_run (dist (Iter s i) eos)
                (fun c => wfind c (L " \`*_<![]")) (Iter s i))
      as (j1 & E & Hb & Hall & Hend).
    unfold dist in Hb, Hend. cbn [str idx] in E, Hb, Hall, Hend.
    rewrite Z2Nat.id in Hb, Hend by lia.
    replace (i + (idx eos - i)) with (idx eos) in Hb, Hend by lia.
    assert (Hij : i < j1).
    { destruct Hend as [-> | Hend]; [lia|].
      destruct (Z.eq_dec j1 i) as [-> | ]; [|lia].
      rewrite Hc in Hend. discriminate Hend. }
    assert (Hj1 : j1 <= j).
    { destruct (Z.le_gt_cases j1 j) as [|Hgt]; [assumption|exfalso].
      destruct stop as [-> | Hs]; [lia|].
      specialize (Hall j ltac:(lia)). rewrite Hs in Hall. discriminate Hall. }
    exists j1. split; [lia|]. intros fuel.
    rewrite parse_inline_loop_default by assumption. cbv zeta.
    unfold std_find_first_of. rewrite E.
    rewrite words_text by lia. reflexivity.
Qed.

Lemma words_loop :
  forall (steps : nat) i,
    i0 <= i <= j -> j - i <= Z.of_nat steps ->
    exists k : nat, (k <= steps)%nat
      /\ forall fuel,
           parse_inline_loop (k + fuel) dict bos (Iter s i) eos
             (base ++ text_tokens s i0 i) nest
           = parse_inline_loop fuel dict bos (Iter s j) eos
               (base ++ text_tokens s i0 j) nest.
Proof.
  induction steps as [|steps IH]; intros i Hi Hs.
  - exists O. split; [lia|]. intros fuel. replace i with j by lia.
    reflexivity.
  - destruct (Z.eq_dec i j) as [-> | Hne].
    { exists O. split; [lia|]. intros fuel. reflexivity. }
    destruct (@words_step i ltac:(lia)) as (i' & Hi' & Hstep).
    destruct (IH i' ltac:(lia) ltac:(lia)) as (k & Hk & Hrest).
    exists (S k). split; [lia|]. intros fuel.
    cbn [Nat.add]. rewrite Hstep. apply Hrest.
Qed.

End Words.

(** The tokens of a run that is a link between words. *)
Lemma parse_inline_words_link dict (s : wstring) lo e (body : tokens) x
    (fl : nat) :
  0 <= lo < e -> e <= wsize s ->
  (forall m, 0 <= m < lo ->
     wfind (at_index s m) (L "\`*_<![]") = false /\ at_index s m <> NL) ->
  at_index s lo = ch "[" ->
  (forall m, e <= m < wsize s ->
     wfind (at_index s m) (L "\`*_<![]") = false /\ at_index s m <> NL) ->
  (forall fuel : nat, (fl <= fuel)%nat ->
     parse_link (parse_inline_loop fuel dict) fuel (cbegin_of s) (Iter s lo)
       (cend_of s) (text_tokens s 0 lo) dict []
     = Some (Iter s e, text_tokens s 0 lo ++ body ++ [Token EA x x], [])) ->
  exists fuel0 : nat, forall fuel : nat, (fuel0 <= fuel)%nat ->
    parse_inline fuel s [] dict
    = Some (text_tokens s 0 lo ++ (body ++ [Token EA x x])
            ++ text_tokens s e (wsize s)).
Proof.
  intros Hlo He Hpre Hopen Hpost Hlink.
  destruct (@words_loop dict s (cbegin_of s) (cend_of s) 0 lo [] []
              ltac:(cbn [cend_of idx]; fold (wsize s); lia) Hpre
              ltac:(right; exact Hopen) ltac:(left; reflexivity)
              (Z.to_nat lo) 0 ltac:(lia) ltac:(lia)) as (k1 & _ & Hw1).
  destruct (@words_loop dict s (cbegin_of s) (cend_of s) e (wsize s)
              (text_tokens s 0 lo ++ body ++ [Token EA x x]) []
              ltac:(cbn [cend_of idx]; fold (wsize s); lia) Hpost
              ltac:(left; reflexivity)
              ltac:(right; unfold back; rewrite !app_assoc, last_last;
                    reflexivity)
              (Z.to_nat (wsize s - e)) e ltac:(lia) ltac:(lia))
    as (k2 & _ & Hw2).
  exists (k1 + k2 + fl + 3)%nat. intros fuel Hfuel.
  replace fuel with (S (k1 + S (k2 + S (fuel - k1 - k2 - 3)))) by lia.
  set (f5 := (fuel - k1 - k2 - 3)%nat).
  unfold parse_inline, parse_inline_nest. cbv zeta.
  cbn [parse_inline_while].
  replace (cbegin_of s <! cend_of s) with true
    by (symmetry; apply Z.ltb_lt; cbn [cbegin_of cend_of idx];
        fold (wsize s); lia).
  change (@nil token_type) with ([] ++ text_tokens s 0 0) at 1.
  unfold cbegin_of at 2. rewrite Hw1. cbn [app].
  rewrite parse_inline_loop_link;
    [ | apply Z.ltb_lt; cbn [cend_of idx]; fold (wsize s); lia
      | exact Hopen ].
  rewrite Hlink by lia.
  replace (text_tokens s 0 lo ++ body ++ [Token EA x x])
    with ((text_tokens s 0 lo ++ body ++ [Token EA x x])
          ++ text_tokens s e e) at 1
    by (unfold text_tokens; rewrite Z.ltb_irrefl; apply app_nil_r).
  rewrite Hw2.
  rewrite parse_inline_loop_stop
    by (apply Z.ltb_irrefl).
  replace ((cbegin_of s ==! Iter s (wsize s))) with false
    by (symmetry; apply Z.eqb_neq; cbn [cbegin_of idx]; lia).
  cbn [andb].
  destruct (k1 + S (k2 + S f5))%nat as [|f] eqn:Ef; [lia|].
  cbn [parse_inline_while].
  replace (Iter s (wsize s) <! cend_of s) with false
    by (symmetry; apply Z.ltb_irrefl).
  cbn [List.length demote_all]. rewrite <- app_assoc. reflexivity.
Qed.


(** *** The tokens of the two forms print alike *)

Lemma slice_ext b e b' e' :
  0 <= idx b -> 0 <= idx b' ->
  idx e <= wsize (str b) -> idx e' <= wsize (str b') ->
  same_text b e b' e' -> slice b e = slice b' e'.
Proof.
  intros Hb Hb' He He' (Hlen & Hch). unfold slice. rewrite <- Hlen.
  set (k := Z.to_nat (idx e - idx b)).
  apply nth_ext with (d := 0) (d' := 0).
  - rewrite !length_firstn, !length_skipn. unfold wsize in *. lia.
  - intros m Hm. rewrite length_firstn, length_skipn in Hm.
    rewrite !nth_firstn, !nth_skipn.
    destruct (m <? k)%nat eqn:E; [|reflexivity].
    apply Nat.ltb_lt in E.
    specialize (Hch (Z.of_nat m) ltac:(lia)). unfold at_index in Hch.
    replace (idx b + Z.of_nat m <? 0) with false in Hch
      by (symmetry; apply Z.ltb_ge; lia).
    replace (idx b' + Z.of_nat m <? 0) with false in Hch
      by (symmetry; apply Z.ltb_ge; lia).
    replace (Z.to_nat (idx b + Z.of_nat m)) with (Z.to_nat (idx b) + m)%nat
      in Hch by lia.
    replace (Z.to_nat (idx b' + Z.of_nat m)) with (Z.to_nat (idx b') + m)%nat
      in Hch by lia.
    exact Hch.
Qed.

Lemma same_content_of_text k b e b' e' :
  0 <= idx b -> 0 <= idx b' ->
  idx e <= wsize (str b) -> idx e' <= wsize (str b') ->
  same_text b e b' e' -> same_content (Token k b e) (Token k b' e').
Proof.
  intros Hb Hb' He He' H. split; [reflexivity|]. cbn [cbegin cend].
  split; [exact H | apply slice_ext; assumption].
Qed.

Lemma inside_same_content s1 s2 lo hi (t : token_type) :
  (forall m, lo <= m <= hi -> at_index s1 m = at_index s2 m) ->
  0 <= lo -> hi < wsize s1 -> hi < wsize s2 ->
  inside s1 lo hi t -> same_content t (retarget_token s2 t).
Proof.
  intros Hag Hlo H1 H2 (Hs & Hb & He).
  destruct t as [k b e]. cbn [cbegin cend kind] in *.
  unfold retarget_token. cbn [cbegin cend kind].
  apply same_content_of_text; cbn [retarget str idx]; rewrite ?Hs; try lia.
  split; cbn [retarget str idx]; [reflexivity|]. intros i Hi. rewrite Hs.
  apply Hag. lia.
Qed.

Lemma inside_same_contents s1 s2 lo hi (inner : tokens) :
  (forall m, lo <= m <= hi -> at_index s1 m = at_index s2 m) ->
  0 <= lo -> hi < wsize s1 -> hi < wsize s2 ->
  Forall (inside s1 lo hi) inner ->
  Forall2 same_content inner (map (retarget_token s2) inner).
Proof.
  intros Hag Hlo H1 H2 H. induction H as [|t l Ht _ IH]; cbn [map].
  - constructor.
  - constructor; [|exact IH].
    apply inside_same_content with (s1 := s1) (lo := lo) (hi := hi);
      assumption.
Qed.

Lemma text_output_same (t t' : token_type) output :
  same_content t t' -> text_output t output = text_output t' output.
Proof.
  intros (_ & Hs & Hsl). unfold text_output.
  rewrite Hsl, (same_text_ilt Hs). reflexivity.
Qed.

Lemma link_head_output_same ub ue tb te ub' ue' tb' te' output :
  same_text ub ue ub' ue' -> same_text tb te tb' te' ->
  link_head_output ub ue tb te output
  = link_head_output ub' ue' tb' te' output.
Proof.
  intros Hu Ht. unfold link_head_output.
  rewrite (unescape_backslash_same Hu), (unescape_backslash_same Ht),
    (same_text_ilt Ht).
  reflexivity.
Qed.

Lemma print_inline_text_tokens dict s i j (Z : tokens) output :
  kind_eqb TEXT (kind (tk Z 0)) = false ->
  print_inline (text_tokens s i j ++ Z) output dict
  = print_inline Z
      (if i <? j then text_output (Token TEXT (Iter s i) (Iter s j)) output
       else output) dict.
Proof.
  intros H. unfold text_tokens. destruct (i <? j); [|reflexivity].
  cbn [app]. apply print_inline_text_first; [reflexivity | exact H].
Qed.

Lemma link_tokens_at_body s lo e (attribute inner : tokens) :
  link_tokens_at s lo e attribute inner
  = ([Token SABEGIN (Iter s lo) (Iter s lo)] ++ attribute
     ++ [Token SAEND (Iter s lo) (Iter s lo)] ++ inner)
    ++ [Token EA (Iter s e) (Iter s e)].
Proof.
  unfold link_tokens_at. cbn [app]. rewrite <- !app_assoc. reflexivity.
Qed.

Lemma link_run_shape (x y ea : token_type) (attribute inner rest : tokens) :
  (([x] ++ attribute ++ [y] ++ inner) ++ [ea]) ++ rest
  = x :: attribute ++ y :: (inner ++ ea :: rest).
Proof. cbn [app]. rewrite <- !app_assoc. reflexivity. Qed.

Lemma at_index_post (pre mid post : wstring) k :
  0 <= k ->
  at_index (pre ++ mid ++ post) (wsize pre + wsize mid + k) = at_index post k.
Proof.
  intros Hk. pose proof (wsize_nonneg mid).
  rewrite at_index_app_r by lia. rewrite at_index_app_r by lia.
  f_equal. lia.
Qed.

Lemma words_in_context (pre mid post : wstring) :
  plain_words pre = true -> plain_words post = true ->
  (forall m, 0 <= m < wsize pre ->
     wfind (at_index (pre ++ mid ++ post) m) (L "\`*_<![]") = false
     /\ at_index (pre ++ mid ++ post) m <> NL)
  /\ (forall m, wsize pre + wsize mid <= m < wsize (pre ++ mid ++ post) ->
        wfind (at_index (pre ++ mid ++ post) m) (L "\`*_<![]") = false
        /\ at_index (pre ++ mid ++ post) m <> NL).
Proof.
  intros Hpre Hpost. split; intros m Hm.
  - rewrite at_index_app_l by lia. apply plain_words_chars; assumption.
  - rewrite wsize_context in Hm.
    replace m with (wsize pre + wsize mid + (m - wsize pre - wsize mid))
      by lia.
    rewrite at_index_post by lia. apply plain_words_chars; [assumption|lia].
Qed.

(** The tokens of the two forms of a link, followed by tokens that print
    alike, print alike. *)
Lemma link_tokens_print_same dict pre a b post rf (inner rest1 rest2 : tokens)
    e1 e2 output :
  1 <= wsize a -> 0 <= e1 -> 0 <= e2 ->
  Forall (inside (pre ++ reference_form a b ++ post) (wsize pre)
            (wsize pre + wsize a + 1)) inner ->
  Forall2 same_content rest1 rest2 ->
  print_inline
    (link_tokens_at (pre ++ reference_form a b ++ post) (wsize pre) e1
       (reference_attribute rf) inner ++ rest1) output dict
  = print_inline
      (link_tokens_at (pre ++ inline_form a (uri rf) (title rf) ++ post)
         (wsize pre) e2
         [Token URI
            (Iter (pre ++ inline_form a (uri rf) (title rf) ++ post)
               (wsize pre + wsize a + 1 + 2))
            (Iter (pre ++ inline_form a (uri rf) (title rf) ++ post)
               (wsize pre + wsize a + 1 + 2 + wsize (uri rf)));
          Token TITLE
            (Iter (pre ++ inline_form a (uri rf) (title rf) ++ post)
               (wsize pre + wsize a + 1 + wsize (uri rf) + 4))
            (Iter (pre ++ inline_form a (uri rf) (title rf) ++ post)
               (wsize pre + wsize a + 1 + wsize (uri rf) + 4
                + wsize (title rf)))]
         (map (retarget_token
                 (pre ++ inline_form a (uri rf) (title rf) ++ post)) inner)
       ++ rest2) output dict.
Proof.
  intros Hlen He1 He2 Hin Hrest.
  pose proof (wsize_nonneg pre) as Hp0. pose proof (wsize_nonneg post) as Hq0.
  pose proof (wsize_nonneg b) as Hb0.
  pose proof (wsize_nonneg (uri rf)) as Hu0.
  pose proof (wsize_nonneg (title rf)) as Ht0.
  destruct (@reference_context pre a b post Hlen) as (Hsize1 & _).
  destruct (@inline_context pre a post rf Hlen)
    as (Hsize2 & _ & _ & _ & _ & Hsu & Hst).
  pose proof (@forms_agree pre a b post rf Hlen) as Hag.
  set (s1 := pre ++ reference_form a b ++ post) in *.
  set (s2 := pre ++ inline_form a (uri rf) (title rf) ++ post) in *.
  rewrite !link_tokens_at_body, !link_run_shape.
  assert (Htail :
            Forall2 same_content
              (inner ++ Token EA (Iter s1 e1) (Iter s1 e1) :: rest1)
              (map (retarget_token s2) inner
               ++ Token EA (Iter s2 e2) (Iter s2 e2) :: rest2)).
  { apply Forall2_app.
    - apply (@inside_same_contents s1 s2 (wsize pre)
               (wsize pre + wsize a + 1)); try assumption; lia.
    - constructor; [|exact Hrest].
      split; [reflexivity|]. cbn [cbegin cend].
      split; [split; cbn [str idx]; [lia | intros k Hk; lia]|].
      unfold slice. cbn [idx]. rewrite !Z.sub_diag. reflexivity. }
  unfold reference_attribute.
  destruct (title rf) as [|c t'] eqn:Et; cbn [is_empty negb app].
  - rewrite print_inline_link_head_untitled, print_inline_link_head.
    rewrite (link_head_output_same output Hsu Hst).
    apply print_inline_same. exact Htail.
  - rewrite !print_inline_link_head.
    rewrite (link_head_output_same output Hsu Hst).
    apply print_inline_same. exact Htail.
Qed.





Lemma render_inline_mono fuel fuel' dict src output r :
  (fuel <= fuel')%nat ->
  render_inline fuel dict src output = Some r ->
  render_inline fuel' dict src output = Some r.
Proof.
  unfold render_inline. intros Hle H.
  destruct (parse_inline fuel src [] dict) as [toks|] eqn:E; [|discriminate].
  rewrite (@parse_inline_mono fuel fuel' src [] dict toks Hle E). exact H.
Qed.


(** C6 (what the conditions rule out). With the target [x] and the title
    [t`u] the link text [a`c] starts a code span that ends in the title of
    the inline form; with the title [t>u] the link text [a<c] starts a
    bracketed text that ends there; the link texts [a]c], [a\] and the
    empty one are not the text of a link in either form; the empty target
    is printed as a space; the target [<x>] loses its brackets between
    parentheses, the target that ends in a space loses that space, and a
    target with a double quote after a space is cut there, where the title
    begins. *)
Lemma reference_link_conditions :
  let differ (a : wstring) (rf : reflink_type) :=
    exists out1 out2 : ostream,
      (forall fuel : nat, (60 <= fuel)%nat ->
         render_inline fuel [(L "b", rf)] (reference_form a (L "b")) []
         = Some out1
         /\ render_inline fuel [(L "b", rf)]
              (inline_form a (uri rf) (title rf)) [] = Some out2)
      /\ out1 <> out2 in
  differ (L "a`c") (Reflink (L "b") (L "x") (L "t`u"))
  /\ differ (L "a<c") (Reflink (L "b") (L "x") (L "t>u"))
  /\ differ (L "a]c") (Reflink (L "b") (L "x") (L "t"))
  /\ differ (L "a\") (Reflink (L "b") (L "x") (L "t"))
  /\ differ [] (Reflink (L "b") (L "x") (L "t"))
  /\ differ (L "a") (Reflink (L "b") [] (L "t"))
  /\ differ (L "a") (Reflink (L "b") (L "<x>") (L "t"))
  /\ differ (L "a") (Reflink (L "b") (L "x ") (L "t"))
  /\ differ (L "a") (Reflink (L "b") (L "x " ++ [DQUOTE] ++ L "y") (L "t")).
Proof.
  cbv zeta.
  repeat match goal with |- _ /\ _ => split end;
    (eexists; eexists; split;
     [ intros fuel Hle; split;
       apply render_inline_mono with (fuel := 60%nat);
       try exact Hle; vm_compute; reflexivity
     | vm_compute; intros E; discriminate E ]).
Qed.

(** ** C1: determinism *)

(** The block parser reads through [end ()] when a block runs to the end
    of the lines: for the token that closes the block.  Whatever such a
    read yields, it is the same iterator twice, in a token that the output
    builder prints by its kind alone. *)

Lemma same_token_refl t : same_token t t.
Proof. left. reflexivity. Qed.

Lemma same_tokens_refl ts : same_tokens ts ts.
Proof. induction ts; constructor; [apply same_token_refl | assumption]. Qed.

Lemma same_token_kind t t' : same_token t t' -> kind t' = kind t.
Proof. intros [-> | (H & _)]; [reflexivity | symmetry; exact H]. Qed.

(** Tokens that are not block markers are the same in both runs. *)
Lemma same_token_real t t' :
  same_token t t' -> kind_leb HRULE (kind t) = false -> t' = t.
Proof.
  intros [-> | (_ & H & _)] Hk; [reflexivity|]. rewrite H in Hk. discriminate.
Qed.

Lemma same_token_marker K x y :
  kind_leb HRULE K = true -> same_token (Token K x x) (Token K y y).
Proof. intros H. right. cbn. auto. Qed.

Lemma same_tokens_push out out' t t' :
  same_tokens out out' -> same_token t t' ->
  same_tokens (push_back out t) (push_back out' t').
Proof.
  intros Ho Ht. unfold push_back. apply Forall2_app; [exact Ho|].
  constructor; [exact Ht | constructor].
Qed.

Lemma same_tokens_push_same out out' t :
  same_tokens out out' -> same_tokens (push_back out t) (push_back out' t).
Proof. intros Ho. apply same_tokens_push; [exact Ho | apply same_token_refl]. Qed.

Lemma same_tokens_dol ts ts' : same_tokens ts ts' -> dol_of ts' = dol_of ts.
Proof.
  intros H. unfold dol_of. f_equal. symmetry. exact (Forall2_length H).
Qed.

Lemma same_tokens_nth ts ts' :
  same_tokens ts ts' ->
  forall (i : nat) d d', (i < List.length ts)%nat ->
    same_token (nth i ts d) (nth i ts' d').
Proof.
  induction 1 as [|t t' ts ts' Ht Hts IH]; intros i d d' Hi; cbn in Hi; [lia|].
  destruct i as [|i]; cbn [nth]; [exact Ht|]. apply IH. lia.
Qed.

Lemma kind_eqb_eq a b : kind_eqb a b = true -> b = a.
Proof.
  unfold kind_eqb. intros H. apply Z.eqb_eq in H.
  destruct a; destruct b; try reflexivity; discriminate H.
Qed.

Lemma kind_eqb_refl a : kind_eqb a a = true.
Proof. apply Z.eqb_refl. Qed.

Section PastEnd.

Variables pe pe' : token_type.

Lemma tok_same input input' i :
  same_tokens input input' -> 0 <= i < dol_of input ->
  same_token (tok pe input i) (tok pe' input' i).
Proof.
  intros Hin Hi. unfold tok, dol_of in *.
  replace (i <? 0) with false by (symmetry; apply Z.ltb_ge; lia).
  apply same_tokens_nth; [exact Hin | lia].
Qed.

Lemma tok_same_kind input input' i :
  same_tokens input input' -> 0 <= i < dol_of input ->
  kind (tok pe' input' i) = kind (tok pe input i).
Proof. intros Hin Hi. apply same_token_kind, tok_same; assumption. Qed.

Lemma tok_same_line input input' i K :
  same_tokens input input' -> 0 <= i < dol_of input ->
  kind (tok pe input i) = K -> kind_leb HRULE K = false ->
  tok pe' input' i = tok pe input i.
Proof.
  intros Hin Hi HK Hreal. apply same_token_real.
  - apply tok_same; assumption.
  - rewrite HK. exact Hreal.
Qed.

Lemma same_result_weaken lo hi lo' hi' r r' :
  same_result lo hi r r' -> lo' <= lo -> hi <= hi' -> same_result lo' hi' r r'.
Proof. intros (Hf & Hr & Hs) Hlo Hhi. split; [exact Hf|]. split; [lia | exact Hs]. Qed.

Lemma scan_tab_not_empty x : scan_tab_not x x = x.
Proof. unfold scan_tab_not, scan_of. apply scan_of_pred_at_end. lia. Qed.

Create HintDb same.
#[local] Hint Resolve same_tokens_push same_tokens_push_same same_token_refl
  same_tokens_refl same_token_marker : same.

Ltac split_if :=
  match goal with
  | |- context [if ?c then _ else _] => destruct c eqn:?
  end; cbv iota.

Ltac same_done :=
  split; [reflexivity | split; [cbn [fst]; lia | cbn [snd]; auto 8 with same]].

Lemma skip_kind_same K :
  forall (k : nat) input input' line1,
    same_tokens input input' -> 0 <= line1 ->
    line1 + Z.of_nat k <= dol_of input ->
    skip_kind pe' k K input' line1 = skip_kind pe k K input line1.
Proof.
  induction k as [|k IH]; intros input input' line1 Hin H0 Hk;
    cbn [skip_kind]; [reflexivity|].
  rewrite (@tok_same_kind input input' line1 Hin) by lia.
  destruct (kind_eqb K _); [apply IH; try assumption; lia | reflexivity].
Qed.

Lemma skip_kind_range p K :
  forall (k : nat) input line1,
    line1 <= skip_kind p k K input line1 <= line1 + Z.of_nat k.
Proof.
  induction k as [|k IH]; intros input line1; cbn [skip_kind]; [lia|].
  destruct (kind_eqb _ _); [specialize (IH input (line1 + 1)); lia | lia].
Qed.

Lemma skip_kind_kinds p K :
  forall (k : nat) input line1 i,
    line1 <= i < skip_kind p k K input line1 -> kind (tok p input i) = K.
Proof.
  induction k as [|k IH]; intros input line1 i Hi; cbn [skip_kind] in Hi;
    [lia|].
  destruct (kind_eqb K (kind (tok p input line1))) eqn:E; [|lia].
  destruct (Z.eq_dec i line1) as [-> | Hne].
  - apply kind_eqb_eq. exact E.
  - apply (IH input (line1 + 1)). lia.
Qed.

Lemma parse_blank_same input input' dot :
  same_tokens input input' -> 0 <= dot <= dol_of input ->
  parse_blank pe' input' dot (dol_of input)
  = parse_blank pe input dot (dol_of input).
Proof.
  intros Hin Hd. unfold parse_blank. apply skip_kind_same; [exact Hin | lia | lia].
Qed.

Lemma parse_blank_range p input dot dol :
  dot <= dol -> dot <= parse_blank p input dot dol <= dol.
Proof.
  intros Hd. unfold parse_blank.
  pose proof (skip_kind_range p BLANK (Z.to_nat (dol - dot)) input dot). lia.
Qed.

Lemma parse_hrule_same input input' dot dol output output' :
  tok pe' input' dot = tok pe input dot -> same_tokens output output' ->
  dot < dol ->
  same_result dot dol (parse_hrule pe input dot dol output)
    (parse_hrule pe' input' dot dol output').
Proof.
  intros Ht Hout Hlt. unfold parse_hrule. rewrite Ht. cbv zeta.
  split_if; same_done.
Qed.

Lemma parse_seheading_same input input' dot output output' :
  same_tokens input input' -> tok pe' input' dot = tok pe input dot ->
  same_tokens output output' -> 0 <= dot < dol_of input ->
  same_result dot (dol_of input)
    (parse_seheading pe input dot (dol_of input) output)
    (parse_seheading pe' input' dot (dol_of input) output').
Proof.
  intros Hin Ht Hout Hd. unfold parse_seheading. rewrite Ht. cbv zeta.
  destruct (dot + 1 =? dol_of input) eqn:E; cbv iota; [same_done|].
  apply Z.eqb_neq in E.
  split_if; [same_done|].
  destruct (@tok_same input input' (dot + 1) Hin ltac:(lia))
    as [Heq | (Hk & Hm & Hz & Hz')].
  - rewrite <- Heq. split_if; [same_done|]. split_if; same_done.
  - rewrite Hz, Hz', !scan_tab_not_empty.
    replace (cend (tok pe input (dot + 1)) <! cend (tok pe input (dot + 1)))
      with false by (symmetry; apply Z.ltb_irrefl).
    replace (cend (tok pe' input' (dot + 1))
               <! cend (tok pe' input' (dot + 1)))
      with false by (symmetry; apply Z.ltb_irrefl).
    cbn [andb negb]. cbv iota. same_done.
Qed.

Lemma parse_atxheading_same input input' dot dol output output' :
  tok pe' input' dot = tok pe input dot -> same_tokens output output' ->
  dot < dol ->
  same_result dot dol (parse_atxheading pe input dot dol output)
    (parse_atxheading pe' input' dot dol output').
Proof.
  intros Ht Hout Hlt. unfold parse_atxheading. rewrite Ht. cbv zeta.
  split_if; [same_done|]. split_if; same_done.
Qed.

Lemma parse_listitem_loop_same :
  forall (k : nat) input input' line1 output output',
    same_tokens input input' -> same_tokens output output' ->
    0 <= line1 -> line1 + Z.of_nat k <= dol_of input ->
    same_result line1 (line1 + Z.of_nat k)
      (parse_listitem_loop pe k input line1 output)
      (parse_listitem_loop pe' k input' line1 output').
Proof.
  induction k as [|k IH]; intros input input' line1 output output'
    Hin Hout H0 Hk; cbn [parse_listitem_loop]; [same_done|]. cbv zeta.
  rewrite (@tok_same_kind input input' line1 Hin) by lia.
  destruct (kind_eqb LINE (kind (tok pe input line1))) eqn:EL; cbv iota;
    [|same_done].
  rewrite (@tok_same_line input input' line1 LINE Hin ltac:(lia)
             (kind_eqb_eq _ _ EL) eq_refl).
  split_if; [same_done|].
  eapply same_result_weaken; [apply IH | lia | lia]; auto with same; lia.
Qed.

Lemma parse_listitem_same input input' dot output output' :
  same_tokens input input' -> tok pe' input' dot = tok pe input dot ->
  same_tokens output output' -> 0 <= dot < dol_of input ->
  same_result dot (dol_of input)
    (parse_listitem pe input dot (dol_of input) output)
    (parse_listitem pe' input' dot (dol_of input) output').
Proof.
  intros Hin Ht Hout Hd. unfold parse_listitem. rewrite Ht. cbv zeta.
  split_if; [same_done|].
  eapply same_result_weaken; [apply parse_listitem_loop_same | lia | lia];
    auto with same; lia.
Qed.

Lemma parse_paragraph_loop_same :
  forall (k : nat) input input' line1 output output',
    same_tokens input input' -> same_tokens output output' ->
    0 <= line1 -> line1 + Z.of_nat k <= dol_of input ->
    same_result line1 (line1 + Z.of_nat k)
      (parse_paragraph_loop pe k input line1 output)
      (parse_paragraph_loop pe' k input' line1 output').
Proof.
  induction k as [|k IH]; intros input input' line1 output output'
    Hin Hout H0 Hk; cbn [parse_paragraph_loop]; [same_done|]. cbv zeta.
  rewrite (@tok_same_kind input input' line1 Hin) by lia.
  destruct (kind_eqb LINE (kind (tok pe input line1))) eqn:EL; cbv iota;
    [|same_done].
  rewrite (@tok_same_line input input' line1 LINE Hin ltac:(lia)
             (kind_eqb_eq _ _ EL) eq_refl).
  eapply same_result_weaken; [apply IH | lia | lia]; auto with same; lia.
Qed.

Lemma parse_paragraph_same input input' dot output output' :
  same_tokens input input' -> tok pe' input' dot = tok pe input dot ->
  same_tokens output output' -> 0 <= dot < dol_of input ->
  same_result dot (dol_of input)
    (parse_paragraph pe input dot (dol_of input) output)
    (parse_paragraph pe' input' dot (dol_of input) output').
Proof.
  intros Hin Ht Hout Hd. unfold parse_paragraph. rewrite Ht. cbv zeta.
  split_if; [same_done|].
  match goal with
  | |- context [parse_paragraph_loop pe ?k input ?l ?o] =>
      pose proof (@parse_paragraph_loop_same k input input' l o
                    (push_back
                       (push_back output'
                          (Token SPARAGRAPH
                             (scan_tab_not (cbegin (tok pe input dot))
                                (cend (tok pe input dot)))
                             (scan_tab_not (cbegin (tok pe input dot))
                                (cend (tok pe input dot)))))
                       (Token INLINE
                          (scan_tab_not (cbegin (tok pe input dot))
                             (cend (tok pe input dot)))
                          (cend (tok pe input dot))))
                    Hin ltac:(auto with same) ltac:(lia) ltac:(lia)) as H;
      destruct (parse_paragraph_loop pe k input l o) as [l1 o1]
  end.
  destruct (parse_paragraph_loop pe' _ _ _ _) as [l1' o1'].
  destruct H as (Hf & Hr & Hs). cbn [fst snd] in Hf, Hr, Hs. subst l1'.
  split; [reflexivity|]. split; [cbn [fst]; lia|]. cbn [snd].
  apply same_tokens_push; [exact Hs|]. apply same_token_marker. reflexivity.
Qed.

Lemma same_option_weaken lo hi lo' hi' o o' :
  same_option (same_result lo hi) o o' -> lo' <= lo -> hi <= hi' ->
  same_option (same_result lo' hi') o o'.
Proof.
  destruct o as [r|], o' as [r'|]; cbn [same_option]; try tauto.
  apply same_result_weaken.
Qed.

Lemma copy_lines_same f :
  forall (k : nat) input input' line1 output output',
    same_tokens output output' ->
    (forall i, line1 <= i < line1 + Z.of_nat k ->
       same_token (f (tok pe input i)) (f (tok pe' input' i))) ->
    same_tokens (copy_lines pe k f input line1 output)
      (copy_lines pe' k f input' line1 output').
Proof.
  induction k as [|k IH]; intros input input' line1 output output' Hout Hf;
    cbn [copy_lines]; [exact Hout|].
  apply IH.
  - apply same_tokens_push; [exact Hout | apply Hf; lia].
  - intros i Hi. apply Hf. lia.
Qed.

(** The lines that [parse_blank] skips are BLANK tokens: the same in both
    runs. *)
Lemma blank_lines_same input input' dot i :
  same_tokens input input' -> 0 <= dot <= dol_of input ->
  dot <= i < parse_blank pe input dot (dol_of input) ->
  tok pe' input' i = tok pe input i.
Proof.
  intros Hin Hd Hi.
  pose proof (@parse_blank_range pe input dot (dol_of input) ltac:(lia)) as Hr.
  apply (@tok_same_line input input' i BLANK Hin); [lia | | reflexivity].
  apply (@skip_kind_kinds pe BLANK (Z.to_nat (dol_of input - dot)) input dot).
  exact Hi.
Qed.

Lemma parse_tabcode_line_same input input' dot dol output output' :
  tok pe' input' dot = tok pe input dot -> same_tokens output output' ->
  dot < dol ->
  same_result dot dol (parse_tabcode_line pe input dot dol output)
    (parse_tabcode_line pe' input' dot dol output').
Proof.
  intros Ht Hout Hlt. unfold parse_tabcode_line. rewrite Ht. cbv zeta.
  split_if; same_done.
Qed.

Lemma parse_tabcode_blank_same input input' dot output output' :
  same_tokens input input' -> same_tokens output output' ->
  0 <= dot <= dol_of input ->
  same_result dot (dol_of input)
    (parse_tabcode_blank pe input dot (dol_of input) output)
    (parse_tabcode_blank pe' input' dot (dol_of input) output').
Proof.
  intros Hin Hout Hd. unfold parse_tabcode_blank.
  rewrite (parse_blank_same Hin) by lia. cbv zeta.
  pose proof (@parse_blank_range pe input dot (dol_of input) ltac:(lia)) as Hr.
  pose proof (@blank_lines_same input input' dot) as Hbl.
  set (line2 := parse_blank pe input dot (dol_of input)) in *.
  destruct (line2 =? dol_of input) eqn:E; cbn [negb andb]; cbv iota;
    [same_done|].
  apply Z.eqb_neq in E.
  rewrite (@tok_same_kind input input' line2 Hin) by lia.
  destruct (kind_eqb LINE (kind (tok pe input line2))) eqn:EL; cbn [negb];
    cbv iota; [|same_done].
  rewrite (@tok_same_line input input' line2 LINE Hin ltac:(lia)
             (kind_eqb_eq _ _ EL) eq_refl).
  split_if; [same_done|].
  split; [reflexivity|]. split; [cbn [fst]; lia|]. cbn [snd].
  apply copy_lines_same; [exact Hout|].
  intros i Hi. rewrite Z2Nat.id in Hi by lia.
  rewrite (Hbl i Hin Hd) by lia. apply same_token_refl.
Qed.

Lemma parse_tabcode_while_same :
  forall (fuel : nat) input input' line1 output output',
    same_tokens input input' -> same_tokens output output' ->
    0 <= line1 <= dol_of input ->
    same_option (same_result line1 (dol_of input))
      (parse_tabcode_while pe fuel input line1 (dol_of input) output)
      (parse_tabcode_while pe' fuel input' line1 (dol_of input) output').
Proof.
  induction fuel as [|fuel IH]; intros input input' line1 output output'
    Hin Hout Hd; cbn [parse_tabcode_while]; [exact I|].
  destruct (line1 =? dol_of input) eqn:E; cbn [negb]; cbv iota;
    [cbn [same_option]; same_done|].
  apply Z.eqb_neq in E. cbv zeta.
  rewrite (@tok_same_kind input input' line1 Hin) by lia.
  match goal with
  | |- same_option _ (match ?X with _ => _ end) (match ?Y with _ => _ end) =>
      assert (Hsub : same_result line1 (dol_of input) X Y)
  end.
  { destruct (kind_eqb LINE (kind (tok pe input line1))) eqn:EL.
    - apply parse_tabcode_line_same; [|exact Hout | lia].
      apply (@tok_same_line input input' line1 LINE Hin ltac:(lia)
               (kind_eqb_eq _ _ EL) eq_refl).
    - destruct (kind_eqb BLANK (kind (tok pe input line1))).
      + apply parse_tabcode_blank_same; [exact Hin | exact Hout | lia].
      + same_done. }
  match goal with
  | |- same_option _ (match ?X with _ => _ end) (match ?Y with _ => _ end) =>
      destruct X as [l2 o2]; destruct Y as [l2' o2']
  end.
  destruct Hsub as (Hf & Hr & Hs). cbn [fst snd] in Hf, Hr, Hs. subst l2'.
  destruct (l2 =? line1); [cbn [same_option]; same_done|].
  eapply same_option_weaken; [apply IH | lia | lia]; try assumption. lia.
Qed.

Lemma parse_tabcode_same fuel input input' dot output output' :
  same_tokens input input' -> tok pe' input' dot = tok pe input dot ->
  same_tokens output output' -> 0 <= dot < dol_of input ->
  same_option (same_result dot (dol_of input))
    (parse_tabcode pe fuel input dot (dol_of input) output)
    (parse_tabcode pe' fuel input' dot (dol_of input) output').
Proof.
  intros Hin Ht Hout Hd. unfold parse_tabcode. rewrite Ht. cbv zeta.
  split_if; [cbn [same_option]; same_done|].
  match goal with
  | |- same_option _ (match ?X with _ => _ end) (match ?Y with _ => _ end) =>
      assert (Hsub : same_option (same_result (dot + 1) (dol_of input)) X Y)
        by (apply parse_tabcode_while_same; auto with same; lia);
      destruct X as [[l1 o1]|]; destruct Y as [[l1' o1']|];
      cbn [same_option] in Hsub; try contradiction; [|exact I]
  end.
  destruct Hsub as (Hf & Hr & Hs). cbn [fst snd] in Hf, Hr, Hs. subst l1'.
  cbn [same_option].
  split; [reflexivity|]. split; [cbn [fst]; lia|]. cbn [snd].
  apply same_tokens_push; [exact Hs|]. apply same_token_marker. reflexivity.
Qed.

Lemma parse_blockquote_line_same input input' dot dol block block' lazyline :
  tok pe' input' dot = tok pe input dot -> same_tokens block block' ->
  dot < dol ->
  same_result dot dol
    (fst (parse_blockquote_line pe input dot dol block lazyline))
    (fst (parse_blockquote_line pe' input' dot dol block' lazyline))
  /\ snd (parse_blockquote_line pe' input' dot dol block' lazyline)
     = snd (parse_blockquote_line pe input dot dol block lazyline).
Proof.
  intros Ht Hout Hlt. unfold parse_blockquote_line. rewrite Ht. cbv zeta.
  cbn [fst snd]. split; [|reflexivity].
  repeat split_if; same_done.
Qed.

Lemma parse_blockquote_blank_same input input' dot block block' lazyline :
  same_tokens input input' -> same_tokens block block' ->
  0 <= dot <= dol_of input ->
  same_result dot (dol_of input)
    (fst (parse_blockquote_blank pe input dot (dol_of input) block lazyline))
    (fst (parse_blockquote_blank pe' input' dot (dol_of input) block'
            lazyline))
  /\ snd (parse_blockquote_blank pe' input' dot (dol_of input) block'
            lazyline)
     = snd (parse_blockquote_blank pe input dot (dol_of input) block lazyline).
Proof.
  intros Hin Hout Hd. unfold parse_blockquote_blank.
  rewrite (parse_blank_same Hin) by lia. cbv zeta.
  pose proof (@parse_blank_range pe input dot (dol_of input) ltac:(lia)) as Hr.
  pose proof (@blank_lines_same input input' dot) as Hbl.
  set (line2 := parse_blank pe input dot (dol_of input)) in *.
  destruct (line2 =? dol_of input) eqn:E; cbn [negb andb]; cbv iota;
    [split; [same_done | reflexivity]|].
  apply Z.eqb_neq in E.
  rewrite (@tok_same_kind input input' line2 Hin) by lia.
  destruct (kind_eqb LINE (kind (tok pe input line2))) eqn:EL; cbn [negb];
    cbv iota; [|split; [same_done | reflexivity]].
  rewrite (@tok_same_line input input' line2 LINE Hin ltac:(lia)
             (kind_eqb_eq _ _ EL) eq_refl).
  split_if; [split; [same_done | reflexivity]|].
  cbn [fst snd]. split; [|reflexivity].
  split; [reflexivity|]. split; [cbn [fst]; lia|]. cbn [snd].
  apply copy_lines_same; [exact Hout|].
  intros i Hi. rewrite Z2Nat.id in Hi by lia.
  rewrite (Hbl i Hin Hd) by lia. apply same_token_refl.
Qed.

Lemma parse_blockquote_while_same :
  forall (fuel : nat) input input' line1 block block' lazyline,
    same_tokens input input' -> same_tokens block block' ->
    0 <= line1 <= dol_of input ->
    same_option (same_result line1 (dol_of input))
      (parse_blockquote_while pe fuel input line1 (dol_of input) block
         lazyline)
      (parse_blockquote_while pe' fuel input' line1 (dol_of input) block'
         lazyline).
Proof.
  induction fuel as [|fuel IH]; intros input input' line1 block block'
    lazyline Hin Hout Hd; cbn [parse_blockquote_while]; [exact I|].
  destruct (line1 =? dol_of input) eqn:E; cbn [negb]; cbv iota;
    [cbn [same_option]; same_done|].
  apply Z.eqb_neq in E. cbv zeta.
  rewrite (@tok_same_kind input input' line1 Hin) by lia.
  match goal with
  | |- same_option _ (match ?X with _ => _ end) (match ?Y with _ => _ end) =>
      assert (Hsub : same_result line1 (dol_of input) (fst X) (fst Y)
                     /\ snd Y = snd X)
  end.
  { destruct (kind_eqb LINE (kind (tok pe input line1))) eqn:EL.
    - apply parse_blockquote_line_same; [|exact Hout | lia].
      apply (@tok_same_line input input' line1 LINE Hin ltac:(lia)
               (kind_eqb_eq _ _ EL) eq_refl).
    - destruct (kind_eqb BLANK (kind (tok pe input line1))).
      + apply parse_blockquote_blank_same; [exact Hin | exact Hout | lia].
      + split; [same_done | reflexivity]. }
  match goal with
  | |- same_option _ (match ?X with _ => _ end) (match ?Y with _ => _ end) =>
      destruct X as [[l2 o2] z2]; destruct Y as [[l2' o2'] z2']
  end.
  destruct Hsub as ((Hf & Hr & Hs) & Hz). cbn [fst snd] in Hf, Hr, Hs, Hz.
  subst l2' z2'.
  destruct (l2 =? line1); [cbn [same_option]; same_done|].
  eapply same_option_weaken; [apply IH | lia | lia]; try assumption. lia.
Qed.

Lemma parse_list_line_same input input' dot dol block block' indicator :
  tok pe' input' dot = tok pe input dot -> same_tokens block block' ->
  dot < dol ->
  same_result dot dol (parse_list_line pe input dot dol block indicator)
    (parse_list_line pe' input' dot dol block' indicator).
Proof.
  intros Ht Hout Hlt. unfold parse_list_line. rewrite Ht. cbv zeta.
  split_if; same_done.
Qed.

Lemma parse_list_blank_same input input' dot block block' indicator :
  same_tokens input input' -> same_tokens block block' ->
  0 <= dot <= dol_of input ->
  same_result dot (dol_of input)
    (parse_list_blank pe input dot (dol_of input) block indicator)
    (parse_list_blank pe' input' dot (dol_of input) block' indicator).
Proof.
  intros Hin Hout Hd. unfold parse_list_blank.
  rewrite (parse_blank_same Hin) by lia. cbv zeta.
  pose proof (@parse_blank_range pe input dot (dol_of input) ltac:(lia)) as Hr.
  pose proof (@blank_lines_same input input' dot) as Hbl.
  set (line2 := parse_blank pe input dot (dol_of input)) in *.
  destruct (line2 =? dol_of input) eqn:E; cbn [negb andb]; cbv iota;
    [same_done|].
  apply Z.eqb_neq in E.
  rewrite (@tok_same_kind input input' line2 Hin) by lia.
  destruct (kind_eqb LINE (kind (tok pe input line2))) eqn:EL; cbn [negb];
    cbv iota; [|same_done].
  rewrite (@tok_same_line input input' line2 LINE Hin ltac:(lia)
             (kind_eqb_eq _ _ EL) eq_refl).
  split_if; [same_done|]. split_if; [|split_if; same_done].
  split; [reflexivity|]. split; [cbn [fst]; lia|]. cbn [snd].
  apply copy_lines_same; [exact Hout|].
  intros i Hi. rewrite Z2Nat.id in Hi by lia.
  rewrite (Hbl i Hin Hd) by lia. apply same_token_refl.
Qed.

Lemma parse_list_while_same :
  forall (fuel : nat) input input' line1 block block' indicator,
    same_tokens input input' -> same_tokens block block' ->
    0 <= line1 <= dol_of input ->
    same_option (same_result line1 (dol_of input))
      (parse_list_while pe fuel input line1 (dol_of input) block indicator)
      (parse_list_while pe' fuel input' line1 (dol_of input) block'
         indicator).
Proof.
  induction fuel as [|fuel IH]; intros input input' line1 block block'
    indicator Hin Hout Hd; cbn [parse_list_while]; [exact I|].
  destruct (line1 =? dol_of input) eqn:E; cbn [negb]; cbv iota;
    [cbn [same_option]; same_done|].
  apply Z.eqb_neq in E. cbv zeta.
  rewrite (@tok_same_kind input input' line1 Hin) by lia.
  match goal with
  | |- same_option _ (match ?X with _ => _ end) (match ?Y with _ => _ end) =>
      assert (Hsub : same_result line1 (dol_of input) X Y)
  end.
  { destruct (kind_eqb LINE (kind (tok pe input line1))) eqn:EL.
    - apply parse_list_line_same; [|exact Hout | lia].
      apply (@tok_same_line input input' line1 LINE Hin ltac:(lia)
               (kind_eqb_eq _ _ EL) eq_refl).
    - destruct (kind_eqb BLANK (kind (tok pe input line1))).
      + apply parse_list_blank_same; [exact Hin | exact Hout | lia].
      + same_done. }
  match goal with
  | |- same_option _ (match ?X with _ => _ end) (match ?Y with _ => _ end) =>
      destruct X as [l2 o2]; destruct Y as [l2' o2']
  end.
  destruct Hsub as (Hf & Hr & Hs). cbn [fst snd] in Hf, Hr, Hs. subst l2'.
  destruct (l2 =? line1); [cbn [same_option]; same_done|].
  eapply same_option_weaken; [apply IH | lia | lia]; try assumption. lia.
Qed.

Section Recur.

Variables recur recur' : tokens -> tokens -> option tokens.

Hypothesis recur_same :
  forall block block' out out',
    same_tokens block block' -> same_tokens out out' ->
    same_option same_tokens (recur block out) (recur' block' out').

Lemma parse_blockquote_same fuel input input' dot output output' :
  same_tokens input input' -> tok pe' input' dot = tok pe input dot ->
  same_tokens output output' -> 0 <= dot < dol_of input ->
  same_option (same_result dot (dol_of input))
    (parse_blockquote pe recur fuel input dot (dol_of input) output)
    (parse_blockquote pe' recur' fuel input' dot (dol_of input) output').
Proof.
  intros Hin Ht Hout Hd. unfold parse_blockquote. rewrite Ht. cbv zeta.
  split_if; [cbn [same_option]; same_done|].
  match goal with
  | |- same_option _ (match ?X with _ => _ end) (match ?Y with _ => _ end) =>
      assert (Hsub : same_option (same_result dot (dol_of input)) X Y)
        by (apply parse_blockquote_while_same; auto with same; lia);
      destruct X as [[l1 o1]|]; destruct Y as [[l1' o1']|];
      cbn [same_option] in Hsub; try contradiction; [|exact I]
  end.
  destruct Hsub as (Hf & Hr & Hs). cbn [fst snd] in Hf, Hr, Hs. subst l1'.
  match goal with
  | |- same_option _ (match ?X with _ => _ end) (match ?Y with _ => _ end) =>
      assert (Hrec : same_option same_tokens X Y);
      [|destruct X as [out|]; destruct Y as [out'|];
        cbn [same_option] in Hrec; try contradiction; [|exact I]]
  end.
  { apply recur_same; [|exact Hout].
    apply same_tokens_push; [exact Hs|]. apply same_token_marker.
    reflexivity. }
  cbn [same_option]. split; [reflexivity|]. split; [cbn [fst]; lia|].
  exact Hrec.
Qed.

Lemma parse_list_same fuel input input' dot output output' :
  same_tokens input input' -> tok pe' input' dot = tok pe input dot ->
  same_tokens output output' -> 0 <= dot < dol_of input ->
  same_option (same_result dot (dol_of input))
    (parse_list pe recur fuel input dot (dol_of input) output)
    (parse_list pe' recur' fuel input' dot (dol_of input) output').
Proof.
  intros Hin Ht Hout Hd. unfold parse_list. rewrite Ht. cbv zeta.
  split_if; [cbn [same_option]; same_done|].
  match goal with
  | |- same_option _ (match ?X with _ => _ end) (match ?Y with _ => _ end) =>
      assert (Hsub : same_option (same_result (dot + 1) (dol_of input)) X Y)
        by (apply parse_list_while_same; auto with same; lia);
      destruct X as [[l1 o1]|]; destruct Y as [[l1' o1']|];
      cbn [same_option] in Hsub; try contradiction; [|exact I]
  end.
  destruct Hsub as (Hf & Hr & Hs). cbn [fst snd] in Hf, Hr, Hs. subst l1'.
  match goal with
  | |- same_option _ (match ?X with _ => _ end) (match ?Y with _ => _ end) =>
      assert (Hrec : same_option same_tokens X Y);
      [|destruct X as [out|]; destruct Y as [out'|];
        cbn [same_option] in Hrec; try contradiction; [|exact I]]
  end.
  { apply recur_same; [|exact Hout].
    apply same_tokens_push;
      [apply same_tokens_push; [exact Hs|] |];
      apply same_token_marker; [reflexivity|].
    destruct (ch "." =? _); reflexivity. }
  cbn [same_option]. split; [reflexivity|]. split; [cbn [fst]; lia|].
  exact Hrec.
Qed.

End Recur.

(** One alternative of [parse_block] that cannot run out of fuel: where it
    stops and what it has emitted are the same in both runs. *)
Ltac alternative lem :=
  match goal with
  | |- same_option _ (match ?X with _ => _ end) (match ?Y with _ => _ end) =>
      let H := fresh "Hsub" in
      let d := fresh "d" in
      let o := fresh "o" in
      let d' := fresh "d'" in
      let o' := fresh "o'" in
      assert (H : same_result _ _ X Y) by (apply lem; auto with same; lia);
      destruct X as [d o]; destruct Y as [d' o'];
      destruct H as (?Hf & ?Hr & ?Hs); cbn [fst snd] in *; subst d'
  end.

(** One alternative that can. *)
Ltac fallible_alternative lem :=
  match goal with
  | |- same_option _ (match ?X with _ => _ end) (match ?Y with _ => _ end) =>
      let H := fresh "Hsub" in
      let d := fresh "d" in
      let o := fresh "o" in
      let d' := fresh "d'" in
      let o' := fresh "o'" in
      assert (H : same_option (same_result _ _) X Y)
        by (apply lem; auto with same; lia);
      destruct X as [[d o]|]; destruct Y as [[d' o']|];
      cbn [same_option] in H; try contradiction; [|exact I];
      destruct H as (?Hf & ?Hr & ?Hs); cbn [fst snd] in *; subst d'
  end.

Lemma parse_block_while_same :
  forall (fuel : nat) input input' dot listitem output output',
    same_tokens input input' -> same_tokens output output' ->
    0 <= dot <= dol_of input ->
    same_option same_tokens
      (parse_block_while pe fuel input dot listitem output)
      (parse_block_while pe' fuel input' dot listitem output').
Proof.
  induction fuel as [|fuel IH]; intros input input' dot listitem output
    output' Hin Hout Hd; cbn [parse_block_while]; [exact I|].
  cbv zeta. rewrite (same_tokens_dol Hin).
  destruct (dot =? dol_of input) eqn:E; cbn [negb]; cbv iota;
    [exact Hout|].
  apply Z.eqb_neq in E.
  assert (Hrecur : forall block block' out out',
            same_tokens block block' -> same_tokens out out' ->
            same_option same_tokens
              (parse_block_while pe fuel block 0 false out)
              (parse_block_while pe' fuel block' 0 false out')).
  { intros block block' out out' Hb Ho. apply IH; [exact Hb | exact Ho|].
    unfold dol_of. lia. }
  rewrite (@tok_same_kind input input' dot Hin) by lia.
  destruct (kind_eqb LINE (kind (tok pe input dot))) eqn:EL; cbv iota.
  2:{ apply IH; [exact Hin | | lia]. apply same_tokens_push; [exact Hout|].
      apply tok_same; [exact Hin | lia]. }
  assert (Ht : tok pe' input' dot = tok pe input dot)
    by apply (@tok_same_line input input' dot LINE Hin ltac:(lia)
                (kind_eqb_eq _ _ EL) eq_refl).
  alternative parse_hrule_same.
  destruct (d =? dot) eqn:E1; cbn [negb]; cbv iota;
    [apply Z.eqb_eq in E1; subst d | apply IH; [exact Hin | exact Hs | lia]].
  fallible_alternative parse_tabcode_same.
  destruct (d =? dot) eqn:E2; cbn [negb]; cbv iota;
    [apply Z.eqb_eq in E2; subst d | apply IH; [exact Hin | assumption | lia]].
  fallible_alternative (@parse_blockquote_same _ _ Hrecur).
  destruct (d =? dot) eqn:E3; cbn [negb]; cbv iota;
    [apply Z.eqb_eq in E3; subst d | apply IH; [exact Hin | assumption | lia]].
  alternative parse_atxheading_same.
  destruct (d =? dot) eqn:E4; cbn [negb]; cbv iota;
    [apply Z.eqb_eq in E4; subst d | apply IH; [exact Hin | assumption | lia]].
  fallible_alternative (@parse_list_same _ _ Hrecur).
  destruct (d =? dot) eqn:E5; cbn [negb]; cbv iota;
    [apply Z.eqb_eq in E5; subst d | apply IH; [exact Hin | assumption | lia]].
  alternative parse_seheading_same.
  destruct (d =? dot) eqn:E6; cbn [negb]; cbv iota;
    [apply Z.eqb_eq in E6; subst d | apply IH; [exact Hin | assumption | lia]].
  match goal with
  | |- same_option _ (match ?X with _ => _ end) (match ?Y with _ => _ end) =>
      assert (Hsub : same_result dot (dol_of input) X Y)
        by (destruct (if kind_eqb SLITEM _ then true else listitem);
            [apply parse_listitem_same | apply parse_paragraph_same];
            auto with same; lia);
      destruct X as [dl ol]; destruct Y as [dl' ol'];
      destruct Hsub as (Hfl & Hrl & Hsl); cbn [fst snd] in *; subst dl'
  end.
  destruct (dot =? dl) eqn:E7; cbv iota.
  - apply Z.eqb_eq in E7. subst dl. apply IH; [exact Hin | | lia].
    apply same_tokens_push; [assumption|]. apply tok_same; [exact Hin | lia].
  - apply IH; [exact Hin | assumption | lia].
Qed.

Lemma parse_block_same fuel input output :
  same_option same_tokens (parse_block pe fuel input output)
    (parse_block pe' fuel input output).
Proof.
  unfold parse_block.
  apply parse_block_while_same; try apply same_tokens_refl.
  unfold dol_of. lia.
Qed.

End PastEnd.

(** The output builder reads the iterators of HTML, CODE and INLINE tokens
    only: it writes the same for the tokens of both runs. *)
Lemma tk_same input input' i :
  same_tokens input input' -> same_token (tk input i) (tk input' i).
Proof.
  intros Hin. unfold tk, tok. destruct (i <? 0); [apply same_token_refl|].
  destruct (Nat.lt_ge_cases (Z.to_nat i) (List.length input)) as [Hlt | Hge].
  - apply same_tokens_nth; assumption.
  - rewrite !nth_overflow; [apply same_token_refl | | exact Hge].
    rewrite <- (Forall2_length Hin). exact Hge.
Qed.

Lemma tk_same_kind input input' i :
  same_tokens input input' -> kind (tk input' i) = kind (tk input i).
Proof. intros Hin. apply same_token_kind, tk_same, Hin. Qed.

Lemma tk_same_real input input' i :
  same_tokens input input' -> kind_leb HRULE (kind (tk input i)) = false ->
  tk input' i = tk input i.
Proof. intros Hin Hk. apply same_token_real; [apply tk_same, Hin | exact Hk]. Qed.

Lemma skip_kind_tk_same K input input' :
  same_tokens input input' ->
  forall (k : nat) line1,
    skip_kind null_token k K input' line1 = skip_kind null_token k K input line1.
Proof.
  intros Hin. induction k as [|k IH]; intros line1; cbn [skip_kind];
    [reflexivity|].
  fold (tk input' line1). fold (tk input line1).
  rewrite (tk_same_kind line1 Hin), IH. reflexivity.
Qed.

Lemma print_code_lines_same input input' :
  same_tokens input input' ->
  forall (k : nat) dot output,
    print_code_lines k input' dot output = print_code_lines k input dot output.
Proof.
  intros Hin. induction k as [|k IH]; intros dot output;
    cbn [print_code_lines]; [reflexivity|]. cbv zeta.
  rewrite (tk_same_kind dot Hin), (tk_same_kind (dot + 1) Hin),
    (same_tokens_dol Hin).
  destruct (kind_eqb CODE (kind (tk input dot))) eqn:EC; [|reflexivity].
  rewrite (@tk_same_real input input' dot Hin)
    by (rewrite (kind_eqb_eq _ _ EC); reflexivity).
  apply IH.
Qed.

Lemma gather_inline_same input input' :
  same_tokens input input' ->
  forall (k : nat) dot src,
    gather_inline k input' dot src = gather_inline k input dot src.
Proof.
  intros Hin. induction k as [|k IH]; intros dot src;
    cbn [gather_inline]; [reflexivity|]. cbv zeta.
  rewrite (tk_same_kind dot Hin).
  destruct (kind_eqb INLINE (kind (tk input dot))) eqn:EC; [|reflexivity].
  rewrite (@tk_same_real input input' dot Hin)
    by (rewrite (kind_eqb_eq _ _ EC); reflexivity).
  apply IH.
Qed.

Lemma print_block_while_same dict input input' :
  same_tokens input input' ->
  forall (fuel : nat) dot output,
    print_block_while fuel input' dot output dict
    = print_block_while fuel input dot output dict.
Proof.
  intros Hin. induction fuel as [|fuel IH]; intros dot output;
    cbn [print_block_while]; [reflexivity|]. cbv zeta.
  rewrite (same_tokens_dol Hin).
  destruct (dot <? dol_of input); [|reflexivity].
  rewrite (tk_same_kind dot Hin), (tk_same_kind (dot - 1) Hin),
    (skip_kind_tk_same _ Hin), (print_code_lines_same Hin),
    (gather_inline_same Hin).
  destruct (kind_eqb BLANK (kind (tk input dot))).
  { cbv beta iota. apply IH. }
  destruct (kind_leb HRULE (kind (tk input dot))) eqn:EH.
  { cbv beta iota. apply IH. }
  rewrite (@tk_same_real input input' dot Hin EH).
  match goal with
  | |- match ?X with _ => _ end = _ => destruct X as [[d o]|]; [|reflexivity]
  end.
  apply IH.
Qed.

Lemma print_block_same dict fuel input input' output :
  same_tokens input input' ->
  print_block fuel input' output dict = print_block fuel input output dict.
Proof.
  intros Hin. unfold print_block.
  rewrite (skip_kind_tk_same _ Hin), (same_tokens_dol Hin).
  apply print_block_while_same, Hin.
Qed.

(** What is read through [end ()] does not reach the output. *)
Lemma translate_past_end pe pe' fuel input :
  translate pe' fuel input = translate pe fuel input.
Proof.
  unfold translate, markdown.
  destruct (split_lines fuel input [] []) as [[pass1 dict]|]; [|reflexivity].
  pose proof (parse_block_same pe pe' fuel pass1 []) as H.
  destruct (parse_block pe fuel pass1 []) as [pass2|],
           (parse_block pe' fuel pass1 []) as [pass2'|];
    cbn [same_option] in H; try contradiction; [|reflexivity].
  apply print_block_same, H.
Qed.

(** C1. Any two runs of translate on the same input that return, return
    the same output: the output depends on the input alone, not on how
    long a run is allowed to take and not on what the reads through
    [end ()] yield. *)
Theorem translate_deterministic pe1 pe2 fuel1 fuel2 input out1 out2 :
  translate pe1 fuel1 input = Some out1 ->
  translate pe2 fuel2 input = Some out2 ->
  out1 = out2.
Proof.
  intros H1 H2. rewrite (translate_past_end pe1 pe2) in H2.
  apply translate_mono with (fuel' := Nat.max fuel1 fuel2) in H1; [|lia].
  apply translate_mono with (fuel' := Nat.max fuel1 fuel2) in H2; [|lia].
  rewrite H1 in H2. injection H2 as H2. exact H2.
Qed.

Lemma translate_deterministic_witness :
  let input := L "> quote" ++ [NL] in
  let out := L "<blockquote>" ++ [NL] ++ L "<p>quote</p>" ++ [NL]
             ++ L "</blockquote>" ++ [NL] in
  let junk := Token LINE (cbegin_of (L "# junk")) (cend_of (L "# junk")) in
  translate null_token 40 input = Some out
  /\ translate junk 50 input = Some out
  /\ out = out.
Proof.
  cbv zeta.
  assert (H1 : translate null_token 40 (L "> quote" ++ [NL])
               = Some (L "<blockquote>" ++ [NL] ++ L "<p>quote</p>" ++ [NL]
                       ++ L "</blockquote>" ++ [NL]))
    by (vm_compute; reflexivity).
  assert (H2 : translate
                 (Token LINE (cbegin_of (L "# junk")) (cend_of (L "# junk")))
                 50 (L "> quote" ++ [NL])
               = Some (L "<blockquote>" ++ [NL] ++ L "<p>quote</p>" ++ [NL]
                       ++ L "</blockquote>" ++ [NL]))
    by (vm_compute; reflexivity).
  split; [exact H1|]. split; [exact H2|].
  exact (@translate_deterministic _ _ _ _ _ _ _ H1 H2).
Defined.

(** * Further properties of the code *)

(** ** The scanners *)

Lemma scan_of_loop_longest k pr pos n1 n2 :
  (n2 < 0 \/ n1 <= n2) ->
  forall p i,
    str p = str pos -> idx p = idx pos + i -> 0 <= i ->
    (n2 < 0 \/ i <= n2) ->
    exists j,
      fwd_run pr (str pos) (idx p) j
        (if n2 <? 0 then idx p + Z.of_nat k
         else Z.min (idx p + Z.of_nat k) (idx pos + n2))
      /\ scan_of_loop k pr pos p i n1 n2
         = if j - idx pos <? n1 then pos else Iter (str pos) j.
Proof.
  intros Hn. induction k as [|k IH]; intros p i Hs Hp Hi Hn2.
  - exists (idx p). split.
    + split; [destruct (Z.ltb_spec n2 0); lia|]. split; [intros m Hm; lia|].
      left. destruct (Z.ltb_spec n2 0); lia.
    + cbn [scan_of_loop]. replace (idx p - idx pos) with i by lia.
      rewrite <- Hs, iter_eta.
      destruct (Z.ltb_spec n2 0); cbn [orb]; [reflexivity|].
      destruct (Z.ltb_spec i n2); [reflexivity|].
      destruct (Z.ltb_spec i n1); [lia | reflexivity].
  - cbn [scan_of_loop].
    destruct ((n2 <? 0) || (i <? n2)) eqn:E.
    + destruct (pr (deref p)) eqn:Hpr.
      * assert (Hn2' : n2 < 0 \/ i + 1 <= n2)
          by (apply orb_prop in E as [E | E];
              [left; apply Z.ltb_lt in E | right; apply Z.ltb_lt in E]; lia).
        destruct (IH (p +! 1) (i + 1) Hs ltac:(cbn [iadd idx]; lia)
                    ltac:(lia) Hn2') as (j & Hrun & Hres).
        exists j. split; [|exact Hres].
        cbn [iadd str idx] in Hrun. destruct Hrun as (Hb & Hall & Hend).
        replace (idx p + 1 + Z.of_nat k) with (idx p + Z.of_nat (S k))
          in * by lia.
        split; [lia|]. split; [|exact Hend].
        intros m Hm. destruct (Z.eq_dec m (idx p)) as [-> | Hne].
        -- unfold deref in Hpr. rewrite <- Hs. exact Hpr.
        -- apply Hall. lia.
      * exists (idx p). split.
        -- split; [destruct (Z.ltb_spec n2 0); lia|].
           split; [intros m Hm; lia|]. right.
           unfold deref in Hpr. rewrite <- Hs. exact Hpr.
        -- replace (idx p - idx pos) with i by lia.
           rewrite <- Hs, iter_eta. reflexivity.
    + apply orb_false_elim in E as [E1 E2]. apply Z.ltb_ge in E1, E2.
      exists (idx p). split.
      * replace (n2 <? 0) with false by (symmetry; apply Z.ltb_ge; lia).
        split; [lia|]. split; [intros m Hm; lia|]. left. lia.
      * replace (idx p - idx pos) with i by lia.
        rewrite <- Hs, iter_eta.
        destruct (Z.ltb_spec i n1); [lia | reflexivity].
Qed.

(** X1. [scan_of (pos, eos, n1, n2, predicate)] returns the end of the
    longest run of characters that satisfy the predicate from [pos] on,
    cut at [eos] and, when [n2] is not negative, after [n2] characters;
    when that run has fewer than [n1] characters it returns [pos]. *)
Theorem scan_of_longest_run pos eos n1 n2 pr j :
  idx pos <= idx eos -> (n2 < 0 \/ (0 <= n2 /\ n1 <= n2)) ->
  fwd_run pr (str pos) (idx pos) j
    (if n2 <? 0 then idx eos else Z.min (idx eos) (idx pos + n2)) ->
  scan_of_pred pos eos n1 n2 pr
  = if j - idx pos <? n1 then pos else Iter (str pos) j.
Proof.
  intros Hle Hn Hrun. unfold scan_of_pred.
  destruct (@scan_of_loop_longest (dist pos eos) pr pos n1 n2
              ltac:(lia) pos 0 eq_refl ltac:(lia) ltac:(lia) ltac:(lia))
    as (j' & Hrun' & Hres).
  unfold dist in Hrun'. rewrite Z2Nat.id in Hrun' by lia.
  replace (idx pos + (idx eos - idx pos)) with (idx eos) in Hrun' by lia.
  rewrite Hres, (fwd_run_unique Hrun' Hrun). reflexivity.
Qed.

Lemma scan_of_longest_run_witness :
  let s := L "   - item" in
  scan_of (Iter s 0) (cend_of s) 0 3 (ch " ") = Iter s 3
  /\ scan_of (Iter s 3) (cend_of s) 2 (-1) (ch "-") = Iter s 3.
Proof.
  cbv zeta. split.
  - apply (@scan_of_longest_run (Iter (L "   - item") 0)
             (cend_of (L "   - item")) 0 3 (Z.eqb (ch " ")) 3).
    + cbn [idx cend_of]. vm_compute. discriminate.
    + right. lia.
    + apply fwd_run_b_ok. vm_compute. reflexivity.
  - apply (@scan_of_longest_run (Iter (L "   - item") 3)
             (cend_of (L "   - item")) 2 (-1) (Z.eqb (ch "-")) 4).
    + cbn [idx cend_of]. vm_compute. discriminate.
    + left. lia.
    + apply fwd_run_b_ok. vm_compute. reflexivity.
Defined.

(** X2. [rscan_of (bos, pos, predicate)] returns the beginning of the
    longest run of characters that satisfy the predicate and end at
    [pos], without going below [bos]. *)
Theorem rscan_of_longest_run bos pos pr :
  exists j, rscan_of_pred bos pos pr = Iter (str pos) j
    /\ back_run pr (str pos) (idx pos) j (Z.min (idx bos) (idx pos)).
Proof.
  unfold rscan_of_pred.
  destruct (rscan_of_loop_run (dist bos pos) pr pos) as (j & E & Hrun).
  exists j. split; [exact E|]. unfold dist in Hrun.
  replace (idx pos - Z.of_nat (Z.to_nat (idx pos - idx bos)))
    with (Z.min (idx bos) (idx pos)) in Hrun by lia.
  exact Hrun.
Qed.

(** ** Escaping *)

Lemma Forall_app_intro {A : Type} (P : A -> Prop) (l1 l2 : list A) :
  Forall P l1 -> Forall P l2 -> Forall P (l1 ++ l2).
Proof. intros H1 H2. apply Forall_app. split; assumption. Qed.

Lemma print_with_escape_htmlall_loop_safe :
  forall (k : nat) s output,
    exists r, print_with_escape_htmlall_loop k s output = output ++ r
      /\ Forall (fun c => html_special c = false) r.
Proof.
  induction k as [|k IH]; intros s output; cbn [print_with_escape_htmlall_loop].
  - exists []. rewrite app_nil_r. split; [reflexivity | constructor].
  - match goal with
    | |- context [print_with_escape_htmlall_loop k ?s' (output ++ ?w)] =>
        destruct (IH s' (output ++ w)) as (r & E & Hr);
        exists (w ++ r); rewrite E, <- app_assoc; split; [reflexivity|];
        apply Forall_app_intro; [|exact Hr]
    end.
    destruct (deref s =? ch "&"); [repeat constructor|].
    destruct (deref s =? ch "<") eqn:E1; [repeat constructor|].
    destruct (deref s =? ch ">") eqn:E2; [repeat constructor|].
    destruct (deref s =? DQUOTE) eqn:E3; [repeat constructor|].
    destruct (deref s =? SQUOTE) eqn:E4; [repeat constructor|].
    constructor; [|constructor]. unfold html_special.
    rewrite E1, E2, E3, E4. reflexivity.
Qed.

(** X3. Whatever the range, [print_with_escape_htmlall] only appends to
    the stream, and what it appends has no [<], no [>], no double quote
    and no single quote. *)
Theorem print_with_escape_htmlall_safe s e output :
  exists r, print_with_escape_htmlall s e output = output ++ r
    /\ Forall (fun c => html_special c = false) r.
Proof. apply print_with_escape_htmlall_loop_safe. Qed.

Lemma entity_safe e : entity e -> Forall (fun c => html_special c = false) e.
Proof.
  assert (Halnum : forall c, ismdalnum c = true -> html_special c = false).
  { intros c H. unfold ismdalnum, ismddigit in H. unfold html_special.
    chars. tests; repeat (apply orb_false_intro); apply Z.eqb_neq; lia. }
  assert (Hxdigit : forall c, ismdxdigit c = true -> html_special c = false).
  { intros c H. unfold ismdxdigit, ismddigit in H. unfold html_special.
    chars. tests; repeat (apply orb_false_intro); apply Z.eqb_neq; lia. }
  assert (Hdigit : forall c, ismddigit c = true -> html_special c = false).
  { intros c H. apply Halnum. unfold ismdalnum. rewrite H. apply orb_true_r. }
  assert (Halpha : forall c, is_alpha c = true -> html_special c = false).
  { intros c H. apply Halnum. unfold ismdalnum. unfold is_alpha in H.
    rewrite H. reflexivity. }
  assert (Hall : forall (f : wchar -> bool) w,
            (forall c, f c = true -> html_special c = false) ->
            forallb f w = true ->
            Forall (fun c => html_special c = false) (w ++ [SEMI])).
  { intros f w Hf Hw. apply Forall_app_intro; [|repeat constructor].
    apply Forall_forall. intros c Hc. apply Hf.
    rewrite forallb_forall in Hw. apply Hw, Hc. }
  intros [a body Ha Hb | d ds Hd Hds | h hs Hh Hhs].
  - constructor; [reflexivity|]. constructor; [apply Halpha, Ha|].
    apply (Hall ismdalnum); assumption.
  - constructor; [reflexivity|]. constructor; [reflexivity|].
    constructor; [apply Hdigit, Hd|]. apply (Hall ismddigit); assumption.
  - constructor; [reflexivity|]. constructor; [reflexivity|].
    constructor; [reflexivity|].
    constructor; [apply Hxdigit, Hh|]. apply (Hall ismdxdigit); assumption.
Qed.

Lemma escaped_safe s r :
  escaped s r -> Forall (fun c => html_special c = false) r.
Proof.
  induction 1 as [|e rest out He _ IH|rest out _ _ IH|rest out _ IH
                  |rest out _ IH|rest out _ IH|rest out _ IH
                  |c rest out H1 H2 H3 H4 H5 _ IH].
  - constructor.
  - apply Forall_app_intro; [apply entity_safe, He | exact IH].
  - apply Forall_app_intro; [repeat constructor | exact IH].
  - apply Forall_app_intro; [repeat constructor | exact IH].
  - apply Forall_app_intro; [repeat constructor | exact IH].
  - apply Forall_app_intro; [repeat constructor | exact IH].
  - apply Forall_app_intro; [repeat constructor | exact IH].
  - constructor; [|exact IH]. unfold html_special.
    repeat (apply orb_false_intro); apply Z.eqb_neq; assumption.
Qed.

(** X4. In general-text mode too: what [print_with_escape_html] appends
    for a text has no [<], no [>], no double quote and no single quote,
    entities that are passed through included. *)
Theorem print_with_escape_html_safe (s : wstring) (output : ostream) :
  exists r,
    print_with_escape_html (cbegin_of s) (cend_of s) output = output ++ r
    /\ Forall (fun c => html_special c = false) r.
Proof.
  unfold print_with_escape_html, cbegin_of.
  destruct (@print_with_escape_html_loop_escaped s
              (dist (Iter s 0) (cend_of s)) 0 output) as (r & E & He).
  - unfold wsize. lia.
  - unfold dist, wsize, cend_of. cbn [idx]. lia.
  - exists r. split; [exact E | apply (escaped_safe He)].
Qed.

Lemma uri_char_ascii c : uri_char c = true -> 0 <= c < 128.
Proof.
  unfold uri_char, ismdalnum, ismddigit, wfind. cbn [L existsb].
  intros H. chars.
  repeat (apply orb_prop in H as [H | H]); tests; try lia; discriminate H.
Qed.

Lemma decode_utf8_loop_ascii :
  forall (k : nat) (o : list Z),
    Forall (fun c => 0 <= c < 128) o -> (List.length o <= k)%nat ->
    decode_utf8_loop k o = o.
Proof.
  induction k as [|k IH]; intros o Ho Hk.
  - destruct o; [reflexivity | simpl in Hk; lia].
  - destruct o as [|c o]; [reflexivity|]. cbn [decode_utf8_loop].
    inversion Ho as [|c' o' Hc Ho']; subst.
    replace ((0 <=? c) && (c <? 128)) with true
      by (symmetry; apply andb_true_intro; split;
          [apply Z.leb_le | apply Z.ltb_lt]; lia).
    rewrite IH; [reflexivity | exact Ho' | simpl in Hk; lia].
Qed.

Lemma hexdigit_uri_char v : 0 <= v <= 15 -> uri_char (hexdigit v) = true.
Proof.
  intros Hv. unfold uri_char. apply orb_true_intro. left.
  unfold hexdigit, ismdalnum, ismddigit. chars.
  destruct (Z.ltb_spec v 10).
  - replace ((48 <=? v + 48) && (v + 48 <=? 57)) with true
      by (symmetry; apply andb_true_intro; split; apply Z.leb_le; lia).
    rewrite !orb_true_r. reflexivity.
  - replace ((65 <=? v + 65 - 10) && (v + 65 - 10 <=? 90)) with true
      by (symmetry; apply andb_true_intro; split; apply Z.leb_le; lia).
    reflexivity.
Qed.

Lemma nibble_range c : 0 <= Z.land c 15 <= 15.
Proof.
  split; [apply Z.land_nonneg; right; lia|].
  change 15 with (Z.ones 4) at 1. rewrite Z.land_ones by lia.
  pose proof (Z.mod_pos_bound c (2 ^ 4) ltac:(lia)) as H.
  change (2 ^ 4) with 16 in *. lia.
Qed.

Lemma print_with_escape_uri_loop_chars :
  forall (k : nat) s oend t,
    Forall (fun c => uri_char c = true) t ->
    Forall (fun c => uri_char c = true)
      (print_with_escape_uri_loop k s oend t).
Proof.
  induction k as [|k IH]; intros s oend t Ht;
    cbn [print_with_escape_uri_loop]; [exact Ht|]. cbv zeta.
  apply IH.
  destruct (ismdalnum (deref s) || wfind (deref s) (L "-_.,:;*+=()/~?#"))
    eqn:E1.
  { apply Forall_app_intro; [exact Ht|]. constructor; [|constructor].
    unfold uri_char. apply orb_prop in E1 as [E1 | E1];
      [rewrite E1; reflexivity|].
    apply orb_true_intro. right. unfold wfind in *. cbn [L existsb] in *.
    repeat (apply orb_prop in E1 as [E1 | E1]);
      try (rewrite E1; rewrite ?orb_true_r; reflexivity); try discriminate E1. }
  match goal with |- context [if ?c then _ else _] => destruct c eqn:E2 end.
  { apply Forall_app_intro; [exact Ht|]. constructor; [|constructor].
    apply andb_prop in E2 as [E2 _]. apply andb_prop in E2 as [E2 _].
    apply andb_prop in E2 as [_ E2]. apply Z.eqb_eq in E2. rewrite E2.
    reflexivity. }
  match goal with |- context [if ?c then _ else _] => destruct c eqn:E3 end.
  { apply Forall_app_intro; [exact Ht|]. constructor; [|constructor].
    apply andb_prop in E3 as [_ E3]. cbn [L std_equal] in E3.
    apply andb_prop in E3 as [E3 _]. apply Z.eqb_eq in E3. rewrite <- E3.
    reflexivity. }
  destruct (deref s =? ch "&").
  { apply Forall_app_intro; [exact Ht | repeat constructor]. }
  apply Forall_app_intro; [exact Ht|].
  constructor; [reflexivity|].
  constructor; [apply hexdigit_uri_char, nibble_range|].
  constructor; [apply hexdigit_uri_char, nibble_range | constructor].
Qed.

(** X5. Whatever the target, [print_with_escape_uri] only appends to the
    stream, and what it appends is made of ASCII letters and digits and
    of the characters [-_.,:;*+=()/~?#%&]: no quote, no space, no angle
    bracket and nothing outside ASCII reaches an [href] or [src]
    attribute. *)
Theorem print_with_escape_uri_chars s e output :
  exists r, print_with_escape_uri s e output = output ++ r
    /\ Forall (fun c => uri_char c = true) r.
Proof.
  unfold print_with_escape_uri. cbv zeta.
  set (o := encode_utf8 (slice s e)).
  pose proof (@print_with_escape_uri_loop_chars (List.length o) (cbegin_of o)
                (cend_of o) [] (Forall_nil _)) as Ht.
  set (t := print_with_escape_uri_loop _ _ _ _) in *.
  exists t. split; [|exact Ht]. f_equal. unfold decode_utf8.
  apply decode_utf8_loop_ascii; [|lia].
  apply Forall_forall. intros c Hc. apply uri_char_ascii.
  rewrite Forall_forall in Ht. apply Ht, Hc.
Qed.

(** ** UTF-8 *)

Ltac bool_true :=
  repeat (apply andb_true_intro; split);
  try (apply orb_true_intro);
  repeat match goal with
  | |- (_ <=? _) = true => apply Z.leb_le
  | |- (_ <? _) = true => apply Z.ltb_lt
  end.

Lemma decode_encode_utf8_loop :
  forall (w : wstring) (k : nat),
    forallb scalar_value w = true ->
    (List.length (encode_utf8 w) <= k)%nat ->
    decode_utf8_loop k (encode_utf8 w) = w.
Proof.
  induction w as [|c w IH]; intros k Hw Hk.
  - destruct k; reflexivity.
  - cbn [forallb] in Hw. apply andb_prop in Hw as [Hc Hw].
    unfold scalar_value in Hc. apply andb_prop in Hc as [Hc Hs].
    apply andb_prop in Hc as [H0 H1]. apply Z.leb_le in H0.
    apply Z.ltb_lt in H1. apply negb_true_iff in Hs.
    cbn [encode_utf8] in *.
    destruct (Z.ltb_spec c 128) as [L1 | L1].
    { replace (0 <=? c) with true in * by (symmetry; apply Z.leb_le; lia).
      cbn [andb] in *. destruct k as [|k]; [simpl in Hk; lia|].
      cbn [decode_utf8_loop].
      replace ((0 <=? c) && (c <? 128)) with true
        by (symmetry; bool_true; lia).
      rewrite IH; [reflexivity | exact Hw | simpl in Hk; lia]. }
    rewrite andb_false_r in *.
    destruct (Z.ltb_spec c 2048) as [L2 | L2].
    { replace (128 <=? c) with true in * by (symmetry; apply Z.leb_le; lia).
      cbn [andb] in *. destruct k as [|k]; [simpl in Hk; lia|].
      cbn [decode_utf8_loop].
      replace ((0 <=? 192 + c / 64) && (192 + c / 64 <? 128)) with false
        by (symmetry; apply andb_false_intro2, Z.ltb_ge;
            Z.div_mod_to_equations; lia).
      replace ((194 <=? 192 + c / 64) && (192 + c / 64 <? 224)
               && is_cont (128 + c mod 64)) with true
        by (symmetry; unfold is_cont; bool_true;
            Z.div_mod_to_equations; lia).
      rewrite IH; [|exact Hw | simpl in Hk; lia].
      f_equal. Z.div_mod_to_equations. lia. }
    rewrite andb_false_r in *.
    destruct (((2048 <=? c) && (c <? 55296))
              || ((57344 <=? c) && (c <? 65536))) eqn:E3.
    { assert (H3 : 2048 <= c < 65536 /\ (c < 55296 \/ 57344 <= c))
        by (apply orb_prop in E3 as [E3 | E3]; apply andb_prop in E3 as [A B];
            apply Z.leb_le in A; apply Z.ltb_lt in B; lia).
      destruct k as [|k]; [simpl in Hk; lia|].
      cbn [decode_utf8_loop].
      replace ((0 <=? 224 + c / 4096) && (224 + c / 4096 <? 128)) with false
        by (symmetry; apply andb_false_intro2, Z.ltb_ge;
            Z.div_mod_to_equations; lia).
      replace ((194 <=? 224 + c / 4096) && (224 + c / 4096 <? 224)) with false
        by (symmetry; apply andb_false_intro2, Z.ltb_ge;
            Z.div_mod_to_equations; lia).
      cbn [andb]. cbv zeta.
      replace ((224 + c / 4096 - 224) * 4096
               + (128 + (c / 64) mod 64 - 128) * 64
               + (128 + c mod 64 - 128)) with c
        by (Z.div_mod_to_equations; lia).
      rewrite E3.
      replace ((224 <=? 224 + c / 4096) && (224 + c / 4096 <? 240)
               && is_cont (128 + (c / 64) mod 64)
               && is_cont (128 + c mod 64)) with true
        by (symmetry; unfold is_cont; bool_true;
            Z.div_mod_to_equations; lia).
      cbn [andb].
      rewrite IH; [reflexivity | exact Hw | simpl in Hk; lia]. }
    assert (H4 : 65536 <= c).
    { apply orb_false_elim in E3 as [A B].
      apply andb_false_iff in Hs. apply andb_false_iff in A, B.
      repeat match goal with
      | H : _ \/ _ |- _ => destruct H
      | H : (_ <=? _) = false |- _ => apply Z.leb_gt in H
      | H : (_ <? _) = false |- _ => apply Z.ltb_ge in H
      end; lia. }
    replace ((65536 <=? c) && (c <? 1114112)) with true in *
      by (symmetry; bool_true; lia).
    destruct k as [|k]; [simpl in Hk; lia|].
    cbn [decode_utf8_loop].
    replace ((0 <=? 240 + c / 262144) && (240 + c / 262144 <? 128))
      with false
      by (symmetry; apply andb_false_intro2, Z.ltb_ge;
          Z.div_mod_to_equations; lia).
    replace ((194 <=? 240 + c / 262144) && (240 + c / 262144 <? 224))
      with false
      by (symmetry; apply andb_false_intro2, Z.ltb_ge;
          Z.div_mod_to_equations; lia).
    replace ((224 <=? 240 + c / 262144) && (240 + c / 262144 <? 240))
      with false
      by (symmetry; apply andb_false_intro2, Z.ltb_ge;
          Z.div_mod_to_equations; lia).
    cbn [andb]. cbv zeta.
    replace ((240 + c / 262144 - 240) * 262144
             + (128 + (c / 4096) mod 64 - 128) * 4096
             + (128 + (c / 64) mod 64 - 128) * 64
             + (128 + c mod 64 - 128)) with c
      by (Z.div_mod_to_equations; lia).
    replace ((240 <=? 240 + c / 262144) && (240 + c / 262144 <? 245)
             && is_cont (128 + (c / 4096) mod 64)
             && is_cont (128 + (c / 64) mod 64)
             && is_cont (128 + c mod 64) && (65536 <=? c) && (c <? 1114112))
      with true
      by (symmetry; unfold is_cont; bool_true;
          Z.div_mod_to_equations; lia).
    rewrite IH; [reflexivity | exact Hw | simpl in Hk; lia].
Qed.

(** X6. Decoding what [encode_utf8] produces gives the text back, for
    every text of Unicode scalar values. *)
Theorem decode_encode_utf8 (w : wstring) :
  forallb scalar_value w = true -> decode_utf8 (encode_utf8 w) = w.
Proof.
  intros Hw. unfold decode_utf8. apply decode_encode_utf8_loop; [exact Hw|].
  lia.
Qed.

Lemma decode_encode_utf8_witness :
  forallb scalar_value [ch "a"; 233; 8364; 128512] = true
  /\ decode_utf8 (encode_utf8 [ch "a"; 233; 8364; 128512])
     = [ch "a"; 233; 8364; 128512].
Proof.
  split; [reflexivity|].
  apply (@decode_encode_utf8 [ch "a"; 233; 8364; 128512]). reflexivity.
Defined.

(** ** Backslash escapes *)

Lemma unescape_backslash_loop_escaped (s : wstring) :
  forall (w : wstring) (k : nat) (i : Z) (acc : wstring),
    0 <= i -> skipn (Z.to_nat i) s = backslash_escaped w ->
    (List.length (backslash_escaped w) <= k)%nat ->
    unescape_backslash_loop k (Iter s i) (cend_of s) acc = acc ++ w.
Proof.
  induction w as [|c w IH]; intros k i acc Hi Hsk Hk.
  - cbn [backslash_escaped flat_map] in Hsk.
    assert (Hend : wsize s <= i).
    { destruct (Z_lt_ge_dec i (wsize s)) as [Hlt | Hge]; [|lia].
      rewrite skipn_at_index in Hsk by lia. discriminate Hsk. }
    rewrite app_nil_r. destruct k as [|k]; [reflexivity|].
    cbn [unescape_backslash_loop]. unfold ilt. cbn [idx].
    change (idx (cend_of s)) with (wsize s).
    replace (i <? wsize s) with false by (symmetry; apply Z.ltb_ge; lia).
    reflexivity.
  - unfold backslash_escaped in Hsk, Hk. cbn [flat_map] in Hsk, Hk.
    fold (backslash_escaped w) in Hsk, Hk.
    destruct k as [|k];
      [destruct (ismdescapable c); simpl in Hk; lia|].
    cbn [unescape_backslash_loop]. unfold ilt, peek, deref, iadd.
    cbn [str idx]. change (idx (cend_of s)) with (wsize s).
    destruct (ismdescapable c) eqn:Ec.
    + cbn [app] in Hsk.
      apply skipn_head in Hsk as (Hlt & Hc0 & Hsk); [|exact Hi].
      apply skipn_head in Hsk as (Hlt1 & Hc1 & Hsk); [|lia].
      replace (i <? wsize s) with true by (symmetry; apply Z.ltb_lt; lia).
      replace (i + 1 <? wsize s) with true
        by (symmetry; apply Z.ltb_lt; lia).
      rewrite Hc0, Hc1, Ec, Z.eqb_refl. cbn [negb andb].
      rewrite (IH k (i + 1 + 1) (acc ++ [c]));
        [rewrite <- app_assoc; reflexivity | lia | exact Hsk|].
      simpl in Hk. lia.
    + cbn [app] in Hsk.
      apply skipn_head in Hsk as (Hlt & Hc0 & Hsk); [|exact Hi].
      replace (i <? wsize s) with true by (symmetry; apply Z.ltb_lt; lia).
      rewrite Hc0. cbn [negb].
      replace (ch "\" =? c) with false.
      2:{ symmetry. apply Z.eqb_neq. intros <-. discriminate Ec. }
      cbn [andb].
      rewrite (IH k (i + 1) (acc ++ [c]));
        [rewrite <- app_assoc; reflexivity | lia | exact Hsk|].
      simpl in Hk. lia.
Qed.

(** X7. Every text can be written with backslashes: with a backslash put
    before each character that can be escaped, [unescape_backslash] gives
    the text back. *)
Theorem unescape_backslash_escaped (w : wstring) :
  unescape_backslash (cbegin_of (backslash_escaped w))
    (cend_of (backslash_escaped w)) = w.
Proof.
  unfold unescape_backslash.
  apply (@unescape_backslash_loop_escaped (backslash_escaped w) w _ 0 []).
  - lia.
  - reflexivity.
  - unfold dist, cbegin_of, cend_of. cbn [idx]. lia.
Qed.

Lemma unescape_backslash_loop_plain (s : wstring) :
  forall (k : nat) (i : Z) (acc : wstring),
    0 <= i -> Forall (fun c => c <> ch "\") (skipn (Z.to_nat i) s) ->
    (wsize s - i <= Z.of_nat k) ->
    unescape_backslash_loop k (Iter s i) (cend_of s) acc
    = acc ++ skipn (Z.to_nat i) s.
Proof.
  induction k as [|k IH]; intros i acc Hi Hall Hk.
  - rewrite skipn_all2 by (unfold wsize in Hk; lia).
    rewrite app_nil_r. reflexivity.
  - cbn [unescape_backslash_loop]. unfold ilt, peek, deref, iadd.
    cbn [str idx]. change (idx (cend_of s)) with (wsize s).
    destruct (Z_lt_ge_dec i (wsize s)) as [Hlt | Hge].
    + rewrite skipn_at_index in * by lia.
      inversion Hall as [|c r Hc Hr]; subst.
      replace (i <? wsize s) with true by (symmetry; apply Z.ltb_lt; lia).
      replace (ch "\" =? at_index s i) with false
        by (symmetry; apply Z.eqb_neq; intros E; apply Hc; symmetry; exact E).
      cbn [negb andb]. rewrite IH; [|lia | exact Hr | lia].
      rewrite <- app_assoc. reflexivity.
    + replace (i <? wsize s) with false by (symmetry; apply Z.ltb_ge; lia).
      cbn [negb]. rewrite skipn_all2 by (unfold wsize in Hge; lia).
      rewrite app_nil_r. reflexivity.
Qed.

(** X8. A text without a backslash is left as it is. *)
Theorem unescape_backslash_plain (s : wstring) :
  Forall (fun c => c <> ch "\") s ->
  unescape_backslash (cbegin_of s) (cend_of s) = s.
Proof.
  intros Hs. unfold unescape_backslash.
  apply (@unescape_backslash_loop_plain s _ 0 []); [lia | exact Hs|].
  unfold dist, cbegin_of, cend_of, wsize. cbn [idx]. lia.
Qed.

Lemma unescape_backslash_plain_witness :
  unescape_backslash (cbegin_of (L "a*b")) (cend_of (L "a*b")) = L "a*b".
Proof.
  apply (@unescape_backslash_plain (L "a*b")).
  repeat constructor; discriminate.
Defined.

(** ** Link identifiers *)

Lemma ascii_lower_cases c c' :
  ascii_lower c = ascii_lower c' ->
  c = c'
  \/ ((ch "A" <=? c) && (c <=? ch "Z") = true /\ c' = c + (ch "a" - ch "A"))
  \/ ((ch "A" <=? c') && (c' <=? ch "Z") = true
      /\ c = c' + (ch "a" - ch "A")).
Proof.
  unfold ascii_lower.
  destruct ((ch "A" <=? c) && (c <=? ch "Z")) eqn:E,
           ((ch "A" <=? c') && (c' <=? ch "Z")) eqn:E'; intros H.
  - left. lia.
  - right. left. split; [reflexivity | symmetry; exact H].
  - right. right. split; [reflexivity | exact H].
  - left. exact H.
Qed.

Lemma upper_is_plain c :
  (ch "A" <=? c) && (c <=? ch "Z") = true ->
  ismdwhite c = false /\ ismdescapable c = false /\ c <> ch "\"
  /\ ismdwhite (c + (ch "a" - ch "A")) = false
  /\ ismdescapable (c + (ch "a" - ch "A")) = false
  /\ c + (ch "a" - ch "A") <> ch "\"
  /\ (ch "A" <=? c + (ch "a" - ch "A"))
     && (c + (ch "a" - ch "A") <=? ch "Z") = false.
Proof.
  intros H. unfold ismdwhite, ismdescapable, wfind. cbn [L existsb].
  chars. tests.
  repeat split;
    try (repeat (apply orb_false_intro); try reflexivity; apply Z.eqb_neq; lia);
    try lia.
Qed.

(** The ranges [[b, e)] and [[b', e')] hold the same characters up to the
    case of ASCII letters. *)
Lemma decode_linkid_loop_case k :
  forall s eos s' eos' acc,
    idx eos - idx s = idx eos' - idx s' ->
    (forall n, 0 <= n < idx eos - idx s ->
       ascii_lower (at_index (str s) (idx s + n))
       = ascii_lower (at_index (str s') (idx s' + n))) ->
    decode_linkid_loop k s eos acc = decode_linkid_loop k s' eos' acc.
Proof.
  induction k as [|k IH]; intros s eos s' eos' acc Hlen Hch; [reflexivity|].
  cbn [decode_linkid_loop].
  unfold ilt, peek, deref, iadd. cbn [str idx].
  replace (idx s' <? idx eos') with (idx s <? idx eos)
    by (destruct (Z.ltb_spec (idx s) (idx eos)),
                 (Z.ltb_spec (idx s') (idx eos')); try reflexivity; lia).
  destruct (Z.ltb_spec (idx s) (idx eos)) as [Elt | Ege]; [|reflexivity].
  cbn [negb].
  assert (Hnext : forall d d', 0 < d -> d' = d -> forall acc',
            decode_linkid_loop k (Iter (str s) (idx s + d)) eos acc'
            = decode_linkid_loop k (Iter (str s') (idx s' + d')) eos' acc').
  { intros d d' Hd -> acc'. apply IH; cbn [str idx]; [lia|].
    intros n Hn. replace (idx s + d + n) with (idx s + (d + n)) by lia.
    replace (idx s' + d + n) with (idx s' + (d + n)) by lia.
    apply Hch. lia. }
  pose proof (Hch 0 ltac:(lia)) as H0. rewrite !Z.add_0_r in H0.
  set (c := at_index (str s) (idx s)) in *.
  set (c' := at_index (str s') (idx s')) in *.
  assert (Hwhite : forall (d : Z),
            ismdwhite c = true -> c' = c ->
            exists d, 0 < d
              /\ scan_of_pred s eos 0 (-1) ismdwhite
                 = Iter (str s) (idx s + d)
              /\ scan_of_pred s' eos' 0 (-1) ismdwhite
                 = Iter (str s') (idx s' + d)).
  { intros _ Hw Hc.
    destruct (@scan_of_pred_unbounded s eos ismdwhite ltac:(lia))
      as (j & E & Hb & Hall & Hend).
    assert (Hj : idx s < j).
    { destruct Hend as [-> | Hend]; [lia|].
      destruct (Z.eq_dec j (idx s)) as [-> | Hne]; [|lia].
      fold c in Hend. rewrite Hw in Hend. discriminate Hend. }
    assert (Hsame : forall n, 0 <= n < idx eos - idx s ->
              ismdwhite (at_index (str s') (idx s' + n))
              = ismdwhite (at_index (str s) (idx s + n))).
    { intros n Hn.
      destruct (ascii_lower_cases _ _ (Hch n Hn)) as [-> | [(U & ->) | (U & ->)]];
        [reflexivity | | ];
        destruct (upper_is_plain _ U) as (W1 & _ & _ & W2 & _);
        rewrite W1, W2; reflexivity. }
    exists (j - idx s). split; [lia|]. split; [rewrite E; f_equal; lia|].
    apply scan_of_pred_run; [left; reflexivity | lia|].
    split; [lia|]. split.
    - intros m Hm. replace m with (idx s' + (m - idx s')) by lia.
      rewrite Hsame by lia. apply Hall. lia.
    - destruct Hend as [-> | Hend]; [left; lia|].
      destruct (Z.eq_dec j (idx eos)) as [-> | Hne]; [left; lia|]. right.
      rewrite Hsame by lia.
      replace (idx s + (j - idx s)) with j by lia. exact Hend. }
  assert (Hpeek : idx s + 1 < idx eos ->
            ascii_lower (at_index (str s) (idx s + 1))
            = ascii_lower (at_index (str s') (idx s' + 1)))
    by (intros H; apply Hch; lia).
  replace (idx s' + 1 <? idx eos') with (idx s + 1 <? idx eos)
    by (destruct (Z.ltb_spec (idx s + 1) (idx eos)),
                 (Z.ltb_spec (idx s' + 1) (idx eos')); try reflexivity; lia).
  destruct (ascii_lower_cases _ _ H0) as [Hc | [(U & Hc) | (U & Hc)]].
  - (* the same character *)
    rewrite <- Hc.
    destruct ((ch "A" <=? c) && (c <=? ch "Z")); [apply Hnext; [lia | reflexivity]|].
    destruct (Z.ltb_spec (idx s + 1) (idx eos)) as [E1 | E1].
    + specialize (Hpeek E1).
      set (d := at_index (str s) (idx s + 1)) in *.
      set (d' := at_index (str s') (idx s' + 1)) in *.
      assert (Hd : ismdescapable d' = ismdescapable d
                   /\ (ismdescapable d = true -> d' = d)).
      { destruct (ascii_lower_cases _ _ Hpeek) as [-> | [(V & ->) | (V & ->)]];
          [split; [reflexivity | intros _; reflexivity] | | ];
          destruct (upper_is_plain _ V) as (_ & Hu1 & _ & _ & Hu2 & _);
          rewrite Hu1, Hu2; split; try reflexivity; discriminate. }
      destruct Hd as (Hd1 & Hd2). rewrite Hd1.
      destruct ((ch "\" =? c) && true && ismdescapable d) eqn:Eesc.
      * apply andb_prop in Eesc as [_ Eesc]. rewrite (Hd2 Eesc).
        replace (idx s + 1 + 1) with (idx s + 2) by lia.
        replace (idx s' + 1 + 1) with (idx s' + 2) by lia.
        apply Hnext; [lia | reflexivity].
      * destruct (ismdwhite c) eqn:Ew; [|apply Hnext; [lia | reflexivity]].
        destruct (Hwhite 0 eq_refl (eq_sym Hc)) as (n & Hn & E & E').
        rewrite E, E'. cbn [str idx].
        replace (idx s + n + -1 + 1) with (idx s + n) by lia.
        replace (idx s' + n + -1 + 1) with (idx s' + n) by lia.
        apply Hnext; [lia | reflexivity].
    + rewrite !andb_false_r. cbn [andb].
      destruct (ismdwhite c) eqn:Ew; [|apply Hnext; [lia | reflexivity]].
      destruct (Hwhite 0 eq_refl (eq_sym Hc)) as (n & Hn & E & E').
      rewrite E, E'. cbn [str idx].
      replace (idx s + n + -1 + 1) with (idx s + n) by lia.
      replace (idx s' + n + -1 + 1) with (idx s' + n) by lia.
      apply Hnext; [lia | reflexivity].
  - (* an upper case letter on the left *)
    destruct (upper_is_plain _ U) as (_ & _ & _ & W & _ & B & NU).
    rewrite U, Hc, NU.
    replace (ch "\" =? c + (ch "a" - ch "A")) with false
      by (symmetry; apply Z.eqb_neq; intros E; apply B; symmetry; exact E).
    cbn [andb]. rewrite W. apply Hnext; [lia | reflexivity].
  - (* an upper case letter on the right *)
    destruct (upper_is_plain _ U) as (_ & _ & _ & W & _ & B & NU).
    rewrite U, Hc, NU.
    replace (ch "\" =? c' + (ch "a" - ch "A")) with false
      by (symmetry; apply Z.eqb_neq; intros E; apply B; symmetry; exact E).
    cbn [andb]. rewrite W. apply Hnext; [lia | reflexivity].
Qed.

(** X9. The normal form of a link identifier does not depend on the case
    of its ASCII letters. *)
Theorem decode_linkid_case_insensitive (a b : wstring) :
  map ascii_lower a = map ascii_lower b ->
  decode_linkid (cbegin_of a) (cend_of a)
  = decode_linkid (cbegin_of b) (cend_of b).
Proof.
  intros Hab. assert (Hlen : List.length a = List.length b)
    by (rewrite <- (length_map ascii_lower a), Hab; apply length_map).
  unfold decode_linkid, dist, cbegin_of, cend_of. cbn [idx]. rewrite Hlen.
  apply decode_linkid_loop_case; cbn [str idx]; [lia|].
  intros n Hn. rewrite !Z.add_0_l. unfold at_index.
  destruct (n <? 0); [reflexivity|].
  rewrite <- (map_nth ascii_lower a 0 (Z.to_nat n)),
    <- (map_nth ascii_lower b 0 (Z.to_nat n)), Hab. reflexivity.
Qed.

Lemma decode_linkid_case_insensitive_witness :
  decode_linkid (cbegin_of (L "Foo Bar")) (cend_of (L "Foo Bar"))
  = decode_linkid (cbegin_of (L "fOO bAR")) (cend_of (L "fOO bAR")).
Proof.
  apply (@decode_linkid_case_insensitive (L "Foo Bar") (L "fOO bAR")).
  reflexivity.
Defined.

Lemma decode_linkid_loop_normal k :
  forall s eos id,
    Forall (fun c => ascii_lower c = c /\ c <> TAB /\ c <> NL) id ->
    Forall (fun c => ascii_lower c = c /\ c <> TAB /\ c <> NL)
      (decode_linkid_loop k s eos id).
Proof.
  induction k as [|k IH]; intros s eos id Hid; cbn [decode_linkid_loop];
    [exact Hid|].
  destruct (negb (s <! eos)); [exact Hid|].
  destruct ((ch "A" <=? deref s) && (deref s <=? ch "Z")) eqn:U.
  { apply IH, Forall_app_intro; [exact Hid|]. constructor; [|constructor].
    destruct (upper_is_plain _ U) as (_ & _ & _ & W & _ & _ & NU).
    unfold ascii_lower. rewrite NU. split; [reflexivity|].
    unfold ismdwhite in W. apply orb_false_elim in W as [W _].
    apply orb_false_elim in W as [W1 W2]. apply Z.eqb_neq in W1, W2.
    split; intros E; [apply W2 | apply W1]; symmetry; exact E. }
  destruct ((ch "\" =? deref s) && (s +! 1 <! eos)
            && ismdescapable (peek s 1)) eqn:E.
  { apply IH, Forall_app_intro; [exact Hid|]. constructor; [|constructor].
    apply andb_prop in E as [_ E]. unfold ismdescapable, wfind in E.
    cbn [L existsb] in E. unfold ascii_lower. chars.
    repeat (apply orb_prop in E as [E | E]); try discriminate E;
      apply Z.eqb_eq in E; rewrite E;
      (split; [reflexivity | split; discriminate]). }
  destruct (ismdwhite (deref s)) eqn:W.
  { cbv zeta. apply IH, Forall_app_intro; [exact Hid|].
    constructor; [|constructor].
    split; [reflexivity | split; discriminate]. }
  apply IH, Forall_app_intro; [exact Hid|]. constructor; [|constructor].
  unfold ascii_lower. rewrite U. split; [reflexivity|].
  unfold ismdwhite in W. apply orb_false_elim in W as [W _].
  apply orb_false_elim in W as [W1 W2]. apply Z.eqb_neq in W1, W2.
  split; intros E'; [apply W2 | apply W1]; symmetry; exact E'.
Qed.

(** X10. The normal form of a link identifier has no upper case ASCII
    letter, no tab and no newline. *)
Theorem decode_linkid_normal s eos :
  Forall (fun c => ascii_lower c = c /\ c <> TAB /\ c <> NL)
    (decode_linkid s eos).
Proof. apply decode_linkid_loop_normal. constructor. Qed.

(** ** The reference dictionary *)

Lemma wstring_eqb_eq (a b : wstring) : wstring_eqb a b = true <-> a = b.
Proof.
  revert b. induction a as [|x a IH]; intros [|y b]; cbn [wstring_eqb];
    try (split; [discriminate | discriminate]); [tauto|].
  rewrite andb_true_iff, Z.eqb_eq, IH. split.
  - intros [-> ->]. reflexivity.
  - intros E. injection E as -> ->. auto.
Qed.

(** X11. After [dict[k] = v] a lookup of [k] finds [v], and the lookup of
    any other key finds what it found before. *)
Theorem dict_find_assign (dict : refdict_type) (k : wstring)
    (v : reflink_type) :
  dict_find (dict_assign dict k v) k = Some v
  /\ forall k', k' <> k ->
       dict_find (dict_assign dict k v) k' = dict_find dict k'.
Proof.
  induction dict as [|[k0 v0] dict [IH1 IH2]]; cbn [dict_assign dict_find].
  - split.
    + replace (wstring_eqb k k) with true
        by (symmetry; apply wstring_eqb_eq; reflexivity). reflexivity.
    + intros k' Hk'. destruct (wstring_eqb k k') eqn:E; [|reflexivity].
      apply wstring_eqb_eq in E. congruence.
  - destruct (wstring_eqb k0 k) eqn:E0; cbn [dict_find].
    + apply wstring_eqb_eq in E0. subst k0. split.
      * replace (wstring_eqb k k) with true
          by (symmetry; apply wstring_eqb_eq; reflexivity). reflexivity.
      * intros k' Hk'. destruct (wstring_eqb k k') eqn:E; [|reflexivity].
        apply wstring_eqb_eq in E. congruence.
    + rewrite E0. split; [exact IH1|].
      intros k' Hk'. rewrite (IH2 k' Hk'). reflexivity.
Qed.

(** ** The output stream *)

Lemma print_with_escape_html_loop_appends :
  forall (k : nat) s e output,
    print_with_escape_html_loop k s e output
    = output ++ print_with_escape_html_loop k s e [].
Proof.
  induction k as [|k IH]; intros s e output.
  - cbn [print_with_escape_html_loop]. rewrite app_nil_r. reflexivity.
  - rewrite !print_with_escape_html_loop_unfold.
    destruct (negb (s <! e)); [rewrite app_nil_r; reflexivity|].
    destruct (ch "&" =? deref s).
    + destruct (check_html5entity s e) as [s1|];
        rewrite IH, (IH _ _ ([] ++ _)), app_nil_l, app_assoc; reflexivity.
    + rewrite IH, (IH _ _ ([] ++ _)), app_nil_l, app_assoc; reflexivity.
Qed.

Lemma print_with_escape_html_appends s e output :
  print_with_escape_html s e output = output ++ print_with_escape_html s e [].
Proof. apply print_with_escape_html_loop_appends. Qed.

Lemma print_with_escape_htmlall_loop_appends :
  forall (k : nat) s output,
    print_with_escape_htmlall_loop k s output
    = output ++ print_with_escape_htmlall_loop k s [].
Proof.
  induction k as [|k IH]; intros s output;
    cbn [print_with_escape_htmlall_loop].
  - rewrite app_nil_r. reflexivity.
  - rewrite IH, (IH _ ([] ++ _)), app_nil_l, app_assoc. reflexivity.
Qed.

Lemma print_with_escape_htmlall_appends s e output :
  print_with_escape_htmlall s e output
  = output ++ print_with_escape_htmlall s e [].
Proof. apply print_with_escape_htmlall_loop_appends. Qed.

Lemma print_with_escape_uri_appends s e output :
  print_with_escape_uri s e output = output ++ print_with_escape_uri s e [].
Proof. reflexivity. Qed.

Lemma print_innerlink_appends input p output dict :
  print_innerlink input p output dict
  = (fst (print_innerlink input p [] dict),
     output ++ snd (print_innerlink input p [] dict)).
Proof.
  unfold print_innerlink. cbv zeta.
  destruct (kind_eqb URI (kind (tk input (p + 1))));
    [destruct (kind_eqb TITLE (kind (tk input (p + 1 + 1))))|];
    cbv iota beta;
    destruct (kind_eqb IMGBEGIN (kind (tk input p))); cbv iota beta;
    match goal with |- context [if ?c then _ else _] => destruct c end;
    cbn [fst snd]; f_equal;
    repeat (rewrite (print_with_escape_html_appends _ _ (_ ++ _))
            || rewrite (print_with_escape_uri_appends _ _ (_ ++ _)));
    rewrite ?app_nil_l, ?app_assoc; reflexivity.
Qed.

Lemma print_inline_loop_appends dict input :
  forall (k : nat) p output,
    print_inline_loop k input p output dict
    = output ++ print_inline_loop k input p [] dict.
Proof.
  induction k as [|k IH]; intros p output; cbn [print_inline_loop].
  - rewrite app_nil_r. reflexivity.
  - destruct (negb (p <? dol_of input)); [rewrite app_nil_r; reflexivity|].
    cbv zeta.
    destruct (kind_leb BREAK (kind (tk input p))).
    { rewrite IH, (IH _ ([] ++ _)), app_nil_l, app_assoc. reflexivity. }
    destruct (kind_eqb CODE (kind (tk input p))).
    { rewrite print_with_escape_htmlall_appends, IH, (IH _ (print_with_escape_htmlall _ _ _)), app_assoc.
      reflexivity. }
    destruct (kind_eqb HTML (kind (tk input p))).
    { rewrite IH, (IH _ ([] ++ _)), app_nil_l, app_assoc. reflexivity. }
    destruct (kind_eqb SABEGIN (kind (tk input p))
              || kind_eqb IMGBEGIN (kind (tk input p))).
    { rewrite print_innerlink_appends.
      destruct (print_innerlink input p [] dict) as [p' out'].
      cbn [fst snd]. rewrite IH, (IH _ out'), app_assoc. reflexivity. }
    destruct (kind_eqb TEXT (kind (tk input p))).
    { destruct (gather_text _ input p []) as [p' src].
      rewrite print_with_escape_html_appends, IH,
        (IH _ (print_with_escape_html _ _ _)), app_assoc. reflexivity. }
    apply IH.
Qed.

Lemma print_inline_appends input output dict :
  print_inline input output dict = output ++ print_inline input [] dict.
Proof. apply print_inline_loop_appends. Qed.

Lemma print_code_lines_appends input :
  forall (k : nat) dot output,
    print_code_lines k input dot output
    = (fst (print_code_lines k input dot []),
       output ++ snd (print_code_lines k input dot [])).
Proof.
  induction k as [|k IH]; intros dot output; cbn [print_code_lines].
  - rewrite app_nil_r. reflexivity.
  - cbv zeta. destruct (kind_eqb CODE (kind (tk input dot)));
      [|rewrite app_nil_r; reflexivity].
    match goal with |- context [if ?c then _ else _] => destruct c end;
      rewrite IH, (IH _ (print_with_escape_htmlall _ _ [])),
        print_with_escape_htmlall_appends; cbn [fst snd];
      rewrite app_assoc; reflexivity.
Qed.

Lemma print_block_while_appends dict input :
  forall (fuel : nat) dot output,
    print_block_while fuel input dot output dict
    = option_map (app output) (print_block_while fuel input dot [] dict).
Proof.
  induction fuel as [|fuel IH]; intros dot output;
    cbn [print_block_while]; [reflexivity|]. cbv zeta.
  destruct (dot <? dol_of input);
    [|cbn [option_map]; rewrite app_nil_r; reflexivity].
  assert (Hnext : forall d out,
            print_block_while fuel input d (output ++ out) dict
            = option_map (app output) (print_block_while fuel input d out dict)).
  { intros d out. rewrite IH, (IH _ out).
    destruct (print_block_while fuel input _ [] dict) as [r|];
      cbn [option_map]; [rewrite app_assoc|]; reflexivity. }
  assert (Hnext0 : forall d,
            print_block_while fuel input d output dict
            = option_map (app output) (print_block_while fuel input d [] dict)).
  { intros d. rewrite <- (app_nil_r output) at 1. apply Hnext. }
  destruct (kind_eqb BLANK (kind (tk input dot))).
  { cbv beta iota. rewrite ?app_nil_l.
    destruct (_ <? dol_of input); [apply Hnext | apply Hnext0]. }
  destruct (kind_leb HRULE (kind (tk input dot))).
  { cbv beta iota. rewrite ?app_nil_l.
    destruct (kind_eqb SOLIST (kind (tk input dot))
              || kind_eqb SULIST (kind (tk input dot)));
      [destruct ((dot - 1 >? 0) && _)|];
      rewrite ?app_nil_l, <- ?app_assoc; apply Hnext. }
  destruct (kind_eqb HTML (kind (tk input dot))).
  { cbv beta iota. rewrite ?app_nil_l. apply Hnext. }
  destruct (kind_eqb CODE (kind (tk input dot))).
  { cbv beta iota. rewrite print_code_lines_appends.
    destruct (print_code_lines _ input dot []) as [d out].
    cbn [fst snd]. apply Hnext. }
  destruct (kind_eqb INLINE (kind (tk input dot))).
  { destruct (gather_inline _ input dot []) as [d src].
    destruct (parse_inline fuel _ [] dict) as [toks|]; [|reflexivity].
    cbv beta iota. rewrite print_inline_appends. apply Hnext. }
  cbv beta iota. apply Hnext0.
Qed.

(** X12. The translator only appends to the stream it is given: writing
    the translation of a text onto [output] gives [output] followed by
    what writing it onto an empty stream gives, and runs out of fuel in
    the same cases. *)
Theorem markdown_appends past_end fuel input output :
  markdown past_end fuel input output
  = option_map (app output) (translate past_end fuel input).
Proof.
  unfold translate, markdown.
  destruct (split_lines fuel input [] []) as [[pass1 dict]|]; [|reflexivity].
  destruct (parse_block past_end fuel pass1 []) as [pass2|]; [|reflexivity].
  unfold print_block. apply print_block_while_appends.
Qed.

(** ** A paragraph of words *)

Lemma alnum_tests c :
  ismdalnum c = true ->
  wfind c (L " \`*_<![]") = false /\ ismdgraph c = true
  /\ ismdprint c = true /\ ismdspace c = false
  /\ c <> ch "-" /\ c <> ch "+" /\ c <> ch "#" /\ c <> ch ">" /\ c <> NL
  /\ c <> ch "." /\ c <> TAB /\ c <> ch "&" /\ c <> DQUOTE /\ c <> SQUOTE.
Proof.
  intros H. unfold ismdalnum, ismddigit in H.
  unfold wfind, ismdgraph, ismdprint, ismdspace. cbn [L existsb]. chars.
  assert (Hc : 48 <= c <= 57 \/ 65 <= c <= 90 \/ 97 <= c <= 122)
    by (tests; lia).
  repeat split; lia.
Qed.

Lemma word_char_cases c :
  word_char c = true -> c = ch " " \/ ismdalnum c = true.
Proof.
  unfold word_char. intros H. apply orb_prop in H as [H | H];
    [right; exact H | left; apply Z.eqb_eq, H].
Qed.

Lemma parse_text_grow (t : wstring) i j output :
  0 <= i < j ->
  (i = 0 /\ output = [])
  \/ (0 < i /\ output = [Token TEXT (Iter t 0) (Iter t i)]) ->
  parse_text (Iter t i) (Iter t j) output
  = (Iter t j, [Token TEXT (Iter t 0) (Iter t j)]).
Proof.
  intros Hij [(-> & ->) | (Hi & ->)]; unfold parse_text, ile, ieq;
    cbn [idx is_empty negb andb back last kind cend];
    replace (j <=? _) with false by (symmetry; apply Z.leb_gt; lia).
  - reflexivity.
  - change (kind_eqb TEXT TEXT) with true. rewrite Z.eqb_refl.
    reflexivity.
Qed.

Lemma parse_inline_loop_words dict (t : wstring) :
  (forall m, 0 <= m < wsize t -> word_char (at_index t m) = true) ->
  forall (k : nat) i output fuel,
    0 <= i <= wsize t -> 0 < wsize t -> wsize t - i <= Z.of_nat k ->
    (k + 1 <= fuel)%nat ->
    (i = 0 /\ output = [])
    \/ (0 < i /\ output = [Token TEXT (Iter t 0) (Iter t i)]) ->
    parse_inline_loop fuel dict (cbegin_of t) (Iter t i) (cend_of t) output []
    = Some (cend_of t, [Token TEXT (Iter t 0) (cend_of t)], []).
Proof.
  intros Hall. assert (Hend : idx (cend_of t) = wsize t) by reflexivity.
  induction k as [|k IH]; intros i output fuel Hi Hn Hk Hf Hout;
    (destruct fuel as [|fuel]; [lia|]); cbn [parse_inline_loop];
    unfold ilt, deref; rewrite Hend; cbn [str idx].
  - replace (i <? wsize t) with false by (symmetry; apply Z.ltb_ge; lia).
    cbn [andb]. destruct Hout as [(-> & _) | (_ & ->)]; [lia|].
    replace i with (wsize t) by lia. reflexivity.
  - destruct (Z.eq_dec i (wsize t)) as [-> | Hne].
    { rewrite Z.ltb_irrefl. cbn [andb].
      destruct Hout as [(E & _) | (_ & ->)]; [lia | reflexivity]. }
    replace (i <? wsize t) with true by (symmetry; apply Z.ltb_lt; lia).
    assert (Hnext : forall j, i < j <= wsize t ->
              parse_inline_loop fuel dict (cbegin_of t) (Iter t j) (cend_of t)
                [Token TEXT (Iter t 0) (Iter t j)] []
              = Some (cend_of t, [Token TEXT (Iter t 0) (cend_of t)], [])).
    { intros j Hj. apply IH; try lia. right. split; [lia | reflexivity]. }
    destruct (word_char_cases _ (Hall i ltac:(lia))) as [Hsp | Hal].
    + (* spaces *)
      rewrite Hsp. change (ch "]" =? ch " ") with false.
      change (ch " " =? ch " ") with true. cbn [negb andb].
      unfold parse_space, scan_of.
      rewrite scan_of_pred_min1.
      destruct (@scan_of_pred_unbounded (Iter t i) (cend_of t)
                  (Z.eqb (ch " ")) ltac:(rewrite Hend; cbn [idx]; lia))
        as (j & E & Hb & Hrun & Hstop).
      cbn [str idx] in *. rewrite Hend in *. rewrite E.
      assert (Hj : i < j).
      { destruct Hstop as [-> | Hstop]; [lia|].
        destruct (Z.eq_dec j i) as [-> | ]; [|lia].
        rewrite Hsp in Hstop. discriminate Hstop. }
      rewrite scan_of_pred_one. unfold ilt, deref. rewrite Hend.
      cbn [str idx].
      replace ((j <? wsize t) && (NL =? at_index t j)) with false.
      2:{ symmetry. destruct (Z.ltb_spec j (wsize t)); [|reflexivity].
          cbn [andb]. apply Z.eqb_neq.
          destruct (word_char_cases _ (Hall j ltac:(lia))) as [-> | Hal];
            [discriminate|].
          destruct (alnum_tests _ Hal)
            as (_ & _ & _ & _ & _ & _ & _ & _ & HNL & _).
          intros E'. apply HNL. symmetry. exact E'. }
      cbv zeta beta iota. cbn [idx]. rewrite Z.ltb_irrefl.
      rewrite andb_false_r. cbv iota.
      rewrite (@parse_text_grow t i j output ltac:(lia) Hout).
      cbv beta iota. apply Hnext. lia.
    + (* a word *)
      destruct (alnum_tests _ Hal) as (Hplain & _).
      pose proof Hplain as Hc.
      unfold wfind in Hc. cbn [L existsb] in Hc. tests.
      repeat match goal with
      | H : at_index t i <> ?c |- _ =>
          replace (c =? at_index t i) with false
            by (symmetry; apply Z.eqb_neq; intros E; apply H; symmetry;
                exact E);
          clear H
      end.
      cbn [negb andb orb]. cbv zeta.
      unfold std_find_first_of.
      destruct (find_loop_run (dist (Iter t i) (cend_of t))
                  (fun c => wfind c (L " \`*_<![]")) (Iter t i))
        as (j & E & Hb & Hrun & Hstop).
      unfold dist in *. cbn [str idx] in *. rewrite Hend in *. rewrite E.
      rewrite Z2Nat.id in * by lia.
      assert (Hj : i < j).
      { destruct Hstop as [-> | Hstop]; [lia|].
        destruct (Z.eq_dec j i) as [-> | ]; [|lia].
        rewrite Hplain in Hstop. discriminate Hstop. }
      rewrite (@parse_text_grow t i j output ltac:(lia) Hout).
      cbv beta iota. apply Hnext. lia.
Qed.

Lemma parse_inline_words dict (t : wstring) fuel :
  (forall m, 0 <= m < wsize t -> word_char (at_index t m) = true) ->
  0 < wsize t -> (Z.to_nat (wsize t) + 3 <= fuel)%nat ->
  parse_inline fuel t [] dict
  = Some [Token TEXT (cbegin_of t) (cend_of t)].
Proof.
  intros Hall Hn Hf. destruct fuel as [|[|fuel]]; try lia.
  remember (S fuel) as f eqn:Ef.
  assert (Hend : idx (cend_of t) = wsize t) by reflexivity.
  unfold parse_inline, parse_inline_nest. cbn [parse_inline_while].
  replace (cbegin_of t <! cend_of t) with true
    by (symmetry; apply Z.ltb_lt; rewrite Hend; cbn [cbegin_of idx]; lia).
  change (parse_inline_loop f dict (cbegin_of t) (cbegin_of t))
    with (parse_inline_loop f dict (cbegin_of t) (Iter t 0)).
  rewrite (@parse_inline_loop_words dict t Hall (Z.to_nat (wsize t)) 0 [] f);
    try lia; [|left; split; reflexivity].
  cbv beta iota.
  replace (cbegin_of t ==! cend_of t) with false
    by (symmetry; apply Z.eqb_neq; rewrite Hend; cbn [cbegin_of idx]; lia).
  cbn [andb]. cbv iota. subst f. cbn [parse_inline_while].
  replace (cend_of t <! cend_of t) with false
    by (symmetry; apply Z.ltb_irrefl).
  reflexivity.
Qed.

Lemma escaped_plain s r :
  escaped s r -> Forall (fun c => c <> AMP /\ html_special c = false) s ->
  r = s.
Proof.
  assert (Hno : forall c w, html_special c = true ->
            Forall (fun c => c <> AMP /\ html_special c = false) (c :: w) ->
            False).
  { intros c w Hc Hw. inversion Hw as [|? ? [_ H] _]; subst.
    rewrite Hc in H. discriminate H. }
  induction 1 as [|e rest out He _ IH|rest out _ _ IH|rest out _ IH
                  |rest out _ IH|rest out _ IH|rest out _ IH
                  |c rest out H1 H2 H3 H4 H5 _ IH]; intros Hs.
  - reflexivity.
  - exfalso. destruct He; inversion Hs as [|? ? [Hamp _] _]; apply Hamp;
      reflexivity.
  - exfalso. inversion Hs as [|? ? [Hamp _] _]. apply Hamp. reflexivity.
  - exfalso. apply (Hno (ch "<") rest eq_refl Hs).
  - exfalso. apply (Hno (ch ">") rest eq_refl Hs).
  - exfalso. apply (Hno DQUOTE rest eq_refl Hs).
  - exfalso. apply (Hno SQUOTE rest eq_refl Hs).
  - inversion Hs; subst. f_equal. apply IH. assumption.
Qed.

Lemma word_char_plain c :
  word_char c = true ->
  c <> ch "\" /\ c <> AMP /\ html_special c = false.
Proof.
  intros H. destruct (word_char_cases _ H) as [-> | Hal].
  - repeat split; try discriminate.
  - unfold ismdalnum, ismddigit in Hal. unfold html_special. chars.
    assert (Hc : 48 <= c <= 57 \/ 65 <= c <= 90 \/ 97 <= c <= 122)
      by (tests; lia).
    repeat split; lia.
Qed.

(** What the output builder writes for one TEXT token of words. *)
Lemma print_inline_words dict (t : wstring) output :
  forallb word_char t = true -> 0 < wsize t ->
  print_inline [Token TEXT (cbegin_of t) (cend_of t)] output dict
  = output ++ t.
Proof.
  intros Hall Hn.
  assert (Hw : forall c, In c t -> word_char c = true)
    by (apply forallb_forall; exact Hall).
  unfold print_inline. cbn [List.length print_inline_loop].
  change (negb (0 <? dol_of [Token TEXT (cbegin_of t) (cend_of t)]))
    with false. cbv iota zeta.
  change (tk [Token TEXT (cbegin_of t) (cend_of t)] 0)
    with (Token TEXT (cbegin_of t) (cend_of t)).
  cbn [kind]. change (kind_leb BREAK TEXT) with false.
  change (kind_eqb CODE TEXT) with false.
  change (kind_eqb HTML TEXT) with false.
  change (kind_eqb SABEGIN TEXT || kind_eqb IMGBEGIN TEXT) with false.
  change (kind_eqb TEXT TEXT) with true. cbv iota.
  change (Z.to_nat (dol_of [Token TEXT (cbegin_of t) (cend_of t)] - 0))
    with 1%nat.
  cbn [gather_text].
  change (tk [Token TEXT (cbegin_of t) (cend_of t)] 0)
    with (Token TEXT (cbegin_of t) (cend_of t)).
  cbn [kind cbegin cend]. change (kind_eqb TEXT TEXT) with true. cbv iota.
  replace (cbegin_of t <! cend_of t) with true
    by (symmetry; apply Z.ltb_lt; cbn [cbegin_of cend_of idx];
        unfold wsize in Hn; lia).
  rewrite slice_whole, app_nil_l. cbv iota beta.
  assert (Hun : unescape_backslash (cbegin_of t) (cend_of t) = t).
  { unfold unescape_backslash.
    rewrite (@unescape_backslash_loop_plain t _ 0 []); [reflexivity | lia | |].
    - apply Forall_forall. intros c Hc. apply word_char_plain, Hw, Hc.
    - unfold dist, cbegin_of, cend_of, wsize. cbn [idx]. lia. }
  rewrite Hun. unfold print_with_escape_html.
  destruct (@print_with_escape_html_loop_escaped t
              (dist (cbegin_of t) (cend_of t)) 0 output) as (r & E & He).
  { unfold wsize. lia. }
  { unfold dist, wsize, cend_of, cbegin_of. cbn [idx]. lia. }
  change (Iter t 0) with (cbegin_of t) in E. rewrite E.
  rewrite (escaped_plain He); [reflexivity|].
  apply Forall_forall. intros c Hc. apply word_char_plain, Hw, Hc.
Qed.

Section WordLine.

Variable c : wchar.
Variable w : wstring.
Hypothesis first_alnum : ismdalnum c = true.
Hypothesis rest_words : forallb word_char w = true.

Let t : wstring := c :: w.
Let s : wstring := t ++ [NL].

Lemma word_line_size : wsize s = wsize t + 1 /\ 0 < wsize t.
Proof.
  unfold s, t, wsize. rewrite length_app. cbn [List.length]. lia.
Qed.

Lemma word_line_chars m :
  0 <= m < wsize t -> word_char (at_index s m) = true.
Proof.
  intros Hm. unfold s. rewrite at_index_app_l by lia.
  apply forallb_at_index; [|exact Hm]. unfold t. cbn [forallb].
  rewrite rest_words. unfold word_char. rewrite first_alnum. reflexivity.
Qed.

Lemma word_line_first : at_index s 0 = c.
Proof. reflexivity. Qed.

Lemma word_line_end : at_index s (wsize t) = NL.
Proof.
  unfold s. rewrite at_index_app_r by lia.
  replace (wsize t - wsize t) with 0 by lia. reflexivity.
Qed.

Lemma word_line_no_bracket i : (ch "[" =? at_index s i) = false.
Proof.
  destruct word_line_size as (Hs & Hn).
  destruct (Z_lt_ge_dec i 0) as [Hneg | Hpos].
  { unfold at_index. replace (i <? 0) with true
      by (symmetry; apply Z.ltb_lt; lia). reflexivity. }
  destruct (Z_lt_ge_dec i (wsize t)) as [Hlt | Hge].
  - destruct (word_char_cases _ (@word_line_chars i ltac:(lia)))
      as [-> | Hal]; [reflexivity|].
    destruct (alnum_tests _ Hal) as (Hp & _).
    unfold wfind in Hp. cbn [L existsb] in Hp.
    apply Z.eqb_neq. intros E. rewrite <- E in Hp. discriminate Hp.
  - destruct (Z.eq_dec i (wsize t)) as [-> | Hne];
      [rewrite word_line_end; reflexivity|].
    rewrite at_index_outside by lia. reflexivity.
Qed.

Lemma word_line_split fuel :
  (3 <= fuel)%nat ->
  split_lines fuel s [] []
  = Some ([Token LINE (cbegin_of s) (cend_of s)], []).
Proof.
  intros Hf. destruct fuel as [|[|[|fuel]]]; try lia.
  destruct word_line_size as (Hs & Hn).
  destruct (alnum_tests _ first_alnum)
    as (Hplain & Hgraph & Hprint & Hspace & _).
  assert (Hend : idx (cend_of s) = wsize s) by reflexivity.
  unfold split_lines. rewrite split_lines_while_unfold. cbv zeta.
  assert (Hlt : (cbegin_of s <! cend_of s) = true)
    by (apply Z.ltb_lt; rewrite Hend; cbn [cbegin_of idx]; lia).
  assert (Hnlt : (cbegin_of s <! cbegin_of s) = false) by apply Z.ltb_irrefl.
  assert (Hc : deref (cbegin_of s) = c) by reflexivity.
  unfold wfind in Hplain. cbn [L existsb] in Hplain.
  rewrite Hlt.
  rewrite parse_blockcode_skips
    by (rewrite Hc; apply Z.eqb_neq; intros E; rewrite <- E in Hplain;
        discriminate Hplain).
  rewrite Hnlt.
  rewrite parse_blockhtml_skips
    by (rewrite Hc; apply Z.eqb_neq; intros E; rewrite <- E in Hplain;
        discriminate Hplain).
  rewrite Hnlt.
  rewrite parse_refdef_skips by (intros i; apply word_line_no_bracket).
  rewrite Hnlt.
  rewrite (@scan_of_pred_stay (cbegin_of s) (cend_of s) 0 (-1) ismdspace)
    by (rewrite Hc; exact Hspace).
  rewrite (@scan_of_pred_run (cbegin_of s) (cend_of s) 0 ismdprint (wsize t));
    [|left; reflexivity | rewrite Hend; cbn [cbegin_of idx]; lia|].
  2:{ cbn [cbegin_of str idx]. rewrite Hend. split; [lia|]. split.
      - intros m Hm.
        destruct (word_char_cases _ (word_line_chars Hm)) as [-> | Hal];
          [reflexivity | apply (alnum_tests _ Hal)].
      - right. rewrite word_line_end. reflexivity. }
  cbn [cbegin_of str].
  unfold scan_of. rewrite scan_of_pred_one. unfold ilt, deref.
  rewrite Hend. cbn [str idx]. rewrite word_line_end, Z.eqb_refl.
  replace (wsize t <? wsize s) with true by (symmetry; apply Z.ltb_lt; lia).
  cbn [andb]. unfold ieq, iadd. cbn [str idx].
  replace (0 =? wsize t) with false by (symmetry; apply Z.eqb_neq; lia).
  replace (Iter s (wsize t + 1)) with (cend_of s)
    by (unfold cend_of; fold (wsize s); f_equal; lia).
  rewrite split_lines_while_unfold. cbv zeta.
  replace (cend_of s <! cend_of s) with false
    by (symmetry; apply Z.ltb_irrefl).
  reflexivity.
Qed.

Let line : token_type := Token LINE (cbegin_of s) (cend_of s).

Lemma word_line_stay n1 n2 pr :
  pr c = false -> scan_of_pred (cbegin_of s) (cend_of s) n1 n2 pr
                  = cbegin_of s.
Proof. intros H. apply scan_of_pred_stay. exact H. Qed.

Lemma word_line_tab_not : scan_tab_not (cbegin_of s) (cend_of s) = cbegin_of s.
Proof.
  unfold scan_tab_not, scan_of. apply word_line_stay.
  apply Z.eqb_neq. intros E.
  destruct (alnum_tests _ first_alnum) as (_ & _ & _ & H & _).
  rewrite <- E in H. discriminate H.
Qed.

Lemma word_line_not (x : wchar) :
  ismdalnum x = false -> (x =? c) = false.
Proof.
  intros Hx. apply Z.eqb_neq. intros E. rewrite E, first_alnum in Hx.
  discriminate Hx.
Qed.

Lemma word_line_tab : scan_tab (cbegin_of s) (cend_of s) = cbegin_of s.
Proof.
  unfold scan_tab, scan_of.
  rewrite (@word_line_stay 0 3 (Z.eqb (ch " ")))
    by (apply word_line_not; reflexivity).
  rewrite (@word_line_stay 1 1 (Z.eqb (ch " ")))
    by (apply word_line_not; reflexivity).
  rewrite (@word_line_stay 1 1 (Z.eqb TAB))
    by (apply word_line_not; reflexivity).
  cbv zeta. unfold idiff, ilt. rewrite Z.sub_diag, Z.ltb_irrefl.
  reflexivity.
Qed.

Lemma word_line_listmark :
  scan_listmark (cbegin_of s) (cend_of s) = cbegin_of s.
Proof.
  destruct word_line_size as (Hs & Hn).
  assert (Hend : idx (cend_of s) = wsize s) by reflexivity.
  unfold scan_listmark. rewrite word_line_tab_not. cbv zeta.
  replace (cend_of s <=! cbegin_of s) with false
    by (symmetry; apply Z.leb_gt; rewrite Hend; cbn [cbegin_of idx]; lia).
  change (deref (cbegin_of s)) with c.
  rewrite !word_line_not by reflexivity. cbn [orb].
  destruct (ismddigit c); [|reflexivity].
  destruct (@scan_of_loop_longest (dist (cbegin_of s) (cend_of s)) ismddigit
              (cbegin_of s) 1 (-1) ltac:(lia) (cbegin_of s) 0 eq_refl
              ltac:(cbn [cbegin_of idx]; lia) ltac:(lia) ltac:(lia))
    as (j & (Hb & Hrun & Hstop) & E).
  unfold scan_of_pred. rewrite E. clear E.
  unfold dist in *. cbn [cbegin_of str idx] in *. rewrite Hend in *.
  change (-1 <? 0) with true in *. cbv iota in *.
  rewrite Z2Nat.id in * by lia.
  assert (Hdot : forall p, scan_of p (cend_of s) 1 1 (ch ".") = p
                           \/ ismddigit (deref p) = false).
  { intros p. unfold scan_of. rewrite scan_of_pred_one.
    destruct ((p <! cend_of s) && (ch "." =? deref p)) eqn:E;
      [|left; reflexivity].
    right. apply andb_prop in E as [_ E]. apply Z.eqb_eq in E.
    rewrite <- E. reflexivity. }
  assert (Hnodot : forall m, 0 <= m -> (ch "." =? at_index s m) = false).
  { intros m Hm. destruct (Z_lt_ge_dec m (wsize t)) as [Hlt | Hge].
    - destruct (word_char_cases _ (@word_line_chars m ltac:(lia)))
        as [-> | Hal]; [reflexivity|].
      apply Z.eqb_neq. intros E.
      destruct (alnum_tests _ Hal)
        as (_ & _ & _ & _ & _ & _ & _ & _ & _ & Hd & _).
      apply Hd. symmetry. exact E.
    - destruct (Z.eq_dec m (wsize t)) as [-> | Hne];
        [rewrite word_line_end; reflexivity|].
      rewrite at_index_outside by lia. reflexivity. }
  assert (Hp3 : forall p, str p = s -> 0 <= idx p ->
                          scan_of p (cend_of s) 1 1 (ch ".") = p).
  { intros p Hp H0. unfold scan_of. rewrite scan_of_pred_one.
    unfold deref. rewrite Hp, Hnodot by exact H0.
    rewrite andb_false_r. reflexivity. }
  destruct (j - 0 <? 1).
  - rewrite Hp3 by (cbn [cbegin_of str idx]; try reflexivity; lia).
    unfold ilt. rewrite Z.ltb_irrefl. reflexivity.
  - rewrite Hp3 by (cbn [cbegin_of str idx]; try reflexivity; lia).
    unfold ilt. rewrite Z.ltb_irrefl. reflexivity.
Qed.

Lemma word_line_block pe fuel :
  (2 <= fuel)%nat ->
  parse_block pe fuel [line] []
  = Some [Token SPARAGRAPH (cbegin_of s) (cbegin_of s);
          Token INLINE (cbegin_of s) (cend_of s);
          Token EPARAGRAPH (cbegin pe) (cbegin pe)].
Proof.
  intros Hf. destruct fuel as [|[|fuel]]; try lia.
  destruct word_line_size as (Hs & Hn).
  destruct (alnum_tests _ first_alnum)
    as (Hplain & Hgraph & Hprint & Hspace & _).
  assert (Hend : idx (cend_of s) = wsize s) by reflexivity.
  assert (Hlt : (cbegin_of s <! cend_of s) = true)
    by (apply Z.ltb_lt; rewrite Hend; cbn [cbegin_of idx]; lia).
  assert (Hrefl : (cbegin_of s ==! cbegin_of s) = true) by apply Z.eqb_refl.
  unfold parse_block. remember (S fuel) as f eqn:Ef.
  cbn [parse_block_while]. cbv zeta.
  change (dol_of [line]) with 1. change (0 =? 1) with false.
  change (tok pe [line] 0) with line.
  change (kind line) with LINE.
  change (kind_eqb SLITEM LINE) with false.
  change (kind_eqb LINE LINE) with true. cbn [negb]. cbv iota.
  (* a horizontal rule? *)
  unfold parse_hrule. change (tok pe [line] 0) with line.
  cbn [line cbegin cend]. unfold scan_hrule. rewrite word_line_tab_not.
  change (deref (cbegin_of s)) with c.
  rewrite !word_line_not by reflexivity. rewrite andb_false_r.
  cbn [negb]. cbv iota zeta. rewrite Hrefl. cbv iota.
  change (0 =? 0) with true. cbn [negb]. cbv iota.
  (* indented code? *)
  unfold parse_tabcode. change (tok pe [line] 0) with line.
  cbn [line cbegin cend]. rewrite word_line_tab.
  cbv zeta. rewrite Hrefl. cbv iota.
  change (0 =? 0) with true. cbn [negb]. cbv iota.
  (* a quotation? *)
  unfold parse_blockquote. change (tok pe [line] 0) with line.
  cbn [line cbegin cend]. rewrite word_line_tab_not. unfold scan_of at 1.
  rewrite word_line_stay by (apply word_line_not; reflexivity).
  cbv zeta. rewrite Hrefl. cbv iota.
  change (0 =? 0) with true. cbn [negb]. cbv iota.
  (* a heading? *)
  unfold parse_atxheading. change (tok pe [line] 0) with line.
  cbn [line cbegin cend]. rewrite word_line_tab_not. unfold scan_of at 1.
  rewrite word_line_stay by (apply word_line_not; reflexivity).
  cbv zeta. rewrite Hrefl. cbv iota.
  change (0 =? 0) with true. cbn [negb]. cbv iota.
  (* a list? *)
  unfold parse_list. change (tok pe [line] 0) with line.
  cbn [line cbegin cend]. rewrite word_line_listmark.
  cbv zeta. rewrite Hrefl. cbv iota.
  change (0 =? 0) with true. cbn [negb]. cbv iota.
  (* an underlined heading? *)
  unfold parse_seheading. cbv zeta. change (0 + 1 =? 1) with true. cbv iota.
  change (0 =? 0) with true. cbn [negb]. cbv iota.
  (* a paragraph *)
  unfold parse_paragraph. change (tok pe [line] 0) with line.
  cbn [line cbegin cend]. rewrite word_line_tab_not.
  change (deref (cbegin_of s)) with c. rewrite Hlt, Hgraph.
  cbn [andb negb]. cbv iota zeta.
  change (Z.to_nat (1 - (0 + 1))) with O. cbn [parse_paragraph_loop].
  cbv iota beta. change (0 =? 0 + 1) with false. cbv iota.
  change (tok pe [line] (0 + 1)) with pe.
  subst f. cbn [parse_block_while]. cbv zeta.
  change (dol_of [line]) with 1. change (0 + 1 =? 1) with true.
  cbn [negb]. cbv iota. reflexivity.
Qed.

Lemma word_line_print pe fuel :
  (Z.to_nat (wsize t) + 6 <= fuel)%nat ->
  print_block fuel
    [Token SPARAGRAPH (cbegin_of s) (cbegin_of s);
     Token INLINE (cbegin_of s) (cend_of s);
     Token EPARAGRAPH (cbegin pe) (cbegin pe)] [] []
  = Some (L "<p>" ++ t ++ L "</p>" ++ [NL]).
Proof.
  intros Hf. destruct word_line_size as (Hs & Hn).
  set (toks := [Token SPARAGRAPH (cbegin_of s) (cbegin_of s);
                Token INLINE (cbegin_of s) (cend_of s);
                Token EPARAGRAPH (cbegin pe) (cbegin pe)]).
  assert (Hwords : forall m, 0 <= m < wsize t ->
                     word_char (at_index t m) = true).
  { intros m Hm. rewrite <- (@at_index_app_l t [NL] m) by lia.
    apply word_line_chars, Hm. }
  assert (Hall : forallb word_char t = true).
  { unfold t. cbn [forallb]. rewrite rest_words. unfold word_char.
    rewrite first_alnum. reflexivity. }
  unfold print_block.
  change (skip_kind null_token (Z.to_nat (dol_of toks)) BLANK toks 0) with 0.
  destruct fuel as [|[|[|[|fuel]]]]; try lia.
  remember (S (S fuel)) as f2 eqn:Ef2.
  cbn [print_block_while]. cbv zeta.
  change (dol_of toks) with 3.
  change (0 <? 3) with true. cbv iota.
  change (tk toks 0) with (Token SPARAGRAPH (cbegin_of s) (cbegin_of s)).
  cbn [kind]. change (kind_eqb BLANK SPARAGRAPH) with false.
  change (kind_leb HRULE SPARAGRAPH) with true.
  change (kind_eqb SOLIST SPARAGRAPH || kind_eqb SULIST SPARAGRAPH)
    with false.
  cbv iota beta. change (0 =? 0 + 1) with false. cbv iota.
  change (0 + 1 <? 3) with true. cbv iota.
  change (tk toks (0 + 1)) with (Token INLINE (cbegin_of s) (cend_of s)).
  cbn [kind]. change (kind_eqb BLANK INLINE) with false.
  change (kind_leb HRULE INLINE) with false.
  change (kind_eqb HTML INLINE) with false.
  change (kind_eqb CODE INLINE) with false.
  change (kind_eqb INLINE INLINE) with true. cbv iota.
  change (Z.to_nat (3 - (0 + 1))) with 2%nat. cbn [gather_inline].
  change (tk toks (0 + 1)) with (Token INLINE (cbegin_of s) (cend_of s)).
  change (tk toks (0 + 1 + 1)) with (Token EPARAGRAPH (cbegin pe) (cbegin pe)).
  cbn [kind cbegin cend]. change (kind_eqb INLINE INLINE) with true.
  change (kind_eqb INLINE EPARAGRAPH) with false. cbv iota zeta.
  rewrite slice_whole, app_nil_l.
  replace (wsize s >? 0) with true by (symmetry; apply Z.gtb_lt; lia).
  unfold s at 1 2. rewrite last_last, Z.eqb_refl, removelast_last.
  cbn [andb]. cbv iota.
  rewrite parse_inline_words by (try assumption; subst f2; lia).
  rewrite print_inline_words by assumption.
  cbv beta iota. change (0 + 1 =? 0 + 1 + 1) with false. cbv iota.
  subst f2. cbn [print_block_while]. cbv zeta.
  change (dol_of toks) with 3.
  change (0 + 1 + 1 <? 3) with true. cbv iota.
  change (tk toks (0 + 1 + 1)) with (Token EPARAGRAPH (cbegin pe) (cbegin pe)).
  cbn [kind]. change (kind_eqb BLANK EPARAGRAPH) with false.
  change (kind_leb HRULE EPARAGRAPH) with true.
  change (kind_eqb SOLIST EPARAGRAPH || kind_eqb SULIST EPARAGRAPH)
    with false.
  cbv iota beta. change (0 + 1 + 1 =? 0 + 1 + 1 + 1) with false. cbv iota.
  change (0 + 1 + 1 + 1 <? 3) with false. cbv iota.
  rewrite app_nil_l, <- app_assoc. reflexivity.
Qed.

End WordLine.

(** X13. A line of words, that is of ASCII letters, digits and spaces
    that begins with a letter or a digit, is a paragraph, and its text is
    written as it is: translate gives the line between [<p>] and
    [</p>]. *)
Theorem translate_plain_paragraph (c : wchar) (w : wstring) :
  ismdalnum c = true -> forallb word_char w = true ->
  translates_to (c :: w ++ [NL]) (L "<p>" ++ c :: w ++ L "</p>" ++ [NL]).
Proof.
  intros Hc Hw. exists (Z.to_nat (wsize (c :: w)) + 6)%nat.
  intros past_end fuel Hf. unfold translate, markdown.
  change (c :: w ++ [NL]) with ((c :: w) ++ [NL]).
  rewrite (word_line_split c w Hc Hw) by lia.
  rewrite (word_line_block c w Hc Hw) by lia.
  rewrite (word_line_print c w Hc Hw) by lia.
  reflexivity.
Qed.

Lemma translate_plain_paragraph_witness :
  translates_to (L "Hello world 42" ++ [NL])
    (L "<p>Hello world 42</p>" ++ [NL]).
Proof.
  apply (@translate_plain_paragraph (ch "H") (L "ello world 42"));
    reflexivity.
Defined.

(** ** Quoted texts *)

Lemma scan_quoted_shape_both (fuel : nat) :
  (forall pos eos lq rq esc pr r,
     scan_quoted fuel pos eos lq rq esc pr = Some r ->
     str r = str pos
     /\ (idx r = idx pos
         \/ (idx pos + 2 <= idx r <= idx eos
             /\ at_index (str pos) (idx pos) = lq
             /\ at_index (str pos) (idx r - 1) = rq)))
  /\ (forall pos eos lq rq esc pr p level r,
     str p = str pos -> idx pos + 1 <= idx p <= idx eos -> 0 <= level ->
     (level = 0 -> idx pos + 2 <= idx p
                   /\ at_index (str pos) (idx p - 1) = rq) ->
     scan_quoted_while fuel pos eos lq rq esc pr p level = Some r ->
     str r = str pos
     /\ (idx r = idx pos
         \/ (idx pos + 2 <= idx r <= idx eos
             /\ at_index (str pos) (idx r - 1) = rq))).
Proof.
  induction fuel as [|fuel [IH1 IH2]]; [split; intros; discriminate|].
  split.
  - intros pos eos lq rq esc pr r H. cbn [scan_quoted] in H.
    destruct ((pos <! eos) && (lq =? deref pos)) eqn:E; cbn [negb] in H.
    + apply andb_prop in E as [Elt Elq]. apply Z.ltb_lt in Elt.
      apply Z.eqb_eq in Elq.
      apply IH2 in H; cbn [iadd str idx]; try lia; try reflexivity.
      destruct H as (Hs & [Hr | (Hr & Hq)]); (split; [exact Hs|]);
        [left; exact Hr | right].
      split; [exact Hr|]. split; [symmetry; exact Elq | exact Hq].
    + injection H as <-. split; [reflexivity | left; reflexivity].
  - intros pos eos lq rq esc pr p level r Hs Hi Hl H0 H.
    cbn [scan_quoted_while] in H.
    destruct (Z.gtb_spec level 0) as [Hpos | Hzero].
    2:{ injection H as <-. split; [exact Hs|]. right.
        destruct (H0 ltac:(lia)) as (H2 & Hq). split; [lia | exact Hq]. }
    destruct ((p <! eos) && pr (deref p)) eqn:E; cbn [negb] in H.
    2:{ injection H as <-. split; [reflexivity | left; reflexivity]. }
    apply andb_prop in E as [Elt _]. apply Z.ltb_lt in Elt.
    destruct (_ && _ && _) eqn:Eesc in H.
    { apply andb_prop in Eesc as [Eesc _].
      apply andb_prop in Eesc as [_ Eesc]. apply Z.ltb_lt in Eesc.
      cbn [iadd idx] in Eesc.
      apply IH2 in H; cbn [iadd str idx]; try lia; assumption. }
    destruct (_ && _) in H.
    { destruct (scan_quoted fuel p eos (ch "<") (ch ">") esc pr) as [q|] eqn:Eq;
        [|discriminate H].
      apply IH1 in Eq as (Hsq & Hq).
      apply IH2 in H; cbn [iadd str idx]; try lia; congruence. }
    destruct (rq =? deref p) eqn:Erq.
    { apply Z.eqb_eq in Erq.
      apply IH2 in H; cbn [iadd str idx]; try lia; try assumption.
      intros _. split; [lia|].
      replace (idx p + 1 - 1) with (idx p) by lia.
      unfold deref in Erq. rewrite <- Hs. symmetry. exact Erq. }
    destruct (lq =? deref p);
      apply IH2 in H; cbn [iadd str idx]; try lia; assumption.
Qed.

(** X14. When [scan_quoted] moves, what it has scanned lies before [eos],
    begins with the opening quote and ends with the closing quote; when
    it does not, it returns [pos]. *)
Theorem scan_quoted_shape fuel pos eos lq rq esc pr r :
  scan_quoted fuel pos eos lq rq esc pr = Some r ->
  str r = str pos
  /\ (idx r = idx pos
      \/ (idx pos + 2 <= idx r <= idx eos
          /\ at_index (str pos) (idx pos) = lq
          /\ at_index (str pos) (idx r - 1) = rq)).
Proof. apply scan_quoted_shape_both. Qed.

Lemma scan_quoted_shape_witness :
  let s := L "[a\]b] c" in
  scan_quoted 20 (Iter s 0) (cend_of s) (ch "[") (ch "]") (ch "\") ismdany
  = Some (Iter s 6)
  /\ at_index s 0 = ch "[" /\ at_index s (6 - 1) = ch "]".
Proof.
  cbv zeta.
  assert (H : scan_quoted 20 (Iter (L "[a\]b] c") 0) (cend_of (L "[a\]b] c"))
                (ch "[") (ch "]") (ch "\") ismdany
              = Some (Iter (L "[a\]b] c") 6)) by (vm_compute; reflexivity).
  split; [exact H|].
  destruct (scan_quoted_shape _ _ _ _ _ _ _ H) as (_ & [Hr | (_ & H1 & H2)]).
  - cbn [idx] in Hr. lia.
  - split; [exact H1 | exact H2].
Defined.

(** ** Angle brackets and code spans *)

(** X15. A text in angle brackets that is neither a tag nor a link is
    written twice: [parse_angle] emits it from [<] to [>] as text, then
    emits the run of [<] at [pos] again, as a TEXT token of its own, and
    returns the end [p3] of that run.  The run ends before the closing
    [>], so the inline loop goes on inside the brackets and the rest is
    read a second time. *)
Theorem parse_angle_text_twice fuel pos eos output p1 tag p2 :
  scan_htmltag fuel pos eos [] = Some (p1, tag) -> idx p1 <= idx pos ->
  scan_quoted fuel pos eos (ch "<") (ch ">") (ch "\") ismdprint = Some p2 ->
  2 < idx p2 - idx pos ->
  match_uri (pos +! 1) (p2 +! (-1)) = false ->
  exists out1 p3,
    appended_text output pos p2 out1
    /\ str p3 = str pos
    /\ fwd_run (Z.eqb (ch "<")) (str pos) (idx pos) (idx p3) (idx eos)
    /\ idx pos < idx p3 < idx p2
    /\ parse_angle fuel pos eos output
       = Some (p3, out1 ++ [Token TEXT pos p3]).
Proof.
  intros Htag Hp1 Hq Hlen Huri.
  destruct (proj1 (scan_quoted_shape_both fuel) _ _ _ _ _ _ _ Hq)
    as (Hs2 & [Hr | (Hr & Hopen & Hclose)]); [lia|].
  destruct (@parse_text_appends pos p2 output ltac:(lia)) as (_ & Happ).
  set (out1 := snd (parse_text pos p2 output)) in *.
  assert (Hlt : (pos <! eos) = true) by (apply Z.ltb_lt; lia).
  (* the run of [<] *)
  destruct (@scan_of_loop_longest (dist pos eos) (Z.eqb (ch "<")) pos 1 (-1)
              ltac:(lia) pos 0 eq_refl ltac:(lia) ltac:(lia) ltac:(lia))
    as (j & (Hb & Hrun & Hstop) & E).
  change (-1 <? 0) with true in Hb, Hstop. cbv iota in Hb, Hstop.
  unfold dist in Hb, Hstop. rewrite Z2Nat.id in Hb, Hstop by lia.
  assert (Hj : idx pos < j < idx p2).
  { split.
    - destruct Hstop as [-> | Hstop]; [lia|].
      destruct (Z.eq_dec j (idx pos)) as [-> | ]; [|lia].
      rewrite Hopen in Hstop. discriminate Hstop.
    - destruct (Z_le_gt_dec j (idx p2 - 1)) as [Hle | Hgt]; [lia|].
      specialize (Hrun (idx p2 - 1) ltac:(lia)). rewrite Hclose in Hrun.
      discriminate Hrun. }
  exists out1, (Iter (str pos) j).
  split; [exact Happ|]. split; [reflexivity|].
  split; [cbn [idx]; repeat split; try assumption; lia|].
  split; [exact Hj|].
  unfold parse_angle. rewrite Htag.
  replace (pos <! p1) with false by (symmetry; apply Z.ltb_ge; lia).
  cbv iota beta. rewrite Hq. cbv zeta.
  replace (p2 -! pos >? 2) with true by (symmetry; apply Z.gtb_lt; exact Hlen).
  rewrite Huri. cbv iota. fold out1.
  unfold scan_of, scan_of_pred. rewrite E.
  replace (j - idx pos <? 1) with false by (symmetry; apply Z.ltb_ge; lia).
  f_equal. unfold parse_text.
  replace (Iter (str pos) j <=! pos) with false
    by (symmetry; apply Z.leb_gt; cbn [idx]; lia).
  assert (Hback : exists o t0, out1 = o ++ [t0] /\ cend t0 = p2).
  { destruct Happ as [E0 | (o & t0 & _ & _ & _ & E0)]; rewrite E0.
    - exists output, (Token TEXT pos p2). split; reflexivity.
    - exists o, (Token TEXT (cbegin t0) p2). split; reflexivity. }
  destruct Hback as (o & t0 & Eo & Ec). rewrite Eo.
  unfold back. rewrite last_last, Ec.
  replace (p2 ==! pos) with false
    by (symmetry; apply Z.eqb_neq; lia).
  rewrite andb_false_r. reflexivity.
Qed.

Lemma parse_angle_text_twice_witness :
  let s := L "1 < 2 > 1" in
  exists out1 p3,
    appended_text [Token TEXT (Iter s 0) (Iter s 2)] (Iter s 2) (Iter s 7) out1
    /\ str p3 = s
    /\ fwd_run (Z.eqb (ch "<")) s 2 (idx p3) (wsize s)
    /\ 2 < idx p3 < 7
    /\ parse_angle 20 (Iter s 2) (cend_of s) [Token TEXT (Iter s 0) (Iter s 2)]
       = Some (p3, out1 ++ [Token TEXT (Iter s 2) p3]).
Proof.
  cbv zeta.
  apply (@parse_angle_text_twice 20 (Iter (L "1 < 2 > 1") 2)
           (cend_of (L "1 < 2 > 1")) [Token TEXT (Iter (L "1 < 2 > 1") 0)
                                        (Iter (L "1 < 2 > 1") 2)]
           (Iter (L "1 < 2 > 1") 2) [] (Iter (L "1 < 2 > 1") 7)).
  - vm_compute. reflexivity.
  - cbn [idx]. lia.
  - vm_compute. reflexivity.
  - cbn [idx]. lia.
  - vm_compute. reflexivity.
Defined.

Lemma search_loop_ge pat last :
  forall (k : nat) p,
    idx p + Z.of_nat k = idx last ->
    idx p <= idx (search_loop k pat p last) <= idx last.
Proof.
  induction k as [|k IH]; intros p Hk; cbn [search_loop].
  - destruct (match_at pat p last); lia.
  - destruct (match_at pat p last); [lia|].
    specialize (IH (p +! 1)). cbn [iadd idx] in IH. lia.
Qed.

(** X16. A code span is emitted without the whitespace around its text.
    When the opening run of backquotes does not occur again, the
    backquotes and the whitespace after them are text; otherwise
    [parse_inlinecode] appends the three tokens of a code span, whose
    CODE token, when it is not empty, neither begins nor ends with
    whitespace. *)
Theorem parse_inlinecode_trimmed pos eos output :
  idx pos <= idx eos ->
  let p1 := scan_of pos eos 1 (-1) (ch "`") in
  let p2 := scan_of_pred p1 eos 0 (-1) ismdwhite in
  if std_search p2 eos (slice pos p1) ==! eos
  then parse_inlinecode pos eos output = parse_text pos p2 output
  else exists p3 p4,
         parse_inlinecode pos eos output
         = (p4, output ++ [Token SCODE p2 p2; Token CODE p2 p3;
                           Token ECODE p3 p3])
         /\ idx p2 <= idx p3
         /\ (idx p2 < idx p3 ->
             ismdwhite (deref p2) = false
             /\ ismdwhite (peek p3 (-1)) = false).
Proof.
  intros Hle. unfold parse_inlinecode. cbv zeta.
  set (p1 := scan_of pos eos 1 (-1) (ch "`")).
  assert (Hp1 : idx pos <= idx p1 <= idx eos).
  { subst p1. unfold scan_of, scan_of_pred.
    destruct (@scan_of_loop_longest (dist pos eos) (Z.eqb (ch "`")) pos 1 (-1)
                ltac:(lia) pos 0 eq_refl ltac:(lia) ltac:(lia) ltac:(lia))
      as (j & (Hb & _) & E).
    rewrite E. change (-1 <? 0) with true in Hb. cbv iota in Hb.
    unfold dist in Hb. rewrite Z2Nat.id in Hb by lia.
    destruct (j - idx pos <? 1); cbn [idx]; lia. }
  destruct (@scan_of_pred_unbounded p1 eos ismdwhite ltac:(lia))
    as (j2 & E2 & Hb2 & _ & Hstop2).
  rewrite E2. set (p2 := Iter (str p1) j2).
  set (p3 := std_search p2 eos (slice pos p1)).
  assert (Hp3 : idx p2 <= idx p3 <= idx eos).
  { subst p3. unfold std_search. apply search_loop_ge.
    unfold dist. subst p2. cbn [idx]. lia. }
  destruct (p3 ==! eos) eqn:Eend; [reflexivity|].
  apply Z.eqb_neq in Eend.
  set (p4 := scan_of (p3 +! (p1 -! pos)) eos 0 (-1) (ch "`")).
  assert (Hp4 : idx p3 + (idx p1 - idx pos) <= idx p4)
    by (subst p4; unfold scan_of;
        pose proof (scan_of_pred_ge (p3 +! (p1 -! pos)) eos 0 (-1)
                      (Z.eqb (ch "`"))) as H;
        cbn [iadd idx] in H; unfold idiff in H; exact H).
  destruct (rscan_of_loop_run (dist p2 (p4 +! - (p1 -! pos))) ismdwhite
              (p4 +! - (p1 -! pos))) as (j & E & Hb & _ & Hstop).
  unfold rscan_of_pred. rewrite E.
  cbn [iadd str idx] in Hb, Hstop. unfold idiff, dist in Hb, Hstop.
  cbn [iadd idx] in Hb, Hstop. subst p2. cbn [idx] in *.
  rewrite Z2Nat.id in Hb, Hstop by lia.
  eexists _, _. split; [unfold push_back; rewrite <- !app_assoc; reflexivity|].
  cbn [idx]. split; [lia|]. intros Hlt. split.
  - unfold deref. cbn [str idx].
    destruct Hstop2 as [-> | H]; [lia | exact H].
  - unfold peek, deref. cbn [iadd str idx].
    destruct Hstop as [-> | H]; [lia|].
    replace (j + -1) with (j - 1) by lia. exact H.
Qed.

Lemma parse_inlinecode_trimmed_witness :
  let s := L "``  a  b  `` y" in
  exists p3 p4,
    parse_inlinecode (Iter s 0) (cend_of s) []
    = (p4, [] ++ [Token SCODE (Iter s 4) (Iter s 4); Token CODE (Iter s 4) p3;
                  Token ECODE p3 p3])
    /\ 4 <= idx p3
    /\ (4 < idx p3 ->
        ismdwhite (deref (Iter s 4)) = false
        /\ ismdwhite (peek p3 (-1)) = false).
Proof.
  cbv zeta.
  exact (@parse_inlinecode_trimmed (Iter (L "``  a  b  `` y") 0)
           (cend_of (L "``  a  b  `` y")) []
           ltac:(vm_compute; discriminate)).
Defined.

(** ** Reference definitions *)

(** Where the parts of a definition line are; [tail] is what follows the
    target. *)
Lemma definition_anatomy b u tail :
  let s := List.concat (definition_segments b u tail) in
  let B := wsize b in
  let U := wsize u in
  wsize s = B + U + 4 + wsize tail
  /\ at_index s 0 = ch "["
  /\ (forall i, 0 <= i < B -> at_index s (1 + i) = at_index b i)
  /\ at_index s (B + 1) = ch "]"
  /\ at_index s (B + 2) = ch ":"
  /\ at_index s (B + 3) = ch " "
  /\ (forall i, 0 <= i < U -> at_index s (B + 4 + i) = at_index u i)
  /\ (forall i, 0 <= i < wsize tail ->
        at_index s (B + 4 + U + i) = at_index tail i)
  /\ same_text (Iter s 1) (Iter s (1 + B)) (cbegin_of b) (cend_of b)
  /\ slice (Iter s (B + 4)) (Iter s (B + 4 + U)) = u.
Proof.
  cbv zeta. set (segs := definition_segments b u tail).
  assert (H1 : offset segs 1 = 1) by reflexivity.
  assert (H2 : offset segs 2 = wsize b + 1)
    by (subst segs; unfold offset, definition_segments;
        cbn [firstn List.concat nth app];
        repeat (rewrite wsize_app || rewrite wsize_cons || rewrite wsize_nil);
        lia).
  assert (H3 : offset segs 3 = wsize b + 4)
    by (subst segs; unfold offset, definition_segments;
        cbn [firstn List.concat nth app];
        repeat (rewrite wsize_app || rewrite wsize_cons || rewrite wsize_nil);
        lia).
  assert (H4 : offset segs 4 = wsize b + 4 + wsize u)
    by (subst segs; unfold offset, definition_segments;
        cbn [firstn List.concat nth app];
        repeat (rewrite wsize_app || rewrite wsize_cons || rewrite wsize_nil);
        lia).
  pose proof (wsize_nonneg b). pose proof (wsize_nonneg u).
  pose proof (wsize_nonneg tail).
  split.
  { subst segs. unfold definition_segments. cbn [List.concat app].
    repeat (rewrite wsize_app || rewrite wsize_cons || rewrite wsize_nil).
    lia. }
  split; [reflexivity|].
  split.
  { intros i Hi. rewrite <- H1.
    rewrite at_index_segment; [reflexivity | simpl; lia | exact Hi]. }
  split.
  { replace (wsize b + 1) with (offset segs 2 + 0) by lia.
    rewrite at_index_segment; [reflexivity | simpl; lia | cbn; lia]. }
  split.
  { replace (wsize b + 2) with (offset segs 2 + 1) by lia.
    rewrite at_index_segment; [reflexivity | simpl; lia | cbn; lia]. }
  split.
  { replace (wsize b + 3) with (offset segs 2 + 2) by lia.
    rewrite at_index_segment; [reflexivity | simpl; lia | cbn; lia]. }
  split.
  { intros i Hi. rewrite <- H3.
    rewrite at_index_segment; [reflexivity | simpl; lia | exact Hi]. }
  split.
  { intros i Hi. rewrite <- H4.
    rewrite at_index_segment; [reflexivity | simpl; lia | exact Hi]. }
  split.
  { rewrite <- H1 at 1 2. apply (@same_text_segment segs 1). simpl. lia. }
  rewrite <- H3 at 1.
  replace (wsize b + 4 + wsize u) with (offset segs 3 + wsize u) by lia.
  apply (@slice_segment segs 3). simpl. lia.
Qed.

Lemma wsize_zero (l : wstring) : wsize l = 0 -> l = [].
Proof.
  destruct l; [reflexivity|]. rewrite wsize_cons.
  pose proof (wsize_nonneg l). lia.
Qed.

Section DefinitionLine.

Variables b u tail : wstring.

Hypothesis label_ok : plain_label b = true.
Hypothesis target_ok : bare_target u = true.
Hypothesis tail_size : 1 <= wsize tail.
Hypothesis tail_stop : ismdgraph (at_index tail 0) = false.
Hypothesis target_first : ismdspace (at_index (u ++ tail) 0) = false.

Let s := List.concat (definition_segments b u tail).
Let B := wsize b.
Let U := wsize u.

Lemma definition_label_chars :
  1 <= B
  /\ forall i, 0 <= i < B ->
       inert (ch "[") (ch "]") (ch "\") ismdprint (at_index b i).
Proof.
  unfold plain_label in label_ok.
  apply andb_prop in label_ok as [Hne Hall].
  split; [apply nonempty_wsize, Hne|].
  intros i Hi. pose proof (@forallb_at_index _ b i Hall Hi) as Hc.
  cbv beta in Hc. apply andb_prop in Hc as [Hany Hc].
  apply negb_true_iff in Hc. unfold wfind in Hc. cbn [L existsb] in Hc.
  tests. unfold inert. repeat split; auto.
  intros E. discriminate E.
Qed.

Lemma definition_target_chars :
  (forall i, 0 <= i < U -> ismdgraph (at_index u i) = true)
  /\ at_index (u ++ tail) 0 <> ch "<".
Proof.
  unfold bare_target in target_ok.
  apply andb_prop in target_ok as [Hall Hlt].
  split.
  - intros i Hi. exact (@forallb_at_index _ u i Hall Hi).
  - apply negb_true_iff, Z.eqb_neq in Hlt.
    pose proof (wsize_nonneg u) as HU.
    destruct (Z.eq_dec (wsize u) 0) as [E0 | E0].
    + rewrite (wsize_zero u E0). cbn [app]. intros E.
      rewrite E in tail_stop. discriminate tail_stop.
    + rewrite at_index_app_l by lia. intros E. apply Hlt. symmetry.
      exact E.
Qed.

Lemma definition_after_space : at_index s (B + 4) = at_index (u ++ tail) 0.
Proof.
  destruct (definition_anatomy b u tail)
    as (_ & _ & _ & _ & _ & _ & Hu & Ht & _).
  fold s B U in Hu, Ht.
  pose proof (wsize_nonneg u) as HU. fold U in HU.
  destruct (Z.eq_dec U 0) as [E | E].
  - replace (B + 4) with (B + 4 + U + 0) by lia.
    rewrite Ht by lia. rewrite (wsize_zero u E). reflexivity.
  - replace (B + 4) with (B + 4 + 0) by lia.
    rewrite Hu by lia. symmetry. apply at_index_app_l. fold U. lia.
Qed.

Lemma scan_refdef_id_line fuel :
  B + 3 <= Z.of_nat fuel ->
  scan_refdef_id fuel (Iter s 0) (cend_of s) []
  = Some (Iter s (B + 4), decode_linkid (cbegin_of b) (cend_of b)).
Proof.
  intros Hfuel.
  destruct (definition_anatomy b u tail)
    as (Hsize & Hop & Hb & Hcl & Hcolon & Hsp & Hu & Ht & Hsame & _).
  fold s B U in Hsize, Hop, Hb, Hcl, Hcolon, Hsp, Hu, Ht, Hsame.
  destruct definition_label_chars as (HB & Hinert).
  pose proof (wsize_nonneg u) as HU. fold U in HU.
  assert (Hend : idx (cend_of s) = wsize s) by reflexivity.
  unfold scan_refdef_id.
  replace (scan_tab_not (Iter s 0) (cend_of s)) with (Iter s 0).
  2:{ symmetry. unfold scan_tab_not, scan_of. apply scan_of_pred_stay.
      unfold deref. cbn [str idx]. rewrite Hop. reflexivity. }
  rewrite (@scan_quoted_inert fuel (Iter s 0) (cend_of s)
             (ch "[") (ch "]") (ch "\") ismdprint (Z.to_nat B));
    cbn [str idx]; try rewrite Z2Nat.id by lia.
  2:{ discriminate. }
  2:{ reflexivity. }
  2:{ intros E. discriminate E. }
  2:{ lia. }
  2:{ exact Hop. }
  2:{ intros m Hm. replace m with (1 + (m - 1)) by lia.
      rewrite Hb by lia. apply Hinert. lia. }
  2:{ rewrite Hend. lia. }
  2:{ replace (0 + 1 + B) with (B + 1) by lia. exact Hcl. }
  replace (0 + B + 2) with (B + 2) by lia.
  cbv beta iota zeta.
  replace (ch "]" =? peek (Iter s 0) 1) with false.
  2:{ symmetry. apply Z.eqb_neq. unfold peek, deref, iadd. cbn [str idx].
      replace (0 + 1) with (1 + 0) by lia. rewrite Hb by lia.
      destruct (Hinert 0) as (_ & _ & Hn & _); [lia|].
      intros E. apply Hn. symmetry. exact E. }
  rewrite andb_false_r. cbv iota.
  unfold scan_of.
  rewrite (@scan_of_pred_run_bounded (Iter s (B + 2)) (cend_of s) 1 1
             (Z.eqb (ch ":")) (B + 3)); cbn [str idx].
  2:{ right. reflexivity. }
  2:{ lia. }
  2:{ rewrite Hend. lia. }
  2:{ rewrite Hend. split; [lia|]. split.
      - intros m Hm. replace m with (B + 2) by lia. rewrite Hcolon.
        reflexivity.
      - left. lia. }
  rewrite (@scan_of_pred_run (Iter s (B + 3)) (cend_of s) 1 ismdspace
             (B + 4)); cbn [str idx].
  2:{ right. reflexivity. }
  2:{ rewrite Hend. lia. }
  2:{ rewrite Hend. split; [lia|]. split.
      - intros m Hm. replace m with (B + 3) by lia. rewrite Hsp.
        reflexivity.
      - right. rewrite definition_after_space. exact target_first. }
  unfold ilt. cbn [idx].
  replace (0 <? B + 2) with true by (symmetry; apply Z.ltb_lt; lia).
  replace (B + 2 <? B + 3) with true by (symmetry; apply Z.ltb_lt; lia).
  replace (B + 3 <? B + 4) with true by (symmetry; apply Z.ltb_lt; lia).
  cbn [andb negb]. f_equal. f_equal.
  apply decode_linkid_same.
  replace (Iter s 0 +! 1) with (Iter s 1) by reflexivity.
  replace (Iter s (B + 2) +! -1) with (Iter s (1 + B))
    by (unfold iadd; cbn [str idx]; f_equal; lia).
  exact Hsame.
Qed.

Lemma scan_refdef_uri_line fuel :
  (1 <= fuel)%nat ->
  scan_refdef_uri fuel (Iter s (B + 4)) (cend_of s) []
  = Some (Iter s (B + 4 + U), u).
Proof.
  intros Hfuel.
  destruct (definition_anatomy b u tail)
    as (Hsize & _ & _ & _ & _ & _ & Hu & Ht & _ & Hslice).
  fold s B U in Hsize, Hu, Ht, Hslice.
  destruct definition_target_chars as (Hgraph & Hlt).
  pose proof (wsize_nonneg u) as HU. fold U in HU.
  pose proof (wsize_nonneg b) as HB. fold B in HB.
  assert (Hend : idx (cend_of s) = wsize s) by reflexivity.
  unfold scan_refdef_uri.
  destruct fuel as [|fuel]; [lia|].
  rewrite scan_quoted_no_open.
  2:{ apply Z.eqb_neq. unfold deref. cbn [str idx].
      rewrite definition_after_space. intros E. apply Hlt. symmetry.
      exact E. }
  cbv beta iota zeta.
  replace (Iter s (B + 4) <! Iter s (B + 4)) with false
    by (symmetry; apply Z.ltb_irrefl).
  rewrite (@scan_of_pred_run (Iter s (B + 4)) (cend_of s) 1 ismdgraph
             (B + 4 + U)); cbn [str idx].
  2:{ right. reflexivity. }
  2:{ rewrite Hend. lia. }
  2:{ rewrite Hend. split; [lia|]. split.
      - intros m Hm. replace m with (B + 4 + (m - (B + 4))) by lia.
        rewrite Hu by lia. apply Hgraph. lia.
      - right. replace (B + 4 + U) with (B + 4 + U + 0) by lia.
        rewrite Ht by lia. exact tail_stop. }
  cbv beta iota zeta. unfold ile. cbn [idx].
  destruct (Z.leb_spec (B + 4 + U) (B + 4)) as [Hle | Hgt].
  - assert (E : wsize u = 0) by (fold U; lia).
    replace U with 0 by lia. replace (B + 4 + 0) with (B + 4) by lia.
    rewrite (wsize_zero u E). reflexivity.
  - rewrite Hslice. reflexivity.
Qed.

(** What is left of [parse_refdef] once the title, if any, is known. *)
Lemma parse_refdef_line fuel dict p3 title :
  B + 4 <= Z.of_nat fuel ->
  ch "^" <> at_index (decode_linkid (cbegin_of b) (cend_of b)) 0 ->
  scan_refdef_title (Iter s (B + 4 + U)) (cend_of s) [] = (p3, title) ->
  scan_of (scan_of_pred p3 (cend_of s) 0 (-1) ismdspace) (cend_of s) 1 1 NL
  = cend_of s ->
  parse_refdef fuel (Iter s 0) (cend_of s) dict
  = Some (cend_of s,
          dict_assign dict (decode_linkid (cbegin_of b) (cend_of b))
            (definition_entry b u title)).
Proof.
  intros Hfuel Hcaret Htitle Hrest.
  pose proof (wsize_nonneg u) as HU. fold U in HU.
  pose proof (wsize_nonneg b) as HB. fold B in HB.
  unfold parse_refdef.
  rewrite scan_refdef_id_line by lia. cbv beta iota zeta.
  replace (Iter s (B + 4) ==! Iter s 0) with false
    by (symmetry; apply Z.eqb_neq; cbn [idx]; lia).
  replace (ch "^" =? at_index (decode_linkid (cbegin_of b) (cend_of b)) 0)
    with false by (symmetry; apply Z.eqb_neq; exact Hcaret).
  cbn [orb]. rewrite scan_refdef_uri_line by lia. cbv beta iota zeta.
  replace (Iter s (B + 4 + U) ==! Iter s 0) with false
    by (symmetry; apply Z.eqb_neq; cbn [idx]; lia).
  rewrite Htitle. cbv beta iota zeta. rewrite Hrest.
  replace (cend_of s <! cend_of s) with false
    by (symmetry; apply Z.ltb_irrefl).
  cbn [andb]. reflexivity.
Qed.

Lemma split_lines_definition_line fuel output dict p3 title :
  B + 5 <= Z.of_nat fuel ->
  ch "^" <> at_index (decode_linkid (cbegin_of b) (cend_of b)) 0 ->
  scan_refdef_title (Iter s (B + 4 + U)) (cend_of s) [] = (p3, title) ->
  scan_of (scan_of_pred p3 (cend_of s) 0 (-1) ismdspace) (cend_of s) 1 1 NL
  = cend_of s ->
  split_lines fuel s output dict
  = Some (output,
          dict_assign dict (decode_linkid (cbegin_of b) (cend_of b))
            (definition_entry b u title)).
Proof.
  intros Hfuel Hcaret Htitle Hrest.
  destruct (definition_anatomy b u tail) as (Hsize & Hop & _).
  fold s B U in Hsize, Hop.
  pose proof (wsize_nonneg u) as HU. fold U in HU.
  pose proof (wsize_nonneg b) as HB. fold B in HB.
  unfold split_lines.
  destruct fuel as [|fuel]; [lia|]. rewrite split_lines_while_unfold.
  cbv beta iota zeta.
  change (cbegin_of s) with (Iter s 0).
  replace (Iter s 0 <! cend_of s) with true
    by (symmetry; apply Z.ltb_lt; change (0 < wsize s); lia).
  rewrite parse_blockcode_skips
    by (unfold deref; cbn [str idx]; rewrite Hop; reflexivity).
  cbv beta iota zeta.
  replace (Iter s 0 <! Iter s 0) with false by reflexivity.
  rewrite parse_blockhtml_skips
    by (unfold deref; cbn [str idx]; rewrite Hop; reflexivity).
  cbv beta iota zeta.
  replace (Iter s 0 <! Iter s 0) with false by reflexivity.
  rewrite (@parse_refdef_line fuel dict p3 title) by (assumption || lia).
  cbv beta iota zeta.
  replace (Iter s 0 <! cend_of s) with true
    by (symmetry; apply Z.ltb_lt; change (0 < wsize s); lia).
  destruct fuel as [|fuel]; [lia|]. rewrite split_lines_while_unfold.
  cbv beta iota zeta.
  replace (cend_of s <! cend_of s) with false
    by (symmetry; apply Z.ltb_irrefl).
  reflexivity.
Qed.

End DefinitionLine.

Lemma bare_target_first (u tail : wstring) :
  bare_target u = true -> ismdspace (at_index tail 0) = false \/ u <> [] ->
  ismdspace (at_index (u ++ tail) 0) = false.
Proof.
  intros Hu Ht. pose proof (wsize_nonneg u) as HU.
  destruct (Z.eq_dec (wsize u) 0) as [E | E].
  - rewrite (wsize_zero u E) in *. destruct Ht as [Ht | Ht];
      [exact Ht | congruence].
  - rewrite at_index_app_l by lia.
    unfold bare_target in Hu. apply andb_prop in Hu as [Hall _].
    pose proof (@forallb_at_index _ u 0 Hall ltac:(lia)) as Hg.
    unfold ismdgraph in Hg. unfold ismdspace. tests. chars.
    apply orb_false_intro; apply Z.eqb_neq; lia.
Qed.

(** After the target of [[b]: uri] there is no title, and the line ends. *)
Lemma scan_refdef_title_none (s : wstring) (E : Z) :
  0 <= E -> at_index s E = NL -> wsize s = E + 1 ->
  scan_refdef_title (Iter s E) (cend_of s) [] = (Iter s E, [])
  /\ scan_of (scan_of_pred (Iter s E) (cend_of s) 0 (-1) ismdspace)
       (cend_of s) 1 1 NL = cend_of s.
Proof.
  intros HE Hnl Hsize.
  assert (Hend : idx (cend_of s) = wsize s) by reflexivity.
  assert (Hstay : scan_of_pred (Iter s E) (cend_of s) 0 (-1) ismdspace
                  = Iter s E).
  { apply scan_of_pred_stay. unfold deref. cbn [str idx]. rewrite Hnl.
    reflexivity. }
  assert (Hline : scan_of (Iter s E) (cend_of s) 1 1 NL = cend_of s).
  { unfold scan_of.
    rewrite (@scan_of_pred_run_bounded (Iter s E) (cend_of s) 1 1
               (Z.eqb NL) (E + 1)); cbn [str idx].
    - rewrite <- Hsize. reflexivity.
    - right. reflexivity.
    - lia.
    - rewrite Hend. lia.
    - rewrite Hend. split; [lia|]. split.
      + intros m Hm. replace m with E by lia. rewrite Hnl. reflexivity.
      + left. lia. }
  split.
  - unfold scan_refdef_title. rewrite Hstay. cbv beta iota zeta.
    rewrite Hline.
    replace (Iter s E <! cend_of s) with true
      by (symmetry; apply Z.ltb_lt; change (E < wsize s); lia).
    rewrite scan_of_pred_at_end by lia.
    replace (cend_of s <! cend_of s) with false
      by (symmetry; apply Z.ltb_irrefl).
    rewrite andb_false_r. reflexivity.
  - rewrite Hstay. exact Hline.
Qed.

(** X17. A line [[b]: uri] is a reference definition: [split_lines] makes
    no token of it and stores [uri], without a title, under the normal
    form of the label [b].  The label is a non-empty text of printable
    characters without brackets and backslashes whose normal form does
    not begin with [^]; the target is a text of visible characters that
    does not begin with [<].  The target can be empty: the definition
    is stored all the same. *)
Theorem split_lines_definition (b u : wstring) fuel output dict :
  plain_label b = true -> bare_target u = true ->
  ch "^" <> at_index (decode_linkid (cbegin_of b) (cend_of b)) 0 ->
  wsize b + 5 <= Z.of_nat fuel ->
  split_lines fuel (definition_form b u) output dict
  = Some (output,
          dict_assign dict (decode_linkid (cbegin_of b) (cend_of b))
            (definition_entry b u [])).
Proof.
  intros Hb Hu Hcaret Hfuel.
  change (definition_form b u)
    with (List.concat (definition_segments b u [NL])).
  destruct (definition_anatomy b u [NL])
    as (Hsize & _ & _ & _ & _ & _ & _ & Ht & _).
  pose proof (wsize_nonneg u) as HU. pose proof (wsize_nonneg b) as HB.
  specialize (Ht 0 ltac:(cbn; lia)).
  replace (wsize b + 4 + wsize u + 0) with (wsize b + 4 + wsize u) in Ht
    by lia.
  change (wsize [NL]) with 1 in Hsize.
  destruct (@scan_refdef_title_none
              (List.concat (definition_segments b u [NL]))
              (wsize b + 4 + wsize u) ltac:(lia) Ht ltac:(lia))
    as (Htitle & Hrest).
  apply (@split_lines_definition_line b u [NL] Hb Hu ltac:(cbn; lia)
           eq_refl
           (@bare_target_first u [NL] Hu (or_introl eq_refl))
           fuel output dict _ _ Hfuel Hcaret Htitle Hrest).
Qed.

Lemma split_lines_definition_witness :
  split_lines 20 (definition_form (L "Home Page") (L "http://example.com/"))
    [] []
  = Some ([],
          [(L "home page",
            Reflink (L "home page") (L "http://example.com/") [])]).
Proof.
  apply (@split_lines_definition (L "Home Page") (L "http://example.com/")
           20 [] []); [reflexivity | reflexivity | discriminate | ].
  vm_compute. discriminate.
Defined.

(** After the target of [[b]: uri "title"]. *)
Lemma scan_refdef_title_quoted (s : wstring) (E T : Z) :
  0 <= E -> 1 <= T ->
  at_index s E = ch " " -> at_index s (E + 1) = DQUOTE ->
  (forall m, E + 2 <= m < E + 2 + T -> ismdprint (at_index s m) = true) ->
  at_index s (E + 2 + T) = DQUOTE -> at_index s (E + 3 + T) = NL ->
  wsize s = E + 4 + T ->
  scan_refdef_title (Iter s E) (cend_of s) []
  = (Iter s (E + 3 + T), slice (Iter s (E + 2)) (Iter s (E + 2 + T)))
  /\ scan_of (scan_of_pred (Iter s (E + 3 + T)) (cend_of s) 0 (-1) ismdspace)
       (cend_of s) 1 1 NL = cend_of s.
Proof.
  intros HE HT Hsp Hq1 Hprint Hq2 Hnl Hsize.
  assert (Hend : idx (cend_of s) = wsize s) by reflexivity.
  split.
  - unfold scan_refdef_title.
    rewrite (@scan_of_pred_run (Iter s E) (cend_of s) 0 ismdspace (E + 1));
      cbn [str idx].
    2:{ left. reflexivity. }
    2:{ rewrite Hend. lia. }
    2:{ rewrite Hend. split; [lia|]. split.
        - intros m Hm. replace m with E by lia. rewrite Hsp. reflexivity.
        - right. rewrite Hq1. reflexivity. }
    cbv beta iota zeta.
    replace (scan_of (Iter s (E + 1)) (cend_of s) 1 1 NL)
      with (Iter s (E + 1)).
    2:{ symmetry. unfold scan_of. apply scan_of_pred_stay.
        unfold deref. cbn [str idx]. rewrite Hq1. reflexivity. }
    replace (Iter s (E + 1) <! Iter s (E + 1)) with false
      by (symmetry; apply Z.ltb_irrefl).
    cbv iota.
    replace (Iter s E <! Iter s (E + 1)) with true
      by (symmetry; apply Z.ltb_lt; cbn [idx]; lia).
    replace (Iter s (E + 1) <! cend_of s) with true
      by (symmetry; apply Z.ltb_lt; change (E + 1 < wsize s); lia).
    replace (deref (Iter s (E + 1))) with DQUOTE
      by (symmetry; exact Hq1).
    replace (DQUOTE =? DQUOTE) with true by reflexivity.
    replace (ch "(" =? DQUOTE) with false by reflexivity.
    cbn [andb orb]. cbv iota.
    rewrite (@scan_of_pred_run (Iter s (E + 1)) (cend_of s) 0 ismdprint
               (E + 3 + T)); cbn [str idx].
    2:{ left. reflexivity. }
    2:{ rewrite Hend. lia. }
    2:{ rewrite Hend. split; [lia|]. split.
        - intros m Hm.
          destruct (Z.eq_dec m (E + 1)) as [-> | ];
            [rewrite Hq1; reflexivity|].
          destruct (Z.eq_dec m (E + 2 + T)) as [-> | ];
            [rewrite Hq2; reflexivity|].
          apply Hprint. lia.
        - right. rewrite Hnl. reflexivity. }
    rewrite (@rscan_of_pred_run (Iter s (E + 1)) (Iter s (E + 3 + T))
               ismdspace (E + 3 + T)); cbn [str idx].
    2:{ lia. }
    2:{ split; [lia|]. split; [intros m Hm; lia|]. right.
        replace (E + 3 + T - 1) with (E + 2 + T) by lia.
        rewrite Hq2. reflexivity. }
    unfold idiff. cbn [idx].
    replace (E + 3 + T - (E + 1) >? 2) with true
      by (symmetry; apply Z.gtb_lt; lia).
    replace (peek (Iter s (E + 3 + T)) (-1)) with DQUOTE
      by (unfold peek, deref, iadd; cbn [str idx];
          replace (E + 3 + T + -1) with (E + 2 + T) by lia;
          symmetry; exact Hq2).
    replace (DQUOTE =? DQUOTE) with true by reflexivity.
    cbn [andb].
    replace (Iter s (E + 1) +! 1) with (Iter s (E + 2))
      by (unfold iadd; cbn [str idx]; f_equal; lia).
    replace (Iter s (E + 3 + T) +! -1) with (Iter s (E + 2 + T))
      by (unfold iadd; cbn [str idx]; f_equal; lia).
    reflexivity.
  - rewrite scan_of_pred_stay
      by (unfold deref; cbn [str idx]; rewrite Hnl; reflexivity).
    unfold scan_of.
    rewrite (@scan_of_pred_run_bounded (Iter s (E + 3 + T)) (cend_of s) 1 1
               (Z.eqb NL) (E + 4 + T)); cbn [str idx].
    + rewrite <- Hsize. reflexivity.
    + right. reflexivity.
    + lia.
    + rewrite Hend. lia.
    + rewrite Hend. split; [lia|]. split.
      * intros m Hm. replace m with (E + 3 + T) by lia. rewrite Hnl.
        reflexivity.
      * left. lia.
Qed.

(** X18. A line [[b]: uri "title"] is a reference definition with a
    title: [split_lines] makes no token of it and stores [uri] and
    [title] under the normal form of the label [b].  The title is a
    non-empty text of printable characters, double quotes included. *)
Theorem split_lines_titled_definition (b u t : wstring) fuel output dict :
  plain_label b = true -> bare_target u = true -> u <> [] ->
  quoted_title t = true ->
  ch "^" <> at_index (decode_linkid (cbegin_of b) (cend_of b)) 0 ->
  wsize b + 5 <= Z.of_nat fuel ->
  split_lines fuel (titled_definition_form b u t) output dict
  = Some (output,
          dict_assign dict (decode_linkid (cbegin_of b) (cend_of b))
            (definition_entry b u t)).
Proof.
  intros Hb Hu Hne Ht Hcaret Hfuel.
  set (tail := [ch " "; DQUOTE] ++ t ++ [DQUOTE; NL]).
  set (s := List.concat (definition_segments b u tail)).
  assert (Es : titled_definition_form b u t = s).
  { unfold titled_definition_form, s, definition_segments, tail.
    cbn [List.concat app]. rewrite app_nil_r. reflexivity. }
  rewrite Es.
  unfold quoted_title in Ht. apply andb_prop in Ht as [Htne Htall].
  pose proof (nonempty_wsize t Htne) as HT.
  pose proof (wsize_nonneg u) as HU. pose proof (wsize_nonneg b) as HB.
  assert (Htail : wsize tail = wsize t + 4).
  { unfold tail.
    repeat (rewrite wsize_app || rewrite wsize_cons || rewrite wsize_nil).
    lia. }
  destruct (definition_anatomy b u tail)
    as (Hsize & _ & _ & _ & _ & _ & _ & Hat & _).
  fold s in Hsize, Hat. rewrite Htail in Hsize, Hat.
  set (E := wsize b + 4 + wsize u) in *.
  assert (Hmid : forall i, 0 <= i < wsize t ->
            at_index tail (2 + i) = at_index t i).
  { intros i Hi. exact (@at_index_mid [ch " "; DQUOTE] t [DQUOTE; NL] i Hi). }
  assert (Hq2 : at_index tail (2 + wsize t) = DQUOTE).
  { unfold tail.
    rewrite at_index_app_r by (change (wsize [ch " "; DQUOTE]) with 2; lia).
    change (wsize [ch " "; DQUOTE]) with 2.
    rewrite at_index_app_r by lia.
    replace (2 + wsize t - 2 - wsize t) with 0 by lia.
    reflexivity. }
  assert (Hnl : at_index tail (3 + wsize t) = NL).
  { unfold tail.
    rewrite at_index_app_r by (change (wsize [ch " "; DQUOTE]) with 2; lia).
    change (wsize [ch " "; DQUOTE]) with 2.
    rewrite at_index_app_r by lia.
    replace (3 + wsize t - 2 - wsize t) with 1 by lia.
    reflexivity. }
  assert (Hslice : slice (Iter s (E + 2)) (Iter s (E + 2 + wsize t)) = t).
  { set (pre := ch "[" :: b ++ [ch "]"; ch ":"; ch " "] ++ u
                ++ [ch " "; DQUOTE]).
    assert (Epre : s = pre ++ t ++ [DQUOTE; NL]).
    { unfold s, pre, definition_segments, tail. cbn [List.concat app].
      rewrite app_nil_r.
      repeat (progress (rewrite <- ?app_assoc; cbn [app])). reflexivity. }
    assert (Hpre : wsize pre = E + 2).
    { unfold pre, E.
      repeat (rewrite wsize_app || rewrite wsize_cons || rewrite wsize_nil).
      lia. }
    rewrite Epre, <- Hpre. apply slice_mid. }
  destruct (@scan_refdef_title_quoted s E (wsize t)) as (Htitle & Hrest).
  { lia. }
  { lia. }
  { replace E with (E + 0) by lia. rewrite Hat by lia. reflexivity. }
  { rewrite Hat by lia. reflexivity. }
  { intros m Hm. replace m with (E + (2 + (m - (E + 2)))) by lia.
    rewrite Hat by lia. rewrite Hmid by lia.
    apply (@forallb_at_index _ t _ Htall). lia. }
  { replace (E + 2 + wsize t) with (E + (2 + wsize t)) by lia.
    rewrite Hat by lia. exact Hq2. }
  { replace (E + 3 + wsize t) with (E + (3 + wsize t)) by lia.
    rewrite Hat by lia. exact Hnl. }
  { lia. }
  rewrite Hslice in Htitle.
  apply (@split_lines_definition_line b u tail Hb Hu ltac:(lia) eq_refl
           (@bare_target_first u tail Hu (or_intror Hne))
           fuel output dict _ _ Hfuel Hcaret Htitle Hrest).
Qed.

Lemma split_lines_titled_definition_witness :
  split_lines 20
    (titled_definition_form (L "Home Page") (L "http://example.com/")
       (L "My home"))
    [] []
  = Some ([],
          [(L "home page",
            Reflink (L "home page") (L "http://example.com/")
              (L "My home"))]).
Proof.
  apply (@split_lines_titled_definition (L "Home Page")
           (L "http://example.com/") (L "My home") 20 [] []);
    [reflexivity | reflexivity | discriminate | reflexivity | discriminate | ].
  vm_compute. discriminate.
Defined.

(** ** ATX headings, from the text to the markup *)

Lemma at_index_repeat (x : wchar) (k : nat) (m : Z) :
  0 <= m < Z.of_nat k -> at_index (repeat x k) m = x.
Proof.
  intros Hm. symmetry.
  apply (@Forall_at_index (eq x) (repeat x k) m).
  - apply Forall_forall. intros y Hy. symmetry. exact (repeat_spec _ _ _ Hy).
  - unfold wsize. rewrite repeat_length. exact Hm.
Qed.

Lemma last_cons_default (l : wstring) :
  forall x a b, last (x :: l) a = last (x :: l) b.
Proof.
  induction l as [|y l IH]; intros x a b; [reflexivity|].
  change (last (x :: y :: l) a) with (last (y :: l) a).
  change (last (x :: y :: l) b) with (last (y :: l) b). apply IH.
Qed.

Lemma last_cons_self (l : wstring) (c d : wchar) :
  last (c :: l) d = last l c.
Proof.
  destruct l as [|x l]; [reflexivity|].
  change (last (c :: x :: l) d) with (last (x :: l) d).
  apply last_cons_default.
Qed.

Lemma nth_length_last (l : wstring) :
  forall c d, nth (List.length l) (c :: l) d = last l c.
Proof.
  induction l as [|x l IH]; intros c d; [reflexivity|].
  change (nth (List.length (x :: l)) (c :: x :: l) d)
    with (nth (List.length l) (x :: l) d).
  rewrite IH.
  destruct l as [|y l]; [reflexivity|].
  change (last (x :: y :: l) c) with (last (y :: l) c).
  apply last_cons_default.
Qed.

Section HeadingLine.

Variable k : nat.
Variable c : wchar.
Variable w : wstring.
Hypothesis some_hash : (1 <= k)%nat.
Hypothesis first_alnum : ismdalnum c = true.
Hypothesis rest_words : forallb word_char w = true.
Hypothesis last_alnum : ismdalnum (last w c) = true.

Let t : wstring := c :: w.
Let s : wstring := atx_heading_form k t.
Let K := Z.of_nat k.
Let T := wsize t.

Lemma heading_line_anatomy :
  wsize s = K + T + 2 /\ 1 <= T
  /\ (forall m, 0 <= m < K -> at_index s m = ch "#")
  /\ at_index s K = ch " "
  /\ (forall i, 0 <= i < T -> at_index s (K + 1 + i) = at_index t i)
  /\ at_index s (K + 1 + T) = NL
  /\ slice (Iter s (K + 1)) (Iter s (K + 1 + T)) = t.
Proof.
  set (segs := atx_heading_segments k t).
  assert (Es : s = List.concat segs).
  { unfold s, atx_heading_form, segs, atx_heading_segments.
    cbn [List.concat]. rewrite app_nil_r. reflexivity. }
  assert (Hk : wsize (repeat (ch "#") k) = K)
    by (unfold wsize; rewrite repeat_length; reflexivity).
  assert (H0 : offset segs 0 = 0) by reflexivity.
  assert (H1 : offset segs 1 = K).
  { unfold offset, segs, atx_heading_segments.
    cbn [firstn List.concat nth app].
    repeat (rewrite wsize_app || rewrite wsize_cons || rewrite wsize_nil).
    lia. }
  assert (H2 : offset segs 2 = K + 1).
  { unfold offset, segs, atx_heading_segments.
    cbn [firstn List.concat nth app].
    repeat (rewrite wsize_app || rewrite wsize_cons || rewrite wsize_nil).
    lia. }
  assert (H3 : offset segs 3 = K + 1 + T).
  { unfold offset, segs, atx_heading_segments.
    cbn [firstn List.concat nth app].
    repeat (rewrite wsize_app || rewrite wsize_cons || rewrite wsize_nil).
    fold T. lia. }
  assert (HT : 1 <= T).
  { unfold T, t. rewrite wsize_cons. pose proof (wsize_nonneg w). lia. }
  split.
  { unfold s, atx_heading_form.
    repeat (rewrite wsize_app || rewrite wsize_cons || rewrite wsize_nil).
    fold T. lia. }
  split; [exact HT|].
  rewrite Es.
  split.
  { intros m Hm. replace m with (offset segs 0 + m) by lia.
    rewrite at_index_segment;
      [|simpl; lia
       |change (nth 0 segs []) with (repeat (ch "#") k); rewrite Hk;
        exact Hm].
    apply at_index_repeat. exact Hm. }
  split.
  { replace K with (offset segs 1 + 0) by lia.
    rewrite at_index_segment; [reflexivity | simpl; lia | cbn; lia]. }
  split.
  { intros i Hi. rewrite <- H2.
    rewrite at_index_segment; [reflexivity | simpl; lia | exact Hi]. }
  split.
  { replace (K + 1 + T) with (offset segs 3 + 0) by lia.
    rewrite at_index_segment; [reflexivity | simpl; lia | cbn; lia]. }
  rewrite <- H2 at 1.
  replace (K + 1 + T) with (offset segs 2 + wsize (nth 2 segs [])) by
    (rewrite H2; reflexivity).
  apply (@slice_segment segs 2). simpl. lia.
Qed.

Lemma heading_text_words : forallb word_char t = true.
Proof.
  unfold t. cbn [forallb]. rewrite rest_words. unfold word_char.
  rewrite first_alnum. reflexivity.
Qed.

Lemma heading_text_last : at_index t (T - 1) = last w c.
Proof.
  unfold T, t, at_index, wsize. cbn [List.length].
  replace (Z.of_nat (S (List.length w)) - 1 <? 0) with false
    by (symmetry; apply Z.ltb_ge; lia).
  replace (Z.to_nat (Z.of_nat (S (List.length w)) - 1))
    with (List.length w) by lia.
  apply nth_length_last.
Qed.

(** No character of the line opens a bracket. *)
Lemma heading_line_no_bracket i : (ch "[" =? at_index s i) = false.
Proof.
  destruct heading_line_anatomy as (Hs & HT & Hh & Hsp & Ht & Hnl & _).
  assert (HK : 1 <= K) by (unfold K; lia).
  destruct (Z_lt_ge_dec i 0) as [Hneg | Hpos].
  { unfold at_index. replace (i <? 0) with true
      by (symmetry; apply Z.ltb_lt; lia). reflexivity. }
  destruct (Z_lt_ge_dec i K) as [H1 | H1]; [rewrite Hh by lia; reflexivity|].
  destruct (Z.eq_dec i K) as [-> | H2]; [rewrite Hsp; reflexivity|].
  destruct (Z_lt_ge_dec i (K + 1 + T)) as [H3 | H3].
  - replace i with (K + 1 + (i - (K + 1))) by lia. rewrite Ht by lia.
    pose proof (@forallb_at_index _ t (i - (K + 1)) heading_text_words
                  ltac:(fold T; lia)) as Hw.
    destruct (word_char_cases _ Hw) as [-> | Hal]; [reflexivity|].
    destruct (alnum_tests _ Hal) as (Hp & _).
    unfold wfind in Hp. cbn [L existsb] in Hp.
    apply Z.eqb_neq. intros E. rewrite <- E in Hp. discriminate Hp.
  - destruct (Z.eq_dec i (K + 1 + T)) as [-> | Hne];
      [rewrite Hnl; reflexivity|].
    rewrite at_index_outside by lia. reflexivity.
Qed.

Lemma heading_line_print m :
  0 <= m < K + 1 + T -> ismdprint (at_index s m) = true.
Proof.
  intros Hm.
  destruct heading_line_anatomy as (Hs & HT & Hh & Hsp & Ht & Hnl & _).
  destruct (Z_lt_ge_dec m K) as [H1 | H1]; [rewrite Hh by lia; reflexivity|].
  destruct (Z.eq_dec m K) as [-> | H2]; [rewrite Hsp; reflexivity|].
  replace m with (K + 1 + (m - (K + 1))) by lia. rewrite Ht by lia.
  pose proof (@forallb_at_index _ t (m - (K + 1)) heading_text_words
                ltac:(fold T; lia)) as Hw.
  destruct (word_char_cases _ Hw) as [-> | Hal]; [reflexivity|].
  apply (alnum_tests _ Hal).
Qed.

Lemma heading_line_split fuel :
  (3 <= fuel)%nat ->
  split_lines fuel s [] []
  = Some ([Token LINE (cbegin_of s) (cend_of s)], []).
Proof.
  intros Hf. destruct fuel as [|[|[|fuel]]]; try lia.
  destruct heading_line_anatomy as (Hs & HT & Hh & Hsp & Ht & Hnl & _).
  assert (HK : 1 <= K) by (unfold K; lia).
  assert (Hend : idx (cend_of s) = wsize s) by reflexivity.
  unfold split_lines. rewrite split_lines_while_unfold. cbv zeta.
  assert (Hlt : (cbegin_of s <! cend_of s) = true)
    by (apply Z.ltb_lt; rewrite Hend; cbn [cbegin_of idx]; lia).
  assert (Hnlt : (cbegin_of s <! cbegin_of s) = false) by apply Z.ltb_irrefl.
  assert (Hc : deref (cbegin_of s) = ch "#")
    by (unfold deref; cbn [cbegin_of str idx]; apply Hh; lia).
  rewrite Hlt.
  rewrite parse_blockcode_skips by (rewrite Hc; reflexivity).
  rewrite Hnlt.
  rewrite parse_blockhtml_skips by (rewrite Hc; reflexivity).
  rewrite Hnlt.
  rewrite parse_refdef_skips by (intros i; apply heading_line_no_bracket).
  rewrite Hnlt.
  rewrite (@scan_of_pred_stay (cbegin_of s) (cend_of s) 0 (-1) ismdspace)
    by (rewrite Hc; reflexivity).
  rewrite (@scan_of_pred_run (cbegin_of s) (cend_of s) 0 ismdprint
             (K + 1 + T));
    [|left; reflexivity | rewrite Hend; cbn [cbegin_of idx]; lia|].
  2:{ cbn [cbegin_of str idx]. rewrite Hend. split; [lia|]. split.
      - intros m Hm. apply heading_line_print. lia.
      - right. rewrite Hnl. reflexivity. }
  cbn [cbegin_of str].
  unfold scan_of. rewrite scan_of_pred_one. unfold ilt, deref.
  rewrite Hend. cbn [str idx]. rewrite Hnl, Z.eqb_refl.
  replace (K + 1 + T <? wsize s) with true
    by (symmetry; apply Z.ltb_lt; lia).
  cbn [andb]. unfold ieq, iadd. cbn [str idx].
  replace (idx (cbegin_of s) =? K + 1 + T) with false
    by (symmetry; apply Z.eqb_neq; cbn [cbegin_of idx]; lia).
  replace (Iter s (K + 1 + T + 1)) with (cend_of s)
    by (unfold cend_of; fold (wsize s); f_equal; lia).
  rewrite split_lines_while_unfold. cbv zeta.
  replace (cend_of s <! cend_of s) with false
    by (symmetry; apply Z.ltb_irrefl).
  reflexivity.
Qed.

Let line : token_type := Token LINE (cbegin_of s) (cend_of s).

Lemma heading_line_stay n1 n2 pr :
  pr (ch "#") = false ->
  scan_of_pred (cbegin_of s) (cend_of s) n1 n2 pr = cbegin_of s.
Proof.
  intros H. apply scan_of_pred_stay.
  destruct heading_line_anatomy as (_ & _ & Hh & _).
  unfold deref. cbn [cbegin_of str idx]. rewrite Hh by (unfold K; lia).
  exact H.
Qed.

Lemma heading_line_tab_not :
  scan_tab_not (cbegin_of s) (cend_of s) = cbegin_of s.
Proof.
  unfold scan_tab_not, scan_of. apply heading_line_stay. reflexivity.
Qed.

Lemma heading_line_tab : scan_tab (cbegin_of s) (cend_of s) = cbegin_of s.
Proof.
  unfold scan_tab, scan_of.
  rewrite (@heading_line_stay 0 3 (Z.eqb (ch " "))) by reflexivity.
  rewrite (@heading_line_stay 1 1 (Z.eqb (ch " "))) by reflexivity.
  rewrite (@heading_line_stay 1 1 (Z.eqb TAB)) by reflexivity.
  cbv zeta. unfold idiff, ilt. rewrite Z.sub_diag, Z.ltb_irrefl.
  reflexivity.
Qed.

(** The heading line read by [parse_atxheading]. *)
Lemma heading_line_atx pe dol output :
  parse_atxheading pe [line] 0 dol output
  = (1, output ++ [Token (stag (heading_level k)) (Iter s (K + 1))
                     (Iter s (K + 1));
                   Token INLINE (Iter s (K + 1)) (Iter s (K + 1 + T));
                   Token (etag (heading_level k)) (Iter s (K + 1 + T))
                     (Iter s (K + 1 + T))]).
Proof.
  destruct heading_line_anatomy as (Hs & HT & Hh & Hsp & Ht & Hnl & _).
  assert (HK : 1 <= K) by (unfold K; lia).
  assert (Hend : idx (cend_of s) = wsize s) by reflexivity.
  assert (Hfirst : ismdalnum (at_index s (K + 1)) = true).
  { replace (K + 1) with (K + 1 + 0) by lia. rewrite Ht by lia.
    exact first_alnum. }
  assert (Hlast : ismdalnum (at_index s (K + T)) = true).
  { replace (K + T) with (K + 1 + (T - 1)) by lia. rewrite Ht by lia.
    rewrite heading_text_last. exact last_alnum. }
  destruct (alnum_tests _ Hfirst) as (_ & _ & _ & Hfs & _).
  destruct (alnum_tests _ Hlast)
    as (_ & _ & _ & Hls & _ & _ & Hlh & _ & Hln & _ & Hlt & _).
  unfold parse_atxheading. change (tok pe [line] 0) with line.
  cbn [line cbegin cend]. rewrite heading_line_tab_not.
  unfold scan_of, rscan_of.
  rewrite (@scan_of_pred_run (cbegin_of s) (cend_of s) 1 (Z.eqb (ch "#")) K);
    cbn [cbegin_of str idx].
  2:{ right. reflexivity. }
  2:{ rewrite Hend. lia. }
  2:{ rewrite Hend. split; [lia|]. split.
      - intros m Hm. rewrite Hh by lia. reflexivity.
      - right. rewrite Hsp. reflexivity. }
  cbv zeta. change (cbegin_of s) with (Iter s 0).
  replace (Iter s K ==! Iter s 0) with false
    by (symmetry; apply Z.eqb_neq; cbn [idx]; lia).
  cbv iota.
  rewrite (@scan_of_pred_run (Iter s K) (cend_of s) 0 ismdspace (K + 1));
    cbn [str idx].
  2:{ left. reflexivity. }
  2:{ rewrite Hend. lia. }
  2:{ rewrite Hend. split; [lia|]. split.
      - intros m Hm. replace m with K by lia. rewrite Hsp. reflexivity.
      - right. exact Hfs. }
  rewrite (@rscan_of_pred_run (Iter s (K + 1)) (cend_of s) ismdwhite
             (K + 1 + T)); cbn [cend_of str idx].
  2:{ fold (wsize s). lia. }
  2:{ fold (wsize s). split; [lia|]. split.
      - intros m Hm. replace m with (K + 1 + T) by lia. rewrite Hnl.
        reflexivity.
      - right. replace (K + 1 + T - 1) with (K + T) by lia.
        pose proof Hls as Hls'. unfold ismdspace in Hls'.
        apply orb_false_elim in Hls' as (Hl1 & Hl2).
        unfold ismdwhite. rewrite Hl1, Hl2.
        replace (NL =? at_index s (K + T)) with false
          by (symmetry; apply Z.eqb_neq; intros E; apply Hln; symmetry;
              exact E).
        reflexivity. }
  rewrite (@rscan_of_pred_run (Iter s (K + 1)) (Iter s (K + 1 + T))
             (Z.eqb (ch "#")) (K + 1 + T)); cbn [str idx].
  2:{ lia. }
  2:{ split; [lia|]. split; [intros m Hm; lia|]. right.
      replace (K + 1 + T - 1) with (K + T) by lia.
      apply Z.eqb_neq. intros E. apply Hlh. symmetry. exact E. }
  rewrite (@rscan_of_pred_run (Iter s (K + 1)) (Iter s (K + 1 + T))
             ismdspace (K + 1 + T)); cbn [str idx].
  2:{ lia. }
  2:{ split; [lia|]. split; [intros m Hm; lia|]. right.
      replace (K + 1 + T - 1) with (K + T) by lia. exact Hls. }
  replace (Iter s (K + 1) ==! Iter s (K + 1 + T)) with false
    by (symmetry; apply Z.eqb_neq; cbn [idx]; lia).
  cbv iota. unfold idiff. cbn [idx].
  replace (if K - 0 >? 6 then 6 else K - 0) with (heading_level k).
  2:{ unfold heading_level. fold K.
      destruct (K - 0 >? 6) eqn:E6;
        [apply Z.gtb_lt in E6
        | rewrite Z.gtb_ltb in E6; apply Z.ltb_ge in E6]; lia. }
  unfold push_back. rewrite <- !app_assoc. reflexivity.
Qed.

Lemma heading_line_block pe fuel :
  (2 <= fuel)%nat ->
  parse_block pe fuel [line] []
  = Some [Token (stag (heading_level k)) (Iter s (K + 1)) (Iter s (K + 1));
          Token INLINE (Iter s (K + 1)) (Iter s (K + 1 + T));
          Token (etag (heading_level k)) (Iter s (K + 1 + T))
            (Iter s (K + 1 + T))].
Proof.
  intros Hf. destruct fuel as [|[|fuel]]; try lia.
  destruct heading_line_anatomy as (Hs & HT & Hh & Hsp & Ht & Hnl & _).
  assert (HK : 1 <= K) by (unfold K; lia).
  assert (Hend : idx (cend_of s) = wsize s) by reflexivity.
  assert (Hlt : (cbegin_of s <! cend_of s) = true)
    by (apply Z.ltb_lt; rewrite Hend; cbn [cbegin_of idx]; lia).
  assert (Hrefl : (cbegin_of s ==! cbegin_of s) = true) by apply Z.eqb_refl.
  assert (Hc : deref (cbegin_of s) = ch "#")
    by (unfold deref; cbn [cbegin_of str idx]; apply Hh; lia).
  unfold parse_block. remember (S fuel) as f eqn:Ef.
  cbn [parse_block_while]. cbv zeta.
  change (dol_of [line]) with 1. change (0 =? 1) with false.
  change (tok pe [line] 0) with line.
  change (kind line) with LINE.
  change (kind_eqb SLITEM LINE) with false.
  change (kind_eqb LINE LINE) with true. cbn [negb]. cbv iota.
  (* a horizontal rule? *)
  unfold parse_hrule. change (tok pe [line] 0) with line.
  cbn [line cbegin cend]. unfold scan_hrule. rewrite heading_line_tab_not.
  rewrite Hc. change (ch "*" =? ch "#") with false.
  change (ch "_" =? ch "#") with false. change (ch "-" =? ch "#") with false.
  rewrite andb_false_r.
  cbn [negb]. cbv iota zeta. rewrite Hrefl. cbv iota.
  change (0 =? 0) with true. cbn [negb]. cbv iota.
  (* indented code? *)
  unfold parse_tabcode. change (tok pe [line] 0) with line.
  cbn [line cbegin cend]. rewrite heading_line_tab.
  cbv zeta. rewrite Hrefl. cbv iota.
  change (0 =? 0) with true. cbn [negb]. cbv iota.
  (* a quotation? *)
  unfold parse_blockquote. change (tok pe [line] 0) with line.
  cbn [line cbegin cend]. rewrite heading_line_tab_not. unfold scan_of at 1.
  rewrite heading_line_stay by reflexivity.
  cbv zeta. rewrite Hrefl. cbv iota.
  change (0 =? 0) with true. cbn [negb]. cbv iota.
  (* a heading *)
  rewrite heading_line_atx. cbv iota beta.
  change (1 =? 0) with false. cbn [negb]. cbv iota.
  subst f. cbn [parse_block_while]. cbv zeta.
  change (dol_of [line]) with 1. change (1 =? 1) with true.
  cbn [negb]. cbv iota. reflexivity.
Qed.

End HeadingLine.

(** A block of one INLINE token of words between an opening and a closing
    block token is written as the opening markup, the words and the
    closing markup. *)
Lemma print_block_wrapped_words fuel (ks ke : kind_type)
    (a a' p q z z' : char_iterator) (t : wstring) :
  kind_eqb BLANK ks = false -> kind_leb HRULE ks = true ->
  kind_eqb SOLIST ks || kind_eqb SULIST ks = false ->
  kind_eqb BLANK ke = false -> kind_leb HRULE ke = true ->
  kind_eqb SOLIST ke || kind_eqb SULIST ke = false ->
  slice p q = t -> forallb word_char t = true -> 0 < wsize t ->
  last t 0 <> NL ->
  (Z.to_nat (wsize t) + 6 <= fuel)%nat ->
  print_block fuel [Token ks a a'; Token INLINE p q; Token ke z z'] [] []
  = Some (kindname ks ++ t ++ kindname ke).
Proof.
  intros Hsb Hsh Hsl Heb Heh Hel Hslice Hall Hn Hlast Hf.
  set (toks := [Token ks a a'; Token INLINE p q; Token ke z z']).
  assert (Hwords : forall m, 0 <= m < wsize t ->
                     word_char (at_index t m) = true)
    by (intros m Hm; apply forallb_at_index; assumption).
  unfold print_block.
  change (Z.to_nat (dol_of toks)) with 3%nat. cbn [skip_kind].
  change (tok null_token toks 0) with (Token ks a a'). cbn [kind].
  rewrite Hsb.
  destruct fuel as [|[|[|[|fuel]]]]; try lia.
  remember (S (S fuel)) as f2 eqn:Ef2.
  cbn [print_block_while]. cbv zeta.
  change (dol_of toks) with 3.
  change (0 <? 3) with true. cbv iota.
  change (tk toks 0) with (Token ks a a').
  cbn [kind]. rewrite Hsb, Hsh, Hsl.
  cbv iota beta. change (0 =? 0 + 1) with false. cbv iota.
  change (0 + 1 <? 3) with true. cbv iota.
  change (tk toks (0 + 1)) with (Token INLINE p q).
  cbn [kind]. change (kind_eqb BLANK INLINE) with false.
  change (kind_leb HRULE INLINE) with false.
  change (kind_eqb HTML INLINE) with false.
  change (kind_eqb CODE INLINE) with false.
  change (kind_eqb INLINE INLINE) with true. cbv iota.
  change (Z.to_nat (3 - (0 + 1))) with 2%nat. cbn [gather_inline].
  change (tk toks (0 + 1)) with (Token INLINE p q).
  change (tk toks (0 + 1 + 1)) with (Token ke z z').
  cbn [kind cbegin cend]. change (kind_eqb INLINE INLINE) with true.
  replace (kind_eqb INLINE ke) with false.
  2:{ symmetry. destruct ke; try reflexivity. discriminate Heh. }
  cbv iota zeta.
  rewrite Hslice, app_nil_l.
  replace (NL =? last t 0) with false
    by (symmetry; apply Z.eqb_neq; intros E; apply Hlast; symmetry; exact E).
  rewrite andb_false_r. cbv iota.
  rewrite parse_inline_words by (try assumption; subst f2; lia).
  rewrite print_inline_words by assumption.
  cbv beta iota. change (0 + 1 =? 0 + 1 + 1) with false. cbv iota.
  subst f2. cbn [print_block_while]. cbv zeta.
  change (dol_of toks) with 3.
  change (0 + 1 + 1 <? 3) with true. cbv iota.
  change (tk toks (0 + 1 + 1)) with (Token ke z z').
  cbn [kind]. rewrite Heb, Heh, Hel.
  cbv iota beta. change (0 + 1 + 1 =? 0 + 1 + 1 + 1) with false. cbv iota.
  change (0 + 1 + 1 + 1 <? 3) with false. cbv iota.
  rewrite app_nil_l, <- app_assoc. reflexivity.
Qed.

Lemma heading_markup (n : Z) :
  1 <= n <= 6 ->
  kindname (stag n) = heading_open n /\ kindname (etag n) = heading_close n
  /\ kind_eqb BLANK (stag n) = false /\ kind_leb HRULE (stag n) = true
  /\ kind_eqb SOLIST (stag n) || kind_eqb SULIST (stag n) = false
  /\ kind_eqb BLANK (etag n) = false /\ kind_leb HRULE (etag n) = true
  /\ kind_eqb SOLIST (etag n) || kind_eqb SULIST (etag n) = false.
Proof.
  intros Hn.
  assert (E : n = 1 \/ n = 2 \/ n = 3 \/ n = 4 \/ n = 5 \/ n = 6) by lia.
  destruct E as [-> | [-> | [-> | [-> | [-> | ->]]]]];
    repeat split; reflexivity.
Qed.

(** X19. An ATX heading of words: a line of [k] number signs ([k] at
    least 1), one space and a text of ASCII letters, digits and spaces
    that begins and ends with a letter or a digit is translated to that
    text between [<hN>] and [</hN>], where [N] is [k], or 6 when [k] is
    more than 6. *)
Theorem translate_atx_heading (k : nat) (c : wchar) (w : wstring) :
  (1 <= k)%nat -> ismdalnum c = true -> forallb word_char w = true ->
  ismdalnum (last w c) = true ->
  translates_to (atx_heading_form k (c :: w))
    (heading_open (heading_level k) ++ c :: w
     ++ heading_close (heading_level k)).
Proof.
  intros Hk Hc Hw Hl. exists (Z.to_nat (wsize (c :: w)) + 6)%nat.
  intros past_end fuel Hf. unfold translate, markdown.
  rewrite (@heading_line_split k c w Hk Hc Hw fuel) by lia.
  rewrite (@heading_line_block k c w Hk Hc Hl past_end fuel) by lia.
  destruct (@heading_line_anatomy k c w Hk) as (_ & HT & _ & _ & _ & _ & Hslice).
  destruct (@heading_markup (heading_level k))
    as (Eo & Ec & Hsb & Hsh & Hsl & Heb & Heh & Hel);
    [unfold heading_level; lia|].
  rewrite (@print_block_wrapped_words fuel _ _ _ _ _ _ _ _ (c :: w)
             Hsb Hsh Hsl Heb Heh Hel Hslice (@heading_text_words c w Hc Hw)
             ltac:(lia)); [| |exact Hf].
  - rewrite Eo, Ec. reflexivity.
  - intros E.
    rewrite last_cons_self in E. rewrite E in Hl. discriminate Hl.
Qed.

Lemma translate_atx_heading_witness :
  translates_to (L "## Chapter 2" ++ [NL]) (L "<h2>Chapter 2</h2>" ++ [NL]).
Proof.
  apply (@translate_atx_heading 2 (ch "C") (L "hapter 2"));
    [lia | reflexivity | reflexivity | reflexivity].
Defined.

(** ** A line on its own *)

Lemma parse_refdef_no_label fuel pos eos dict :
  (ch "[" =? deref (scan_tab_not pos eos)) = false ->
  parse_refdef (S fuel) pos eos dict = Some (pos, dict).
Proof.
  intros H. unfold parse_refdef, scan_refdef_id.
  set (p1 := scan_tab_not pos eos) in *.
  rewrite (@scan_quoted_no_open fuel p1 eos (ch "[") (ch "]") (ch "\")
             ismdprint H).
  assert (Hnlt : (p1 <! p1) = false) by (apply Z.ltb_irrefl).
  rewrite Hnlt. simpl.
  unfold ieq. rewrite Z.eqb_refl. reflexivity.
Qed.

(** One line of printable characters, not all of them spaces, that opens
    neither a fence, nor a tag, nor a reference definition, is one LINE
    token. *)
Lemma split_lines_single_line (body : wstring) (m : Z) fuel :
  forallb ismdprint body = true ->
  0 <= m < wsize body -> ismdspace (at_index body m) = false ->
  (ch "`" =? at_index body 0) = false ->
  (ch "<" =? at_index body 0) = false ->
  (ch "[" =? deref (scan_tab_not (cbegin_of (body ++ [NL]))
                      (cend_of (body ++ [NL])))) = false ->
  (3 <= fuel)%nat ->
  split_lines fuel (body ++ [NL]) [] []
  = Some ([Token LINE (cbegin_of (body ++ [NL])) (cend_of (body ++ [NL]))],
          []).
Proof.
  intros Hprint Hm Hns Hfence Htag Hlabel Hf.
  set (s := body ++ [NL]) in *.
  destruct fuel as [|[|[|fuel]]]; try lia.
  assert (Hs : wsize s = wsize body + 1)
    by (unfold s; rewrite wsize_app; reflexivity).
  assert (Hend : idx (cend_of s) = wsize s) by reflexivity.
  assert (Hat : forall i, i < wsize body -> at_index s i = at_index body i)
    by (intros i Hi; apply at_index_app_l; exact Hi).
  assert (Hnl : at_index s (wsize body) = NL).
  { unfold s. rewrite at_index_app_r by lia.
    replace (wsize body - wsize body) with 0 by lia. reflexivity. }
  unfold split_lines. rewrite split_lines_while_unfold. cbv zeta.
  assert (Hlt : (cbegin_of s <! cend_of s) = true)
    by (apply Z.ltb_lt; rewrite Hend; cbn [cbegin_of idx]; lia).
  assert (Hnlt : (cbegin_of s <! cbegin_of s) = false) by apply Z.ltb_irrefl.
  assert (Hc : deref (cbegin_of s) = at_index body 0)
    by (unfold deref; cbn [cbegin_of str idx]; apply Hat; lia).
  rewrite Hlt.
  rewrite parse_blockcode_skips by (rewrite Hc; exact Hfence).
  rewrite Hnlt.
  rewrite parse_blockhtml_skips by (rewrite Hc; exact Htag).
  rewrite Hnlt.
  rewrite parse_refdef_no_label by exact Hlabel.
  rewrite Hnlt.
  destruct (@scan_of_pred_unbounded (cbegin_of s) (cend_of s) ismdspace)
    as (j & Ej & Hj & Hall & _);
    [rewrite Hend; cbn [cbegin_of idx]; lia|].
  rewrite Ej. cbn [cbegin_of str idx] in *.
  assert (Hjm : j <= m).
  { destruct (Z_le_gt_dec j m) as [|Hgt]; [assumption|].
    specialize (Hall m ltac:(lia)). rewrite Hat, Hns in Hall by lia.
    discriminate Hall. }
  rewrite (@scan_of_pred_run (Iter s j) (cend_of s) 0 ismdprint (wsize body));
    [|left; reflexivity | rewrite Hend; cbn [idx]; lia|].
  2:{ cbn [str idx]. rewrite Hend. split; [lia|]. split.
      - intros i Hi. rewrite Hat by lia.
        apply forallb_at_index; [exact Hprint | lia].
      - right. rewrite Hnl. reflexivity. }
  cbn [str].
  unfold scan_of. rewrite scan_of_pred_one. unfold ilt, deref.
  rewrite Hend. cbn [str idx]. rewrite Hnl, Z.eqb_refl.
  replace (wsize body <? wsize s) with true
    by (symmetry; apply Z.ltb_lt; lia).
  cbn [andb]. unfold ieq, iadd. cbn [str idx].
  replace (j =? wsize body) with false by (symmetry; apply Z.eqb_neq; lia).
  replace (Iter s (wsize body + 1)) with (cend_of s)
    by (unfold cend_of; fold (wsize s); f_equal; lia).
  rewrite split_lines_while_unfold. cbv zeta.
  replace (cend_of s <! cend_of s) with false
    by (symmetry; apply Z.ltb_irrefl).
  reflexivity.
Qed.

(** ** Horizontal rules *)

Lemma scan_hrule_loop_line (d : wchar) :
  ismdspace NL || (d =? NL) = false ->
  forall (l pre post : wstring) n (k : nat),
    rule_rest d l = true -> (List.length l < k)%nat ->
    scan_hrule_loop k d (Iter (pre ++ l ++ NL :: post) (wsize pre)) n
    = (Iter (pre ++ l ++ NL :: post) (wsize pre + wsize l),
       n + occurrences d l).
Proof.
  intros Hd. induction l as [|x l IH]; intros pre post n k Hl Hk;
    (destruct k as [|k]; [cbn [List.length] in Hk; lia|]);
    cbn [scan_hrule_loop]; unfold deref; cbn [str idx];
    rewrite at_index_app_r by lia;
    replace (wsize pre - wsize pre) with 0 by lia.
  - change (at_index ([] ++ NL :: post) 0) with NL. rewrite Hd.
    unfold occurrences. cbn [filter List.length]. rewrite wsize_nil.
    f_equal; try lia; f_equal; lia.
  - unfold rule_rest in Hl. cbn [forallb] in Hl.
    apply andb_prop in Hl as [Hx Hl].
    change (at_index ((x :: l) ++ NL :: post) 0) with x. rewrite Hx.
    unfold iadd. cbn [str idx].
    assert (E : pre ++ (x :: l) ++ NL :: post
                = (pre ++ [x]) ++ l ++ NL :: post)
      by (rewrite <- app_assoc; reflexivity).
    rewrite E.
    replace (wsize pre + 1) with (wsize (pre ++ [x]))
      by (rewrite wsize_app; reflexivity).
    rewrite (IH (pre ++ [x]) post _ k Hl)
      by (cbn [List.length] in Hk; lia).
    rewrite wsize_app. change (wsize [x]) with 1. rewrite (wsize_cons x l).
    unfold occurrences. cbn [filter].
    destruct (d =? x); cbn [List.length]; f_equal; try lia; f_equal; lia.
Qed.

Section RuleLine.

Variable d : wchar.
Variable rest : wstring.
Hypothesis rule_char : wfind d (L "*_-") = true.
Hypothesis rest_ok : rule_rest d rest = true.
Hypothesis three : 2 <= occurrences d rest.

Let body : wstring := d :: rest.
Let s : wstring := body ++ [NL].
Let line : token_type := Token LINE (cbegin_of s) (cend_of s).

Lemma rule_char_cases : d = ch "*" \/ d = ch "_" \/ d = ch "-".
Proof.
  unfold wfind in rule_char. cbn [L existsb] in rule_char.
  apply orb_prop in rule_char as [H | H];
    [left; apply Z.eqb_eq, H|].
  apply orb_prop in H as [H | H]; [right; left; apply Z.eqb_eq, H|].
  apply orb_prop in H as [H | H]; [right; right; apply Z.eqb_eq, H|].
  discriminate H.
Qed.

Lemma rule_line_split fuel :
  (3 <= fuel)%nat -> split_lines fuel s [] [] = Some ([line], []).
Proof.
  intros Hf.
  assert (Hd : deref (cbegin_of s) = d) by reflexivity.
  assert (Hstay : scan_tab_not (cbegin_of s) (cend_of s) = cbegin_of s).
  { unfold scan_tab_not, scan_of. apply scan_of_pred_stay. rewrite Hd.
    destruct rule_char_cases as [-> | [-> | ->]]; reflexivity. }
  apply (@split_lines_single_line body 0 fuel).
  - unfold body. cbn [forallb]. apply andb_true_intro. split.
    + destruct rule_char_cases as [-> | [-> | ->]]; reflexivity.
    + unfold rule_rest in rest_ok.
      rewrite forallb_forall in *. intros x Hx.
      specialize (rest_ok x Hx). apply orb_prop in rest_ok as [H | H].
      * unfold ismdspace in H. unfold ismdprint.
        apply orb_prop in H as [H | H]; [rewrite H; reflexivity|].
        apply Z.eqb_eq in H. rewrite <- H. reflexivity.
      * apply Z.eqb_eq in H. rewrite <- H.
        destruct rule_char_cases as [-> | [-> | ->]]; reflexivity.
  - unfold body. rewrite wsize_cons. pose proof (wsize_nonneg rest). lia.
  - change (at_index body 0) with d.
    destruct rule_char_cases as [-> | [-> | ->]]; reflexivity.
  - change (at_index body 0) with d.
    destruct rule_char_cases as [-> | [-> | ->]]; reflexivity.
  - change (at_index body 0) with d.
    destruct rule_char_cases as [-> | [-> | ->]]; reflexivity.
  - fold s. rewrite Hstay, Hd.
    destruct rule_char_cases as [-> | [-> | ->]]; reflexivity.
  - exact Hf.
Qed.

Lemma rule_line_scan : scan_hrule (cbegin_of s) (cend_of s) = Iter s (wsize body).
Proof.
  assert (Hd : deref (cbegin_of s) = d) by reflexivity.
  assert (Hstay : scan_tab_not (cbegin_of s) (cend_of s) = cbegin_of s).
  { unfold scan_tab_not, scan_of. apply scan_of_pred_stay. rewrite Hd.
    destruct rule_char_cases as [-> | [-> | ->]]; reflexivity. }
  assert (Hs : wsize s = wsize body + 1)
    by (unfold s; rewrite wsize_app; reflexivity).
  pose proof (wsize_nonneg body) as Hb.
  assert (Hend : idx (cend_of s) = wsize s) by reflexivity.
  unfold scan_hrule. rewrite Hstay, Hd. cbv zeta.
  replace (cbegin_of s <! cend_of s) with true
    by (symmetry; apply Z.ltb_lt; rewrite Hend; cbn [cbegin_of idx]; lia).
  replace ((ch "*" =? d) || (ch "_" =? d) || (ch "-" =? d)) with true
    by (destruct rule_char_cases as [-> | [-> | ->]]; reflexivity).
  cbn [andb negb]. cbv iota.
  change (cbegin_of s) with (Iter ([] ++ body ++ [NL]) (wsize [])).
  rewrite (@scan_hrule_loop_line d).
  4:{ unfold dist. cbn [idx]. fold s. rewrite Hend, Hs.
      unfold wsize. cbn [List.length]. lia. }
  2:{ destruct rule_char_cases as [-> | [-> | ->]]; reflexivity. }
  2:{ unfold rule_rest, body. cbn [forallb]. rewrite Z.eqb_refl, orb_true_r.
      exact rest_ok. }
  cbn [app]. fold s. rewrite wsize_nil.
  replace (0 + wsize body) with (wsize body) by lia.
  replace (0 + occurrences d body <? 3) with false.
  2:{ symmetry. apply Z.ltb_ge. unfold occurrences, body in *.
      cbn [filter]. rewrite Z.eqb_refl. cbn [List.length]. lia. }
  replace (NL =? deref (Iter s (wsize body))) with true.
  2:{ symmetry. apply Z.eqb_eq. unfold deref. cbn [str idx]. unfold s.
      rewrite at_index_app_r by lia.
      replace (wsize body - wsize body) with 0 by lia. reflexivity. }
  rewrite orb_true_r. reflexivity.
Qed.

Lemma rule_line_block pe fuel :
  (2 <= fuel)%nat ->
  parse_block pe fuel [line] []
  = Some [Token HRULE (cbegin_of s) (cend_of s)].
Proof.
  intros Hf. destruct fuel as [|[|fuel]]; try lia.
  pose proof (wsize_nonneg rest) as Hr.
  unfold parse_block. remember (S fuel) as f eqn:Ef.
  cbn [parse_block_while]. cbv zeta.
  change (dol_of [line]) with 1. change (0 =? 1) with false.
  change (tok pe [line] 0) with line.
  change (kind line) with LINE.
  change (kind_eqb SLITEM LINE) with false.
  change (kind_eqb LINE LINE) with true. cbn [negb]. cbv iota.
  unfold parse_hrule. change (tok pe [line] 0) with line.
  cbn [line cbegin cend]. rewrite rule_line_scan.
  replace (Iter s (wsize body) ==! cbegin_of s) with false
    by (symmetry; apply Z.eqb_neq; cbn [cbegin_of idx]; unfold body;
        rewrite wsize_cons; lia).
  cbv iota beta. change (0 + 1 =? 0) with false. cbn [negb]. cbv iota.
  subst f. cbn [parse_block_while]. cbv zeta.
  change (dol_of [line]) with 1. change (0 + 1 =? 1) with true.
  cbn [negb]. cbv iota. reflexivity.
Qed.

End RuleLine.

(** X20. A line of three or more asterisks, or underscores, or hyphens,
    with or without spaces and tabs after the first of them, is a
    horizontal rule: translate gives [<hr />]. *)
Theorem translate_hrule (d : wchar) (rest : wstring) :
  wfind d (L "*_-") = true -> rule_rest d rest = true ->
  2 <= occurrences d rest ->
  translates_to (d :: rest ++ [NL]) (L "<hr />" ++ [NL]).
Proof.
  intros Hd Hrest Hn. exists 3%nat.
  intros past_end fuel Hf. unfold translate, markdown.
  change (d :: rest ++ [NL]) with ((d :: rest) ++ [NL]).
  rewrite (@rule_line_split d rest Hd Hrest Hn fuel) by lia.
  rewrite (@rule_line_block d rest Hd Hrest Hn past_end fuel) by lia.
  destruct fuel as [|[|fuel]]; try lia.
  reflexivity.
Qed.

Lemma translate_hrule_witness :
  translates_to (L "* * *" ++ [NL]) (L "<hr />" ++ [NL]).
Proof.
  apply (@translate_hrule (ch "*") (L " * *"));
    [reflexivity | reflexivity | vm_compute; discriminate].
Defined.

(** ** Indented code *)

Lemma print_with_escape_htmlall_loop_exact :
  forall (l pre post : wstring) output,
    print_with_escape_htmlall_loop (List.length l)
      (Iter (pre ++ l ++ post) (wsize pre)) output
    = output ++ escape_code l.
Proof.
  induction l as [|x l IH]; intros pre post output.
  - cbn [List.length print_with_escape_htmlall_loop escape_code flat_map].
    symmetry. apply app_nil_r.
  - cbn [List.length print_with_escape_htmlall_loop]. unfold deref.
    cbn [str idx]. rewrite at_index_app_r by lia.
    replace (wsize pre - wsize pre) with 0 by lia.
    change (at_index ((x :: l) ++ post) 0) with x.
    unfold iadd. cbn [str idx].
    assert (E : pre ++ (x :: l) ++ post = (pre ++ [x]) ++ l ++ post)
      by (rewrite <- app_assoc; reflexivity).
    rewrite E.
    replace (wsize pre + 1) with (wsize (pre ++ [x]))
      by (rewrite wsize_app; reflexivity).
    rewrite IH. rewrite <- app_assoc. reflexivity.
Qed.

Section CodeLine.

Variable indent : wstring.
Variable c : wchar.
Variable w : wstring.
Hypothesis indent_ok : indent = L "    " \/ indent = [TAB].
Hypothesis first_graph : ismdgraph c = true.
Hypothesis rest_print : forallb ismdprint w = true.

Let code : wstring := c :: w.
Let body : wstring := indent ++ code.
Let s : wstring := body ++ [NL].
Let I := wsize indent.
Let line : token_type := Token LINE (cbegin_of s) (cend_of s).

Lemma code_line_anatomy :
  wsize s = I + wsize code + 1 /\ 1 <= wsize code /\ 1 <= I
  /\ s = indent ++ code ++ [NL]
  /\ at_index s I = c.
Proof.
  assert (Es : s = indent ++ code ++ [NL])
    by (unfold s, body; rewrite <- app_assoc; reflexivity).
  assert (HI : 1 <= I) by (unfold I; destruct indent_ok as [-> | ->]; cbn; lia).
  split.
  { rewrite Es.
    repeat (rewrite wsize_app || rewrite wsize_cons || rewrite wsize_nil).
    fold I. lia. }
  split.
  { unfold code. rewrite wsize_cons. pose proof (wsize_nonneg w). lia. }
  split; [exact HI|]. split; [exact Es|].
  rewrite Es. rewrite at_index_app_r by (fold I; lia). fold I.
  replace (I - I) with 0 by lia. reflexivity.
Qed.

Lemma code_line_scan_tab : scan_tab (cbegin_of s) (cend_of s) = Iter s I.
Proof.
  destruct code_line_anatomy as (Hs & Hc & HI & Es & Hfirst).
  assert (Hend : idx (cend_of s) = wsize s) by reflexivity.
  destruct indent_ok as [E | E].
  - assert (E4 : I = 4) by (unfold I; rewrite E; reflexivity).
    assert (Hsp : forall m, 0 <= m < 4 -> at_index s m = ch " ").
    { intros m Hm. rewrite Es, E. rewrite at_index_app_l by (cbn; lia).
      assert (Hc4 : m = 0 \/ m = 1 \/ m = 2 \/ m = 3) by lia.
      destruct Hc4 as [-> | [-> | [-> | ->]]]; reflexivity. }
    unfold scan_tab, scan_of.
    rewrite (@scan_of_pred_run_bounded (cbegin_of s) (cend_of s) 0 3
               (Z.eqb (ch " ")) 3); cbn [cbegin_of str idx];
      try rewrite Hend.
    2:{ left. reflexivity. }
    2:{ lia. }
    2:{ lia. }
    2:{ split; [lia|]. split.
        - intros m Hm. rewrite Hsp by lia. reflexivity.
        - left. lia. }
    cbv zeta.
    rewrite (@scan_of_pred_run_bounded (Iter s 3) (cend_of s) 1 1
               (Z.eqb (ch " ")) 4); cbn [str idx]; try rewrite Hend.
    2:{ right. reflexivity. }
    2:{ lia. }
    2:{ lia. }
    2:{ split; [lia|]. split.
        - intros m Hm. rewrite Hsp by lia. reflexivity.
        - left. lia. }
    unfold idiff. cbn [idx]. change (4 - 0 =? 4) with true. cbv iota.
    rewrite E4. reflexivity.
  - assert (E1 : I = 1) by (unfold I; rewrite E; reflexivity).
    assert (Htab : at_index s 0 = TAB) by (rewrite Es, E; reflexivity).
    unfold scan_tab, scan_of.
    rewrite (@scan_of_pred_stay (cbegin_of s) (cend_of s) 0 3)
      by (unfold deref; cbn [cbegin_of str idx]; rewrite Htab; reflexivity).
    rewrite (@scan_of_pred_stay (cbegin_of s) (cend_of s) 1 1
               (Z.eqb (ch " ")))
      by (unfold deref; cbn [cbegin_of str idx]; rewrite Htab; reflexivity).
    rewrite scan_of_pred_one.
    replace (cbegin_of s <! cend_of s) with true
      by (symmetry; apply Z.ltb_lt; change (0 < wsize s); lia).
    unfold deref. cbn [cbegin_of str idx]. rewrite Htab, Z.eqb_refl.
    cbn [andb]. cbv zeta. unfold idiff, ilt, iadd. cbn [str idx].
    rewrite E1. reflexivity.
Qed.

Lemma code_line_first (x : wchar) :
  ismdspace x = false -> (x =? at_index s 0) = false.
Proof.
  intros Hx. destruct code_line_anatomy as (_ & _ & _ & Es & _).
  apply Z.eqb_neq. intros E0. rewrite Es in E0.
  destruct indent_ok as [E | E]; rewrite E in E0;
    [change (x = ch " ") in E0 | change (x = TAB) in E0];
    rewrite E0 in Hx; discriminate Hx.
Qed.

Lemma code_line_tab_not (x : wchar) :
  ismdspace x = false ->
  (x =? deref (scan_tab_not (cbegin_of s) (cend_of s))) = false.
Proof.
  intros Hx. destruct code_line_anatomy as (Hs & Hc & HI & Es & Hfirst).
  assert (Hend : idx (cend_of s) = wsize s) by reflexivity.
  destruct indent_ok as [E | E].
  - assert (Hsp : forall m, 0 <= m < 4 -> at_index s m = ch " ").
    { intros m Hm. rewrite Es, E. rewrite at_index_app_l by (cbn; lia).
      assert (Hc4 : m = 0 \/ m = 1 \/ m = 2 \/ m = 3) by lia.
      destruct Hc4 as [-> | [-> | [-> | ->]]]; reflexivity. }
    assert (E4 : I = 4) by (unfold I; rewrite E; reflexivity).
    unfold scan_tab_not, scan_of.
    rewrite (@scan_of_pred_run_bounded (cbegin_of s) (cend_of s) 0 3
               (Z.eqb (ch " ")) 3); cbn [cbegin_of str idx];
      try rewrite Hend.
    2:{ left. reflexivity. }
    2:{ lia. }
    2:{ lia. }
    2:{ split; [lia|]. split.
        - intros m Hm. rewrite Hsp by lia. reflexivity.
        - left. lia. }
    unfold deref. cbn [str idx]. rewrite Hsp by lia.
    apply Z.eqb_neq. intros E0. rewrite E0 in Hx. discriminate Hx.
  - assert (Htab : at_index s 0 = TAB) by (rewrite Es, E; reflexivity).
    unfold scan_tab_not, scan_of.
    rewrite scan_of_pred_stay
      by (unfold deref; cbn [cbegin_of str idx]; rewrite Htab; reflexivity).
    unfold deref. cbn [cbegin_of str idx]. rewrite Htab.
    apply Z.eqb_neq. intros E0. rewrite E0 in Hx. discriminate Hx.
Qed.

Lemma code_line_split fuel :
  (3 <= fuel)%nat -> split_lines fuel s [] [] = Some ([line], []).
Proof.
  intros Hf. destruct code_line_anatomy as (Hs & Hc & HI & Es & Hfirst).
  apply (@split_lines_single_line body I fuel).
  - unfold body. rewrite forallb_app. apply andb_true_intro. split.
    + destruct indent_ok as [-> | ->]; reflexivity.
    + unfold code. cbn [forallb]. rewrite rest_print, andb_true_r.
      unfold ismdgraph in first_graph. unfold ismdprint.
      apply andb_prop in first_graph as [Hg1 Hg2]. rewrite Hg2.
      apply Z.ltb_lt in Hg1.
      replace (ch " " <=? c) with true by (symmetry; apply Z.leb_le; lia).
      apply orb_true_r.
  - unfold body. rewrite wsize_app. fold I. lia.
  - unfold body. rewrite at_index_app_r by (fold I; lia). fold I.
    replace (I - I) with 0 by lia. change (at_index code 0) with c.
    unfold ismdgraph in first_graph. unfold ismdspace.
    apply andb_prop in first_graph as [Hg1 _]. apply Z.ltb_lt in Hg1.
    chars. apply orb_false_intro; apply Z.eqb_neq; lia.
  - rewrite <- (@at_index_app_l body [NL] 0)
      by (unfold body; rewrite wsize_app; fold I; lia).
    apply code_line_first. reflexivity.
  - rewrite <- (@at_index_app_l body [NL] 0)
      by (unfold body; rewrite wsize_app; fold I; lia).
    apply code_line_first. reflexivity.
  - apply code_line_tab_not. reflexivity.
  - exact Hf.
Qed.

Lemma code_line_block pe fuel :
  (2 <= fuel)%nat ->
  parse_block pe fuel [line] []
  = Some [Token SPRE (Iter s I) (Iter s I);
          Token CODE (Iter s I) (cend_of s);
          Token EPRE (cend pe) (cend pe)].
Proof.
  intros Hf. destruct fuel as [|[|fuel]]; try lia.
  destruct code_line_anatomy as (Hs & Hc & HI & Es & Hfirst).
  assert (Hrefl : (cbegin_of s ==! cbegin_of s) = true) by apply Z.eqb_refl.
  unfold parse_block. remember (S fuel) as f eqn:Ef.
  cbn [parse_block_while]. cbv zeta.
  change (dol_of [line]) with 1. change (0 =? 1) with false.
  change (tok pe [line] 0) with line.
  change (kind line) with LINE.
  change (kind_eqb SLITEM LINE) with false.
  change (kind_eqb LINE LINE) with true. cbn [negb]. cbv iota.
  (* a horizontal rule? *)
  unfold parse_hrule. change (tok pe [line] 0) with line.
  cbn [line cbegin cend]. unfold scan_hrule.
  rewrite !code_line_tab_not by reflexivity. rewrite andb_false_r.
  cbn [orb negb]. cbv iota zeta. rewrite Hrefl. cbv iota.
  change (0 =? 0) with true. cbn [negb]. cbv iota.
  (* indented code *)
  unfold parse_tabcode. change (tok pe [line] 0) with line.
  cbn [line cbegin cend]. rewrite code_line_scan_tab. cbv zeta.
  replace (Iter s I ==! cbegin_of s) with false
    by (symmetry; apply Z.eqb_neq; cbn [cbegin_of idx]; lia).
  cbv iota. subst f. cbn [parse_tabcode_while].
  change (dol_of [line]) with 1. change (0 + 1 =? 1) with true.
  cbn [negb]. cbv iota beta.
  change (tok pe [line] (0 + 1)) with pe.
  change (0 + 1 =? 0) with false. cbn [negb]. cbv iota.
  cbn [parse_block_while]. cbv zeta.
  change (dol_of [line]) with 1. change (0 + 1 =? 1) with true.
  cbn [negb]. cbv iota. reflexivity.
Qed.

Lemma code_line_print pe fuel :
  (4 <= fuel)%nat ->
  print_block fuel
    [Token SPRE (Iter s I) (Iter s I);
     Token CODE (Iter s I) (cend_of s);
     Token EPRE (cend pe) (cend pe)] [] []
  = Some (L "<pre><code>" ++ escape_code code ++ L "</code></pre>" ++ [NL]).
Proof.
  intros Hf. destruct code_line_anatomy as (Hs & Hc & HI & Es & Hfirst).
  set (toks := [Token SPRE (Iter s I) (Iter s I);
                Token CODE (Iter s I) (cend_of s);
                Token EPRE (cend pe) (cend pe)]).
  unfold print_block.
  change (skip_kind null_token (Z.to_nat (dol_of toks)) BLANK toks 0) with 0.
  destruct fuel as [|[|[|[|fuel]]]]; try lia.
  cbn [print_block_while]. cbv zeta.
  change (dol_of toks) with 3.
  change (0 <? 3) with true. cbv iota.
  change (tk toks 0) with (Token SPRE (Iter s I) (Iter s I)).
  cbn [kind]. change (kind_eqb BLANK SPRE) with false.
  change (kind_leb HRULE SPRE) with true.
  change (kind_eqb SOLIST SPRE || kind_eqb SULIST SPRE) with false.
  cbv iota beta. change (0 =? 0 + 1) with false. cbv iota.
  change (0 + 1 <? 3) with true. cbv iota.
  change (tk toks (0 + 1)) with (Token CODE (Iter s I) (cend_of s)).
  cbn [kind]. change (kind_eqb BLANK CODE) with false.
  change (kind_leb HRULE CODE) with false.
  change (kind_eqb HTML CODE) with false.
  change (kind_eqb CODE CODE) with true. cbv iota.
  change (Z.to_nat (3 - (0 + 1))) with 2%nat. cbn [print_code_lines].
  change (dol_of toks) with 3.
  change (tk toks (0 + 1)) with (Token CODE (Iter s I) (cend_of s)).
  change (tk toks (0 + 1 + 1)) with (Token EPRE (cend pe) (cend pe)).
  cbn [kind cbegin cend]. change (kind_eqb CODE CODE) with true.
  change (kind_eqb CODE EPRE) with false. cbv iota.
  change (0 + 1 + 1 <? 3) with true. cbn [negb andb].
  replace (Iter s I <! cend_of s +! -1) with true
    by (symmetry; apply Z.ltb_lt; unfold iadd; cbn [cend_of str idx];
        fold (wsize s); lia).
  replace (NL =? peek (cend_of s) (-1)) with true.
  2:{ symmetry. apply Z.eqb_eq. unfold peek, deref, iadd.
      cbn [cend_of str idx]. fold (wsize s).
      replace (wsize s + -1) with (wsize body) by
        (unfold body; rewrite wsize_app; fold I; lia).
      unfold s. rewrite at_index_app_r by lia.
      replace (wsize body - wsize body) with 0 by lia. reflexivity. }
  cbv iota.
  assert (Hcode : print_with_escape_htmlall (Iter s I) (cend_of s +! -1)
                    ([] ++ kindname SPRE)
                  = ([] ++ kindname SPRE) ++ escape_code code).
  { unfold print_with_escape_htmlall, dist, iadd. cbn [cend_of str idx].
    fold (wsize s).
    replace (Z.to_nat (wsize s + -1 - I)) with (List.length code)
      by (rewrite Hs; unfold wsize; lia).
    rewrite Es. apply print_with_escape_htmlall_loop_exact. }
  rewrite Hcode. cbv beta iota.
  change (0 + 1 =? 0 + 1 + 1) with false. cbv iota.
  change (0 + 1 + 1 <? 3) with true. cbv iota.
  change (tk toks (0 + 1 + 1)) with (Token EPRE (cend pe) (cend pe)).
  cbn [kind]. change (kind_eqb BLANK EPRE) with false.
  change (kind_leb HRULE EPRE) with true.
  change (kind_eqb SOLIST EPRE || kind_eqb SULIST EPRE) with false.
  cbv iota beta. change (0 + 1 + 1 =? 0 + 1 + 1 + 1) with false. cbv iota.
  change (0 + 1 + 1 + 1 <? 3) with false. cbn [andb]. cbv iota.
  rewrite app_nil_l, <- app_assoc. reflexivity.
Qed.

End CodeLine.

(** X21. Indented code: a line indented by four spaces or by a tab,
    whose text begins with a visible character and is made of printable
    characters, is a code block.  Its text is written between
    [<pre><code>] and [</code></pre>] with the ampersand, the angle
    brackets and the quotes replaced by entities, whether or not they
    form an entity already, and without the newline that ends the
    line. *)
Theorem translate_code_block (indent : wstring) (c : wchar) (w : wstring) :
  indent = L "    " \/ indent = [TAB] ->
  ismdgraph c = true -> forallb ismdprint w = true ->
  translates_to (indent ++ c :: w ++ [NL])
    (L "<pre><code>" ++ escape_code (c :: w) ++ L "</code></pre>" ++ [NL]).
Proof.
  intros Hi Hc Hw. exists 4%nat.
  intros past_end fuel Hf. unfold translate, markdown.
  replace (indent ++ c :: w ++ [NL]) with ((indent ++ c :: w) ++ [NL])
    by (rewrite <- app_assoc; reflexivity).
  rewrite (@code_line_split indent c w Hi Hc Hw fuel) by lia.
  rewrite (@code_line_block indent c w Hi past_end fuel) by lia.
  apply (@code_line_print indent c w Hi past_end fuel). lia.
Qed.

Lemma translate_code_block_witness :
  translates_to (L "    if (a < b && c) x = 'y';" ++ [NL])
    (L "<pre><code>if (a &lt; b &amp;&amp; c) x = &#39;y&#39;;</code></pre>"
     ++ [NL]).
Proof.
  apply (@translate_code_block (L "    ") (ch "i")
           (L "f (a < b && c) x = 'y';"));
    [left; reflexivity | reflexivity | reflexivity].
Defined.

(** ** The block parser, one token at a time *)

(** A token that is not a LINE is copied. *)
Lemma parse_block_while_copy pe fuel input dot listitem output :
  0 <= dot < dol_of input ->
  kind_eqb LINE (kind (tok pe input dot)) = false ->
  parse_block_while pe (S fuel) input dot listitem output
  = parse_block_while pe fuel input (dot + 1)
      (if kind_eqb SLITEM (kind (tok pe input dot)) then true else listitem)
      (output ++ [tok pe input dot]).
Proof.
  intros Hdot Hk. cbn [parse_block_while]. cbv zeta.
  replace (dot =? dol_of input) with false
    by (symmetry; apply Z.eqb_neq; lia).
  cbn [negb]. cbv iota. rewrite Hk. reflexivity.
Qed.

Lemma parse_block_while_end pe fuel input listitem output :
  parse_block_while pe (S fuel) input (dol_of input) listitem output
  = Some output.
Proof.
  cbn [parse_block_while]. cbv zeta. rewrite Z.eqb_refl. reflexivity.
Qed.

Lemma parse_block_while_done pe fuel input dot listitem output :
  dot = dol_of input ->
  parse_block_while pe (S fuel) input dot listitem output = Some output.
Proof. intros ->. apply parse_block_while_end. Qed.

(** A line of words that begins at [b] in [s]. *)
Section WordsAt.

Variable s : wstring.
Variable b : Z.
Variable c : wchar.
Variable w : wstring.
Hypothesis first_alnum : ismdalnum c = true.
Hypothesis rest_words : forallb word_char w = true.
Hypothesis begin_ok : 0 <= b.
Hypothesis text_ok :
  forall i, 0 <= i < wsize (c :: w) -> at_index s (b + i) = at_index (c :: w) i.
Hypothesis end_ok : at_index s (b + wsize (c :: w)) = NL.

Let t : wstring := c :: w.
Let pos : char_iterator := Iter s b.
Let eos : char_iterator := Iter s (b + wsize (c :: w) + 1).
Let line : token_type := Token LINE pos eos.

Lemma words_at_size : 0 < wsize t.
Proof. unfold t. rewrite wsize_cons. pose proof (wsize_nonneg w). lia. Qed.

Lemma words_at_first : deref pos = c.
Proof.
  unfold deref, pos. cbn [str idx]. replace b with (b + 0) by lia.
  rewrite text_ok by (pose proof words_at_size; fold t; lia). reflexivity.
Qed.

Lemma words_at_chars m :
  b <= m < b + wsize t -> word_char (at_index s m) = true.
Proof.
  intros Hm. replace m with (b + (m - b)) by lia.
  rewrite text_ok by (fold t; lia).
  apply forallb_at_index; [|fold t; lia]. cbn [forallb].
  rewrite rest_words. unfold word_char. rewrite first_alnum. reflexivity.
Qed.

Lemma words_at_lt : (pos <! eos) = true.
Proof.
  apply Z.ltb_lt. unfold pos, eos. cbn [idx].
  pose proof words_at_size. fold t. lia.
Qed.

Lemma words_at_stay n1 n2 pr :
  pr c = false -> scan_of_pred pos eos n1 n2 pr = pos.
Proof.
  intros H. apply scan_of_pred_stay. rewrite words_at_first. exact H.
Qed.

Lemma words_at_not (x : wchar) : ismdalnum x = false -> (x =? c) = false.
Proof.
  intros Hx. apply Z.eqb_neq. intros E. rewrite E, first_alnum in Hx.
  discriminate Hx.
Qed.

Lemma words_at_tab_not : scan_tab_not pos eos = pos.
Proof.
  unfold scan_tab_not, scan_of. apply words_at_stay.
  apply words_at_not. reflexivity.
Qed.

Lemma words_at_tab : scan_tab pos eos = pos.
Proof.
  unfold scan_tab, scan_of.
  rewrite (@words_at_stay 0 3 (Z.eqb (ch " ")))
    by (apply words_at_not; reflexivity).
  rewrite (@words_at_stay 1 1 (Z.eqb (ch " ")))
    by (apply words_at_not; reflexivity).
  rewrite (@words_at_stay 1 1 (Z.eqb TAB))
    by (apply words_at_not; reflexivity).
  cbv zeta. unfold idiff, ilt. rewrite Z.sub_diag, Z.ltb_irrefl.
  reflexivity.
Qed.

Lemma words_at_hrule : scan_hrule pos eos = pos.
Proof.
  unfold scan_hrule. rewrite words_at_tab_not, words_at_first.
  rewrite !words_at_not by reflexivity. rewrite andb_false_r.
  reflexivity.
Qed.

Lemma words_at_no_dot m :
  b <= m < idx eos -> (ch "." =? at_index s m) = false.
Proof.
  intros Hm. pose proof words_at_size as Hn. fold t in end_ok.
  unfold eos in Hm. cbn [idx] in Hm. fold t in Hm.
  destruct (Z_lt_ge_dec m (b + wsize t)) as [Hlt | Hge].
  - destruct (word_char_cases _ (@words_at_chars m ltac:(lia)))
      as [-> | Hal]; [reflexivity|].
    apply Z.eqb_neq. intros E.
    destruct (alnum_tests _ Hal)
      as (_ & _ & _ & _ & _ & _ & _ & _ & _ & Hd & _).
    apply Hd. symmetry. exact E.
  - replace m with (b + wsize t) by lia. rewrite end_ok. reflexivity.
Qed.

Lemma words_at_listmark : scan_listmark pos eos = pos.
Proof.
  pose proof words_at_size as Hn. pose proof words_at_lt as Hlt.
  fold t in end_ok.
  unfold scan_listmark. rewrite words_at_tab_not. cbv zeta.
  replace (eos <=! pos) with false
    by (symmetry; apply Z.leb_gt; apply Z.ltb_lt; exact Hlt).
  rewrite words_at_first.
  rewrite !words_at_not by reflexivity. cbn [orb].
  destruct (ismddigit c); [|reflexivity].
  destruct (@scan_of_loop_longest (dist pos eos) ismddigit
              pos 1 (-1) ltac:(lia) pos 0 eq_refl
              ltac:(lia) ltac:(lia) ltac:(lia))
    as (j & (Hb & Hrun & Hstop) & E).
  unfold scan_of_pred. rewrite E. clear E.
  assert (Hp3 : forall p, str p = s -> b <= idx p ->
                          scan_of p eos 1 1 (ch ".") = p).
  { intros p Hp H0. unfold scan_of. rewrite scan_of_pred_one.
    destruct (p <! eos) eqn:Hpe; [|reflexivity].
    apply Z.ltb_lt in Hpe.
    unfold deref. rewrite Hp, words_at_no_dot by lia.
    reflexivity. }
  destruct (j - idx pos <? 1).
  - rewrite Hp3 by (unfold pos; cbn [str idx]; try reflexivity; lia).
    unfold ilt. rewrite Z.ltb_irrefl. reflexivity.
  - rewrite Hp3 by (unfold pos in *; cbn [str idx] in *;
                    try reflexivity; lia).
    unfold ilt. rewrite Z.ltb_irrefl. reflexivity.
Qed.

(** What the alternatives of [parse_block] before the paragraph make of
    the line: nothing. *)
Section Step.

Variable pe : token_type.
Variable input : tokens.
Variable dot : line_iterator.
Hypothesis dot_ok : 0 <= dot < dol_of input.
Hypothesis line_ok : tok pe input dot = line.
Hypothesis next_kind :
  dot + 1 = dol_of input
  \/ kind_eqb LINE (kind (tok pe input (dot + 1))) = false.
Hypothesis next_plain :
  dot + 1 = dol_of input
  \/ (let t2 := tok pe input (dot + 1) in
      let p2 := scan_tab_not (cbegin t2) (cend t2) in
      (p2 <! cend t2) && ((ch "=" =? deref p2) || (ch "-" =? deref p2))
      = false).

Lemma words_at_paragraph_loop output :
  parse_paragraph_loop pe (Z.to_nat (dol_of input - (dot + 1))) input
    (dot + 1) output
  = (dot + 1, output).
Proof.
  destruct next_kind as [E | E].
  - rewrite E, Z.sub_diag. reflexivity.
  - destruct (Z.to_nat (dol_of input - (dot + 1))) as [|k];
      cbn [parse_paragraph_loop]; [reflexivity|].
    rewrite E. reflexivity.
Qed.

Lemma words_at_listitem_loop output :
  parse_listitem_loop pe (Z.to_nat (dol_of input - (dot + 1))) input
    (dot + 1) output
  = (dot + 1, output).
Proof.
  destruct next_kind as [E | E].
  - rewrite E, Z.sub_diag. reflexivity.
  - destruct (Z.to_nat (dol_of input - (dot + 1))) as [|k];
      cbn [parse_listitem_loop]; [reflexivity|].
    rewrite E. reflexivity.
Qed.

Lemma words_at_seheading output :
  parse_seheading pe input dot (dol_of input) output = (dot, output).
Proof.
  unfold parse_seheading. cbv zeta.
  destruct (Z.eqb_spec (dot + 1) (dol_of input)) as [E | E];
    [reflexivity|].
  destruct next_plain as [E' | E']; [contradiction|].
  rewrite line_ok. cbn [line cbegin cend].
  rewrite words_at_tab_not, words_at_lt, words_at_first.
  destruct (alnum_tests _ first_alnum) as (_ & Hgraph & _).
  rewrite Hgraph. cbn [andb negb]. cbv iota.
  cbv zeta in E'. rewrite E'. reflexivity.
Qed.

(** The line is a paragraph, or the text of a list item. *)
Lemma parse_block_while_words fuel listitem output :
  parse_block_while pe (S fuel) input dot listitem output
  = parse_block_while pe fuel input (dot + 1) false
      (if listitem
       then output ++ [Token INLINE pos eos]
       else output ++ [Token SPARAGRAPH pos pos; Token INLINE pos eos;
                       Token EPARAGRAPH (cbegin (tok pe input (dot + 1)))
                         (cbegin (tok pe input (dot + 1)))]).
Proof.
  assert (Hrefl : (pos ==! pos) = true) by apply Z.eqb_refl.
  destruct (alnum_tests _ first_alnum) as (_ & Hgraph & _).
  cbn [parse_block_while]. cbv zeta.
  replace (dot =? dol_of input) with false
    by (symmetry; apply Z.eqb_neq; lia).
  rewrite line_ok. change (kind line) with LINE.
  change (kind_eqb SLITEM LINE) with false.
  change (kind_eqb LINE LINE) with true. cbn [negb]. cbv iota.
  (* a horizontal rule? *)
  unfold parse_hrule. rewrite line_ok. cbn [line cbegin cend].
  rewrite words_at_hrule, Hrefl. cbv iota.
  rewrite Z.eqb_refl. cbn [negb]. cbv iota.
  (* indented code? *)
  unfold parse_tabcode. rewrite line_ok. cbn [line cbegin cend].
  rewrite words_at_tab. cbv zeta. rewrite Hrefl. cbv iota.
  rewrite Z.eqb_refl. cbn [negb]. cbv iota.
  (* a quotation? *)
  unfold parse_blockquote. rewrite line_ok. cbn [line cbegin cend].
  rewrite words_at_tab_not. unfold scan_of at 1.
  rewrite words_at_stay by (apply words_at_not; reflexivity).
  cbv zeta. rewrite Hrefl. cbv iota.
  rewrite Z.eqb_refl. cbn [negb]. cbv iota.
  (* a heading? *)
  unfold parse_atxheading. rewrite line_ok. cbn [line cbegin cend].
  rewrite words_at_tab_not. unfold scan_of at 1.
  rewrite words_at_stay by (apply words_at_not; reflexivity).
  cbv zeta. rewrite Hrefl. cbv iota.
  rewrite Z.eqb_refl. cbn [negb]. cbv iota.
  (* a list? *)
  unfold parse_list. rewrite line_ok. cbn [line cbegin cend].
  rewrite words_at_listmark.
  cbv zeta. rewrite Hrefl. cbv iota.
  rewrite Z.eqb_refl. cbn [negb]. cbv iota.
  (* an underlined heading? *)
  rewrite words_at_seheading. cbv iota.
  rewrite Z.eqb_refl. cbn [negb]. cbv iota.
  assert (Hne : (dot =? dot + 1) = false) by (apply Z.eqb_neq; lia).
  destruct listitem.
  - unfold parse_listitem. rewrite line_ok. cbn [line cbegin cend].
    rewrite words_at_tab_not, words_at_lt, words_at_first, Hgraph.
    cbn [andb negb]. cbv iota zeta.
    rewrite words_at_listitem_loop. cbv iota. rewrite Hne. reflexivity.
  - unfold parse_paragraph. rewrite line_ok. cbn [line cbegin cend].
    rewrite words_at_tab_not, words_at_lt, words_at_first, Hgraph.
    cbn [andb negb]. cbv iota zeta.
    rewrite words_at_paragraph_loop. cbv iota. rewrite Hne.
    unfold push_back. rewrite <- !app_assoc. reflexivity.
Qed.

End Step.

(** The line before an underline is a heading. *)
Section Underline.

Variable pe : token_type.
Variable input : tokens.
Variable dot : line_iterator.
Hypothesis dot_ok : 0 <= dot /\ dot + 1 < dol_of input.
Hypothesis line_ok : tok pe input dot = line.

Let t2 : token_type := tok pe input (dot + 1).
Let p2 : char_iterator := scan_tab_not (cbegin t2) (cend t2).
Let p3 : char_iterator := scan_of p2 (cend t2) 0 (-1) (deref p2).
Let p4 : char_iterator := scan_of_pred p3 (cend t2) 0 (-1) ismdspace.

Hypothesis under_first :
  (p2 <! cend t2) && ((ch "=" =? deref p2) || (ch "-" =? deref p2)) = true.
Hypothesis under_rest : (cend t2 <=! p4) || (NL =? deref p4) = true.

Lemma parse_block_while_underlined fuel listitem output :
  parse_block_while pe (S fuel) input dot listitem output
  = parse_block_while pe fuel input (dot + 1 + 1) listitem
      (output ++ [Token (if ch "=" =? deref p2 then SHEADING1 else SHEADING2)
                    pos pos;
                  Token INLINE pos eos;
                  Token (if ch "=" =? deref p2 then EHEADING1 else EHEADING2)
                    eos eos]).
Proof.
  assert (Hrefl : (pos ==! pos) = true) by apply Z.eqb_refl.
  destruct (alnum_tests _ first_alnum) as (_ & Hgraph & _).
  cbn [parse_block_while]. cbv zeta.
  replace (dot =? dol_of input) with false
    by (symmetry; apply Z.eqb_neq; lia).
  rewrite line_ok. change (kind line) with LINE.
  change (kind_eqb SLITEM LINE) with false.
  change (kind_eqb LINE LINE) with true. cbn [negb]. cbv iota.
  (* a horizontal rule? *)
  unfold parse_hrule. rewrite line_ok. cbn [line cbegin cend].
  rewrite words_at_hrule, Hrefl. cbv iota.
  rewrite Z.eqb_refl. cbn [negb]. cbv iota.
  (* indented code? *)
  unfold parse_tabcode. rewrite line_ok. cbn [line cbegin cend].
  rewrite words_at_tab. cbv zeta. rewrite Hrefl. cbv iota.
  rewrite Z.eqb_refl. cbn [negb]. cbv iota.
  (* a quotation? *)
  unfold parse_blockquote. rewrite line_ok. cbn [line cbegin cend].
  rewrite words_at_tab_not. unfold scan_of at 1.
  rewrite words_at_stay by (apply words_at_not; reflexivity).
  cbv zeta. rewrite Hrefl. cbv iota.
  rewrite Z.eqb_refl. cbn [negb]. cbv iota.
  (* a heading? *)
  unfold parse_atxheading. rewrite line_ok. cbn [line cbegin cend].
  rewrite words_at_tab_not. unfold scan_of at 1.
  rewrite words_at_stay by (apply words_at_not; reflexivity).
  cbv zeta. rewrite Hrefl. cbv iota.
  rewrite Z.eqb_refl. cbn [negb]. cbv iota.
  (* a list? *)
  unfold parse_list. rewrite line_ok. cbn [line cbegin cend].
  rewrite words_at_listmark.
  cbv zeta. rewrite Hrefl. cbv iota.
  rewrite Z.eqb_refl. cbn [negb]. cbv iota.
  (* an underlined heading *)
  unfold parse_seheading. cbv zeta.
  replace (dot + 1 =? dol_of input) with false
    by (symmetry; apply Z.eqb_neq; lia).
  rewrite line_ok. cbn [line cbegin cend].
  rewrite words_at_tab_not, words_at_lt, words_at_first, Hgraph.
  cbn [andb negb]. cbv iota.
  fold t2. fold p2. rewrite under_first. cbn [negb]. cbv iota.
  fold p3. fold p4. rewrite under_rest. cbn [negb]. cbv iota.
  replace (dot + 1 + 1 =? dot) with false
    by (symmetry; apply Z.eqb_neq; lia).
  cbn [negb]. cbv iota.
  unfold push_back. rewrite <- !app_assoc. reflexivity.
Qed.

End Underline.

End WordsAt.

(** A token of no extent is no underline. *)
Lemma empty_token_plain (t2 : token_type) :
  cbegin t2 = cend t2 ->
  (let p2 := scan_tab_not (cbegin t2) (cend t2) in
   (p2 <! cend t2) && ((ch "=" =? deref p2) || (ch "-" =? deref p2))
   = false).
Proof.
  intros E. cbv zeta. rewrite E.
  unfold scan_tab_not, scan_of. rewrite scan_of_pred_at_end by lia.
  unfold ilt. rewrite Z.ltb_irrefl. reflexivity.
Qed.

(** ** The block printer, one token at a time *)

Lemma print_block_while_end fuel input dot output dict :
  dol_of input <= dot ->
  print_block_while (S fuel) input dot output dict = Some output.
Proof.
  intros H. cbn [print_block_while]. cbv zeta.
  replace (dot <? dol_of input) with false
    by (symmetry; apply Z.ltb_ge; exact H).
  reflexivity.
Qed.

(** A block token is written as its markup; the opening of a list that
    follows text begins on a new line. *)
Lemma print_block_while_tag fuel input dot output dict :
  0 <= dot < dol_of input ->
  kind_eqb BLANK (kind (tk input dot)) = false ->
  kind_leb HRULE (kind (tk input dot)) = true ->
  print_block_while (S fuel) input dot output dict
  = print_block_while fuel input (dot + 1)
      ((if kind_eqb SOLIST (kind (tk input dot))
           || kind_eqb SULIST (kind (tk input dot))
        then if (dot - 1 >? 0)
                && kind_eqb (kind (tk input (dot - 1))) INLINE
             then output ++ [NL] else output
        else output) ++ kindname (kind (tk input dot))) dict.
Proof.
  intros Hdot Hb Hh. cbn [print_block_while]. cbv zeta.
  replace (dot <? dol_of input) with true
    by (symmetry; apply Z.ltb_lt; lia).
  cbv iota. rewrite Hb, Hh. cbv iota beta.
  replace (dot =? dot + 1) with false by (symmetry; apply Z.eqb_neq; lia).
  reflexivity.
Qed.

(** An INLINE token that holds words, with or without the newline that
    ends the line, is written as the words. *)
Lemma print_block_while_words fuel input dot output dict (t : wstring) :
  0 <= dot < dol_of input ->
  kind (tk input dot) = INLINE ->
  kind_eqb INLINE (kind (tk input (dot + 1))) = false ->
  slice (cbegin (tk input dot)) (cend (tk input dot)) = t ++ [NL] ->
  forallb word_char t = true -> 0 < wsize t ->
  (Z.to_nat (wsize t) + 3 <= fuel)%nat ->
  print_block_while (S fuel) input dot output dict
  = print_block_while fuel input (dot + 1) (output ++ t) dict.
Proof.
  intros Hdot Hk Hnext Hslice Hall Hn Hf.
  assert (Hwords : forall m, 0 <= m < wsize t ->
                     word_char (at_index t m) = true)
    by (intros m Hm; apply forallb_at_index; assumption).
  cbn [print_block_while]. cbv zeta.
  replace (dot <? dol_of input) with true
    by (symmetry; apply Z.ltb_lt; lia).
  cbv iota. rewrite Hk.
  change (kind_eqb BLANK INLINE) with false.
  change (kind_leb HRULE INLINE) with false.
  change (kind_eqb HTML INLINE) with false.
  change (kind_eqb CODE INLINE) with false.
  change (kind_eqb INLINE INLINE) with true. cbv iota.
  assert (Hg : gather_inline (Z.to_nat (dol_of input - dot)) input dot []
               = (dot + 1, t ++ [NL])).
  { destruct (Z.to_nat (dol_of input - dot)) as [|k] eqn:Ek; [lia|].
    cbn [gather_inline]. rewrite Hk.
    change (kind_eqb INLINE INLINE) with true. cbv iota.
    rewrite Hslice, app_nil_l.
    destruct k as [|k]; cbn [gather_inline]; [reflexivity|].
    rewrite Hnext. reflexivity. }
  rewrite Hg. cbv iota zeta.
  replace (wsize (t ++ [NL]) >? 0) with true
    by (symmetry; apply Z.gtb_lt; rewrite wsize_app;
        change (wsize [NL]) with 1; lia).
  rewrite last_last, Z.eqb_refl, removelast_last. cbn [andb]. cbv iota.
  rewrite parse_inline_words by (try assumption; lia).
  rewrite print_inline_words by assumption.
  cbv beta iota.
  replace (dot =? dot + 1) with false by (symmetry; apply Z.eqb_neq; lia).
  reflexivity.
Qed.

(** ** Quotations *)

Lemma parse_blockquote_while_end pe fuel input dol block lazyline :
  parse_blockquote_while pe (S fuel) input dol dol block lazyline
  = Some (dol, block).
Proof. cbn [parse_blockquote_while]. rewrite Z.eqb_refl. reflexivity. Qed.

Section QuoteLine.

Variable c : wchar.
Variable w : wstring.
Hypothesis first_alnum : ismdalnum c = true.
Hypothesis rest_words : forallb word_char w = true.

Let t : wstring := c :: w.
Let s : wstring := blockquote_form t.
Let line : token_type := Token LINE (cbegin_of s) (cend_of s).

Lemma quote_line_anatomy :
  wsize s = 2 + wsize t + 1 /\ 0 < wsize t
  /\ at_index s 0 = ch ">" /\ at_index s 1 = ch " "
  /\ (forall i, 0 <= i < wsize t -> at_index s (2 + i) = at_index t i)
  /\ at_index s (2 + wsize t) = NL
  /\ slice (Iter s 2) (cend_of s) = t ++ [NL].
Proof.
  assert (Hn : 0 < wsize t)
    by (unfold t; rewrite wsize_cons; pose proof (wsize_nonneg w); lia).
  assert (Es : s = [ch ">"; ch " "] ++ t ++ [NL]) by reflexivity.
  split.
  { rewrite Es.
    repeat (rewrite wsize_app || rewrite wsize_cons || rewrite wsize_nil).
    lia. }
  split; [exact Hn|]. split; [reflexivity|]. split; [reflexivity|].
  split.
  { intros i Hi. rewrite Es.
    exact (@at_index_mid [ch ">"; ch " "] t [NL] i Hi). }
  split.
  { rewrite Es.
    rewrite at_index_app_r by (change (wsize [ch ">"; ch " "]) with 2; lia).
    change (wsize [ch ">"; ch " "]) with 2.
    rewrite at_index_app_r by lia.
    replace (2 + wsize t - 2 - wsize t) with 0 by lia. reflexivity. }
  unfold slice. cbn [cend_of str idx]. fold (wsize s).
  rewrite Es. cbn [app skipn Z.to_nat Pos.to_nat Pos.iter_op Nat.add].
  apply firstn_all2.
  rewrite length_app. cbn [List.length].
  repeat (rewrite wsize_app || rewrite wsize_cons || rewrite wsize_nil).
  unfold wsize. lia.
Qed.

Lemma quote_line_words m :
  0 <= m < wsize t -> word_char (at_index t m) = true.
Proof.
  intros Hm. apply forallb_at_index; [|exact Hm]. unfold t. cbn [forallb].
  rewrite rest_words. unfold word_char. rewrite first_alnum. reflexivity.
Qed.

Lemma quote_line_split fuel :
  (3 <= fuel)%nat -> split_lines fuel s [] [] = Some ([line], []).
Proof.
  intros Hf.
  destruct quote_line_anatomy as (Hs & Hn & H0 & H1 & Ht & Hnl & _).
  assert (Hstay : scan_tab_not (cbegin_of s) (cend_of s) = cbegin_of s).
  { unfold scan_tab_not, scan_of. apply scan_of_pred_stay. reflexivity. }
  apply (@split_lines_single_line (ch ">" :: ch " " :: t) 0 fuel).
  - cbn [forallb]. apply andb_true_intro. split; [reflexivity|].
    apply andb_true_intro. split; [reflexivity|].
    apply forallb_forall. intros x Hx.
    assert (Hw : word_char x = true).
    { assert (Hall : forallb word_char t = true)
        by (unfold t; cbn [forallb]; rewrite rest_words; unfold word_char;
            rewrite first_alnum; reflexivity).
      rewrite forallb_forall in Hall. apply Hall, Hx. }
    destruct (word_char_cases _ Hw) as [-> | Hal]; [reflexivity|].
    apply (alnum_tests _ Hal).
  - rewrite !wsize_cons. pose proof (wsize_nonneg t). lia.
  - reflexivity.
  - reflexivity.
  - reflexivity.
  - change ((ch ">" :: ch " " :: t) ++ [NL]) with s. rewrite Hstay.
    reflexivity.
  - exact Hf.
Qed.

Lemma quote_line_block pe fuel :
  (6 <= fuel)%nat ->
  parse_block pe fuel [line] []
  = Some [Token SBLOCKQUOTE (Iter s 1) (Iter s 1);
          Token SPARAGRAPH (Iter s 2) (Iter s 2);
          Token INLINE (Iter s 2) (cend_of s);
          Token EPARAGRAPH (cend pe) (cend pe);
          Token EBLOCKQUOTE (cend pe) (cend pe)].
Proof.
  intros Hf.
  destruct quote_line_anatomy as (Hs & Hn & H0 & H1 & Ht & Hnl & _).
  assert (Hend : idx (cend_of s) = wsize s) by reflexivity.
  assert (Hrefl : (cbegin_of s ==! cbegin_of s) = true) by apply Z.eqb_refl.
  assert (Hc : deref (cbegin_of s) = ch ">") by reflexivity.
  assert (Hstay : scan_tab_not (cbegin_of s) (cend_of s) = cbegin_of s).
  { unfold scan_tab_not, scan_of. apply scan_of_pred_stay. reflexivity. }
  assert (Hfirst : at_index s 2 = c)
    by (replace 2 with (2 + 0) by lia; rewrite Ht by lia; reflexivity).
  destruct (alnum_tests _ first_alnum)
    as (_ & _ & _ & Hspace & _ & _ & _ & _ & Hnotnl & _).
  assert (Hmark : scan_of (cbegin_of s) (cend_of s) 1 1 (ch ">") = Iter s 1).
  { unfold scan_of. rewrite scan_of_pred_one.
    replace (cbegin_of s <! cend_of s) with true
      by (symmetry; apply Z.ltb_lt; change (0 < wsize s); lia).
    rewrite Hc. reflexivity. }
  destruct fuel as [|fuel]; [lia|].
  unfold parse_block.
  cbn [parse_block_while]. cbv zeta.
  change (dol_of [line]) with 1. change (0 =? 1) with false.
  change (tok pe [line] 0) with line.
  change (kind line) with LINE.
  change (kind_eqb SLITEM LINE) with false.
  change (kind_eqb LINE LINE) with true. cbn [negb]. cbv iota.
  (* a horizontal rule? *)
  unfold parse_hrule. change (tok pe [line] 0) with line.
  cbn [line cbegin cend]. unfold scan_hrule. rewrite Hstay, Hc.
  change ((ch "*" =? ch ">") || (ch "_" =? ch ">") || (ch "-" =? ch ">"))
    with false.
  rewrite andb_false_r. cbn [negb]. cbv iota. rewrite Hrefl. cbv iota.
  change (0 =? 0) with true. cbn [negb]. cbv iota.
  (* indented code? *)
  unfold parse_tabcode. change (tok pe [line] 0) with line.
  cbn [line cbegin cend].
  replace (scan_tab (cbegin_of s) (cend_of s)) with (cbegin_of s).
  2:{ unfold scan_tab, scan_of.
      rewrite (@scan_of_pred_stay (cbegin_of s) (cend_of s) 0 3
                 (Z.eqb (ch " "))) by (rewrite Hc; reflexivity).
      rewrite (@scan_of_pred_stay (cbegin_of s) (cend_of s) 1 1
                 (Z.eqb (ch " "))) by (rewrite Hc; reflexivity).
      rewrite (@scan_of_pred_stay (cbegin_of s) (cend_of s) 1 1
                 (Z.eqb TAB)) by (rewrite Hc; reflexivity).
      cbv zeta. unfold idiff, ilt. rewrite Z.sub_diag, Z.ltb_irrefl.
      reflexivity. }
  cbv zeta. rewrite Hrefl. cbv iota.
  change (0 =? 0) with true. cbn [negb]. cbv iota.
  (* a quotation *)
  unfold parse_blockquote. change (tok pe [line] 0) with line.
  cbn [line cbegin cend]. rewrite Hstay, Hmark. cbv zeta.
  change (cbegin_of s ==! Iter s 1) with false. cbv iota.
  destruct fuel as [|[|fuel]]; try lia.
  remember (S fuel) as f eqn:Ef.
  cbn [parse_blockquote_while].
  change (0 =? 1) with false. cbn [negb]. cbv iota.
  change (tok pe [line] 0) with line. change (kind line) with LINE.
  change (kind_eqb LINE LINE) with true. cbv iota.
  unfold parse_blockquote_line. change (tok pe [line] 0) with line.
  cbn [line cbegin cend]. rewrite Hstay. cbv zeta.
  replace (scan_of (cbegin_of s) (cend_of s) 0 1 (ch ">")) with (Iter s 1).
  2:{ symmetry. unfold scan_of.
      apply (@scan_of_pred_run_bounded (cbegin_of s) (cend_of s) 0 1
               (Z.eqb (ch ">")) 1).
      - left. reflexivity.
      - lia.
      - cbn [cbegin_of idx]. rewrite Hend. lia.
      - cbn [cbegin_of str idx]. rewrite Hend.
        split; [lia|]. split; [|left; lia].
        intros m Hm. replace m with 0 by lia. reflexivity. }
  replace (scan_of (Iter s 1) (cend_of s) 0 1 (ch " ")) with (Iter s 2).
  2:{ symmetry. unfold scan_of.
      apply (@scan_of_pred_run_bounded (Iter s 1) (cend_of s) 0 1
               (Z.eqb (ch " ")) 2).
      - left. reflexivity.
      - lia.
      - cbn [idx]. rewrite Hend. lia.
      - cbn [str idx]. rewrite Hend.
        split; [lia|]. split; [|left; lia].
        intros m Hm. replace m with 1 by lia. reflexivity. }
  rewrite (@scan_of_pred_stay (Iter s 2) (cend_of s) 0 (-1) ismdspace)
    by (unfold deref; cbn [str idx]; rewrite Hfirst; exact Hspace).
  replace (cend_of s <=! Iter s 2) with false
    by (symmetry; apply Z.leb_gt; cbn [idx]; rewrite Hend; lia).
  replace (NL =? deref (Iter s 2)) with false
    by (symmetry; apply Z.eqb_neq; unfold deref; cbn [str idx];
        rewrite Hfirst; intros E; apply Hnotnl; symmetry; exact E).
  cbn [orb andb]. cbv iota.
  change (0 + 1 =? 0) with false. cbv iota.
  subst f. change (0 + 1) with 1.
  rewrite parse_blockquote_while_end. cbv iota beta.
  change (tok pe [line] 1) with pe.
  unfold push_back. cbn [app].
  (* the quoted block *)
  set (block := [Token SBLOCKQUOTE (Iter s 1) (Iter s 1);
                 Token LINE (Iter s 2) (cend_of s);
                 Token EBLOCKQUOTE (cend pe) (cend pe)]).
  destruct fuel as [|[|[|fuel]]]; try lia.
  rewrite (@parse_block_while_copy pe _ block 0 false [])
    by (change (dol_of block) with 3; try reflexivity; lia).
  change (tok pe block 0) with (Token SBLOCKQUOTE (Iter s 1) (Iter s 1)).
  cbn [kind]. change (kind_eqb SLITEM SBLOCKQUOTE) with false. cbv iota.
  assert (Ecend : cend_of s = Iter s (2 + wsize (c :: w) + 1))
    by (unfold cend_of; fold (wsize s); rewrite Hs; reflexivity).
  rewrite (@parse_block_while_words s 2 c w first_alnum rest_words
             Ht Hnl pe block (0 + 1));
    [|change (dol_of block) with 3; lia
     |change (tok pe block (0 + 1))
        with (Token LINE (Iter s 2) (cend_of s));
      rewrite Ecend; reflexivity
     |right; reflexivity
     |right; apply empty_token_plain; reflexivity].
  rewrite <- Ecend. cbv iota.
  change (tok pe block (0 + 1 + 1))
    with (Token EBLOCKQUOTE (cend pe) (cend pe)).
  cbn [cbegin].
  rewrite (@parse_block_while_copy pe _ block (0 + 1 + 1) false)
    by (change (dol_of block) with 3; try reflexivity; lia).
  change (tok pe block (0 + 1 + 1))
    with (Token EBLOCKQUOTE (cend pe) (cend pe)).
  cbn [kind]. change (kind_eqb SLITEM EBLOCKQUOTE) with false. cbv iota.
  change (0 + 1 + 1 + 1) with (dol_of block).
  rewrite parse_block_while_end. cbv iota beta.
  change (0 + 1 =? 0) with false. cbn [negb]. cbv iota.
  rewrite parse_block_while_done by reflexivity. reflexivity.
Qed.

Lemma quote_line_print pe fuel :
  (Z.to_nat (wsize t) + 9 <= fuel)%nat ->
  print_block fuel
    [Token SBLOCKQUOTE (Iter s 1) (Iter s 1);
     Token SPARAGRAPH (Iter s 2) (Iter s 2);
     Token INLINE (Iter s 2) (cend_of s);
     Token EPARAGRAPH (cend pe) (cend pe);
     Token EBLOCKQUOTE (cend pe) (cend pe)] [] []
  = Some (L "<blockquote>" ++ [NL] ++ L "<p>" ++ t ++ L "</p>" ++ [NL]
          ++ L "</blockquote>" ++ [NL]).
Proof.
  intros Hf.
  destruct quote_line_anatomy as (Hs & Hn & _ & _ & _ & _ & Hslice).
  set (toks := [Token SBLOCKQUOTE (Iter s 1) (Iter s 1);
                Token SPARAGRAPH (Iter s 2) (Iter s 2);
                Token INLINE (Iter s 2) (cend_of s);
                Token EPARAGRAPH (cend pe) (cend pe);
                Token EBLOCKQUOTE (cend pe) (cend pe)]).
  assert (Hall : forallb word_char t = true)
    by (unfold t; cbn [forallb]; rewrite rest_words; unfold word_char;
        rewrite first_alnum; reflexivity).
  unfold print_block.
  change (skip_kind null_token (Z.to_nat (dol_of toks)) BLANK toks 0) with 0.
  destruct fuel as [|[|[|[|[|[|fuel]]]]]]; try lia.
  rewrite print_block_while_tag
    by (change (dol_of toks) with 5; try reflexivity; lia).
  rewrite print_block_while_tag
    by (change (dol_of toks) with 5; try reflexivity; lia).
  rewrite (@print_block_while_words _ toks (0 + 1 + 1) _ [] t);
    [|change (dol_of toks) with 5; lia | reflexivity | reflexivity
     |exact Hslice | exact Hall | exact Hn | lia].
  rewrite print_block_while_tag
    by (change (dol_of toks) with 5; try reflexivity; lia).
  rewrite print_block_while_tag
    by (change (dol_of toks) with 5; try reflexivity; lia).
  rewrite print_block_while_end by (change (dol_of toks) with 5; lia).
  change (tk toks 0) with (Token SBLOCKQUOTE (Iter s 1) (Iter s 1)).
  change (tk toks (0 + 1)) with (Token SPARAGRAPH (Iter s 2) (Iter s 2)).
  change (tk toks (0 + 1 + 1 + 1)) with (Token EPARAGRAPH (cend pe) (cend pe)).
  change (tk toks (0 + 1 + 1 + 1 + 1))
    with (Token EBLOCKQUOTE (cend pe) (cend pe)).
  cbn [kind].
  change (kind_eqb SOLIST SBLOCKQUOTE || kind_eqb SULIST SBLOCKQUOTE)
    with false.
  change (kind_eqb SOLIST SPARAGRAPH || kind_eqb SULIST SPARAGRAPH)
    with false.
  change (kind_eqb SOLIST EPARAGRAPH || kind_eqb SULIST EPARAGRAPH)
    with false.
  change (kind_eqb SOLIST EBLOCKQUOTE || kind_eqb SULIST EBLOCKQUOTE)
    with false.
  cbv iota. rewrite app_nil_l. rewrite <- !app_assoc. reflexivity.
Qed.

End QuoteLine.

(** X22. A quotation of words: the line [> ] followed by a text of ASCII
    letters, digits and spaces that begins with a letter or a digit is
    translated to a paragraph of that text inside [<blockquote>]. *)
Theorem translate_blockquote (c : wchar) (w : wstring) :
  ismdalnum c = true -> forallb word_char w = true ->
  translates_to (blockquote_form (c :: w))
    (L "<blockquote>" ++ [NL] ++ L "<p>" ++ c :: w ++ L "</p>" ++ [NL]
     ++ L "</blockquote>" ++ [NL]).
Proof.
  intros Hc Hw. exists (Z.to_nat (wsize (c :: w)) + 9)%nat.
  intros past_end fuel Hf. unfold translate, markdown.
  rewrite (@quote_line_split c w Hc Hw fuel) by lia.
  rewrite (@quote_line_block c w Hc Hw past_end fuel) by lia.
  apply (@quote_line_print c w Hc Hw past_end fuel). exact Hf.
Qed.

Lemma translate_blockquote_witness :
  translates_to (L "> To be or not" ++ [NL])
    (L "<blockquote>" ++ [NL] ++ L "<p>To be or not</p>" ++ [NL]
     ++ L "</blockquote>" ++ [NL]).
Proof.
  apply (@translate_blockquote (ch "T") (L "o be or not"));
    reflexivity.
Defined.

(** ** Lists *)

Lemma parse_list_while_end pe fuel input dol block indicator :
  parse_list_while pe (S fuel) input dol dol block indicator
  = Some (dol, block).
Proof. cbn [parse_list_while]. rewrite Z.eqb_refl. reflexivity. Qed.

(** A list of one item: the marker [mk], a space and words. *)
Section ListLine.

Variable mk : wstring.
Variable c : wchar.
Variable w : wstring.
Hypothesis first_alnum : ismdalnum c = true.
Hypothesis rest_words : forallb word_char w = true.

Let t : wstring := c :: w.
Let s : wstring := list_item_form mk t.
Let M := wsize mk.
Let line : token_type := Token LINE (cbegin_of s) (cend_of s).

Hypothesis marker_print : forallb ismdprint mk = true.
Hypothesis marker_first :
  wfind (at_index mk 0) (L " `<[>#") = false /\ at_index mk 0 <> TAB.
Hypothesis marker_size : 0 < M.
Hypothesis marker_hrule : scan_hrule (cbegin_of s) (cend_of s) = cbegin_of s.
Hypothesis marker_scan :
  scan_listmark (cbegin_of s) (cend_of s) = Iter s M.

Let stag : kind_type :=
  if ch "." =? at_index mk (M - 1) then SOLIST else SULIST.
Let etag : kind_type :=
  if ch "." =? at_index mk (M - 1) then EOLIST else EULIST.

Lemma list_line_anatomy :
  wsize s = M + 1 + wsize t + 1 /\ 0 < wsize t
  /\ (forall i, 0 <= i < M -> at_index s i = at_index mk i)
  /\ at_index s M = ch " "
  /\ (forall i, 0 <= i < wsize t -> at_index s (M + 1 + i) = at_index t i)
  /\ at_index s (M + 1 + wsize t) = NL
  /\ slice (Iter s (M + 1)) (cend_of s) = t ++ [NL].
Proof.
  assert (Hn : 0 < wsize t)
    by (unfold t; rewrite wsize_cons; pose proof (wsize_nonneg w); lia).
  assert (Es : s = (mk ++ [ch " "]) ++ t ++ [NL])
    by (unfold s, list_item_form; rewrite <- app_assoc; reflexivity).
  assert (Hpre : wsize (mk ++ [ch " "]) = M + 1)
    by (rewrite wsize_app; reflexivity).
  split.
  { rewrite Es.
    repeat (rewrite wsize_app || rewrite wsize_cons || rewrite wsize_nil).
    fold M. lia. }
  split; [exact Hn|].
  split.
  { intros i Hi. unfold s, list_item_form. apply at_index_app_l.
    fold M. lia. }
  split.
  { unfold s, list_item_form. rewrite at_index_app_r by (fold M; lia).
    fold M. replace (M - M) with 0 by lia. reflexivity. }
  split.
  { intros i Hi. rewrite Es, <- Hpre. apply at_index_mid. exact Hi. }
  split.
  { rewrite Es. rewrite at_index_app_r by lia. rewrite Hpre.
    rewrite at_index_app_r by lia.
    replace (M + 1 + wsize t - (M + 1) - wsize t) with 0 by lia.
    reflexivity. }
  assert (Hsz : wsize s = wsize (mk ++ [ch " "]) + wsize (t ++ [NL])).
  { rewrite Es.
    repeat (rewrite wsize_app || rewrite wsize_cons || rewrite wsize_nil).
    lia. }
  rewrite <- Hpre. unfold cend_of. fold (wsize s). rewrite Hsz.
  assert (Es' : s = (mk ++ [ch " "]) ++ (t ++ [NL]) ++ [])
    by (rewrite app_nil_r; exact Es).
  rewrite Es'. apply slice_mid.
Qed.

Lemma list_line_first_tests :
  let f := at_index s 0 in
  f = at_index mk 0 /\ ismdspace f = false
  /\ (ch "`" =? f) = false /\ (ch "<" =? f) = false
  /\ (ch "[" =? f) = false /\ (ch ">" =? f) = false
  /\ (ch "#" =? f) = false /\ (ch " " =? f) = false /\ (TAB =? f) = false.
Proof.
  destruct list_line_anatomy as (_ & _ & Hm & _).
  destruct marker_first as (Hf & Htab).
  cbv zeta. rewrite Hm by lia.
  unfold wfind in Hf. cbn [L existsb] in Hf.
  repeat (apply orb_false_elim in Hf; destruct Hf as [? Hf]).
  assert (Ht : (TAB =? at_index mk 0) = false)
    by (apply Z.eqb_neq; intros E; apply Htab; symmetry; exact E).
  assert (Hsp : (ch " " =? at_index mk 0) = false)
    by (rewrite Z.eqb_sym; assumption).
  unfold ismdspace. rewrite Ht, Hsp.
  repeat split; try reflexivity; rewrite Z.eqb_sym; assumption.
Qed.

Lemma list_line_stay n1 n2 pr :
  pr (at_index s 0) = false ->
  scan_of_pred (cbegin_of s) (cend_of s) n1 n2 pr = cbegin_of s.
Proof. intros H. apply scan_of_pred_stay. exact H. Qed.

Lemma list_line_tab_not :
  scan_tab_not (cbegin_of s) (cend_of s) = cbegin_of s.
Proof.
  unfold scan_tab_not, scan_of. apply list_line_stay.
  apply list_line_first_tests.
Qed.

Lemma list_line_tab : scan_tab (cbegin_of s) (cend_of s) = cbegin_of s.
Proof.
  destruct list_line_first_tests as (_ & _ & _ & _ & _ & _ & _ & Hsp & Htab).
  unfold scan_tab, scan_of.
  rewrite (@list_line_stay 0 3 (Z.eqb (ch " "))) by exact Hsp.
  rewrite (@list_line_stay 1 1 (Z.eqb (ch " "))) by exact Hsp.
  rewrite (@list_line_stay 1 1 (Z.eqb TAB)) by exact Htab.
  cbv zeta. unfold idiff, ilt. rewrite Z.sub_diag, Z.ltb_irrefl.
  reflexivity.
Qed.

Lemma list_line_split fuel :
  (3 <= fuel)%nat -> split_lines fuel s [] [] = Some ([line], []).
Proof.
  intros Hf.
  destruct list_line_anatomy as (Hs & Hn & Hm & Hsp & Ht & Hnl & _).
  destruct list_line_first_tests
    as (Hf0 & Hspace & Hfence & Htag & Hlabel & _).
  assert (Eb : s = (mk ++ ch " " :: t) ++ [NL])
    by (unfold s, list_item_form; rewrite <- app_assoc; reflexivity).
  assert (Hb0 : at_index (mk ++ ch " " :: t) 0 = at_index s 0)
    by (rewrite Eb; symmetry; apply at_index_app_l; rewrite wsize_app;
        fold M; rewrite wsize_cons; lia).
  unfold line. rewrite Eb.
  apply (@split_lines_single_line (mk ++ ch " " :: t) 0 fuel).
  - rewrite forallb_app. rewrite marker_print. cbn [forallb andb].
    change (ismdprint (ch " ")) with true. cbn [andb].
    apply forallb_forall. intros x Hx.
    assert (Hw : word_char x = true).
    { assert (Hall : forallb word_char t = true)
        by (unfold t; cbn [forallb]; rewrite rest_words; unfold word_char;
            rewrite first_alnum; reflexivity).
      rewrite forallb_forall in Hall. apply Hall, Hx. }
    destruct (word_char_cases _ Hw) as [-> | Hal]; [reflexivity|].
    apply (alnum_tests _ Hal).
  - rewrite wsize_app. fold M. rewrite wsize_cons. lia.
  - rewrite Hb0. exact Hspace.
  - rewrite Hb0. exact Hfence.
  - rewrite Hb0. exact Htag.
  - rewrite <- Eb. rewrite list_line_tab_not. exact Hlabel.
  - exact Hf.
Qed.

Lemma list_line_block pe fuel :
  (7 <= fuel)%nat ->
  parse_block pe fuel [line] []
  = Some [Token stag (Iter s (M + 1)) (Iter s (M + 1));
          Token SLITEM (Iter s (M + 1)) (Iter s (M + 1));
          Token INLINE (Iter s (M + 1)) (cend_of s);
          Token ELITEM (cbegin pe) (cbegin pe);
          Token etag (cbegin pe) (cbegin pe)].
Proof.
  intros Hf.
  destruct list_line_anatomy as (Hs & Hn & Hm & Hsp & Ht & Hnl & _).
  destruct list_line_first_tests
    as (Hf0 & Hspace & _ & _ & _ & Hquote & Hhash & _).
  assert (Hend : idx (cend_of s) = wsize s) by reflexivity.
  assert (Hrefl : (cbegin_of s ==! cbegin_of s) = true) by apply Z.eqb_refl.
  assert (Hfirst : at_index s (M + 1) = c)
    by (replace (M + 1) with (M + 1 + 0) by lia; rewrite Ht by lia;
        reflexivity).
  destruct (alnum_tests _ first_alnum) as (_ & _ & _ & Hcs & _).
  destruct fuel as [|fuel]; [lia|].
  unfold parse_block.
  cbn [parse_block_while]. cbv zeta.
  change (dol_of [line]) with 1. change (0 =? 1) with false.
  change (tok pe [line] 0) with line.
  change (kind line) with LINE.
  change (kind_eqb SLITEM LINE) with false.
  change (kind_eqb LINE LINE) with true. cbn [negb]. cbv iota.
  (* a horizontal rule? *)
  unfold parse_hrule. change (tok pe [line] 0) with line.
  cbn [line cbegin cend]. rewrite marker_hrule, Hrefl. cbv iota.
  change (0 =? 0) with true. cbn [negb]. cbv iota.
  (* indented code? *)
  unfold parse_tabcode. change (tok pe [line] 0) with line.
  cbn [line cbegin cend]. rewrite list_line_tab.
  cbv zeta. rewrite Hrefl. cbv iota.
  change (0 =? 0) with true. cbn [negb]. cbv iota.
  (* a quotation? *)
  unfold parse_blockquote. change (tok pe [line] 0) with line.
  cbn [line cbegin cend]. rewrite list_line_tab_not. unfold scan_of at 1.
  rewrite list_line_stay by exact Hquote.
  cbv zeta. rewrite Hrefl. cbv iota.
  change (0 =? 0) with true. cbn [negb]. cbv iota.
  (* a heading? *)
  unfold parse_atxheading. change (tok pe [line] 0) with line.
  cbn [line cbegin cend]. rewrite list_line_tab_not. unfold scan_of at 1.
  rewrite list_line_stay by exact Hhash.
  cbv zeta. rewrite Hrefl. cbv iota.
  change (0 =? 0) with true. cbn [negb]. cbv iota.
  (* a list *)
  unfold parse_list. change (tok pe [line] 0) with line.
  cbn [line cbegin cend]. rewrite marker_scan. cbv zeta.
  replace (Iter s M ==! cbegin_of s) with false
    by (symmetry; apply Z.eqb_neq; cbn [cbegin_of idx]; lia).
  cbv iota.
  replace (peek (Iter s M) (-1)) with (at_index mk (M - 1))
    by (unfold peek, deref, iadd; cbn [str idx];
        replace (M + -1) with (M - 1) by lia; symmetry; apply Hm; lia).
  fold stag etag.
  rewrite (@scan_of_pred_run (Iter s M) (cend_of s) 1 ismdspace (M + 1));
    cbn [str idx].
  2:{ right. reflexivity. }
  2:{ rewrite Hend. lia. }
  2:{ rewrite Hend. split; [lia|]. split.
      - intros m Hmm. replace m with M by lia. rewrite Hsp. reflexivity.
      - right. rewrite Hfirst. exact Hcs. }
  destruct fuel as [|fuel]; [lia|].
  change (0 + 1) with 1. rewrite parse_list_while_end. cbv iota beta.
  change (tok pe [line] 1) with pe.
  unfold push_back. cbn [app].
  (* the items *)
  set (block := [Token stag (Iter s (M + 1)) (Iter s (M + 1));
                 Token SLITEM (Iter s (M + 1)) (Iter s (M + 1));
                 Token LINE (Iter s (M + 1)) (cend_of s);
                 Token ELITEM (cbegin pe) (cbegin pe);
                 Token etag (cbegin pe) (cbegin pe)]).
  assert (Hstag : kind_eqb LINE stag = false /\ kind_eqb SLITEM stag = false)
    by (unfold stag; destruct (ch "." =? at_index mk (M - 1));
        split; reflexivity).
  assert (Hetag : kind_eqb LINE etag = false /\ kind_eqb SLITEM etag = false)
    by (unfold etag; destruct (ch "." =? at_index mk (M - 1));
        split; reflexivity).
  destruct fuel as [|[|[|[|[|fuel]]]]]; try lia.
  rewrite (@parse_block_while_copy pe _ block 0 false [])
    by (change (dol_of block) with 5; try apply Hstag; lia).
  change (tok pe block 0) with (Token stag (Iter s (M + 1)) (Iter s (M + 1))).
  cbn [kind]. rewrite (proj2 Hstag). cbv iota.
  rewrite (@parse_block_while_copy pe _ block (0 + 1) false)
    by (change (dol_of block) with 5; try reflexivity; lia).
  change (tok pe block (0 + 1))
    with (Token SLITEM (Iter s (M + 1)) (Iter s (M + 1))).
  cbn [kind]. change (kind_eqb SLITEM SLITEM) with true. cbv iota.
  assert (Ecend : cend_of s = Iter s (M + 1 + wsize (c :: w) + 1))
    by (unfold cend_of; fold (wsize s); rewrite Hs; reflexivity).
  rewrite (@parse_block_while_words s (M + 1) c w first_alnum rest_words
             Ht Hnl pe block (0 + 1 + 1));
    [|change (dol_of block) with 5; lia
     |change (tok pe block (0 + 1 + 1))
        with (Token LINE (Iter s (M + 1)) (cend_of s));
      rewrite Ecend; reflexivity
     |right; reflexivity
     |right; apply empty_token_plain; reflexivity].
  rewrite <- Ecend. cbv iota.
  rewrite (@parse_block_while_copy pe _ block (0 + 1 + 1 + 1) false)
    by (change (dol_of block) with 5; try reflexivity; lia).
  change (tok pe block (0 + 1 + 1 + 1))
    with (Token ELITEM (cbegin pe) (cbegin pe)).
  cbn [kind]. change (kind_eqb SLITEM ELITEM) with false. cbv iota.
  rewrite (@parse_block_while_copy pe _ block (0 + 1 + 1 + 1 + 1) false)
    by (change (dol_of block) with 5; try apply Hetag; lia).
  change (tok pe block (0 + 1 + 1 + 1 + 1))
    with (Token etag (cbegin pe) (cbegin pe)).
  cbn [kind]. rewrite (proj2 Hetag). cbv iota.
  change (0 + 1 + 1 + 1 + 1 + 1) with (dol_of block).
  rewrite parse_block_while_end. cbv iota beta.
  change (1 =? 0) with false. cbn [negb]. cbv iota.
  rewrite parse_block_while_done by reflexivity. reflexivity.
Qed.

Lemma list_line_print pe fuel :
  (Z.to_nat (wsize t) + 9 <= fuel)%nat ->
  print_block fuel
    [Token stag (Iter s (M + 1)) (Iter s (M + 1));
     Token SLITEM (Iter s (M + 1)) (Iter s (M + 1));
     Token INLINE (Iter s (M + 1)) (cend_of s);
     Token ELITEM (cbegin pe) (cbegin pe);
     Token etag (cbegin pe) (cbegin pe)] [] []
  = Some (kindname stag ++ L "<li>" ++ t ++ L "</li>" ++ [NL]
          ++ kindname etag).
Proof.
  intros Hf.
  destruct list_line_anatomy as (Hs & Hn & _ & _ & _ & _ & Hslice).
  set (toks := [Token stag (Iter s (M + 1)) (Iter s (M + 1));
                Token SLITEM (Iter s (M + 1)) (Iter s (M + 1));
                Token INLINE (Iter s (M + 1)) (cend_of s);
                Token ELITEM (cbegin pe) (cbegin pe);
                Token etag (cbegin pe) (cbegin pe)]).
  assert (Hall : forallb word_char t = true)
    by (unfold t; cbn [forallb]; rewrite rest_words; unfold word_char;
        rewrite first_alnum; reflexivity).
  assert (Hstag : kind_eqb BLANK stag = false /\ kind_leb HRULE stag = true
                  /\ kind_eqb SOLIST stag || kind_eqb SULIST stag = true)
    by (unfold stag; destruct (ch "." =? at_index mk (M - 1));
        repeat split; reflexivity).
  assert (Hetag : kind_eqb BLANK etag = false /\ kind_leb HRULE etag = true
                  /\ kind_eqb SOLIST etag || kind_eqb SULIST etag = false)
    by (unfold etag; destruct (ch "." =? at_index mk (M - 1));
        repeat split; reflexivity).
  unfold print_block.
  change (Z.to_nat (dol_of toks)) with 5%nat. cbn [skip_kind].
  change (tok null_token toks 0)
    with (Token stag (Iter s (M + 1)) (Iter s (M + 1))).
  cbn [kind]. rewrite (proj1 Hstag).
  destruct fuel as [|[|[|[|[|[|fuel]]]]]]; try lia.
  rewrite print_block_while_tag
    by (change (dol_of toks) with 5; try apply Hstag; lia).
  rewrite print_block_while_tag
    by (change (dol_of toks) with 5; try reflexivity; lia).
  rewrite (@print_block_while_words _ toks (0 + 1 + 1) _ [] t);
    [|change (dol_of toks) with 5; lia | reflexivity | reflexivity
     |exact Hslice | exact Hall | exact Hn | lia].
  rewrite print_block_while_tag
    by (change (dol_of toks) with 5; try reflexivity; lia).
  rewrite print_block_while_tag
    by (change (dol_of toks) with 5; try apply Hetag; lia).
  rewrite print_block_while_end by (change (dol_of toks) with 5; lia).
  change (tk toks 0) with (Token stag (Iter s (M + 1)) (Iter s (M + 1))).
  change (tk toks (0 + 1))
    with (Token SLITEM (Iter s (M + 1)) (Iter s (M + 1))).
  change (tk toks (0 + 1 + 1 + 1)) with (Token ELITEM (cbegin pe) (cbegin pe)).
  change (tk toks (0 + 1 + 1 + 1 + 1))
    with (Token etag (cbegin pe) (cbegin pe)).
  cbn [kind].
  change (0 - 1 >? 0) with false. cbn [andb].
  change (kind_eqb SOLIST SLITEM || kind_eqb SULIST SLITEM) with false.
  change (kind_eqb SOLIST ELITEM || kind_eqb SULIST ELITEM) with false.
  rewrite (proj2 (proj2 Hetag)), (proj2 (proj2 Hstag)).
  cbv iota. rewrite app_nil_l. rewrite <- !app_assoc. reflexivity.
Qed.

End ListLine.

Lemma bullet_cases (m : wchar) :
  wfind m (L "*+-") = true -> m = ch "*" \/ m = ch "+" \/ m = ch "-".
Proof.
  unfold wfind. cbn [L existsb]. intros H.
  apply orb_prop in H as [H | H]; [left; apply Z.eqb_eq, H|].
  apply orb_prop in H as [H | H]; [right; left; apply Z.eqb_eq, H|].
  apply orb_prop in H as [H | H]; [right; right; apply Z.eqb_eq, H|].
  discriminate H.
Qed.

Section BulletLine.

Variable m : wchar.
Variable c : wchar.
Variable w : wstring.
Hypothesis bullet : wfind m (L "*+-") = true.
Hypothesis first_alnum : ismdalnum c = true.

Let s : wstring := list_item_form [m] (c :: w).

Lemma bullet_line_chars :
  at_index s 0 = m /\ at_index s 1 = ch " " /\ at_index s 2 = c
  /\ 4 <= wsize s.
Proof.
  repeat split. unfold s, list_item_form. cbn [app].
  rewrite !wsize_cons, wsize_app. pose proof (wsize_nonneg w).
  change (wsize [NL]) with 1. lia.
Qed.

Lemma bullet_line_tab_not :
  scan_tab_not (cbegin_of s) (cend_of s) = cbegin_of s.
Proof.
  unfold scan_tab_not, scan_of. apply scan_of_pred_stay.
  change (deref (cbegin_of s)) with m.
  destruct (bullet_cases _ bullet) as [-> | [-> | ->]]; reflexivity.
Qed.

Lemma bullet_line_hrule : scan_hrule (cbegin_of s) (cend_of s) = cbegin_of s.
Proof.
  destruct bullet_line_chars as (_ & _ & _ & Hsize).
  destruct (alnum_tests _ first_alnum)
    as (Hplain & _ & _ & Hspace & Hdash & _).
  unfold wfind in Hplain. cbn [L existsb] in Hplain.
  unfold scan_hrule. rewrite bullet_line_tab_not.
  change (deref (cbegin_of s)) with m.
  destruct ((cbegin_of s <! cend_of s)
            && ((ch "*" =? m) || (ch "_" =? m) || (ch "-" =? m))) eqn:E;
    [|reflexivity].
  cbn [negb]. cbv iota zeta.
  assert (Hk : exists k, dist (cbegin_of s) (cend_of s) = S (S (S k))).
  { exists (Z.to_nat (wsize s) - 3)%nat. unfold dist.
    cbn [cbegin_of cend_of idx]. fold (wsize s). lia. }
  destruct Hk as (k & ->).
  cbn [scan_hrule_loop]. unfold deref, iadd. cbn [cbegin_of str idx].
  change (at_index s 0) with m. change (at_index s (0 + 1)) with (ch " ").
  change (at_index s (0 + 1 + 1)) with c.
  rewrite Z.eqb_refl, orb_true_r. cbv iota.
  change (ismdspace (ch " ")) with true. cbn [orb]. cbv iota.
  rewrite Hspace. cbn [orb].
  assert (Hmc : (m =? c) = false).
  { apply Z.eqb_neq. intros Emc.
    destruct (bullet_cases _ bullet) as [Em | [Em | Em]];
      rewrite Em in Emc; rewrite <- Emc in Hplain; discriminate Hplain
      || (rewrite <- Emc in first_alnum; discriminate first_alnum). }
  rewrite Hmc. cbv iota.
  replace (if m =? ch " " then 0 + 1 + 1 else 0 + 1) with 1
    by (destruct (bullet_cases _ bullet) as [-> | [-> | ->]]; reflexivity).
  reflexivity.
Qed.

Lemma bullet_line_listmark :
  scan_listmark (cbegin_of s) (cend_of s) = Iter s (wsize [m]).
Proof.
  destruct bullet_line_chars as (_ & _ & _ & Hsize).
  unfold scan_listmark. rewrite bullet_line_tab_not. cbv zeta.
  replace (cend_of s <=! cbegin_of s) with false
    by (symmetry; apply Z.leb_gt; change (0 < wsize s); lia).
  change (deref (cbegin_of s)) with m.
  replace ((ch "*" =? m) || (ch "+" =? m) || (ch "-" =? m)) with true
    by (destruct (bullet_cases _ bullet) as [-> | [-> | ->]]; reflexivity).
  rewrite scan_of_pred_one.
  replace (cbegin_of s +! 1) with (Iter s 1) by reflexivity.
  replace (Iter s 1 <! cend_of s) with true
    by (symmetry; apply Z.ltb_lt; change (1 < wsize s); lia).
  change (deref (Iter s 1)) with (ch " ").
  change (ismdspace (ch " ")) with true. cbn [andb]. cbv iota.
  unfold ilt, iadd. cbn [str idx]. reflexivity.
Qed.

End BulletLine.

(** X23. A list of one item: a line that begins with an asterisk, a plus
    sign or a hyphen and a space, followed by a text of ASCII letters,
    digits and spaces that begins with a letter or a digit, is
    translated to an unordered list whose one item holds that text. *)
Theorem translate_bullet_item (m c : wchar) (w : wstring) :
  wfind m (L "*+-") = true ->
  ismdalnum c = true -> forallb word_char w = true ->
  translates_to (list_item_form [m] (c :: w))
    (L "<ul>" ++ [NL] ++ L "<li>" ++ c :: w ++ L "</li>" ++ [NL]
     ++ L "</ul>" ++ [NL]).
Proof.
  intros Hm Hc Hw. exists (Z.to_nat (wsize (c :: w)) + 9)%nat.
  intros past_end fuel Hf. unfold translate, markdown.
  assert (Hfirst : wfind (at_index [m] 0) (L " `<[>#") = false
                   /\ at_index [m] 0 <> TAB)
    by (destruct (bullet_cases _ Hm) as [-> | [-> | ->]];
        split; try reflexivity; discriminate).
  assert (Hprint : forallb ismdprint [m] = true)
    by (destruct (bullet_cases _ Hm) as [-> | [-> | ->]]; reflexivity).
  assert (Hsize : 0 < wsize [m]) by reflexivity.
  rewrite (@list_line_split [m] c w Hc Hw Hprint Hfirst Hsize fuel) by lia.
  rewrite (@list_line_block [m] c w Hc Hw Hfirst Hsize
             (@bullet_line_hrule m c w Hm Hc)
             (@bullet_line_listmark m c w Hm) past_end fuel) by lia.
  rewrite (@list_line_print [m] c w Hc Hw past_end fuel) by lia.
  change (at_index [m] (wsize [m] - 1)) with m.
  replace (ch "." =? m) with false
    by (destruct (bullet_cases _ Hm) as [-> | [-> | ->]]; reflexivity).
  reflexivity.
Qed.

Lemma translate_bullet_item_witness :
  translates_to (L "- buy 2 apples" ++ [NL])
    (L "<ul>" ++ [NL] ++ L "<li>buy 2 apples</li>" ++ [NL]
     ++ L "</ul>" ++ [NL]).
Proof.
  apply (@translate_bullet_item (ch "-") (ch "b") (L "uy 2 apples"));
    reflexivity.
Defined.

Section NumberLine.

Variable ds : wstring.
Variable c : wchar.
Variable w : wstring.
Hypothesis number_ok : item_number ds = true.
Hypothesis first_alnum : ismdalnum c = true.

Let mk : wstring := ds ++ [ch "."].
Let s : wstring := list_item_form mk (c :: w).
Let D := wsize ds.

Lemma number_line_chars :
  1 <= D /\ wsize mk = D + 1 /\ D + 4 <= wsize s
  /\ (forall i, 0 <= i < D -> ismddigit (at_index s i) = true)
  /\ at_index s D = ch "." /\ at_index s (D + 1) = ch " "
  /\ at_index mk 0 = at_index s 0
  /\ at_index mk (wsize mk - 1) = ch ".".
Proof.
  unfold item_number in number_ok.
  apply andb_prop in number_ok as [Hne Hall].
  pose proof (nonempty_wsize ds Hne) as HD. fold D in HD.
  assert (Hmk : wsize mk = D + 1) by (unfold mk; rewrite wsize_app; reflexivity).
  assert (Es : s = ds ++ ch "." :: ch " " :: (c :: w) ++ [NL])
    by (unfold s, list_item_form, mk; rewrite <- app_assoc; reflexivity).
  split; [exact HD|]. split; [exact Hmk|].
  split.
  { rewrite Es.
    repeat (rewrite wsize_app || rewrite wsize_cons || rewrite wsize_nil).
    fold D. pose proof (wsize_nonneg w). lia. }
  split.
  { intros i Hi. rewrite Es, at_index_app_l by (fold D; lia).
    apply forallb_at_index; [exact Hall | fold D; lia]. }
  split.
  { rewrite Es, at_index_app_r by (fold D; lia). fold D.
    replace (D - D) with 0 by lia. reflexivity. }
  split.
  { rewrite Es, at_index_app_r by (fold D; lia). fold D.
    replace (D + 1 - D) with 1 by lia. reflexivity. }
  split.
  { unfold mk. rewrite Es, !at_index_app_l by (fold D; lia). reflexivity. }
  unfold mk at 1. rewrite Hmk, at_index_app_r by (fold D; lia). fold D.
  replace (D + 1 - 1 - D) with 0 by lia. reflexivity.
Qed.

Lemma digit_tests (x : wchar) :
  ismddigit x = true ->
  wfind x (L " `<[>#*_-+") = false /\ x <> TAB /\ ismdprint x = true.
Proof.
  unfold ismddigit, wfind, ismdprint. cbn [L existsb]. chars. intros H.
  assert (Hx : 48 <= x <= 57) by (tests; lia).
  repeat split; try lia.
Qed.

Lemma number_line_first :
  wfind (at_index mk 0) (L " `<[>#") = false /\ at_index mk 0 <> TAB.
Proof.
  destruct number_line_chars as (HD & _ & _ & Hdig & _ & _ & E0 & _).
  rewrite E0. destruct (digit_tests _ (Hdig 0 ltac:(lia))) as (Hf & Ht & _).
  split; [|exact Ht].
  unfold wfind in *. cbn [L existsb] in *.
  repeat (apply orb_false_elim in Hf; destruct Hf as [? Hf]).
  repeat (apply orb_false_intro; [assumption|]). reflexivity.
Qed.

Lemma number_line_print : forallb ismdprint mk = true.
Proof.
  unfold item_number in number_ok.
  apply andb_prop in number_ok as [_ Hall].
  unfold mk. rewrite forallb_app. apply andb_true_intro.
  split; [|reflexivity].
  rewrite forallb_forall in *. intros x Hx.
  apply (digit_tests _ (Hall x Hx)).
Qed.

Lemma number_line_tab_not :
  scan_tab_not (cbegin_of s) (cend_of s) = cbegin_of s.
Proof.
  destruct number_line_chars as (HD & _ & _ & Hdig & _).
  destruct (digit_tests _ (Hdig 0 ltac:(lia))) as (Hf & _).
  unfold wfind in Hf. cbn [L existsb] in Hf.
  apply orb_false_elim in Hf as [Hsp _].
  unfold scan_tab_not, scan_of. apply scan_of_pred_stay.
  unfold deref. cbn [cbegin_of str idx]. rewrite Z.eqb_sym. exact Hsp.
Qed.

Lemma number_line_hrule : scan_hrule (cbegin_of s) (cend_of s) = cbegin_of s.
Proof.
  destruct number_line_chars as (HD & _ & _ & Hdig & _).
  destruct (digit_tests _ (Hdig 0 ltac:(lia))) as (Hf & _).
  unfold wfind in Hf. cbn [L existsb] in Hf.
  repeat (apply orb_false_elim in Hf; destruct Hf as [? Hf]).
  unfold scan_hrule. rewrite number_line_tab_not.
  unfold deref. cbn [cbegin_of str idx].
  replace (ch "*" =? at_index s 0) with false
    by (symmetry; rewrite Z.eqb_sym; assumption).
  replace (ch "_" =? at_index s 0) with false
    by (symmetry; rewrite Z.eqb_sym; assumption).
  replace (ch "-" =? at_index s 0) with false
    by (symmetry; rewrite Z.eqb_sym; assumption).
  rewrite andb_false_r. reflexivity.
Qed.

Lemma number_line_listmark :
  scan_listmark (cbegin_of s) (cend_of s) = Iter s (wsize mk).
Proof.
  destruct number_line_chars
    as (HD & Hmk & Hsize & Hdig & Hdot & Hsp & _).
  destruct (digit_tests _ (Hdig 0 ltac:(lia))) as (Hf & _).
  unfold wfind in Hf. cbn [L existsb] in Hf.
  repeat (apply orb_false_elim in Hf; destruct Hf as [? Hf]).
  assert (Hend : idx (cend_of s) = wsize s) by reflexivity.
  unfold scan_listmark. rewrite number_line_tab_not. cbv zeta.
  replace (cend_of s <=! cbegin_of s) with false
    by (symmetry; apply Z.leb_gt; change (0 < wsize s); lia).
  unfold deref at 1 2 3. cbn [cbegin_of str idx].
  replace (ch "*" =? at_index s 0) with false
    by (symmetry; rewrite Z.eqb_sym; assumption).
  replace (ch "+" =? at_index s 0) with false
    by (symmetry; rewrite Z.eqb_sym; assumption).
  replace (ch "-" =? at_index s 0) with false
    by (symmetry; rewrite Z.eqb_sym; assumption).
  cbn [orb]. cbv iota.
  unfold deref. cbn [cbegin_of str idx]. rewrite (Hdig 0) by lia.
  rewrite (@scan_of_pred_run (cbegin_of s) (cend_of s) 1 ismddigit D);
    cbn [cbegin_of str idx].
  2:{ right. reflexivity. }
  2:{ rewrite Hend. lia. }
  2:{ rewrite Hend. split; [lia|]. split.
      - intros i Hi. apply Hdig. lia.
      - right. rewrite Hdot. reflexivity. }
  unfold scan_of. rewrite !scan_of_pred_one.
  replace (Iter s D <! cend_of s) with true
    by (symmetry; apply Z.ltb_lt; cbn [idx]; rewrite Hend; lia).
  replace (ch "." =? deref (Iter s D)) with true
    by (unfold deref; cbn [str idx]; rewrite Hdot; reflexivity).
  cbn [andb]. cbv iota.
  replace (Iter s D +! 1) with (Iter s (D + 1)) by reflexivity.
  replace (Iter s (D + 1) <! cend_of s) with true
    by (symmetry; apply Z.ltb_lt; cbn [idx]; rewrite Hend; lia).
  unfold deref. cbn [str idx]. rewrite Hsp.
  change (ismdspace (ch " ")) with true. cbn [andb]. cbv iota.
  unfold ilt, iadd. cbn [str idx].
  replace (D <? D + 1) with true by (symmetry; apply Z.ltb_lt; lia).
  replace (D + 1 <? D + 1 + 1) with true by (symmetry; apply Z.ltb_lt; lia).
  cbn [andb]. rewrite Hmk. reflexivity.
Qed.

End NumberLine.

(** X24. A numbered item: a line that begins with a number, a full stop
    and a space, followed by a text of ASCII letters, digits and spaces
    that begins with a letter or a digit, is translated to an ordered
    list whose one item holds that text; the number itself is not
    written. *)
Theorem translate_numbered_item (ds : wstring) (c : wchar) (w : wstring) :
  item_number ds = true ->
  ismdalnum c = true -> forallb word_char w = true ->
  translates_to (list_item_form (ds ++ [ch "."]) (c :: w))
    (L "<ol>" ++ [NL] ++ L "<li>" ++ c :: w ++ L "</li>" ++ [NL]
     ++ L "</ol>" ++ [NL]).
Proof.
  intros Hd Hc Hw. exists (Z.to_nat (wsize (c :: w)) + 9)%nat.
  intros past_end fuel Hf. unfold translate, markdown.
  destruct (@number_line_chars ds c w Hd)
    as (HD & Hmk & _ & _ & _ & _ & _ & Hlast).
  rewrite (@list_line_split (ds ++ [ch "."]) c w Hc Hw
             (@number_line_print ds Hd) (@number_line_first ds c w Hd)
             ltac:(lia) fuel) by lia.
  rewrite (@list_line_block (ds ++ [ch "."]) c w Hc Hw
             (@number_line_first ds c w Hd) ltac:(lia)
             (@number_line_hrule ds c w Hd)
             (@number_line_listmark ds c w Hd) past_end fuel) by lia.
  rewrite (@list_line_print (ds ++ [ch "."]) c w Hc Hw past_end fuel) by lia.
  rewrite Hlast. reflexivity.
Qed.

Lemma translate_numbered_item_witness :
  translates_to (L "12. buy 2 apples" ++ [NL])
    (L "<ol>" ++ [NL] ++ L "<li>buy 2 apples</li>" ++ [NL]
     ++ L "</ol>" ++ [NL]).
Proof.
  apply (@translate_numbered_item (L "12") (ch "b") (L "uy 2 apples"));
    reflexivity.
Defined.

(** ** Text written with backslashes *)

Lemma backslash_escaped_app (a b : wstring) :
  backslash_escaped (a ++ b) = backslash_escaped a ++ backslash_escaped b.
Proof. apply flat_map_app. Qed.

Lemma backslash_escaped_chars (P : wchar -> Prop) (u : wstring) :
  P (ch "\") -> Forall P u -> Forall P (backslash_escaped u).
Proof.
  intros Hb Hu. induction Hu as [|x u Hx _ IH]; [constructor|].
  unfold backslash_escaped. cbn [flat_map]. fold (backslash_escaped u).
  destruct (ismdescapable x); cbn [app]; repeat constructor; assumption.
Qed.

Section Escaped.

Variable u : wstring.
Hypothesis printable : forallb ismdprint u = true.

Let t : wstring := backslash_escaped u.

Lemma escaped_boundary_first : escape_boundary u 0.
Proof. exists [], u. split; reflexivity. Qed.

Lemma escaped_boundary_bound i : escape_boundary u i -> 0 <= i <= wsize t.
Proof.
  intros (u1 & u2 & -> & ->). unfold t. rewrite backslash_escaped_app.
  rewrite wsize_app. pose proof (wsize_nonneg (backslash_escaped u1)).
  pose proof (wsize_nonneg (backslash_escaped u2)). lia.
Qed.

(** From a boundary, the next one is one character further, or two when
    the character is escaped. *)
Lemma escaped_boundary_step i :
  escape_boundary u i -> i < wsize t ->
  (ismdescapable (at_index t i) = false /\ escape_boundary u (i + 1))
  \/ (at_index t i = ch "\" /\ ismdescapable (at_index t (i + 1)) = true
      /\ i + 2 <= wsize t /\ escape_boundary u (i + 2)).
Proof.
  intros (u1 & u2 & Eu & Ei) Hlt.
  assert (Et : t = backslash_escaped u1 ++ backslash_escaped u2)
    by (unfold t; rewrite Eu; apply backslash_escaped_app).
  destruct u2 as [|x u2].
  { rewrite Et in Hlt. cbn [backslash_escaped flat_map] in Hlt.
    rewrite app_nil_r in Hlt. lia. }
  assert (Ex : backslash_escaped (x :: u2)
               = (if ismdescapable x then [ch "\"; x] else [x])
                 ++ backslash_escaped u2) by reflexivity.
  assert (Eu' : u = (u1 ++ [x]) ++ u2)
    by (rewrite <- app_assoc; exact Eu).
  assert (Ew : wsize (backslash_escaped (u1 ++ [x]))
               = i + (if ismdescapable x then 2 else 1)).
  { rewrite backslash_escaped_app, wsize_app, <- Ei.
    cbn [backslash_escaped flat_map]. rewrite app_nil_r.
    destruct (ismdescapable x); reflexivity. }
  rewrite Et, Ex.
  destruct (ismdescapable x) eqn:Hx.
  - right. split; [|split; [|split]].
    + rewrite at_index_app_r by lia. rewrite <- Ei.
      replace (i - i) with 0 by lia. reflexivity.
    + rewrite at_index_app_r by lia. rewrite <- Ei.
      replace (i + 1 - i) with 1 by lia. exact Hx.
    + rewrite wsize_app, <- Ei, wsize_app.
      change (wsize [ch "\"; x]) with 2.
      pose proof (wsize_nonneg (backslash_escaped u2)). lia.
    + exists (u1 ++ [x]), u2. split; [exact Eu' | symmetry; exact Ew].
  - left. split.
    + rewrite at_index_app_r by lia. rewrite <- Ei.
      replace (i - i) with 0 by lia. exact Hx.
    + exists (u1 ++ [x]), u2. split; [exact Eu' | symmetry; exact Ew].
Qed.

(** Over characters that are not backslashes, every position is a
    boundary. *)
Lemma escaped_boundary_run i :
  escape_boundary u i ->
  forall (k : nat),
    i + Z.of_nat k <= wsize t ->
    (forall m, i <= m < i + Z.of_nat k -> at_index t m <> ch "\") ->
    escape_boundary u (i + Z.of_nat k).
Proof.
  intros Hi. induction k as [|k IH]; intros Hk Hrun.
  - replace (i + Z.of_nat 0) with i by lia. exact Hi.
  - assert (Hb : escape_boundary u (i + Z.of_nat k))
      by (apply IH; [lia | intros m Hm; apply Hrun; lia]).
    destruct (escaped_boundary_step Hb ltac:(lia)) as [(_ & H1) | (E & _)].
    + replace (i + Z.of_nat (S k)) with (i + Z.of_nat k + 1) by lia.
      exact H1.
    + exfalso. apply (Hrun (i + Z.of_nat k)); [lia | exact E].
Qed.

Lemma escaped_printable m :
  0 <= m < wsize t -> ismdprint (at_index t m) = true.
Proof.
  intros Hm.
  apply (@Forall_at_index (fun c => ismdprint c = true) t m); [|exact Hm].
  apply backslash_escaped_chars; [reflexivity|].
  apply Forall_forall. apply forallb_forall. exact printable.
Qed.

(** The inline loop makes one TEXT token of the escaped text. *)
Lemma parse_inline_loop_escaped dict :
  forall (k : nat) i output fuel,
    escape_boundary u i -> 0 < wsize t -> wsize t - i <= Z.of_nat k ->
    (k + 1 <= fuel)%nat ->
    (i = 0 /\ output = [])
    \/ (0 < i /\ output = [Token TEXT (Iter t 0) (Iter t i)]) ->
    parse_inline_loop fuel dict (cbegin_of t) (Iter t i) (cend_of t) output []
    = Some (cend_of t, [Token TEXT (Iter t 0) (cend_of t)], []).
Proof.
  assert (Hend : idx (cend_of t) = wsize t) by reflexivity.
  induction k as [|k IH]; intros i output fuel Hb Hn Hk Hf Hout;
    pose proof (escaped_boundary_bound Hb) as Hi;
    (destruct fuel as [|fuel]; [lia|]); cbn [parse_inline_loop];
    unfold ilt, deref; rewrite Hend; cbn [str idx].
  - replace (i <? wsize t) with false by (symmetry; apply Z.ltb_ge; lia).
    cbn [andb]. destruct Hout as [(-> & _) | (_ & ->)]; [lia|].
    replace i with (wsize t) by lia. reflexivity.
  - destruct (Z.eq_dec i (wsize t)) as [-> | Hne].
    { rewrite Z.ltb_irrefl. cbn [andb].
      destruct Hout as [(E & _) | (_ & ->)]; [lia | reflexivity]. }
    replace (i <? wsize t) with true by (symmetry; apply Z.ltb_lt; lia).
    assert (Hnext : forall j, i < j -> escape_boundary u j ->
              parse_inline_loop fuel dict (cbegin_of t) (Iter t j) (cend_of t)
                [Token TEXT (Iter t 0) (Iter t j)] []
              = Some (cend_of t, [Token TEXT (Iter t 0) (cend_of t)], [])).
    { intros j Hj Hbj. apply IH; try lia; [exact Hbj|].
      right. split; [lia | reflexivity]. }
    destruct (escaped_boundary_step Hb ltac:(lia))
      as [(Hx & Hb1) | (Hx & Hx1 & Hle & Hb2)].
    + (* a character that stands for itself *)
      assert (Hnot : forall c, ismdescapable c = true ->
                (c =? at_index t i) = false).
      { intros c Hc. apply Z.eqb_neq. intros E. rewrite <- E, Hc in Hx.
        discriminate Hx. }
      rewrite (Hnot (ch "]")) by reflexivity. cbn [negb andb].
      destruct (ch " " =? at_index t i) eqn:Hsp.
      * (* spaces *)
        apply Z.eqb_eq in Hsp.
        unfold parse_space, scan_of.
        rewrite scan_of_pred_min1.
        destruct (@scan_of_pred_unbounded (Iter t i) (cend_of t)
                    (Z.eqb (ch " ")) ltac:(rewrite Hend; cbn [idx]; lia))
          as (j & E & Hbj & Hrun & Hstop).
        cbn [str idx] in *. rewrite Hend in *. rewrite E.
        assert (Hj : i < j).
        { destruct Hstop as [-> | Hstop]; [lia|].
          destruct (Z.eq_dec j i) as [-> | ]; [|lia].
          rewrite <- Hsp in Hstop. discriminate Hstop. }
        assert (Hbound : escape_boundary u j).
        { replace j with (i + Z.of_nat (Z.to_nat (j - i))) by lia.
          apply escaped_boundary_run; [exact Hb | lia|].
          intros m Hm E'. specialize (Hrun m ltac:(lia)).
          rewrite E' in Hrun. discriminate Hrun. }
        rewrite scan_of_pred_one. unfold ilt, deref. rewrite Hend.
        cbn [str idx].
        replace ((j <? wsize t) && (NL =? at_index t j)) with false.
        2:{ symmetry. destruct (Z.ltb_spec j (wsize t)); [|reflexivity].
            cbn [andb]. apply Z.eqb_neq. intros E'.
            pose proof (@escaped_printable j ltac:(lia)) as Hp.
            rewrite <- E' in Hp. discriminate Hp. }
        cbv zeta beta iota. cbn [idx]. rewrite Z.ltb_irrefl.
        rewrite andb_false_r. cbv iota.
        rewrite (@parse_text_grow t i j output ltac:(lia) Hout).
        cbv beta iota. apply Hnext; assumption.
      * (* other characters *)
        rewrite !Hnot by reflexivity. cbn [orb]. cbv zeta.
        unfold std_find_first_of.
        destruct (find_loop_run (dist (Iter t i) (cend_of t))
                    (fun c => wfind c (L " \`*_<![]")) (Iter t i))
          as (j & E & Hbj & Hrun & Hstop).
        unfold dist in *. cbn [str idx] in *. rewrite Hend in *. rewrite E.
        rewrite Z2Nat.id in * by lia.
        assert (Hplain : wfind (at_index t i) (L " \`*_<![]") = false).
        { unfold wfind. cbn [L existsb].
          rewrite (Z.eqb_sym (at_index t i) (ch " ")), Hsp.
          rewrite !(Z.eqb_sym (at_index t i)), !Hnot by reflexivity.
          reflexivity. }
        assert (Hj : i < j).
        { destruct Hstop as [-> | Hstop]; [lia|].
          destruct (Z.eq_dec j i) as [-> | ]; [|lia].
          rewrite Hplain in Hstop. discriminate Hstop. }
        assert (Hbound : escape_boundary u j).
        { replace j with (i + Z.of_nat (Z.to_nat (j - i))) by lia.
          apply escaped_boundary_run; [exact Hb | lia|].
          intros m Hm E'. specialize (Hrun m ltac:(lia)).
          rewrite E' in Hrun. discriminate Hrun. }
        rewrite (@parse_text_grow t i j output ltac:(lia) Hout).
        cbv beta iota. apply Hnext; assumption.
    + (* an escaped character *)
      rewrite Hx. change (ch "]" =? ch "\") with false.
      change (ch " " =? ch "\") with false.
      change (ch "\" =? ch "\") with true. cbn [negb andb]. cbv iota.
      unfold parse_escape, scan_of. rewrite !scan_of_pred_one.
      unfold ilt, deref. rewrite Hend. cbn [str idx].
      replace (i <? wsize t) with true by (symmetry; apply Z.ltb_lt; lia).
      rewrite Hx. change (ch "\" =? ch "\") with true. cbn [andb]. cbv iota.
      unfold iadd. cbn [str idx].
      replace (i + 1 <? wsize t) with true
        by (symmetry; apply Z.ltb_lt; lia).
      rewrite Hx1. cbn [andb]. cbv iota zeta.
      unfold ieq. cbn [idx].
      replace (i + 1 =? i + 1 + 1) with false
        by (symmetry; apply Z.eqb_neq; lia).
      rewrite (@parse_text_grow t i (i + 1 + 1) output ltac:(lia) Hout).
      cbv beta iota. apply Hnext; [lia|].
      replace (i + 1 + 1) with (i + 2) by lia. exact Hb2.
Qed.

End Escaped.

Lemma parse_inline_escaped dict (u : wstring) fuel :
  forallb ismdprint u = true -> 0 < wsize (backslash_escaped u) ->
  (Z.to_nat (wsize (backslash_escaped u)) + 3 <= fuel)%nat ->
  parse_inline fuel (backslash_escaped u) [] dict
  = Some [Token TEXT (cbegin_of (backslash_escaped u))
            (cend_of (backslash_escaped u))].
Proof.
  intros Hp Hn Hf. set (t := backslash_escaped u) in *.
  destruct fuel as [|[|fuel]]; try lia.
  remember (S fuel) as f eqn:Ef.
  assert (Hend : idx (cend_of t) = wsize t) by reflexivity.
  unfold parse_inline, parse_inline_nest. cbn [parse_inline_while].
  replace (cbegin_of t <! cend_of t) with true
    by (symmetry; apply Z.ltb_lt; rewrite Hend; cbn [cbegin_of idx]; lia).
  change (parse_inline_loop f dict (cbegin_of t) (cbegin_of t))
    with (parse_inline_loop f dict (cbegin_of t) (Iter t 0)).
  pose proof (@parse_inline_loop_escaped u Hp dict (Z.to_nat (wsize t)) 0
                [] f (escaped_boundary_first u)) as Hloop.
  fold t in Hloop.
  rewrite Hloop; [|lia | lia | lia | left; split; reflexivity].
  cbv beta iota.
  replace (cbegin_of t ==! cend_of t) with false
    by (symmetry; apply Z.eqb_neq; rewrite Hend; cbn [cbegin_of idx]; lia).
  cbn [andb]. cbv iota. subst f. cbn [parse_inline_while].
  replace (cend_of t <! cend_of t) with false
    by (symmetry; apply Z.ltb_irrefl).
  reflexivity.
Qed.

Lemma print_inline_escaped dict (u : wstring) output :
  0 < wsize (backslash_escaped u) ->
  exists r,
    escaped u r
    /\ print_inline [Token TEXT (cbegin_of (backslash_escaped u))
                       (cend_of (backslash_escaped u))] output dict
       = output ++ r.
Proof.
  intros Hn. set (t := backslash_escaped u) in *.
  assert (Hun : unescape_backslash (cbegin_of t) (cend_of t) = u).
  { unfold unescape_backslash.
    rewrite (@unescape_backslash_loop_escaped t u _ 0 []);
      [reflexivity | lia | reflexivity|].
    unfold dist, cbegin_of, cend_of, wsize. cbn [idx]. unfold t. lia. }
  destruct (@print_with_escape_html_loop_escaped u
              (dist (cbegin_of u) (cend_of u)) 0 output) as (r & E & He).
  { unfold wsize. lia. }
  { unfold dist, wsize, cend_of, cbegin_of. cbn [idx]. lia. }
  exists r. split; [exact He|].
  unfold print_inline. cbn [List.length print_inline_loop].
  change (negb (0 <? dol_of [Token TEXT (cbegin_of t) (cend_of t)]))
    with false. cbv iota zeta.
  change (tk [Token TEXT (cbegin_of t) (cend_of t)] 0)
    with (Token TEXT (cbegin_of t) (cend_of t)).
  cbn [kind]. change (kind_leb BREAK TEXT) with false.
  change (kind_eqb CODE TEXT) with false.
  change (kind_eqb HTML TEXT) with false.
  change (kind_eqb SABEGIN TEXT || kind_eqb IMGBEGIN TEXT) with false.
  change (kind_eqb TEXT TEXT) with true. cbv iota.
  change (Z.to_nat (dol_of [Token TEXT (cbegin_of t) (cend_of t)] - 0))
    with 1%nat.
  cbn [gather_text].
  change (tk [Token TEXT (cbegin_of t) (cend_of t)] 0)
    with (Token TEXT (cbegin_of t) (cend_of t)).
  cbn [kind cbegin cend]. change (kind_eqb TEXT TEXT) with true. cbv iota.
  replace (cbegin_of t <! cend_of t) with true
    by (symmetry; apply Z.ltb_lt; cbn [cbegin_of cend_of idx];
        unfold wsize in Hn; lia).
  rewrite slice_whole, app_nil_l. cbv iota beta.
  rewrite Hun. unfold print_with_escape_html.
  change (Iter u 0) with (cbegin_of u) in E. exact E.
Qed.

(** An INLINE token is parsed and written by the inline pass. *)
Lemma print_block_while_inline fuel input dot output dict
    (t : wstring) (toks : tokens) :
  0 <= dot < dol_of input ->
  kind (tk input dot) = INLINE ->
  kind_eqb INLINE (kind (tk input (dot + 1))) = false ->
  slice (cbegin (tk input dot)) (cend (tk input dot)) = t ++ [NL] ->
  parse_inline fuel t [] dict = Some toks ->
  print_block_while (S fuel) input dot output dict
  = print_block_while fuel input (dot + 1) (print_inline toks output dict)
      dict.
Proof.
  intros Hdot Hk Hnext Hslice Hinline.
  cbn [print_block_while]. cbv zeta.
  replace (dot <? dol_of input) with true
    by (symmetry; apply Z.ltb_lt; lia).
  cbv iota. rewrite Hk.
  change (kind_eqb BLANK INLINE) with false.
  change (kind_leb HRULE INLINE) with false.
  change (kind_eqb HTML INLINE) with false.
  change (kind_eqb CODE INLINE) with false.
  change (kind_eqb INLINE INLINE) with true. cbv iota.
  assert (Hg : gather_inline (Z.to_nat (dol_of input - dot)) input dot []
               = (dot + 1, t ++ [NL])).
  { destruct (Z.to_nat (dol_of input - dot)) as [|k] eqn:Ek; [lia|].
    cbn [gather_inline]. rewrite Hk.
    change (kind_eqb INLINE INLINE) with true. cbv iota.
    rewrite Hslice, app_nil_l.
    destruct k as [|k]; cbn [gather_inline]; [reflexivity|].
    rewrite Hnext. reflexivity. }
  rewrite Hg. cbv iota zeta.
  replace (wsize (t ++ [NL]) >? 0) with true
    by (symmetry; apply Z.gtb_lt; rewrite wsize_app;
        change (wsize [NL]) with 1; pose proof (wsize_nonneg t); lia).
  rewrite last_last, Z.eqb_refl, removelast_last. cbn [andb]. cbv iota.
  rewrite Hinline. cbv beta iota.
  replace (dot =? dot + 1) with false by (symmetry; apply Z.eqb_neq; lia).
  reflexivity.
Qed.

(** ** A line that begins with a letter *)

Lemma alpha_tests (c : wchar) :
  is_alpha c = true ->
  ismdalnum c = true /\ ismddigit c = false /\ ismdescapable c = false.
Proof.
  unfold is_alpha, ismdalnum, ismddigit, ismdescapable, wfind.
  cbn [L existsb]. chars. intros H.
  assert (Hc : 65 <= c <= 90 \/ 97 <= c <= 122) by (tests; lia).
  split; [rewrite H; reflexivity|].
  split.
  - apply andb_false_iff. destruct (Z.leb_spec c 57); [|right; reflexivity].
    left. apply Z.leb_gt. lia.
  - repeat (apply orb_false_intro); try reflexivity; apply Z.eqb_neq; lia.
Qed.

Section LetterLine.

Variable c : wchar.
Variable v : wstring.
Hypothesis first_alpha : is_alpha c = true.
Hypothesis rest_print : forallb ismdprint v = true.

Let t : wstring := c :: v.
Let s : wstring := t ++ [NL].
Let line : token_type := Token LINE (cbegin_of s) (cend_of s).

Lemma letter_line_size : wsize s = wsize t + 1 /\ 0 < wsize t.
Proof.
  unfold s, t. rewrite wsize_app, wsize_cons.
  pose proof (wsize_nonneg v). change (wsize [NL]) with 1. lia.
Qed.

Lemma letter_line_stay n1 n2 pr :
  pr c = false ->
  scan_of_pred (cbegin_of s) (cend_of s) n1 n2 pr = cbegin_of s.
Proof. intros H. apply scan_of_pred_stay. exact H. Qed.

Lemma letter_line_not (x : wchar) : ismdalnum x = false -> (x =? c) = false.
Proof.
  intros Hx. apply Z.eqb_neq. intros E.
  destruct (alpha_tests _ first_alpha) as (Hal & _).
  rewrite E, Hal in Hx. discriminate Hx.
Qed.

Lemma letter_line_tab_not :
  scan_tab_not (cbegin_of s) (cend_of s) = cbegin_of s.
Proof.
  unfold scan_tab_not, scan_of. apply letter_line_stay.
  apply letter_line_not. reflexivity.
Qed.

Lemma letter_line_tab : scan_tab (cbegin_of s) (cend_of s) = cbegin_of s.
Proof.
  unfold scan_tab, scan_of.
  rewrite (@letter_line_stay 0 3 (Z.eqb (ch " ")))
    by (apply letter_line_not; reflexivity).
  rewrite (@letter_line_stay 1 1 (Z.eqb (ch " ")))
    by (apply letter_line_not; reflexivity).
  rewrite (@letter_line_stay 1 1 (Z.eqb TAB))
    by (apply letter_line_not; reflexivity).
  cbv zeta. unfold idiff, ilt. rewrite Z.sub_diag, Z.ltb_irrefl.
  reflexivity.
Qed.

Lemma letter_line_split fuel :
  (3 <= fuel)%nat -> split_lines fuel s [] [] = Some ([line], []).
Proof.
  intros Hf. destruct letter_line_size as (Hs & Hn).
  destruct (alpha_tests _ first_alpha) as (Hal & _).
  destruct (alnum_tests _ Hal) as (Hplain & _ & Hprint & Hspace & _).
  unfold wfind in Hplain. cbn [L existsb] in Hplain.
  repeat (apply orb_false_elim in Hplain; destruct Hplain as [? Hplain]).
  apply (@split_lines_single_line t 0 fuel).
  - unfold t. cbn [forallb]. rewrite Hprint, rest_print. reflexivity.
  - lia.
  - exact Hspace.
  - change (at_index t 0) with c. rewrite Z.eqb_sym. assumption.
  - change (at_index t 0) with c. rewrite Z.eqb_sym. assumption.
  - fold s. rewrite letter_line_tab_not.
    change (deref (cbegin_of s)) with c. rewrite Z.eqb_sym. assumption.
  - exact Hf.
Qed.

Lemma letter_line_block pe fuel :
  (2 <= fuel)%nat ->
  parse_block pe fuel [line] []
  = Some [Token SPARAGRAPH (cbegin_of s) (cbegin_of s);
          Token INLINE (cbegin_of s) (cend_of s);
          Token EPARAGRAPH (cbegin pe) (cbegin pe)].
Proof.
  intros Hf. destruct fuel as [|[|fuel]]; try lia.
  destruct letter_line_size as (Hs & Hn).
  destruct (alpha_tests _ first_alpha) as (Hal & Hdigit & _).
  destruct (alnum_tests _ Hal) as (_ & Hgraph & _).
  assert (Hend : idx (cend_of s) = wsize s) by reflexivity.
  assert (Hlt : (cbegin_of s <! cend_of s) = true)
    by (apply Z.ltb_lt; rewrite Hend; cbn [cbegin_of idx]; lia).
  assert (Hrefl : (cbegin_of s ==! cbegin_of s) = true) by apply Z.eqb_refl.
  unfold parse_block. remember (S fuel) as f eqn:Ef.
  cbn [parse_block_while]. cbv zeta.
  change (dol_of [line]) with 1. change (0 =? 1) with false.
  change (tok pe [line] 0) with line.
  change (kind line) with LINE.
  change (kind_eqb SLITEM LINE) with false.
  change (kind_eqb LINE LINE) with true. cbn [negb]. cbv iota.
  (* a horizontal rule? *)
  unfold parse_hrule. change (tok pe [line] 0) with line.
  cbn [line cbegin cend]. unfold scan_hrule. rewrite letter_line_tab_not.
  change (deref (cbegin_of s)) with c.
  rewrite !letter_line_not by reflexivity. rewrite andb_false_r.
  cbn [negb]. cbv iota zeta. rewrite Hrefl. cbv iota.
  change (0 =? 0) with true. cbn [negb]. cbv iota.
  (* indented code? *)
  unfold parse_tabcode. change (tok pe [line] 0) with line.
  cbn [line cbegin cend]. rewrite letter_line_tab.
  cbv zeta. rewrite Hrefl. cbv iota.
  change (0 =? 0) with true. cbn [negb]. cbv iota.
  (* a quotation? *)
  unfold parse_blockquote. change (tok pe [line] 0) with line.
  cbn [line cbegin cend]. rewrite letter_line_tab_not. unfold scan_of at 1.
  rewrite letter_line_stay by (apply letter_line_not; reflexivity).
  cbv zeta. rewrite Hrefl. cbv iota.
  change (0 =? 0) with true. cbn [negb]. cbv iota.
  (* a heading? *)
  unfold parse_atxheading. change (tok pe [line] 0) with line.
  cbn [line cbegin cend]. rewrite letter_line_tab_not. unfold scan_of at 1.
  rewrite letter_line_stay by (apply letter_line_not; reflexivity).
  cbv zeta. rewrite Hrefl. cbv iota.
  change (0 =? 0) with true. cbn [negb]. cbv iota.
  (* a list? *)
  unfold parse_list. change (tok pe [line] 0) with line.
  cbn [line cbegin cend].
  replace (scan_listmark (cbegin_of s) (cend_of s)) with (cbegin_of s).
  2:{ unfold scan_listmark. rewrite letter_line_tab_not. cbv zeta.
      replace (cend_of s <=! cbegin_of s) with false
        by (symmetry; apply Z.leb_gt; apply Z.ltb_lt; exact Hlt).
      change (deref (cbegin_of s)) with c.
      rewrite !letter_line_not by reflexivity. cbn [orb].
      rewrite Hdigit. reflexivity. }
  cbv zeta. rewrite Hrefl. cbv iota.
  change (0 =? 0) with true. cbn [negb]. cbv iota.
  (* an underlined heading? *)
  unfold parse_seheading. cbv zeta. change (0 + 1 =? 1) with true. cbv iota.
  change (0 =? 0) with true. cbn [negb]. cbv iota.
  (* a paragraph *)
  unfold parse_paragraph. change (tok pe [line] 0) with line.
  cbn [line cbegin cend]. rewrite letter_line_tab_not.
  change (deref (cbegin_of s)) with c. rewrite Hlt, Hgraph.
  cbn [andb negb]. cbv iota zeta.
  change (Z.to_nat (1 - (0 + 1))) with O. cbn [parse_paragraph_loop].
  cbv iota beta. change (0 =? 0 + 1) with false. cbv iota.
  change (tok pe [line] (0 + 1)) with pe.
  subst f. rewrite parse_block_while_done by reflexivity. reflexivity.
Qed.

(** The paragraph is written as the inline pass writes its text. *)
Lemma letter_line_print pe fuel (toks : tokens) :
  (4 <= fuel)%nat ->
  (forall f, (fuel <= f + 3)%nat -> parse_inline f t [] [] = Some toks) ->
  print_block fuel
    [Token SPARAGRAPH (cbegin_of s) (cbegin_of s);
     Token INLINE (cbegin_of s) (cend_of s);
     Token EPARAGRAPH (cbegin pe) (cbegin pe)] [] []
  = Some (print_inline toks (L "<p>") [] ++ L "</p>" ++ [NL]).
Proof.
  intros Hf Hinline.
  set (blk := [Token SPARAGRAPH (cbegin_of s) (cbegin_of s);
               Token INLINE (cbegin_of s) (cend_of s);
               Token EPARAGRAPH (cbegin pe) (cbegin pe)]).
  unfold print_block.
  change (skip_kind null_token (Z.to_nat (dol_of blk)) BLANK blk 0) with 0.
  destruct fuel as [|[|[|[|fuel]]]]; try lia.
  rewrite print_block_while_tag
    by (change (dol_of blk) with 3; try reflexivity; lia).
  rewrite (@print_block_while_inline _ blk (0 + 1) _ [] t toks);
    [|change (dol_of blk) with 3; lia | reflexivity | reflexivity
     |apply slice_whole | apply Hinline; lia].
  rewrite print_block_while_tag
    by (change (dol_of blk) with 3; try reflexivity; lia).
  rewrite print_block_while_end by (change (dol_of blk) with 3; lia).
  reflexivity.
Qed.

End LetterLine.

(** X25. Backslashes make a text literal.  Take any text of printable
    characters that begins with an ASCII letter and put a backslash
    before each character that can be escaped: the line is translated to
    a paragraph that holds the text itself, written as general text,
    that is with its entities kept and the other ampersands, the angle
    brackets and the quotes replaced by entities. *)
Theorem translate_escaped_text (c : wchar) (w : wstring) :
  is_alpha c = true -> forallb ismdprint w = true ->
  exists r,
    escaped (c :: w) r
    /\ translates_to (c :: backslash_escaped w ++ [NL])
         (L "<p>" ++ r ++ L "</p>" ++ [NL]).
Proof.
  intros Hc Hw.
  destruct (alpha_tests _ Hc) as (Hal & _ & Hesc).
  destruct (alnum_tests _ Hal) as (_ & _ & Hprint & _).
  assert (Eu : backslash_escaped (c :: w) = c :: backslash_escaped w)
    by (unfold backslash_escaped; cbn [flat_map]; rewrite Hesc; reflexivity).
  assert (Hu : forallb ismdprint (c :: w) = true)
    by (cbn [forallb]; rewrite Hprint, Hw; reflexivity).
  assert (Hv : forallb ismdprint (backslash_escaped w) = true).
  { apply forallb_forall. apply Forall_forall.
    apply backslash_escaped_chars; [reflexivity|].
    apply Forall_forall. apply forallb_forall. exact Hw. }
  assert (Hn : 0 < wsize (backslash_escaped (c :: w))).
  { rewrite Eu, wsize_cons.
    pose proof (wsize_nonneg (backslash_escaped w)). lia. }
  destruct (@print_inline_escaped [] (c :: w) (L "<p>") Hn) as (r & He & Ep).
  exists r. split; [exact He|].
  exists (Z.to_nat (wsize (backslash_escaped (c :: w))) + 6)%nat.
  intros past_end fuel Hf. unfold translate, markdown.
  change (c :: backslash_escaped w ++ [NL])
    with ((c :: backslash_escaped w) ++ [NL]).
  rewrite (@letter_line_split c (backslash_escaped w) Hc Hv fuel) by lia.
  rewrite (@letter_line_block c (backslash_escaped w) Hc past_end fuel)
    by lia.
  rewrite (@letter_line_print c (backslash_escaped w) past_end fuel
             [Token TEXT (cbegin_of (backslash_escaped (c :: w)))
                (cend_of (backslash_escaped (c :: w)))]).
  - rewrite Ep, <- app_assoc. reflexivity.
  - lia.
  - intros f Hfuel. rewrite <- Eu.
    apply parse_inline_escaped; [exact Hu | exact Hn | lia].
Qed.

Lemma translate_escaped_text_witness :
  exists r,
    escaped (L "a*b_c <d> [e] & f") r
    /\ translates_to (L "a\*b\_c \<d\> \[e\] & f" ++ [NL])
         (L "<p>" ++ r ++ L "</p>" ++ [NL]).
Proof.
  apply (@translate_escaped_text (ch "a") (L "*b_c <d> [e] & f"));
    reflexivity.
Defined.

(** ** The line splitter, one line at a time *)

Lemma split_lines_while_done fuel input p output dict :
  idx (cend_of input) <= idx p ->
  split_lines_while (S fuel) input p output dict = Some (output, dict).
Proof.
  intros H. rewrite split_lines_while_unfold. cbv zeta.
  replace (p <! cend_of input) with false
    by (symmetry; apply Z.ltb_ge; exact H).
  reflexivity.
Qed.

(** The printable characters from [b] to the newline at [e], not all of
    them spaces, are one LINE token when they open neither a fence, nor
    a tag, nor a reference definition. *)
Lemma split_lines_while_line fuel input b e output dict :
  0 <= b <= e -> e < wsize input ->
  at_index input e = NL ->
  (forall m, b <= m < e -> ismdprint (at_index input m) = true) ->
  (exists m, b <= m < e /\ ismdspace (at_index input m) = false) ->
  (ch "`" =? at_index input b) = false ->
  (ch "<" =? at_index input b) = false ->
  (ch "[" =? deref (scan_tab_not (Iter input b) (cend_of input))) = false ->
  split_lines_while (S (S fuel)) input (Iter input b) output dict
  = split_lines_while (S fuel) input (Iter input (e + 1))
      (output ++ [Token LINE (Iter input b) (Iter input (e + 1))]) dict.
Proof.
  intros Hbe He Hnl Hprint (m & Hm & Hns) Hfence Htag Hlabel.
  assert (Hend : idx (cend_of input) = wsize input) by reflexivity.
  rewrite split_lines_while_unfold. cbv zeta.
  assert (Hlt : (Iter input b <! cend_of input) = true)
    by (apply Z.ltb_lt; rewrite Hend; cbn [idx]; lia).
  assert (Hnlt : (Iter input b <! Iter input b) = false)
    by apply Z.ltb_irrefl.
  rewrite Hlt.
  rewrite parse_blockcode_skips by exact Hfence.
  rewrite Hnlt.
  rewrite parse_blockhtml_skips by exact Htag.
  rewrite Hnlt.
  rewrite parse_refdef_no_label by exact Hlabel.
  rewrite Hnlt.
  destruct (@scan_of_pred_unbounded (Iter input b) (cend_of input) ismdspace)
    as (j & Ej & Hj & Hall & _);
    [rewrite Hend; cbn [idx]; lia|].
  rewrite Ej. cbn [str idx] in *.
  assert (Hjm : j <= m).
  { destruct (Z_le_gt_dec j m) as [|Hgt]; [assumption|].
    specialize (Hall m ltac:(lia)). rewrite Hns in Hall.
    discriminate Hall. }
  rewrite (@scan_of_pred_run (Iter input j) (cend_of input) 0 ismdprint e);
    [|left; reflexivity | rewrite Hend; cbn [idx]; lia|].
  2:{ cbn [str idx]. rewrite Hend. split; [lia|]. split.
      - intros i Hi. apply Hprint. lia.
      - right. rewrite Hnl. reflexivity. }
  cbn [str].
  unfold scan_of. rewrite scan_of_pred_one. unfold ilt, deref.
  rewrite Hend. cbn [str idx]. rewrite Hnl, Z.eqb_refl.
  replace (e <? wsize input) with true by (symmetry; apply Z.ltb_lt; lia).
  cbn [andb]. unfold ieq, iadd. cbn [str idx].
  replace (j =? e) with false by (symmetry; apply Z.eqb_neq; lia).
  reflexivity.
Qed.

(** An empty line is a BLANK token. *)
Lemma split_lines_while_empty_line fuel input b output dict :
  0 <= b < wsize input -> at_index input b = NL ->
  split_lines_while (S (S fuel)) input (Iter input b) output dict
  = split_lines_while (S fuel) input (Iter input (b + 1))
      (output ++ [Token BLANK (Iter input b) (Iter input (b + 1))]) dict.
Proof.
  intros Hb Hnl.
  assert (Hend : idx (cend_of input) = wsize input) by reflexivity.
  assert (Hd : deref (Iter input b) = NL) by exact Hnl.
  rewrite split_lines_while_unfold. cbv zeta.
  assert (Hlt : (Iter input b <! cend_of input) = true)
    by (apply Z.ltb_lt; rewrite Hend; cbn [idx]; lia).
  assert (Hnlt : (Iter input b <! Iter input b) = false)
    by apply Z.ltb_irrefl.
  rewrite Hlt.
  rewrite parse_blockcode_skips by (rewrite Hd; reflexivity).
  rewrite Hnlt.
  rewrite parse_blockhtml_skips by (rewrite Hd; reflexivity).
  rewrite Hnlt.
  rewrite parse_refdef_no_label.
  2:{ unfold scan_tab_not, scan_of.
      rewrite scan_of_pred_stay by (rewrite Hd; reflexivity).
      rewrite Hd. reflexivity. }
  rewrite Hnlt.
  rewrite (@scan_of_pred_stay (Iter input b) (cend_of input) 0 (-1) ismdspace)
    by (rewrite Hd; reflexivity).
  rewrite (@scan_of_pred_stay (Iter input b) (cend_of input) 0 (-1) ismdprint)
    by (rewrite Hd; reflexivity).
  unfold scan_of. rewrite scan_of_pred_one. rewrite Hlt, Hd, Z.eqb_refl.
  cbn [andb]. unfold ieq. rewrite Z.eqb_refl. reflexivity.
Qed.

(** Blank lines between blocks are written as one newline. *)
Lemma print_block_while_blank fuel input dot output dict :
  0 <= dot < dol_of input ->
  kind (tk input dot) = BLANK ->
  kind_eqb BLANK (kind (tk input (dot + 1))) = false ->
  print_block_while (S fuel) input dot output dict
  = print_block_while fuel input (dot + 1)
      (if dot + 1 <? dol_of input then output ++ [NL] else output) dict.
Proof.
  intros Hdot Hk Hnext. cbn [print_block_while]. cbv zeta.
  replace (dot <? dol_of input) with true
    by (symmetry; apply Z.ltb_lt; lia).
  cbv iota. rewrite Hk. change (kind_eqb BLANK BLANK) with true. cbv iota.
  assert (Hskip : skip_kind null_token (Z.to_nat (dol_of input - dot)) BLANK
                    input dot = dot + 1).
  { destruct (Z.to_nat (dol_of input - dot)) as [|k] eqn:Ek; [lia|].
    cbn [skip_kind]. fold (tk input dot). rewrite Hk.
    change (kind_eqb BLANK BLANK) with true. cbv iota.
    destruct k as [|k]; cbn [skip_kind]; [reflexivity|].
    fold (tk input (dot + 1)). rewrite Hnext. reflexivity. }
  rewrite Hskip. cbv beta iota.
  replace (dot =? dot + 1) with false by (symmetry; apply Z.eqb_neq; lia).
  reflexivity.
Qed.

(** A line of words inside a text is a LINE token. *)
Lemma split_lines_while_words fuel (s : wstring) (b : Z) (c : wchar)
    (w : wstring) output dict :
  ismdalnum c = true -> forallb word_char w = true -> 0 <= b ->
  (forall i, 0 <= i < wsize (c :: w) ->
     at_index s (b + i) = at_index (c :: w) i) ->
  at_index s (b + wsize (c :: w)) = NL ->
  b + wsize (c :: w) < wsize s ->
  split_lines_while (S (S fuel)) s (Iter s b) output dict
  = split_lines_while (S fuel) s (Iter s (b + wsize (c :: w) + 1))
      (output ++ [Token LINE (Iter s b) (Iter s (b + wsize (c :: w) + 1))])
      dict.
Proof.
  intros Hc Hw Hb Hat Hnl Hsize.
  assert (Hn : 0 < wsize (c :: w))
    by (rewrite wsize_cons; pose proof (wsize_nonneg w); lia).
  assert (Hfirst : at_index s b = c)
    by (replace b with (b + 0) at 1 by lia; rewrite Hat by lia; reflexivity).
  destruct (alnum_tests _ Hc) as (Hplain & _ & _ & Hspace & _).
  unfold wfind in Hplain. cbn [L existsb] in Hplain.
  repeat (apply orb_false_elim in Hplain; destruct Hplain as [? Hplain]).
  apply split_lines_while_line.
  - lia.
  - exact Hsize.
  - exact Hnl.
  - intros m Hm. replace m with (b + (m - b)) by lia. rewrite Hat by lia.
    assert (Hall : forallb word_char (c :: w) = true)
      by (cbn [forallb]; rewrite Hw; unfold word_char; rewrite Hc;
          reflexivity).
    pose proof (@forallb_at_index _ (c :: w) (m - b) Hall ltac:(lia)) as Hx.
    destruct (word_char_cases _ Hx) as [-> | Hal]; [reflexivity|].
    apply (alnum_tests _ Hal).
  - exists b. split; [lia|]. rewrite Hfirst. exact Hspace.
  - rewrite Hfirst, Z.eqb_sym. assumption.
  - rewrite Hfirst, Z.eqb_sym. assumption.
  - unfold scan_tab_not, scan_of.
    rewrite scan_of_pred_stay
      by (unfold deref; cbn [str idx]; rewrite Hfirst, Z.eqb_sym;
          assumption).
    unfold deref. cbn [str idx]. rewrite Hfirst, Z.eqb_sym. assumption.
Qed.

(** ** Two paragraphs *)

Section TwoParagraphs.

Variables c1 c2 : wchar.
Variables w1 w2 : wstring.
Hypothesis first_alnum1 : ismdalnum c1 = true.
Hypothesis rest_words1 : forallb word_char w1 = true.
Hypothesis first_alnum2 : ismdalnum c2 = true.
Hypothesis rest_words2 : forallb word_char w2 = true.

Let a : wstring := c1 :: w1.
Let b : wstring := c2 :: w2.
Let s : wstring := a ++ [NL; NL] ++ b ++ [NL].
Let A := wsize a.
Let B := wsize b.
Let line1 : token_type := Token LINE (Iter s 0) (Iter s (0 + A + 1)).
Let blank : token_type := Token BLANK (Iter s (A + 1)) (Iter s (A + 1 + 1)).
Let line2 : token_type :=
  Token LINE (Iter s (A + 2)) (Iter s (A + 2 + B + 1)).

Lemma two_paragraphs_anatomy :
  wsize s = A + B + 3 /\ 0 < A /\ 0 < B
  /\ (forall i, 0 <= i < A -> at_index s (0 + i) = at_index a i)
  /\ at_index s (0 + A) = NL /\ at_index s (A + 1) = NL
  /\ (forall i, 0 <= i < B -> at_index s (A + 2 + i) = at_index b i)
  /\ at_index s (A + 2 + B) = NL
  /\ slice (Iter s 0) (Iter s (0 + A + 1)) = a ++ [NL]
  /\ slice (Iter s (A + 2)) (Iter s (A + 2 + B + 1)) = b ++ [NL].
Proof.
  assert (HA : 0 < A)
    by (unfold A, a; rewrite wsize_cons; pose proof (wsize_nonneg w1); lia).
  assert (HB : 0 < B)
    by (unfold B, b; rewrite wsize_cons; pose proof (wsize_nonneg w2); lia).
  assert (E1 : s = [] ++ (a ++ [NL]) ++ (NL :: b ++ [NL]))
    by (unfold s; cbn [app]; rewrite <- app_assoc; reflexivity).
  assert (E2 : s = (a ++ [NL; NL]) ++ (b ++ [NL]) ++ [])
    by (unfold s; rewrite app_nil_r, <- app_assoc; reflexivity).
  assert (Hpre : wsize (a ++ [NL; NL]) = A + 2)
    by (rewrite wsize_app; reflexivity).
  assert (Hsz : wsize s = A + B + 3).
  { unfold s.
    repeat (rewrite wsize_app || rewrite wsize_cons || rewrite wsize_nil).
    fold A B. lia. }
  split; [exact Hsz|]. split; [exact HA|]. split; [exact HB|].
  split.
  { intros i Hi. unfold s. cbn [Z.add]. apply at_index_app_l. fold A. lia. }
  split.
  { unfold s. rewrite at_index_app_r by (fold A; lia). fold A.
    replace (0 + A - A) with 0 by lia. reflexivity. }
  split.
  { unfold s. rewrite at_index_app_r by (fold A; lia). fold A.
    replace (A + 1 - A) with 1 by lia. reflexivity. }
  split.
  { intros i Hi. rewrite E2, <- Hpre.
    rewrite at_index_app_r by lia.
    replace (wsize (a ++ [NL; NL]) + i - wsize (a ++ [NL; NL])) with i by lia.
    rewrite <- app_assoc. apply at_index_app_l. fold B. lia. }
  split.
  { rewrite E2, <- Hpre. rewrite at_index_app_r by lia.
    replace (wsize (a ++ [NL; NL]) + B - wsize (a ++ [NL; NL])) with B by lia.
    rewrite <- app_assoc. rewrite at_index_app_r by (fold B; lia). fold B.
    replace (B - B) with 0 by lia. reflexivity. }
  split.
  { rewrite E1.
    replace (0 + A + 1) with (wsize (@nil wchar) + wsize (a ++ [NL]))
      by (rewrite wsize_app, wsize_nil; fold A; change (wsize [NL]) with 1;
          lia).
    change 0 with (wsize (@nil wchar)) at 1. apply slice_mid. }
  rewrite E2.
  replace (A + 2 + B + 1) with (wsize (a ++ [NL; NL]) + wsize (b ++ [NL]))
    by (rewrite Hpre, wsize_app; fold B; change (wsize [NL]) with 1; lia).
  rewrite <- Hpre. apply slice_mid.
Qed.

Lemma two_paragraphs_split fuel :
  (5 <= fuel)%nat ->
  split_lines fuel s [] [] = Some ([line1; blank; line2], []).
Proof.
  intros Hf.
  destruct two_paragraphs_anatomy
    as (Hs & HA & HB & Ha & Hn1 & Hn2 & Hb & Hn3 & _).
  destruct fuel as [|[|[|[|[|fuel]]]]]; try lia.
  unfold split_lines. change (cbegin_of s) with (Iter s 0).
  rewrite (@split_lines_while_words _ s 0 c1 w1 [] [] first_alnum1
             rest_words1 ltac:(lia) Ha Hn1 ltac:(fold a A; lia)).
  fold a A. replace (0 + A + 1) with (A + 1) by lia.
  rewrite split_lines_while_empty_line by (try exact Hn2; lia).
  replace (A + 1 + 1) with (A + 2) by lia.
  rewrite (@split_lines_while_words _ s (A + 2) c2 w2 _ [] first_alnum2
             rest_words2 ltac:(lia) Hb Hn3 ltac:(fold b B; lia)).
  fold b B.
  rewrite split_lines_while_done
    by (cbn [cend_of idx]; fold (wsize s); lia).
  unfold line1, blank, line2.
  replace (0 + A + 1) with (A + 1) by lia.
  replace (A + 1 + 1) with (A + 2) by lia. reflexivity.
Qed.

Lemma two_paragraphs_block pe fuel :
  (4 <= fuel)%nat ->
  parse_block pe fuel [line1; blank; line2] []
  = Some [Token SPARAGRAPH (Iter s 0) (Iter s 0);
          Token INLINE (Iter s 0) (Iter s (0 + A + 1));
          Token EPARAGRAPH (Iter s (A + 1)) (Iter s (A + 1));
          blank;
          Token SPARAGRAPH (Iter s (A + 2)) (Iter s (A + 2));
          Token INLINE (Iter s (A + 2)) (Iter s (A + 2 + B + 1));
          Token EPARAGRAPH (cbegin pe) (cbegin pe)].
Proof.
  intros Hf.
  destruct two_paragraphs_anatomy
    as (Hs & HA & HB & Ha & Hn1 & Hn2 & Hb & Hn3 & _).
  set (toks := [line1; blank; line2]).
  destruct fuel as [|[|[|[|fuel]]]]; try lia.
  unfold parse_block.
  rewrite (@parse_block_while_words s 0 c1 w1 first_alnum1 rest_words1
             Ha Hn1 pe toks 0);
    [|change (dol_of toks) with 3; lia | reflexivity | right; reflexivity|].
  2:{ right. change (tok pe toks (0 + 1)) with blank.
      cbn [blank cbegin cend]. cbv zeta.
      unfold scan_tab_not, scan_of.
      rewrite scan_of_pred_stay
        by (unfold deref; cbn [str idx]; rewrite Hn2; reflexivity).
      unfold deref. cbn [str idx]. rewrite Hn2.
      change ((ch "=" =? NL) || (ch "-" =? NL)) with false.
      apply andb_false_r. }
  cbv iota.
  change (tok pe toks (0 + 1)) with blank. cbn [blank cbegin].
  rewrite (@parse_block_while_copy pe _ toks (0 + 1) false)
    by (change (dol_of toks) with 3; try reflexivity; lia).
  change (tok pe toks (0 + 1)) with blank.
  change (kind blank) with BLANK.
  change (kind_eqb SLITEM BLANK) with false. cbv iota.
  rewrite (@parse_block_while_words s (A + 2) c2 w2 first_alnum2 rest_words2
             Hb Hn3 pe toks (0 + 1 + 1));
    [|change (dol_of toks) with 3; lia | reflexivity | left; reflexivity
     |left; reflexivity].
  cbv iota. change (tok pe toks (0 + 1 + 1 + 1)) with pe.
  rewrite parse_block_while_done by reflexivity.
  rewrite <- !app_assoc. reflexivity.
Qed.

Lemma two_paragraphs_print pe fuel :
  (Z.to_nat (A + B) + 11 <= fuel)%nat ->
  print_block fuel
    [Token SPARAGRAPH (Iter s 0) (Iter s 0);
     Token INLINE (Iter s 0) (Iter s (0 + A + 1));
     Token EPARAGRAPH (Iter s (A + 1)) (Iter s (A + 1));
     blank;
     Token SPARAGRAPH (Iter s (A + 2)) (Iter s (A + 2));
     Token INLINE (Iter s (A + 2)) (Iter s (A + 2 + B + 1));
     Token EPARAGRAPH (cbegin pe) (cbegin pe)] [] []
  = Some (L "<p>" ++ a ++ L "</p>" ++ [NL] ++ [NL]
          ++ L "<p>" ++ b ++ L "</p>" ++ [NL]).
Proof.
  intros Hf.
  destruct two_paragraphs_anatomy
    as (Hs & HA & HB & _ & _ & _ & _ & _ & Hs1 & Hs2).
  set (toks := [Token SPARAGRAPH (Iter s 0) (Iter s 0);
                Token INLINE (Iter s 0) (Iter s (0 + A + 1));
                Token EPARAGRAPH (Iter s (A + 1)) (Iter s (A + 1));
                blank;
                Token SPARAGRAPH (Iter s (A + 2)) (Iter s (A + 2));
                Token INLINE (Iter s (A + 2)) (Iter s (A + 2 + B + 1));
                Token EPARAGRAPH (cbegin pe) (cbegin pe)]).
  assert (Hall1 : forallb word_char a = true)
    by (unfold a; cbn [forallb]; rewrite rest_words1; unfold word_char;
        rewrite first_alnum1; reflexivity).
  assert (Hall2 : forallb word_char b = true)
    by (unfold b; cbn [forallb]; rewrite rest_words2; unfold word_char;
        rewrite first_alnum2; reflexivity).
  unfold print_block.
  change (skip_kind null_token (Z.to_nat (dol_of toks)) BLANK toks 0) with 0.
  destruct fuel as [|[|[|[|[|[|[|[|fuel]]]]]]]]; try lia.
  rewrite print_block_while_tag
    by (change (dol_of toks) with 7; try reflexivity; lia).
  rewrite (@print_block_while_words _ toks (0 + 1) _ [] a);
    [|change (dol_of toks) with 7; lia | reflexivity | reflexivity
     |exact Hs1 | exact Hall1 | exact HA | fold A; lia].
  rewrite print_block_while_tag
    by (change (dol_of toks) with 7; try reflexivity; lia).
  rewrite print_block_while_blank
    by (change (dol_of toks) with 7; try reflexivity; lia).
  rewrite print_block_while_tag
    by (change (dol_of toks) with 7; try reflexivity; lia).
  rewrite (@print_block_while_words _ toks (0 + 1 + 1 + 1 + 1 + 1) _ [] b);
    [|change (dol_of toks) with 7; lia | reflexivity | reflexivity
     |exact Hs2 | exact Hall2 | exact HB | fold B; lia].
  rewrite print_block_while_tag
    by (change (dol_of toks) with 7; try reflexivity; lia).
  rewrite print_block_while_end by (change (dol_of toks) with 7; lia).
  change (dol_of toks) with 7.
  change (0 + 1 + 1 + 1 + 1 <? 7) with true. cbv iota.
  change (tk toks 0) with (Token SPARAGRAPH (Iter s 0) (Iter s 0)).
  change (tk toks (0 + 1 + 1))
    with (Token EPARAGRAPH (Iter s (A + 1)) (Iter s (A + 1))).
  change (tk toks (0 + 1 + 1 + 1 + 1))
    with (Token SPARAGRAPH (Iter s (A + 2)) (Iter s (A + 2))).
  change (tk toks (0 + 1 + 1 + 1 + 1 + 1 + 1))
    with (Token EPARAGRAPH (cbegin pe) (cbegin pe)).
  cbn [kind].
  change (kind_eqb SOLIST SPARAGRAPH || kind_eqb SULIST SPARAGRAPH)
    with false.
  change (kind_eqb SOLIST EPARAGRAPH || kind_eqb SULIST EPARAGRAPH)
    with false.
  cbv iota. rewrite app_nil_l. rewrite <- !app_assoc. reflexivity.
Qed.

End TwoParagraphs.

(** X26. Two paragraphs: two lines of words with an empty line between
    them are translated to two paragraphs with an empty line between
    them. *)
Theorem translate_two_paragraphs (c1 c2 : wchar) (w1 w2 : wstring) :
  ismdalnum c1 = true -> forallb word_char w1 = true ->
  ismdalnum c2 = true -> forallb word_char w2 = true ->
  translates_to ((c1 :: w1) ++ [NL; NL] ++ (c2 :: w2) ++ [NL])
    (L "<p>" ++ (c1 :: w1) ++ L "</p>" ++ [NL] ++ [NL]
     ++ L "<p>" ++ (c2 :: w2) ++ L "</p>" ++ [NL]).
Proof.
  intros H1 H2 H3 H4.
  exists (Z.to_nat (wsize (c1 :: w1) + wsize (c2 :: w2)) + 11)%nat.
  intros past_end fuel Hf. unfold translate, markdown.
  rewrite (@two_paragraphs_split c1 c2 w1 w2 H1 H2 H3 H4 fuel) by lia.
  rewrite (@two_paragraphs_block c1 c2 w1 w2 H1 H2 H3 H4 past_end fuel)
    by lia.
  apply (@two_paragraphs_print c1 c2 w1 w2 H1 H2 H3 H4 past_end fuel).
  exact Hf.
Qed.

Lemma translate_two_paragraphs_witness :
  translates_to (L "One day" ++ [NL; NL] ++ L "2 days" ++ [NL])
    (L "<p>One day</p>" ++ [NL] ++ [NL] ++ L "<p>2 days</p>" ++ [NL]).
Proof.
  apply (@translate_two_paragraphs (ch "O") (ch "2") (L "ne day")
           (L " days")); reflexivity.
Defined.

(** ** Underlined headings *)

Section UnderlinedLine.

Variable d : wchar.
Variable len : nat.
Variable c : wchar.
Variable w : wstring.
Hypothesis underline_char : d = ch "=" \/ d = ch "-".
Hypothesis underline_size : (1 <= len)%nat.
Hypothesis first_alnum : ismdalnum c = true.
Hypothesis rest_words : forallb word_char w = true.

Let a : wstring := c :: w.
Let s : wstring := setext_heading_form a d len.
Let A := wsize a.
Let N := Z.of_nat len.
Let line1 : token_type := Token LINE (Iter s 0) (Iter s (0 + A + 1)).
Let line2 : token_type :=
  Token LINE (Iter s (A + 1)) (Iter s (A + 1 + N + 1)).

Lemma underlined_anatomy :
  wsize s = A + N + 2 /\ 0 < A /\ 0 < N
  /\ (forall i, 0 <= i < A -> at_index s (0 + i) = at_index a i)
  /\ at_index s (0 + A) = NL
  /\ (forall m, A + 1 <= m < A + 1 + N -> at_index s m = d)
  /\ at_index s (A + 1 + N) = NL
  /\ slice (Iter s 0) (Iter s (0 + A + 1)) = a ++ [NL].
Proof.
  assert (HA : 0 < A)
    by (unfold A, a; rewrite wsize_cons; pose proof (wsize_nonneg w); lia).
  assert (HN : 0 < N) by (unfold N; lia).
  assert (Hrep : wsize (repeat d len) = N)
    by (unfold wsize; rewrite repeat_length; reflexivity).
  assert (E1 : s = [] ++ (a ++ [NL]) ++ (repeat d len ++ [NL]))
    by (unfold s, setext_heading_form; cbn [app]; rewrite <- app_assoc;
        reflexivity).
  assert (E2 : s = (a ++ [NL]) ++ repeat d len ++ [NL])
    by (unfold s, setext_heading_form; rewrite <- app_assoc; reflexivity).
  assert (Hpre : wsize (a ++ [NL]) = A + 1)
    by (rewrite wsize_app; reflexivity).
  split.
  { rewrite E2.
    repeat (rewrite wsize_app || rewrite wsize_cons || rewrite wsize_nil).
    rewrite Hrep. fold A. lia. }
  split; [exact HA|]. split; [exact HN|].
  split.
  { intros i Hi. unfold s, setext_heading_form. cbn [Z.add].
    apply at_index_app_l. fold A. lia. }
  split.
  { unfold s, setext_heading_form. rewrite at_index_app_r by (fold A; lia).
    fold A. replace (0 + A - A) with 0 by lia. reflexivity. }
  split.
  { intros m Hm. rewrite E2, at_index_app_r by lia. rewrite Hpre.
    rewrite at_index_app_l by lia. apply at_index_repeat. fold N. lia. }
  split.
  { rewrite E2, at_index_app_r by lia. rewrite Hpre.
    rewrite at_index_app_r by lia. rewrite Hrep.
    replace (A + 1 + N - (A + 1) - N) with 0 by lia. reflexivity. }
  rewrite E1.
  replace (0 + A + 1) with (wsize (@nil wchar) + wsize (a ++ [NL]))
    by (rewrite Hpre, wsize_nil; lia).
  change 0 with (wsize (@nil wchar)) at 1. apply slice_mid.
Qed.

Lemma underline_tests :
  ismdspace d = false /\ ismdprint d = true
  /\ (ch "`" =? d) = false /\ (ch "<" =? d) = false
  /\ (ch "[" =? d) = false /\ (ch " " =? d) = false /\ d <> NL
  /\ (ch "=" =? d) || (ch "-" =? d) = true.
Proof.
  destruct underline_char as [-> | ->]; repeat split; discriminate.
Qed.

Lemma underlined_split fuel :
  (4 <= fuel)%nat ->
  split_lines fuel s [] [] = Some ([line1; line2], []).
Proof.
  intros Hf.
  destruct underlined_anatomy as (Hs & HA & HN & Ha & Hn1 & Hd & Hn2 & _).
  destruct underline_tests as (Hsp & Hpr & Hfence & Htag & Hlabel & Hspc & _).
  destruct fuel as [|[|[|[|fuel]]]]; try lia.
  unfold split_lines. change (cbegin_of s) with (Iter s 0).
  rewrite (@split_lines_while_words _ s 0 c w [] [] first_alnum
             rest_words ltac:(lia) Ha Hn1 ltac:(fold a A; lia)).
  fold a A. replace (0 + A + 1) with (A + 1) by lia.
  rewrite (@split_lines_while_line _ s (A + 1) (A + 1 + N)).
  - rewrite split_lines_while_done
      by (cbn [cend_of idx]; fold (wsize s); lia).
    unfold line1, line2. replace (0 + A + 1) with (A + 1) by lia.
    reflexivity.
  - lia.
  - lia.
  - exact Hn2.
  - intros m Hm. rewrite Hd by lia. exact Hpr.
  - exists (A + 1). split; [lia|]. rewrite Hd by lia. exact Hsp.
  - rewrite Hd by lia. exact Hfence.
  - rewrite Hd by lia. exact Htag.
  - unfold scan_tab_not, scan_of.
    rewrite scan_of_pred_stay
      by (unfold deref; cbn [str idx]; rewrite Hd by lia; exact Hspc).
    unfold deref. cbn [str idx]. rewrite Hd by lia. exact Hlabel.
Qed.

Lemma underlined_block pe fuel :
  (2 <= fuel)%nat ->
  parse_block pe fuel [line1; line2] []
  = Some [Token (stag (setext_level d)) (Iter s 0) (Iter s 0);
          Token INLINE (Iter s 0) (Iter s (0 + A + 1));
          Token (etag (setext_level d)) (Iter s (0 + A + 1))
            (Iter s (0 + A + 1))].
Proof.
  intros Hf.
  destruct underlined_anatomy as (Hs & HA & HN & Ha & Hn1 & Hd & Hn2 & _).
  destruct underline_tests
    as (Hsp & Hpr & _ & _ & _ & Hspc & Hnotnl & Hmark).
  set (toks := [line1; line2]).
  assert (Hp2 : scan_tab_not (Iter s (A + 1)) (Iter s (A + 1 + N + 1))
                = Iter s (A + 1)).
  { unfold scan_tab_not, scan_of. apply scan_of_pred_stay.
    unfold deref. cbn [str idx]. rewrite Hd by lia. exact Hspc. }
  assert (Hderef : deref (Iter s (A + 1)) = d)
    by (unfold deref; cbn [str idx]; apply Hd; lia).
  destruct fuel as [|[|fuel]]; try lia.
  unfold parse_block.
  rewrite (@parse_block_while_underlined s 0 c w first_alnum rest_words
             Ha Hn1 pe toks 0);
    [|change (dol_of toks) with 2; lia | reflexivity | |].
  - change (tok pe toks (0 + 1)) with line2. cbn [line2 cbegin cend].
    rewrite Hp2, Hderef.
    rewrite parse_block_while_done by reflexivity.
    unfold setext_level.
    destruct (ch "=" =? d); rewrite app_nil_l; reflexivity.
  - change (tok pe toks (0 + 1)) with line2. cbn [line2 cbegin cend].
    rewrite Hp2, Hderef, Hmark. unfold ilt. cbn [idx].
    replace (A + 1 <? A + 1 + N + 1) with true
      by (symmetry; apply Z.ltb_lt; lia).
    reflexivity.
  - change (tok pe toks (0 + 1)) with line2. cbn [line2 cbegin cend].
    rewrite Hp2, Hderef. unfold scan_of.
    rewrite (@scan_of_pred_run (Iter s (A + 1)) (Iter s (A + 1 + N + 1)) 0
               (Z.eqb d) (A + 1 + N)); cbn [str idx].
    2:{ left. reflexivity. }
    2:{ lia. }
    2:{ split; [lia|]. split.
        - intros m Hm. rewrite Hd by lia. apply Z.eqb_refl.
        - right. rewrite Hn2. apply Z.eqb_neq. exact Hnotnl. }
    rewrite scan_of_pred_stay
      by (unfold deref; cbn [str idx]; rewrite Hn2; reflexivity).
    unfold deref. cbn [str idx]. rewrite Hn2. apply orb_true_r.
Qed.

Lemma underlined_print fuel :
  (Z.to_nat A + 7 <= fuel)%nat ->
  print_block fuel
    [Token (stag (setext_level d)) (Iter s 0) (Iter s 0);
     Token INLINE (Iter s 0) (Iter s (0 + A + 1));
     Token (etag (setext_level d)) (Iter s (0 + A + 1))
       (Iter s (0 + A + 1))] [] []
  = Some (heading_open (setext_level d) ++ a
          ++ heading_close (setext_level d)).
Proof.
  intros Hf.
  destruct underlined_anatomy as (Hs & HA & HN & _ & _ & _ & _ & Hslice).
  destruct (@heading_markup (setext_level d))
    as (Eo & Ec & Hsb & Hsh & Hsl & Heb & Heh & Hel);
    [unfold setext_level; destruct (ch "=" =? d); lia|].
  set (toks := [Token (stag (setext_level d)) (Iter s 0) (Iter s 0);
                Token INLINE (Iter s 0) (Iter s (0 + A + 1));
                Token (etag (setext_level d)) (Iter s (0 + A + 1))
                  (Iter s (0 + A + 1))]).
  assert (Hall : forallb word_char a = true)
    by (unfold a; cbn [forallb]; rewrite rest_words; unfold word_char;
        rewrite first_alnum; reflexivity).
  unfold print_block.
  change (Z.to_nat (dol_of toks)) with 3%nat. cbn [skip_kind].
  change (tok null_token toks 0)
    with (Token (stag (setext_level d)) (Iter s 0) (Iter s 0)).
  cbn [kind]. rewrite Hsb.
  destruct fuel as [|[|[|[|fuel]]]]; try lia.
  rewrite print_block_while_tag
    by (change (dol_of toks) with 3; try assumption; lia).
  rewrite (@print_block_while_words _ toks (0 + 1) _ [] a);
    [|change (dol_of toks) with 3; lia | reflexivity
     |change (tk toks (0 + 1 + 1))
        with (Token (etag (setext_level d)) (Iter s (0 + A + 1))
                (Iter s (0 + A + 1)));
      cbn [kind]; destruct (etag (setext_level d)); try reflexivity;
      discriminate Heh
     |exact Hslice | exact Hall | exact HA | fold A; lia].
  rewrite print_block_while_tag
    by (change (dol_of toks) with 3; try assumption; lia).
  rewrite print_block_while_end by (change (dol_of toks) with 3; lia).
  change (tk toks 0)
    with (Token (stag (setext_level d)) (Iter s 0) (Iter s 0)).
  change (tk toks (0 + 1 + 1))
    with (Token (etag (setext_level d)) (Iter s (0 + A + 1))
            (Iter s (0 + A + 1))).
  cbn [kind]. rewrite Hsl, Hel, Eo, Ec.
  rewrite app_nil_l, <- app_assoc. reflexivity.
Qed.

End UnderlinedLine.

(** X27. An underlined heading: a line of words followed by a line of
    one or more equals signs is translated to a level 1 heading, and
    followed by a line of one or more hyphens to a level 2 heading. *)
Theorem translate_setext_heading (d : wchar) (len : nat) (c : wchar)
    (w : wstring) :
  d = ch "=" \/ d = ch "-" -> (1 <= len)%nat ->
  ismdalnum c = true -> forallb word_char w = true ->
  translates_to (setext_heading_form (c :: w) d len)
    (heading_open (setext_level d) ++ c :: w
     ++ heading_close (setext_level d)).
Proof.
  intros Hd Hn Hc Hw. exists (Z.to_nat (wsize (c :: w)) + 7)%nat.
  intros past_end fuel Hf. unfold translate, markdown.
  rewrite (@underlined_split d len c w Hd Hn Hc Hw fuel) by lia.
  rewrite (@underlined_block d len c w Hd Hn Hc Hw past_end fuel) by lia.
  apply (@underlined_print d len c w Hn Hc Hw fuel). exact Hf.
Qed.

Lemma translate_setext_heading_witness :
  translates_to (L "Chapter 2" ++ [NL] ++ L "---" ++ [NL])
    (L "<h2>Chapter 2</h2>" ++ [NL]).
Proof.
  apply (@translate_setext_heading (ch "-") 3 (ch "C") (L "hapter 2"));
    [right; reflexivity | lia | reflexivity | reflexivity].
Defined.

(** ** Links in any context *)

(** X28. Under the conditions of C6 on the link text, the identifier and
    the dictionary entry, and wherever the link stands: whatever text comes
    before and after it, whatever has been emitted before it, and with any
    nest stack that has no link frame, [parse_link] returns on [[a][b]] and
    on the inline form, with enough fuel, the position just after the link
    and the nest stack as it was, and it appends tokens that the output
    builder prints alike. *)
Theorem link_forms_in_context dict pre a b post rf bos1 bos2
    (output1 output2 : tokens) (nest : nests) :
  link_text a = true -> is_empty a = false -> plain_id b = true ->
  dict_find dict (decode_linkid (cbegin_of b) (cend_of b)) = Some rf ->
  target_ok (uri rf) = true -> paren_closes (uri rf) (title rf) ->
  idx bos2 = idx bos1 -> idx bos1 <= wsize pre ->
  List.length output2 = List.length output1 -> nest_exists nest 0 = false ->
  exists (fuel0 : nat) (link1 link2 : tokens),
    (forall output : ostream,
       print_inline link1 output dict = print_inline link2 output dict)
    /\ forall fuel : nat, (fuel0 <= fuel)%nat ->
         parse_link (parse_inline_loop fuel dict) fuel bos1
           (Iter (pre ++ reference_form a b ++ post) (wsize pre))
           (cend_of (pre ++ reference_form a b ++ post)) output1 dict nest
         = Some (Iter (pre ++ reference_form a b ++ post)
                   (wsize pre + wsize (reference_form a b)),
                 output1 ++ link1, nest)
         /\ parse_link (parse_inline_loop fuel dict) fuel bos2
              (Iter (pre ++ inline_form a (uri rf) (title rf) ++ post)
                 (wsize pre))
              (cend_of (pre ++ inline_form a (uri rf) (title rf) ++ post))
              output2 dict nest
            = Some (Iter (pre ++ inline_form a (uri rf) (title rf) ++ post)
                      (wsize pre
                       + wsize (inline_form a (uri rf) (title rf))),
                    output2 ++ link2, nest).
Proof.
  intros Ha Hne Hb Hfind Hu (fc & Hcl) Hbos Hlow Hout Hnest.
  assert (Hlen : 1 <= wsize a)
    by (apply nonempty_wsize; rewrite Hne; reflexivity).
  pose proof (wsize_nonneg pre) as Hp0. pose proof (wsize_nonneg b) as Hb0.
  pose proof (wsize_nonneg (uri rf)) as Hu0.
  pose proof (wsize_nonneg (title rf)) as Ht0.
  destruct (reference_form_anatomy a b) as (Hrlen & _).
  destruct (inline_form_anatomy a (uri rf) (title rf)) as (Hilen & _).
  cbv zeta in Hrlen, Hilen.
  destruct (@parse_link_both pre a b post dict rf Ha Hlen Hb Hfind Hu fc Hcl
              bos1 bos2 output1 output2 nest Hbos Hlow Hout Hnest)
    as (inner & Hin & Hlink).
  eexists. eexists. eexists. split.
  2:{ intros fuel Hfuel. destruct (Hlink fuel Hfuel) as (E1 & E2).
      replace (wsize pre + wsize (reference_form a b))
        with (wsize pre + wsize a + 1 + wsize b + 3) by lia.
      replace (wsize pre + wsize (inline_form a (uri rf) (title rf)))
        with (wsize pre + wsize a + 1 + wsize (uri rf) + wsize (title rf)
              + 6) by lia.
      split; [exact E1 | exact E2]. }
  intros output.
  rewrite <- (app_nil_r (link_tokens_at _ _ _ (reference_attribute rf) _)).
  rewrite <- (app_nil_r (link_tokens_at _ _ _ [_; _] _)).
  apply link_tokens_print_same; try assumption; try lia. constructor.
Qed.

(** The theorem at [[click *here*][b]] between [*x* `] and [` [z]], after
    one token and with one emphasis frame open. *)
Lemma link_forms_in_context_witness :
  let rf := Reflink (L "b") (L "/x(y)z") (L "t") in
  let dict := [(L "b", rf)] in
  let s1 := L "*x* `" ++ reference_form (L "click *here*") (L "b")
            ++ L "` [z]" in
  let s2 := L "*x* `" ++ inline_form (L "click *here*") (L "/x(y)z") (L "t")
            ++ L "` [z]" in
  let output1 := [Token TEXT (Iter s1 0) (Iter s1 1)] in
  let output2 := [Token TEXT (Iter s2 0) (Iter s2 1)] in
  let nest := [Nest 0 1] in
  exists (fuel0 : nat) (link1 link2 : tokens),
    (forall output : ostream,
       print_inline link1 output dict = print_inline link2 output dict)
    /\ forall fuel : nat, (fuel0 <= fuel)%nat ->
         parse_link (parse_inline_loop fuel dict) fuel (cbegin_of s1)
           (Iter s1 5) (cend_of s1) output1 dict nest
         = Some (Iter s1 22, output1 ++ link1, nest)
         /\ parse_link (parse_inline_loop fuel dict) fuel (cbegin_of s2)
              (Iter s2 5) (cend_of s2) output2 dict nest
            = Some (Iter s2 31, output2 ++ link2, nest).
Proof.
  cbv zeta.
  apply (@link_forms_in_context
           [(L "b", Reflink (L "b") (L "/x(y)z") (L "t"))] (L "*x* `")
           (L "click *here*") (L "b") (L "` [z]")
           (Reflink (L "b") (L "/x(y)z") (L "t"))); try reflexivity.
  - exists 20%nat. reflexivity.
  - cbn. lia.
Defined.

(** ** When [scan_quoted] returns *)

(** With a quote other than the parenthesis every turn of the loop of
    [scan_quoted] moves on or returns. *)
Lemma scan_quoted_while_returns pos eos lq rq esc pr :
  lq <> ch "(" ->
  forall (k : nat) p level,
    idx eos - idx p <= Z.of_nat k ->
    exists r, forall fuel : nat, (S k <= fuel)%nat ->
      scan_quoted_while fuel pos eos lq rq esc pr p level = Some r.
Proof.
  intros Hlq. induction k as [|k IH]; intros p level Hk.
  - destruct (level >? 0) eqn:El.
    + exists pos. intros [|fuel] Hf; [lia|].
      cbn [scan_quoted_while]. rewrite El.
      replace (p <! eos) with false by (symmetry; apply Z.ltb_ge; lia).
      reflexivity.
    + exists p. intros [|fuel] Hf; [lia|].
      cbn [scan_quoted_while]. rewrite El. reflexivity.
  - assert (Hstep : forall q lev, idx p < idx q ->
              exists r, forall fuel : nat, (S k <= fuel)%nat ->
                scan_quoted_while fuel pos eos lq rq esc pr q lev = Some r)
      by (intros q lev Hq; apply IH; lia).
    destruct (level >? 0) eqn:El.
    2:{ exists p. intros [|fuel] Hf; [lia|].
        cbn [scan_quoted_while]. rewrite El. reflexivity. }
    destruct (negb ((p <! eos) && pr (deref p))) eqn:Eg.
    { exists pos. intros [|fuel] Hf; [lia|].
      cbn [scan_quoted_while]. rewrite El, Eg. reflexivity. }
    destruct ((esc =? deref p) && (p +! 1 <! eos)
              && ((esc =? peek p 1) || (rq =? peek p 1) || (lq =? peek p 1)))
      eqn:Ee;
      [ destruct (Hstep (p +! 1 +! 1) level ltac:(cbn [iadd idx]; lia))
          as (r & Hr)
      | destruct (rq =? deref p) eqn:Er;
        [ destruct (Hstep (p +! 1) (level - 1) ltac:(cbn [iadd idx]; lia))
            as (r & Hr)
        | destruct (lq =? deref p) eqn:Eo;
          [ destruct (Hstep (p +! 1) (level + 1) ltac:(cbn [iadd idx]; lia))
              as (r & Hr)
          | destruct (Hstep (p +! 1) level ltac:(cbn [iadd idx]; lia))
              as (r & Hr) ] ] ];
      exists r; intros [|fuel] Hf; try lia;
      cbn [scan_quoted_while]; rewrite El, Eg; rewrite ?Ee;
      replace (lq =? ch "(") with false
        by (symmetry; apply Z.eqb_neq; exact Hlq);
      cbn [andb]; rewrite ?Er, ?Eo; apply Hr; lia.
Qed.

(** X29. Called with a quote other than the opening parenthesis,
    [scan_quoted] returns: there is a result that it gives with any fuel
    above the number of characters up to [eos] plus one. *)
Theorem scan_quoted_returns pos eos lq rq esc pr :
  lq <> ch "(" ->
  exists r, forall fuel : nat,
    (Z.to_nat (idx eos - idx pos) + 2 <= fuel)%nat ->
    scan_quoted fuel pos eos lq rq esc pr = Some r.
Proof.
  intros Hlq.
  destruct (negb ((pos <! eos) && (lq =? deref pos))) eqn:Eg.
  { exists pos. intros [|fuel] Hf; [lia|].
    cbn [scan_quoted]. rewrite Eg. reflexivity. }
  destruct (@scan_quoted_while_returns pos eos lq rq esc pr Hlq
              (Z.to_nat (idx eos - idx pos)) (pos +! 1) 1
              ltac:(cbn [iadd idx]; lia)) as (r & Hr).
  exists r. intros [|fuel] Hf; [lia|].
  cbn [scan_quoted]. rewrite Eg. apply Hr. lia.
Qed.

Lemma scan_quoted_returns_witness :
  exists r, forall fuel : nat,
    (Z.to_nat (idx (Iter (L "[a[b]]c") 7) - idx (Iter (L "[a[b]]c") 0)) + 2
     <= fuel)%nat ->
    scan_quoted fuel (Iter (L "[a[b]]c") 0) (Iter (L "[a[b]]c") 7)
      (ch "[") (ch "]") (ch "\") ismdany = Some r.
Proof.
  apply (@scan_quoted_returns (Iter (L "[a[b]]c") 0) (Iter (L "[a[b]]c") 7)
           (ch "[") (ch "]") (ch "\") ismdany).
  intros E. discriminate E.
Defined.

(** Without the closing quote before [eos] the loop of [scan_quoted]
    gives up: it can only return [pos]. *)
Lemma scan_quoted_while_unclosed pos eos lq rq esc pr :
  lq <> ch "(" ->
  forall (fuel : nat) p level r,
    0 < level ->
    (forall m, idx p <= m < idx eos -> at_index (str p) m <> rq) ->
    scan_quoted_while fuel pos eos lq rq esc pr p level = Some r ->
    r = pos.
Proof.
  intros Hlq. induction fuel as [|fuel IH]; intros p level r Hl Hno H;
    [discriminate H|].
  cbn [scan_quoted_while] in H.
  replace (level >? 0) with true in H by (symmetry; apply Z.gtb_lt; lia).
  destruct (negb ((p <! eos) && pr (deref p))) eqn:Eg;
    [injection H as <-; reflexivity|].
  apply negb_false_iff, andb_prop in Eg as [Hlt _].
  apply Z.ltb_lt in Hlt.
  replace (lq =? ch "(") with false in H
    by (symmetry; apply Z.eqb_neq; exact Hlq).
  cbn [andb] in H.
  assert (Hr : (rq =? deref p) = false).
  { apply Z.eqb_neq. intros E. apply (Hno (idx p) ltac:(lia)).
    unfold deref in E. congruence. }
  rewrite Hr in H.
  destruct ((esc =? deref p) && (p +! 1 <! eos)
            && ((esc =? peek p 1) || (rq =? peek p 1) || (lq =? peek p 1)));
    [ apply IH in H; [exact H | lia |]
    | destruct (lq =? deref p);
      (apply IH in H; [exact H | lia |]) ];
    intros m Hm; cbn [iadd str idx] in *; apply Hno; lia.
Qed.

(** X30. Called with the opening parenthesis on a [(] that is followed at
    once by a [<] with no [>] after it before [eos], [scan_quoted] never
    returns: the scan of the [<] gives up and hands back the [<], and the
    loop reads it again. *)
Theorem scan_quoted_unclosed_angle (s : wstring) i eos rq esc pr :
  at_index s i = ch "(" -> at_index s (i + 1) = ch "<" ->
  i + 1 < idx eos -> pr (ch "<") = true -> esc <> ch "<" ->
  (forall m, i + 1 < m < idx eos -> at_index s m <> ch ">") ->
  forall fuel : nat,
    scan_quoted fuel (Iter s i) eos (ch "(") rq esc pr = None.
Proof.
  intros Hopen Hangle Hlt Hpr Hesc Hno [|fuel]; [reflexivity|].
  cbn [scan_quoted]. unfold ilt, deref. cbn [str idx]. rewrite Hopen.
  replace (i <? idx eos) with true by (symmetry; apply Z.ltb_lt; lia).
  change (ch "(" =? ch "(") with true. cbn [andb negb].
  change (Iter s i +! 1) with (Iter s (i + 1)).
  apply scan_quoted_while_stuck with (q0 := Iter s (i + 1)).
  - apply Z.ltb_lt. cbn [idx]. lia.
  - unfold deref. cbn [str idx]. rewrite Hangle. exact Hpr.
  - unfold deref. cbn [str idx]. exact Hangle.
  - exact Hesc.
  - reflexivity.
  - intros [|f] q Hq; [discriminate Hq|].
    cbn [scan_quoted] in Hq.
    destruct (negb _) in Hq; [injection Hq as <-; reflexivity|].
    apply scan_quoted_while_unclosed in Hq;
      [exact Hq | intros E; discriminate E | lia |].
    intros m Hm. cbn [iadd str idx] in *. apply Hno. lia.
  - lia.
Qed.

Lemma scan_quoted_unclosed_angle_witness :
  scan_quoted 1000 (Iter (L "![a](<b") 4) (Iter (L "![a](<b") 7)
    (ch "(") (ch ")") (ch "\") ismdany = None.
Proof.
  apply (@scan_quoted_unclosed_angle (L "![a](<b") 4 (Iter (L "![a](<b") 7)
           (ch ")") (ch "\") ismdany);
    try reflexivity; try (intros E; discriminate E).
  intros m Hm. cbn [idx] in Hm.
  assert (E : m = 6) by lia. subst m. intros E. discriminate E.
Defined.
